(** * AISubBrawl server: a Rocq model of [server_world_db.py]

    The simulation engine of the server (tick loop, weapons, passive and
    active sonar, the control API) is embedded as executable Rocq
    functions, one per Python function and under the same name, and the
    properties the specification states about them are proved or refuted.

    Conventions of the embedding
    - Python [float] values are exact rationals ([Q]); integer columns and
      user ids are [Z]; string ids are [string]; nullable columns and
      attributes that may be absent are [option].
    - [math.sqrt], [math.sin], [math.cos], [math.atan2], [math.exp] and
      [math.pi] are the interface [Libm]; every theorem holds for any
      implementation of it.  [random.uniform] reads a stream of draws that is passed in, and
      [time.time()] is the argument [now].
    - SQLAlchemy rows are records; a Python list of row objects that is
      mutated in place is a Rocq list updated by index, so aliasing between
      the loop variable and the list is kept.
    - Columns declared with a non-null default are always populated, so the
      [x or 0.0] and [getattr(..., default)] guards of the source are the
      identity on them. *)

From Stdlib Require Import ZArith QArith Qround Qabs Lqa Lia List Bool String.
Import ListNotations.
Open Scope Q_scope.

(** ** Numbers *)

Definition Qleb (a b : Q) : bool := Qle_bool a b.
Definition Qltb (a b : Q) : bool := negb (Qle_bool b a).

(** Python's two-argument [max(a, b)] keeps [a] unless [b > a]; [min(a, b)]
    keeps [a] unless [b < a]. *)
Definition pmax (a b : Q) : Q := if Qltb a b then b else a.
Definition pmin (a b : Q) : Q := if Qltb b a then b else a.

(** [def clamp(v, lo, hi): return max(lo, min(hi, v))] *)
Definition clamp (v lo hi : Q) : Q := pmax lo (pmin hi v).

(** Python's float [a % b]: the remainder has the sign of [b]. *)
Definition pmod (a b : Q) : Q := a - b * inject_Z (Qfloor (a / b)).

(** Truthiness of a float: [0.0] is false. *)
Definition truthy (a : Q) : bool := negb (Qeq_bool a 0).

Definition getd {A : Type} (o : option A) (d : A) : A :=
  match o with Some v => v | None => d end.

(** ** The math library *)

Class Libm : Type := {
  m_sqrt : Q -> Q;
  m_sin : Q -> Q;
  m_cos : Q -> Q;
  m_atan2 : Q -> Q -> Q;
  m_exp : Q -> Q;
  m_pi : Q
}.

(** A rational implementation, used to run the model on concrete worlds.
    The square root is rounded down on a grid of 1e-9 and is exact on the
    squares of rationals with a small denominator; sine, cosine, the
    arctangent and the exponential are short series, exact at 0. *)
Definition Qsqrt (q : Q) : Q :=
  Qred (Z.sqrt (Qnum q * Zpos (Qden q) * 10 ^ 18) # (Qden q * 10 ^ 9)).

Definition Qsin (a : Q) : Q := a - a * a * a / 6 + a * a * a * a * a / 120.
Definition Qcos (a : Q) : Q := 1 - a * a / 2 + a * a * a * a / 24.
Definition Qexp (a : Q) : Q := 1 + a + a * a / 2 + a * a * a / 6.
Definition Qpi : Q := 3.141592653589793.

Definition Qatan (z : Q) : Q := z / (1 + 0.28 * z * z).
Definition Qatan2 (y x : Q) : Q :=
  if Qltb 0 x then Qatan (y / x)
  else if Qltb x 0 then
    (if Qleb 0 y then Qatan (y / x) + Qpi else Qatan (y / x) - Qpi)
  else if Qltb 0 y then Qpi / 2
  else if Qltb y 0 then - (Qpi / 2)
  else 0.

#[global] Instance rational_libm : Libm := {
  m_sqrt := Qsqrt;
  m_sin := Qsin;
  m_cos := Qcos;
  m_atan2 := Qatan2;
  m_exp := Qexp;
  m_pi := Qpi
}.

(** [math.radians] *)
Definition radians `{Libm} (deg : Q) : Q := deg * m_pi / 180.

(** ** Lists of row objects *)

(** In-place mutation of the object at index [i]. *)
Fixpoint upd {A : Type} (i : nat) (f : A -> A) (l : list A) : list A :=
  match l, i with
  | [], _ => []
  | a :: r, O => f a :: r
  | a :: r, S j => a :: upd j f r
  end.

(** Index of the first element that satisfies [p]:
    [next((s for s in l if p(s)), None)]. *)
Fixpoint find_index {A : Type} (p : A -> bool) (l : list A) : option nat :=
  match l with
  | [] => None
  | a :: r => if p a then Some O else option_map S (find_index p r)
  end.

(** ** Data model *)

Record SubModel : Type := mkSub {
  s_id : string;  (* primary key *)
  s_owner_id : Z;
  s_x : Q;
  s_y : Q;
  s_depth : Q;
  s_heading : Q;  (* radians, 0 = east, CCW positive *)
  s_pitch : Q;
  s_rudder_angle : Q;
  s_rudder_cmd : Q;
  s_planes : Q;
  s_throttle : Q;
  s_target_depth : option Q;
  s_target_heading : option Q;
  s_speed : Q;
  s_battery : Q;
  s_fuel : Q;
  s_refuel_timer : Q;
  s_refuel_active : bool;
  s_refuel_fueler_id : option string;
  s_is_snorkeling : bool;
  s_blow_active : bool;
  s_blow_charge : Q;
  s_blow_end : Q;
  s_health : Q;
  s_passive_dir : Q;
  s_created_at : Q;
  s_last_report : Q;
  s_scanner_noise_until : Q;
  s_torpedo_ammo : Z;
  s_score : Q;
  s_kills : Z;
  s_last_score_update : Q;
  s_ping_cooldown : option Q;  (* attribute set by ping, not a mapped column *)
  s_updated_at : option Q  (* attribute set by the heading handlers, not a mapped column *)
}.

Definition set_s_x (r : SubModel) (v : Q) : SubModel :=
  mkSub (s_id r) (s_owner_id r) v (s_y r) (s_depth r) (s_heading r)
    (s_pitch r) (s_rudder_angle r) (s_rudder_cmd r) (s_planes r)
    (s_throttle r) (s_target_depth r) (s_target_heading r) (s_speed r)
    (s_battery r) (s_fuel r) (s_refuel_timer r) (s_refuel_active r)
    (s_refuel_fueler_id r) (s_is_snorkeling r) (s_blow_active r)
    (s_blow_charge r) (s_blow_end r) (s_health r) (s_passive_dir r)
    (s_created_at r) (s_last_report r) (s_scanner_noise_until r)
    (s_torpedo_ammo r) (s_score r) (s_kills r) (s_last_score_update r)
    (s_ping_cooldown r) (s_updated_at r).
Definition set_s_y (r : SubModel) (v : Q) : SubModel :=
  mkSub (s_id r) (s_owner_id r) (s_x r) v (s_depth r) (s_heading r)
    (s_pitch r) (s_rudder_angle r) (s_rudder_cmd r) (s_planes r)
    (s_throttle r) (s_target_depth r) (s_target_heading r) (s_speed r)
    (s_battery r) (s_fuel r) (s_refuel_timer r) (s_refuel_active r)
    (s_refuel_fueler_id r) (s_is_snorkeling r) (s_blow_active r)
    (s_blow_charge r) (s_blow_end r) (s_health r) (s_passive_dir r)
    (s_created_at r) (s_last_report r) (s_scanner_noise_until r)
    (s_torpedo_ammo r) (s_score r) (s_kills r) (s_last_score_update r)
    (s_ping_cooldown r) (s_updated_at r).
Definition set_s_depth (r : SubModel) (v : Q) : SubModel :=
  mkSub (s_id r) (s_owner_id r) (s_x r) (s_y r) v (s_heading r) (s_pitch r)
    (s_rudder_angle r) (s_rudder_cmd r) (s_planes r) (s_throttle r)
    (s_target_depth r) (s_target_heading r) (s_speed r) (s_battery r)
    (s_fuel r) (s_refuel_timer r) (s_refuel_active r) (s_refuel_fueler_id r)
    (s_is_snorkeling r) (s_blow_active r) (s_blow_charge r) (s_blow_end r)
    (s_health r) (s_passive_dir r) (s_created_at r) (s_last_report r)
    (s_scanner_noise_until r) (s_torpedo_ammo r) (s_score r) (s_kills r)
    (s_last_score_update r) (s_ping_cooldown r) (s_updated_at r).
Definition set_s_heading (r : SubModel) (v : Q) : SubModel :=
  mkSub (s_id r) (s_owner_id r) (s_x r) (s_y r) (s_depth r) v (s_pitch r)
    (s_rudder_angle r) (s_rudder_cmd r) (s_planes r) (s_throttle r)
    (s_target_depth r) (s_target_heading r) (s_speed r) (s_battery r)
    (s_fuel r) (s_refuel_timer r) (s_refuel_active r) (s_refuel_fueler_id r)
    (s_is_snorkeling r) (s_blow_active r) (s_blow_charge r) (s_blow_end r)
    (s_health r) (s_passive_dir r) (s_created_at r) (s_last_report r)
    (s_scanner_noise_until r) (s_torpedo_ammo r) (s_score r) (s_kills r)
    (s_last_score_update r) (s_ping_cooldown r) (s_updated_at r).
Definition set_s_pitch (r : SubModel) (v : Q) : SubModel :=
  mkSub (s_id r) (s_owner_id r) (s_x r) (s_y r) (s_depth r) (s_heading r) v
    (s_rudder_angle r) (s_rudder_cmd r) (s_planes r) (s_throttle r)
    (s_target_depth r) (s_target_heading r) (s_speed r) (s_battery r)
    (s_fuel r) (s_refuel_timer r) (s_refuel_active r) (s_refuel_fueler_id r)
    (s_is_snorkeling r) (s_blow_active r) (s_blow_charge r) (s_blow_end r)
    (s_health r) (s_passive_dir r) (s_created_at r) (s_last_report r)
    (s_scanner_noise_until r) (s_torpedo_ammo r) (s_score r) (s_kills r)
    (s_last_score_update r) (s_ping_cooldown r) (s_updated_at r).
Definition set_s_rudder_angle (r : SubModel) (v : Q) : SubModel :=
  mkSub (s_id r) (s_owner_id r) (s_x r) (s_y r) (s_depth r) (s_heading r)
    (s_pitch r) v (s_rudder_cmd r) (s_planes r) (s_throttle r)
    (s_target_depth r) (s_target_heading r) (s_speed r) (s_battery r)
    (s_fuel r) (s_refuel_timer r) (s_refuel_active r) (s_refuel_fueler_id r)
    (s_is_snorkeling r) (s_blow_active r) (s_blow_charge r) (s_blow_end r)
    (s_health r) (s_passive_dir r) (s_created_at r) (s_last_report r)
    (s_scanner_noise_until r) (s_torpedo_ammo r) (s_score r) (s_kills r)
    (s_last_score_update r) (s_ping_cooldown r) (s_updated_at r).
Definition set_s_rudder_cmd (r : SubModel) (v : Q) : SubModel :=
  mkSub (s_id r) (s_owner_id r) (s_x r) (s_y r) (s_depth r) (s_heading r)
    (s_pitch r) (s_rudder_angle r) v (s_planes r) (s_throttle r)
    (s_target_depth r) (s_target_heading r) (s_speed r) (s_battery r)
    (s_fuel r) (s_refuel_timer r) (s_refuel_active r) (s_refuel_fueler_id r)
    (s_is_snorkeling r) (s_blow_active r) (s_blow_charge r) (s_blow_end r)
    (s_health r) (s_passive_dir r) (s_created_at r) (s_last_report r)
    (s_scanner_noise_until r) (s_torpedo_ammo r) (s_score r) (s_kills r)
    (s_last_score_update r) (s_ping_cooldown r) (s_updated_at r).
Definition set_s_planes (r : SubModel) (v : Q) : SubModel :=
  mkSub (s_id r) (s_owner_id r) (s_x r) (s_y r) (s_depth r) (s_heading r)
    (s_pitch r) (s_rudder_angle r) (s_rudder_cmd r) v (s_throttle r)
    (s_target_depth r) (s_target_heading r) (s_speed r) (s_battery r)
    (s_fuel r) (s_refuel_timer r) (s_refuel_active r) (s_refuel_fueler_id r)
    (s_is_snorkeling r) (s_blow_active r) (s_blow_charge r) (s_blow_end r)
    (s_health r) (s_passive_dir r) (s_created_at r) (s_last_report r)
    (s_scanner_noise_until r) (s_torpedo_ammo r) (s_score r) (s_kills r)
    (s_last_score_update r) (s_ping_cooldown r) (s_updated_at r).
Definition set_s_throttle (r : SubModel) (v : Q) : SubModel :=
  mkSub (s_id r) (s_owner_id r) (s_x r) (s_y r) (s_depth r) (s_heading r)
    (s_pitch r) (s_rudder_angle r) (s_rudder_cmd r) (s_planes r) v
    (s_target_depth r) (s_target_heading r) (s_speed r) (s_battery r)
    (s_fuel r) (s_refuel_timer r) (s_refuel_active r) (s_refuel_fueler_id r)
    (s_is_snorkeling r) (s_blow_active r) (s_blow_charge r) (s_blow_end r)
    (s_health r) (s_passive_dir r) (s_created_at r) (s_last_report r)
    (s_scanner_noise_until r) (s_torpedo_ammo r) (s_score r) (s_kills r)
    (s_last_score_update r) (s_ping_cooldown r) (s_updated_at r).
Definition set_s_target_depth (r : SubModel) (v : option Q) : SubModel :=
  mkSub (s_id r) (s_owner_id r) (s_x r) (s_y r) (s_depth r) (s_heading r)
    (s_pitch r) (s_rudder_angle r) (s_rudder_cmd r) (s_planes r)
    (s_throttle r) v (s_target_heading r) (s_speed r) (s_battery r) (s_fuel r)
    (s_refuel_timer r) (s_refuel_active r) (s_refuel_fueler_id r)
    (s_is_snorkeling r) (s_blow_active r) (s_blow_charge r) (s_blow_end r)
    (s_health r) (s_passive_dir r) (s_created_at r) (s_last_report r)
    (s_scanner_noise_until r) (s_torpedo_ammo r) (s_score r) (s_kills r)
    (s_last_score_update r) (s_ping_cooldown r) (s_updated_at r).
Definition set_s_target_heading (r : SubModel) (v : option Q) : SubModel :=
  mkSub (s_id r) (s_owner_id r) (s_x r) (s_y r) (s_depth r) (s_heading r)
    (s_pitch r) (s_rudder_angle r) (s_rudder_cmd r) (s_planes r)
    (s_throttle r) (s_target_depth r) v (s_speed r) (s_battery r) (s_fuel r)
    (s_refuel_timer r) (s_refuel_active r) (s_refuel_fueler_id r)
    (s_is_snorkeling r) (s_blow_active r) (s_blow_charge r) (s_blow_end r)
    (s_health r) (s_passive_dir r) (s_created_at r) (s_last_report r)
    (s_scanner_noise_until r) (s_torpedo_ammo r) (s_score r) (s_kills r)
    (s_last_score_update r) (s_ping_cooldown r) (s_updated_at r).
Definition set_s_speed (r : SubModel) (v : Q) : SubModel :=
  mkSub (s_id r) (s_owner_id r) (s_x r) (s_y r) (s_depth r) (s_heading r)
    (s_pitch r) (s_rudder_angle r) (s_rudder_cmd r) (s_planes r)
    (s_throttle r) (s_target_depth r) (s_target_heading r) v (s_battery r)
    (s_fuel r) (s_refuel_timer r) (s_refuel_active r) (s_refuel_fueler_id r)
    (s_is_snorkeling r) (s_blow_active r) (s_blow_charge r) (s_blow_end r)
    (s_health r) (s_passive_dir r) (s_created_at r) (s_last_report r)
    (s_scanner_noise_until r) (s_torpedo_ammo r) (s_score r) (s_kills r)
    (s_last_score_update r) (s_ping_cooldown r) (s_updated_at r).
Definition set_s_battery (r : SubModel) (v : Q) : SubModel :=
  mkSub (s_id r) (s_owner_id r) (s_x r) (s_y r) (s_depth r) (s_heading r)
    (s_pitch r) (s_rudder_angle r) (s_rudder_cmd r) (s_planes r)
    (s_throttle r) (s_target_depth r) (s_target_heading r) (s_speed r) v
    (s_fuel r) (s_refuel_timer r) (s_refuel_active r) (s_refuel_fueler_id r)
    (s_is_snorkeling r) (s_blow_active r) (s_blow_charge r) (s_blow_end r)
    (s_health r) (s_passive_dir r) (s_created_at r) (s_last_report r)
    (s_scanner_noise_until r) (s_torpedo_ammo r) (s_score r) (s_kills r)
    (s_last_score_update r) (s_ping_cooldown r) (s_updated_at r).
Definition set_s_fuel (r : SubModel) (v : Q) : SubModel :=
  mkSub (s_id r) (s_owner_id r) (s_x r) (s_y r) (s_depth r) (s_heading r)
    (s_pitch r) (s_rudder_angle r) (s_rudder_cmd r) (s_planes r)
    (s_throttle r) (s_target_depth r) (s_target_heading r) (s_speed r)
    (s_battery r) v (s_refuel_timer r) (s_refuel_active r)
    (s_refuel_fueler_id r) (s_is_snorkeling r) (s_blow_active r)
    (s_blow_charge r) (s_blow_end r) (s_health r) (s_passive_dir r)
    (s_created_at r) (s_last_report r) (s_scanner_noise_until r)
    (s_torpedo_ammo r) (s_score r) (s_kills r) (s_last_score_update r)
    (s_ping_cooldown r) (s_updated_at r).
Definition set_s_refuel_timer (r : SubModel) (v : Q) : SubModel :=
  mkSub (s_id r) (s_owner_id r) (s_x r) (s_y r) (s_depth r) (s_heading r)
    (s_pitch r) (s_rudder_angle r) (s_rudder_cmd r) (s_planes r)
    (s_throttle r) (s_target_depth r) (s_target_heading r) (s_speed r)
    (s_battery r) (s_fuel r) v (s_refuel_active r) (s_refuel_fueler_id r)
    (s_is_snorkeling r) (s_blow_active r) (s_blow_charge r) (s_blow_end r)
    (s_health r) (s_passive_dir r) (s_created_at r) (s_last_report r)
    (s_scanner_noise_until r) (s_torpedo_ammo r) (s_score r) (s_kills r)
    (s_last_score_update r) (s_ping_cooldown r) (s_updated_at r).
Definition set_s_refuel_active (r : SubModel) (v : bool) : SubModel :=
  mkSub (s_id r) (s_owner_id r) (s_x r) (s_y r) (s_depth r) (s_heading r)
    (s_pitch r) (s_rudder_angle r) (s_rudder_cmd r) (s_planes r)
    (s_throttle r) (s_target_depth r) (s_target_heading r) (s_speed r)
    (s_battery r) (s_fuel r) (s_refuel_timer r) v (s_refuel_fueler_id r)
    (s_is_snorkeling r) (s_blow_active r) (s_blow_charge r) (s_blow_end r)
    (s_health r) (s_passive_dir r) (s_created_at r) (s_last_report r)
    (s_scanner_noise_until r) (s_torpedo_ammo r) (s_score r) (s_kills r)
    (s_last_score_update r) (s_ping_cooldown r) (s_updated_at r).
Definition set_s_refuel_fueler_id (r : SubModel) (v : option string) : SubModel :=
  mkSub (s_id r) (s_owner_id r) (s_x r) (s_y r) (s_depth r) (s_heading r)
    (s_pitch r) (s_rudder_angle r) (s_rudder_cmd r) (s_planes r)
    (s_throttle r) (s_target_depth r) (s_target_heading r) (s_speed r)
    (s_battery r) (s_fuel r) (s_refuel_timer r) (s_refuel_active r) v
    (s_is_snorkeling r) (s_blow_active r) (s_blow_charge r) (s_blow_end r)
    (s_health r) (s_passive_dir r) (s_created_at r) (s_last_report r)
    (s_scanner_noise_until r) (s_torpedo_ammo r) (s_score r) (s_kills r)
    (s_last_score_update r) (s_ping_cooldown r) (s_updated_at r).
Definition set_s_is_snorkeling (r : SubModel) (v : bool) : SubModel :=
  mkSub (s_id r) (s_owner_id r) (s_x r) (s_y r) (s_depth r) (s_heading r)
    (s_pitch r) (s_rudder_angle r) (s_rudder_cmd r) (s_planes r)
    (s_throttle r) (s_target_depth r) (s_target_heading r) (s_speed r)
    (s_battery r) (s_fuel r) (s_refuel_timer r) (s_refuel_active r)
    (s_refuel_fueler_id r) v (s_blow_active r) (s_blow_charge r)
    (s_blow_end r) (s_health r) (s_passive_dir r) (s_created_at r)
    (s_last_report r) (s_scanner_noise_until r) (s_torpedo_ammo r) (s_score r)
    (s_kills r) (s_last_score_update r) (s_ping_cooldown r) (s_updated_at r).
Definition set_s_blow_active (r : SubModel) (v : bool) : SubModel :=
  mkSub (s_id r) (s_owner_id r) (s_x r) (s_y r) (s_depth r) (s_heading r)
    (s_pitch r) (s_rudder_angle r) (s_rudder_cmd r) (s_planes r)
    (s_throttle r) (s_target_depth r) (s_target_heading r) (s_speed r)
    (s_battery r) (s_fuel r) (s_refuel_timer r) (s_refuel_active r)
    (s_refuel_fueler_id r) (s_is_snorkeling r) v (s_blow_charge r)
    (s_blow_end r) (s_health r) (s_passive_dir r) (s_created_at r)
    (s_last_report r) (s_scanner_noise_until r) (s_torpedo_ammo r) (s_score r)
    (s_kills r) (s_last_score_update r) (s_ping_cooldown r) (s_updated_at r).
Definition set_s_blow_charge (r : SubModel) (v : Q) : SubModel :=
  mkSub (s_id r) (s_owner_id r) (s_x r) (s_y r) (s_depth r) (s_heading r)
    (s_pitch r) (s_rudder_angle r) (s_rudder_cmd r) (s_planes r)
    (s_throttle r) (s_target_depth r) (s_target_heading r) (s_speed r)
    (s_battery r) (s_fuel r) (s_refuel_timer r) (s_refuel_active r)
    (s_refuel_fueler_id r) (s_is_snorkeling r) (s_blow_active r) v
    (s_blow_end r) (s_health r) (s_passive_dir r) (s_created_at r)
    (s_last_report r) (s_scanner_noise_until r) (s_torpedo_ammo r) (s_score r)
    (s_kills r) (s_last_score_update r) (s_ping_cooldown r) (s_updated_at r).
Definition set_s_blow_end (r : SubModel) (v : Q) : SubModel :=
  mkSub (s_id r) (s_owner_id r) (s_x r) (s_y r) (s_depth r) (s_heading r)
    (s_pitch r) (s_rudder_angle r) (s_rudder_cmd r) (s_planes r)
    (s_throttle r) (s_target_depth r) (s_target_heading r) (s_speed r)
    (s_battery r) (s_fuel r) (s_refuel_timer r) (s_refuel_active r)
    (s_refuel_fueler_id r) (s_is_snorkeling r) (s_blow_active r)
    (s_blow_charge r) v (s_health r) (s_passive_dir r) (s_created_at r)
    (s_last_report r) (s_scanner_noise_until r) (s_torpedo_ammo r) (s_score r)
    (s_kills r) (s_last_score_update r) (s_ping_cooldown r) (s_updated_at r).
Definition set_s_health (r : SubModel) (v : Q) : SubModel :=
  mkSub (s_id r) (s_owner_id r) (s_x r) (s_y r) (s_depth r) (s_heading r)
    (s_pitch r) (s_rudder_angle r) (s_rudder_cmd r) (s_planes r)
    (s_throttle r) (s_target_depth r) (s_target_heading r) (s_speed r)
    (s_battery r) (s_fuel r) (s_refuel_timer r) (s_refuel_active r)
    (s_refuel_fueler_id r) (s_is_snorkeling r) (s_blow_active r)
    (s_blow_charge r) (s_blow_end r) v (s_passive_dir r) (s_created_at r)
    (s_last_report r) (s_scanner_noise_until r) (s_torpedo_ammo r) (s_score r)
    (s_kills r) (s_last_score_update r) (s_ping_cooldown r) (s_updated_at r).
Definition set_s_passive_dir (r : SubModel) (v : Q) : SubModel :=
  mkSub (s_id r) (s_owner_id r) (s_x r) (s_y r) (s_depth r) (s_heading r)
    (s_pitch r) (s_rudder_angle r) (s_rudder_cmd r) (s_planes r)
    (s_throttle r) (s_target_depth r) (s_target_heading r) (s_speed r)
    (s_battery r) (s_fuel r) (s_refuel_timer r) (s_refuel_active r)
    (s_refuel_fueler_id r) (s_is_snorkeling r) (s_blow_active r)
    (s_blow_charge r) (s_blow_end r) (s_health r) v (s_created_at r)
    (s_last_report r) (s_scanner_noise_until r) (s_torpedo_ammo r) (s_score r)
    (s_kills r) (s_last_score_update r) (s_ping_cooldown r) (s_updated_at r).
Definition set_s_last_report (r : SubModel) (v : Q) : SubModel :=
  mkSub (s_id r) (s_owner_id r) (s_x r) (s_y r) (s_depth r) (s_heading r)
    (s_pitch r) (s_rudder_angle r) (s_rudder_cmd r) (s_planes r)
    (s_throttle r) (s_target_depth r) (s_target_heading r) (s_speed r)
    (s_battery r) (s_fuel r) (s_refuel_timer r) (s_refuel_active r)
    (s_refuel_fueler_id r) (s_is_snorkeling r) (s_blow_active r)
    (s_blow_charge r) (s_blow_end r) (s_health r) (s_passive_dir r)
    (s_created_at r) v (s_scanner_noise_until r) (s_torpedo_ammo r)
    (s_score r) (s_kills r) (s_last_score_update r) (s_ping_cooldown r)
    (s_updated_at r).
Definition set_s_scanner_noise_until (r : SubModel) (v : Q) : SubModel :=
  mkSub (s_id r) (s_owner_id r) (s_x r) (s_y r) (s_depth r) (s_heading r)
    (s_pitch r) (s_rudder_angle r) (s_rudder_cmd r) (s_planes r)
    (s_throttle r) (s_target_depth r) (s_target_heading r) (s_speed r)
    (s_battery r) (s_fuel r) (s_refuel_timer r) (s_refuel_active r)
    (s_refuel_fueler_id r) (s_is_snorkeling r) (s_blow_active r)
    (s_blow_charge r) (s_blow_end r) (s_health r) (s_passive_dir r)
    (s_created_at r) (s_last_report r) v (s_torpedo_ammo r) (s_score r)
    (s_kills r) (s_last_score_update r) (s_ping_cooldown r) (s_updated_at r).
Definition set_s_torpedo_ammo (r : SubModel) (v : Z) : SubModel :=
  mkSub (s_id r) (s_owner_id r) (s_x r) (s_y r) (s_depth r) (s_heading r)
    (s_pitch r) (s_rudder_angle r) (s_rudder_cmd r) (s_planes r)
    (s_throttle r) (s_target_depth r) (s_target_heading r) (s_speed r)
    (s_battery r) (s_fuel r) (s_refuel_timer r) (s_refuel_active r)
    (s_refuel_fueler_id r) (s_is_snorkeling r) (s_blow_active r)
    (s_blow_charge r) (s_blow_end r) (s_health r) (s_passive_dir r)
    (s_created_at r) (s_last_report r) (s_scanner_noise_until r) v (s_score r)
    (s_kills r) (s_last_score_update r) (s_ping_cooldown r) (s_updated_at r).
Definition set_s_score (r : SubModel) (v : Q) : SubModel :=
  mkSub (s_id r) (s_owner_id r) (s_x r) (s_y r) (s_depth r) (s_heading r)
    (s_pitch r) (s_rudder_angle r) (s_rudder_cmd r) (s_planes r)
    (s_throttle r) (s_target_depth r) (s_target_heading r) (s_speed r)
    (s_battery r) (s_fuel r) (s_refuel_timer r) (s_refuel_active r)
    (s_refuel_fueler_id r) (s_is_snorkeling r) (s_blow_active r)
    (s_blow_charge r) (s_blow_end r) (s_health r) (s_passive_dir r)
    (s_created_at r) (s_last_report r) (s_scanner_noise_until r)
    (s_torpedo_ammo r) v (s_kills r) (s_last_score_update r)
    (s_ping_cooldown r) (s_updated_at r).
Definition set_s_kills (r : SubModel) (v : Z) : SubModel :=
  mkSub (s_id r) (s_owner_id r) (s_x r) (s_y r) (s_depth r) (s_heading r)
    (s_pitch r) (s_rudder_angle r) (s_rudder_cmd r) (s_planes r)
    (s_throttle r) (s_target_depth r) (s_target_heading r) (s_speed r)
    (s_battery r) (s_fuel r) (s_refuel_timer r) (s_refuel_active r)
    (s_refuel_fueler_id r) (s_is_snorkeling r) (s_blow_active r)
    (s_blow_charge r) (s_blow_end r) (s_health r) (s_passive_dir r)
    (s_created_at r) (s_last_report r) (s_scanner_noise_until r)
    (s_torpedo_ammo r) (s_score r) v (s_last_score_update r)
    (s_ping_cooldown r) (s_updated_at r).
Definition set_s_ping_cooldown (r : SubModel) (v : option Q) : SubModel :=
  mkSub (s_id r) (s_owner_id r) (s_x r) (s_y r) (s_depth r) (s_heading r)
    (s_pitch r) (s_rudder_angle r) (s_rudder_cmd r) (s_planes r)
    (s_throttle r) (s_target_depth r) (s_target_heading r) (s_speed r)
    (s_battery r) (s_fuel r) (s_refuel_timer r) (s_refuel_active r)
    (s_refuel_fueler_id r) (s_is_snorkeling r) (s_blow_active r)
    (s_blow_charge r) (s_blow_end r) (s_health r) (s_passive_dir r)
    (s_created_at r) (s_last_report r) (s_scanner_noise_until r)
    (s_torpedo_ammo r) (s_score r) (s_kills r) (s_last_score_update r) v
    (s_updated_at r).
Definition set_s_updated_at (r : SubModel) (v : option Q) : SubModel :=
  mkSub (s_id r) (s_owner_id r) (s_x r) (s_y r) (s_depth r) (s_heading r)
    (s_pitch r) (s_rudder_angle r) (s_rudder_cmd r) (s_planes r)
    (s_throttle r) (s_target_depth r) (s_target_heading r) (s_speed r)
    (s_battery r) (s_fuel r) (s_refuel_timer r) (s_refuel_active r)
    (s_refuel_fueler_id r) (s_is_snorkeling r) (s_blow_active r)
    (s_blow_charge r) (s_blow_end r) (s_health r) (s_passive_dir r)
    (s_created_at r) (s_last_report r) (s_scanner_noise_until r)
    (s_torpedo_ammo r) (s_score r) (s_kills r) (s_last_score_update r)
    (s_ping_cooldown r) v.

Record TorpedoModel : Type := mkTorp {
  t_id : string;
  t_owner_id : Z;
  t_parent_sub : string;
  t_x : Q;
  t_y : Q;
  t_depth : Q;
  t_target_depth : option Q;
  t_heading : Q;
  t_target_heading : option Q;
  t_speed : Q;
  t_target_speed : Q;
  t_created_at : Q;
  t_control_mode : string;  (* wire | free *)
  t_wire_length : Q;
  t_updated_at : Q;
  t_passive_sonar_active : bool;
  t_passive_sonar_bearing : Q;
  t_last_sonar_contact : Q;
  t_active_sonar_enabled : bool;
  t_last_active_ping : Q;
  t_battery : Q;
  t_start_x : option Q;  (* attributes below are set by the tick loop, not mapped columns *)
  t_start_y : option Q;
  t_pending_turn : option Q;
  t_battery_dead : bool;  (* _battery_dead *)
  t_delete : bool;  (* _delete *)
  t_expired : bool;  (* _expired *)
  t_check_prox : bool;  (* _check_prox *)
  t_min_safe_distance : option Q  (* _min_safe_distance *)
}.

Definition set_t_x (r : TorpedoModel) (v : Q) : TorpedoModel :=
  mkTorp (t_id r) (t_owner_id r) (t_parent_sub r) v (t_y r) (t_depth r)
    (t_target_depth r) (t_heading r) (t_target_heading r) (t_speed r)
    (t_target_speed r) (t_created_at r) (t_control_mode r) (t_wire_length r)
    (t_updated_at r) (t_passive_sonar_active r) (t_passive_sonar_bearing r)
    (t_last_sonar_contact r) (t_active_sonar_enabled r) (t_last_active_ping r)
    (t_battery r) (t_start_x r) (t_start_y r) (t_pending_turn r)
    (t_battery_dead r) (t_delete r) (t_expired r) (t_check_prox r)
    (t_min_safe_distance r).
Definition set_t_y (r : TorpedoModel) (v : Q) : TorpedoModel :=
  mkTorp (t_id r) (t_owner_id r) (t_parent_sub r) (t_x r) v (t_depth r)
    (t_target_depth r) (t_heading r) (t_target_heading r) (t_speed r)
    (t_target_speed r) (t_created_at r) (t_control_mode r) (t_wire_length r)
    (t_updated_at r) (t_passive_sonar_active r) (t_passive_sonar_bearing r)
    (t_last_sonar_contact r) (t_active_sonar_enabled r) (t_last_active_ping r)
    (t_battery r) (t_start_x r) (t_start_y r) (t_pending_turn r)
    (t_battery_dead r) (t_delete r) (t_expired r) (t_check_prox r)
    (t_min_safe_distance r).
Definition set_t_depth (r : TorpedoModel) (v : Q) : TorpedoModel :=
  mkTorp (t_id r) (t_owner_id r) (t_parent_sub r) (t_x r) (t_y r) v
    (t_target_depth r) (t_heading r) (t_target_heading r) (t_speed r)
    (t_target_speed r) (t_created_at r) (t_control_mode r) (t_wire_length r)
    (t_updated_at r) (t_passive_sonar_active r) (t_passive_sonar_bearing r)
    (t_last_sonar_contact r) (t_active_sonar_enabled r) (t_last_active_ping r)
    (t_battery r) (t_start_x r) (t_start_y r) (t_pending_turn r)
    (t_battery_dead r) (t_delete r) (t_expired r) (t_check_prox r)
    (t_min_safe_distance r).
Definition set_t_target_depth (r : TorpedoModel) (v : option Q) : TorpedoModel :=
  mkTorp (t_id r) (t_owner_id r) (t_parent_sub r) (t_x r) (t_y r)
    (t_depth r) v (t_heading r) (t_target_heading r) (t_speed r)
    (t_target_speed r) (t_created_at r) (t_control_mode r) (t_wire_length r)
    (t_updated_at r) (t_passive_sonar_active r) (t_passive_sonar_bearing r)
    (t_last_sonar_contact r) (t_active_sonar_enabled r) (t_last_active_ping r)
    (t_battery r) (t_start_x r) (t_start_y r) (t_pending_turn r)
    (t_battery_dead r) (t_delete r) (t_expired r) (t_check_prox r)
    (t_min_safe_distance r).
Definition set_t_heading (r : TorpedoModel) (v : Q) : TorpedoModel :=
  mkTorp (t_id r) (t_owner_id r) (t_parent_sub r) (t_x r) (t_y r)
    (t_depth r) (t_target_depth r) v (t_target_heading r) (t_speed r)
    (t_target_speed r) (t_created_at r) (t_control_mode r) (t_wire_length r)
    (t_updated_at r) (t_passive_sonar_active r) (t_passive_sonar_bearing r)
    (t_last_sonar_contact r) (t_active_sonar_enabled r) (t_last_active_ping r)
    (t_battery r) (t_start_x r) (t_start_y r) (t_pending_turn r)
    (t_battery_dead r) (t_delete r) (t_expired r) (t_check_prox r)
    (t_min_safe_distance r).
Definition set_t_target_heading (r : TorpedoModel) (v : option Q) : TorpedoModel :=
  mkTorp (t_id r) (t_owner_id r) (t_parent_sub r) (t_x r) (t_y r)
    (t_depth r) (t_target_depth r) (t_heading r) v (t_speed r)
    (t_target_speed r) (t_created_at r) (t_control_mode r) (t_wire_length r)
    (t_updated_at r) (t_passive_sonar_active r) (t_passive_sonar_bearing r)
    (t_last_sonar_contact r) (t_active_sonar_enabled r) (t_last_active_ping r)
    (t_battery r) (t_start_x r) (t_start_y r) (t_pending_turn r)
    (t_battery_dead r) (t_delete r) (t_expired r) (t_check_prox r)
    (t_min_safe_distance r).
Definition set_t_speed (r : TorpedoModel) (v : Q) : TorpedoModel :=
  mkTorp (t_id r) (t_owner_id r) (t_parent_sub r) (t_x r) (t_y r)
    (t_depth r) (t_target_depth r) (t_heading r) (t_target_heading r) v
    (t_target_speed r) (t_created_at r) (t_control_mode r) (t_wire_length r)
    (t_updated_at r) (t_passive_sonar_active r) (t_passive_sonar_bearing r)
    (t_last_sonar_contact r) (t_active_sonar_enabled r) (t_last_active_ping r)
    (t_battery r) (t_start_x r) (t_start_y r) (t_pending_turn r)
    (t_battery_dead r) (t_delete r) (t_expired r) (t_check_prox r)
    (t_min_safe_distance r).
Definition set_t_target_speed (r : TorpedoModel) (v : Q) : TorpedoModel :=
  mkTorp (t_id r) (t_owner_id r) (t_parent_sub r) (t_x r) (t_y r)
    (t_depth r) (t_target_depth r) (t_heading r) (t_target_heading r)
    (t_speed r) v (t_created_at r) (t_control_mode r) (t_wire_length r)
    (t_updated_at r) (t_passive_sonar_active r) (t_passive_sonar_bearing r)
    (t_last_sonar_contact r) (t_active_sonar_enabled r) (t_last_active_ping r)
    (t_battery r) (t_start_x r) (t_start_y r) (t_pending_turn r)
    (t_battery_dead r) (t_delete r) (t_expired r) (t_check_prox r)
    (t_min_safe_distance r).
Definition set_t_control_mode (r : TorpedoModel) (v : string) : TorpedoModel :=
  mkTorp (t_id r) (t_owner_id r) (t_parent_sub r) (t_x r) (t_y r)
    (t_depth r) (t_target_depth r) (t_heading r) (t_target_heading r)
    (t_speed r) (t_target_speed r) (t_created_at r) v (t_wire_length r)
    (t_updated_at r) (t_passive_sonar_active r) (t_passive_sonar_bearing r)
    (t_last_sonar_contact r) (t_active_sonar_enabled r) (t_last_active_ping r)
    (t_battery r) (t_start_x r) (t_start_y r) (t_pending_turn r)
    (t_battery_dead r) (t_delete r) (t_expired r) (t_check_prox r)
    (t_min_safe_distance r).
Definition set_t_updated_at (r : TorpedoModel) (v : Q) : TorpedoModel :=
  mkTorp (t_id r) (t_owner_id r) (t_parent_sub r) (t_x r) (t_y r)
    (t_depth r) (t_target_depth r) (t_heading r) (t_target_heading r)
    (t_speed r) (t_target_speed r) (t_created_at r) (t_control_mode r)
    (t_wire_length r) v (t_passive_sonar_active r) (t_passive_sonar_bearing r)
    (t_last_sonar_contact r) (t_active_sonar_enabled r) (t_last_active_ping r)
    (t_battery r) (t_start_x r) (t_start_y r) (t_pending_turn r)
    (t_battery_dead r) (t_delete r) (t_expired r) (t_check_prox r)
    (t_min_safe_distance r).
Definition set_t_passive_sonar_active (r : TorpedoModel) (v : bool) : TorpedoModel :=
  mkTorp (t_id r) (t_owner_id r) (t_parent_sub r) (t_x r) (t_y r)
    (t_depth r) (t_target_depth r) (t_heading r) (t_target_heading r)
    (t_speed r) (t_target_speed r) (t_created_at r) (t_control_mode r)
    (t_wire_length r) (t_updated_at r) v (t_passive_sonar_bearing r)
    (t_last_sonar_contact r) (t_active_sonar_enabled r) (t_last_active_ping r)
    (t_battery r) (t_start_x r) (t_start_y r) (t_pending_turn r)
    (t_battery_dead r) (t_delete r) (t_expired r) (t_check_prox r)
    (t_min_safe_distance r).
Definition set_t_passive_sonar_bearing (r : TorpedoModel) (v : Q) : TorpedoModel :=
  mkTorp (t_id r) (t_owner_id r) (t_parent_sub r) (t_x r) (t_y r)
    (t_depth r) (t_target_depth r) (t_heading r) (t_target_heading r)
    (t_speed r) (t_target_speed r) (t_created_at r) (t_control_mode r)
    (t_wire_length r) (t_updated_at r) (t_passive_sonar_active r) v
    (t_last_sonar_contact r) (t_active_sonar_enabled r) (t_last_active_ping r)
    (t_battery r) (t_start_x r) (t_start_y r) (t_pending_turn r)
    (t_battery_dead r) (t_delete r) (t_expired r) (t_check_prox r)
    (t_min_safe_distance r).
Definition set_t_last_sonar_contact (r : TorpedoModel) (v : Q) : TorpedoModel :=
  mkTorp (t_id r) (t_owner_id r) (t_parent_sub r) (t_x r) (t_y r)
    (t_depth r) (t_target_depth r) (t_heading r) (t_target_heading r)
    (t_speed r) (t_target_speed r) (t_created_at r) (t_control_mode r)
    (t_wire_length r) (t_updated_at r) (t_passive_sonar_active r)
    (t_passive_sonar_bearing r) v (t_active_sonar_enabled r)
    (t_last_active_ping r) (t_battery r) (t_start_x r) (t_start_y r)
    (t_pending_turn r) (t_battery_dead r) (t_delete r) (t_expired r)
    (t_check_prox r) (t_min_safe_distance r).
Definition set_t_active_sonar_enabled (r : TorpedoModel) (v : bool) : TorpedoModel :=
  mkTorp (t_id r) (t_owner_id r) (t_parent_sub r) (t_x r) (t_y r)
    (t_depth r) (t_target_depth r) (t_heading r) (t_target_heading r)
    (t_speed r) (t_target_speed r) (t_created_at r) (t_control_mode r)
    (t_wire_length r) (t_updated_at r) (t_passive_sonar_active r)
    (t_passive_sonar_bearing r) (t_last_sonar_contact r) v
    (t_last_active_ping r) (t_battery r) (t_start_x r) (t_start_y r)
    (t_pending_turn r) (t_battery_dead r) (t_delete r) (t_expired r)
    (t_check_prox r) (t_min_safe_distance r).
Definition set_t_last_active_ping (r : TorpedoModel) (v : Q) : TorpedoModel :=
  mkTorp (t_id r) (t_owner_id r) (t_parent_sub r) (t_x r) (t_y r)
    (t_depth r) (t_target_depth r) (t_heading r) (t_target_heading r)
    (t_speed r) (t_target_speed r) (t_created_at r) (t_control_mode r)
    (t_wire_length r) (t_updated_at r) (t_passive_sonar_active r)
    (t_passive_sonar_bearing r) (t_last_sonar_contact r)
    (t_active_sonar_enabled r) v (t_battery r) (t_start_x r) (t_start_y r)
    (t_pending_turn r) (t_battery_dead r) (t_delete r) (t_expired r)
    (t_check_prox r) (t_min_safe_distance r).
Definition set_t_battery (r : TorpedoModel) (v : Q) : TorpedoModel :=
  mkTorp (t_id r) (t_owner_id r) (t_parent_sub r) (t_x r) (t_y r)
    (t_depth r) (t_target_depth r) (t_heading r) (t_target_heading r)
    (t_speed r) (t_target_speed r) (t_created_at r) (t_control_mode r)
    (t_wire_length r) (t_updated_at r) (t_passive_sonar_active r)
    (t_passive_sonar_bearing r) (t_last_sonar_contact r)
    (t_active_sonar_enabled r) (t_last_active_ping r) v (t_start_x r)
    (t_start_y r) (t_pending_turn r) (t_battery_dead r) (t_delete r)
    (t_expired r) (t_check_prox r) (t_min_safe_distance r).
Definition set_t_start_x (r : TorpedoModel) (v : option Q) : TorpedoModel :=
  mkTorp (t_id r) (t_owner_id r) (t_parent_sub r) (t_x r) (t_y r)
    (t_depth r) (t_target_depth r) (t_heading r) (t_target_heading r)
    (t_speed r) (t_target_speed r) (t_created_at r) (t_control_mode r)
    (t_wire_length r) (t_updated_at r) (t_passive_sonar_active r)
    (t_passive_sonar_bearing r) (t_last_sonar_contact r)
    (t_active_sonar_enabled r) (t_last_active_ping r) (t_battery r) v
    (t_start_y r) (t_pending_turn r) (t_battery_dead r) (t_delete r)
    (t_expired r) (t_check_prox r) (t_min_safe_distance r).
Definition set_t_start_y (r : TorpedoModel) (v : option Q) : TorpedoModel :=
  mkTorp (t_id r) (t_owner_id r) (t_parent_sub r) (t_x r) (t_y r)
    (t_depth r) (t_target_depth r) (t_heading r) (t_target_heading r)
    (t_speed r) (t_target_speed r) (t_created_at r) (t_control_mode r)
    (t_wire_length r) (t_updated_at r) (t_passive_sonar_active r)
    (t_passive_sonar_bearing r) (t_last_sonar_contact r)
    (t_active_sonar_enabled r) (t_last_active_ping r) (t_battery r)
    (t_start_x r) v (t_pending_turn r) (t_battery_dead r) (t_delete r)
    (t_expired r) (t_check_prox r) (t_min_safe_distance r).
Definition set_t_pending_turn (r : TorpedoModel) (v : option Q) : TorpedoModel :=
  mkTorp (t_id r) (t_owner_id r) (t_parent_sub r) (t_x r) (t_y r)
    (t_depth r) (t_target_depth r) (t_heading r) (t_target_heading r)
    (t_speed r) (t_target_speed r) (t_created_at r) (t_control_mode r)
    (t_wire_length r) (t_updated_at r) (t_passive_sonar_active r)
    (t_passive_sonar_bearing r) (t_last_sonar_contact r)
    (t_active_sonar_enabled r) (t_last_active_ping r) (t_battery r)
    (t_start_x r) (t_start_y r) v (t_battery_dead r) (t_delete r)
    (t_expired r) (t_check_prox r) (t_min_safe_distance r).
Definition set_t_battery_dead (r : TorpedoModel) (v : bool) : TorpedoModel :=
  mkTorp (t_id r) (t_owner_id r) (t_parent_sub r) (t_x r) (t_y r)
    (t_depth r) (t_target_depth r) (t_heading r) (t_target_heading r)
    (t_speed r) (t_target_speed r) (t_created_at r) (t_control_mode r)
    (t_wire_length r) (t_updated_at r) (t_passive_sonar_active r)
    (t_passive_sonar_bearing r) (t_last_sonar_contact r)
    (t_active_sonar_enabled r) (t_last_active_ping r) (t_battery r)
    (t_start_x r) (t_start_y r) (t_pending_turn r) v (t_delete r)
    (t_expired r) (t_check_prox r) (t_min_safe_distance r).
Definition set_t_delete (r : TorpedoModel) (v : bool) : TorpedoModel :=
  mkTorp (t_id r) (t_owner_id r) (t_parent_sub r) (t_x r) (t_y r)
    (t_depth r) (t_target_depth r) (t_heading r) (t_target_heading r)
    (t_speed r) (t_target_speed r) (t_created_at r) (t_control_mode r)
    (t_wire_length r) (t_updated_at r) (t_passive_sonar_active r)
    (t_passive_sonar_bearing r) (t_last_sonar_contact r)
    (t_active_sonar_enabled r) (t_last_active_ping r) (t_battery r)
    (t_start_x r) (t_start_y r) (t_pending_turn r) (t_battery_dead r) v
    (t_expired r) (t_check_prox r) (t_min_safe_distance r).
Definition set_t_expired (r : TorpedoModel) (v : bool) : TorpedoModel :=
  mkTorp (t_id r) (t_owner_id r) (t_parent_sub r) (t_x r) (t_y r)
    (t_depth r) (t_target_depth r) (t_heading r) (t_target_heading r)
    (t_speed r) (t_target_speed r) (t_created_at r) (t_control_mode r)
    (t_wire_length r) (t_updated_at r) (t_passive_sonar_active r)
    (t_passive_sonar_bearing r) (t_last_sonar_contact r)
    (t_active_sonar_enabled r) (t_last_active_ping r) (t_battery r)
    (t_start_x r) (t_start_y r) (t_pending_turn r) (t_battery_dead r)
    (t_delete r) v (t_check_prox r) (t_min_safe_distance r).
Definition set_t_check_prox (r : TorpedoModel) (v : bool) : TorpedoModel :=
  mkTorp (t_id r) (t_owner_id r) (t_parent_sub r) (t_x r) (t_y r)
    (t_depth r) (t_target_depth r) (t_heading r) (t_target_heading r)
    (t_speed r) (t_target_speed r) (t_created_at r) (t_control_mode r)
    (t_wire_length r) (t_updated_at r) (t_passive_sonar_active r)
    (t_passive_sonar_bearing r) (t_last_sonar_contact r)
    (t_active_sonar_enabled r) (t_last_active_ping r) (t_battery r)
    (t_start_x r) (t_start_y r) (t_pending_turn r) (t_battery_dead r)
    (t_delete r) (t_expired r) v (t_min_safe_distance r).
Definition set_t_min_safe_distance (r : TorpedoModel) (v : option Q) : TorpedoModel :=
  mkTorp (t_id r) (t_owner_id r) (t_parent_sub r) (t_x r) (t_y r)
    (t_depth r) (t_target_depth r) (t_heading r) (t_target_heading r)
    (t_speed r) (t_target_speed r) (t_created_at r) (t_control_mode r)
    (t_wire_length r) (t_updated_at r) (t_passive_sonar_active r)
    (t_passive_sonar_bearing r) (t_last_sonar_contact r)
    (t_active_sonar_enabled r) (t_last_active_ping r) (t_battery r)
    (t_start_x r) (t_start_y r) (t_pending_turn r) (t_battery_dead r)
    (t_delete r) (t_expired r) (t_check_prox r) v.

Record FuelerModel : Type := mkFueler {
  f_id : string;
  f_owner_id : option Z;  (* nullable *)
  f_x : Q;
  f_y : Q;
  f_depth : Q;
  f_fuel : Q;
  f_max_fuel : Q;
  f_spawned_at : Q;
  f_empty_since : option Q
}.

Definition set_f_owner_id (r : FuelerModel) (v : option Z) : FuelerModel :=
  mkFueler (f_id r) v (f_x r) (f_y r) (f_depth r) (f_fuel r) (f_max_fuel r)
    (f_spawned_at r) (f_empty_since r).
Definition set_f_fuel (r : FuelerModel) (v : Q) : FuelerModel :=
  mkFueler (f_id r) (f_owner_id r) (f_x r) (f_y r) (f_depth r) v
    (f_max_fuel r) (f_spawned_at r) (f_empty_since r).
Definition set_f_empty_since (r : FuelerModel) (v : option Q) : FuelerModel :=
  mkFueler (f_id r) (f_owner_id r) (f_x r) (f_y r) (f_depth r) (f_fuel r)
    (f_max_fuel r) (f_spawned_at r) v.

(** * Configuration

    [GAME_CFG]: [DEFAULT_CFG] deep-merged with the user's document.  A key
    that [DEFAULT_CFG] lacks and the code reads with a fallback is an
    [option]; [getd] supplies the fallback at the place of use. *)
Record Cfg : Type := mkCfg {
  tick_hz : Q;
  (* world *)
  ring_x : Q; ring_y : Q; ring_r : Q;
  spawn_min_r : Q; spawn_max_r : Q; safe_spawn_separation : Q;
  weather_sonar_attenuation_db : Q;
  weather_cloud_close_hear_range_m : Q;
  scanner_max_range_m : option Q;
  scanner_battery_cost : option Q;
  scanner_rng_sigma_m : option Q;
  scanner_brg_sigma_deg : option Q;
  scanner_noise_duration_s : option Q;
  (* sub *)
  sub_max_speed : Q;
  sub_acceleration : Q;
  sub_yaw_rate_deg_s : Q;
  sub_pitch_rate_deg_s : Q;
  sub_planes_effect : Q;
  sub_neutral_bias : Q;
  sub_snorkel_depth : Q;
  sub_snorkel_off_hysteresis : Q;
  sub_max_per_user : Z;
  sub_respawn_cooldown_s : option Q;
  sub_max_rudder_deg : option Q;
  sub_rudder_rate_deg_s : option Q;
  blow_duration_s : Q;
  blow_upward_mps : Q;
  blow_recharge_per_s_at_snorkel : Q;
  bat_initial_min : Q;
  bat_initial_max : Q;
  bat_drain_per_throttle_per_s : Q;
  bat_high_speed_multiplier : Q;
  bat_recharge_per_s_snorkel : Q;
  bat_max_fuel_capacity : Q;
  bat_initial_fuel : Q;
  bat_refuel_rate_per_s : option Q;
  sub_crush_depth : Q;
  sub_crush_dps_per_100m : Q;
  (* torpedo *)
  torp_speed : Q;
  torp_turn_rate_deg_s : Q;
  torp_depth_rate_m_s : Q;
  torp_blast_radius : Q;
  torp_max_range : Q;
  torp_battery_cost_per_100m : Q;
  torp_proximity_fuze_m : Q;
  torp_arming_delay_s : Q;
  torp_magazine_size : Z;
  torp_reload_battery_cost_per_torp : Q;
  torp_min_speed : option Q;
  torp_max_speed : option Q;
  torp_bat_capacity : Q;
  torp_bat_drain_per_mps_per_s : Q;
  torp_bat_active_ping_cost : Q;
  torp_bat_min_for_ping : Q;
  torp_passive_max_range : option Q;
  torp_passive_report_interval_s : option (Q * Q);
  torp_passive_bearing_jitter_deg : option Q;
  torp_active_max_range : option Q;
  torp_active_ping_interval_s : option Q;
  torp_active_max_angle : option Q;
  torp_active_rng_sigma_m : option Q;
  (* sonar *)
  passive_base_snr : Q;
  passive_speed_noise_gain : Q;
  passive_snorkel_bonus : Q;
  passive_bearing_jitter_deg : Q;
  passive_report_interval_s : Q * Q;
  passive_scanner_noise_bonus_db : option Q;
  active_max_range : Q;
  active_max_angle : Q;
  active_sound_speed : Q;
  active_rng_sigma_m : Q;
  active_brg_sigma_deg : Q;
  power_base_cost : Q;
  power_cost_per_degree : Q;
  power_cost_per_100m_range : Q;
  power_min_battery : Q
}.

Definition DEFAULT_CFG : Cfg := {|
  tick_hz := 10;
  ring_x := 0; ring_y := 0; ring_r := 6000;
  spawn_min_r := 500; spawn_max_r := 4500; safe_spawn_separation := 800;
  weather_sonar_attenuation_db := 3;
  weather_cloud_close_hear_range_m := 400;
  scanner_max_range_m := None;
  scanner_battery_cost := None;
  scanner_rng_sigma_m := None;
  scanner_brg_sigma_deg := None;
  scanner_noise_duration_s := None;
  sub_max_speed := 12;
  sub_acceleration := 2;
  sub_yaw_rate_deg_s := 3;
  sub_pitch_rate_deg_s := 12;
  sub_planes_effect := 1;
  sub_neutral_bias := 0.008;
  sub_snorkel_depth := 15;
  sub_snorkel_off_hysteresis := 2;
  sub_max_per_user := 2;
  sub_respawn_cooldown_s := None;
  sub_max_rudder_deg := None;
  sub_rudder_rate_deg_s := None;
  blow_duration_s := 10;
  blow_upward_mps := 5;
  blow_recharge_per_s_at_snorkel := 0.06;
  bat_initial_min := 40;
  bat_initial_max := 80;
  bat_drain_per_throttle_per_s := 0.1;
  bat_high_speed_multiplier := 15;
  bat_recharge_per_s_snorkel := 0.25;
  bat_max_fuel_capacity := 1000;
  bat_initial_fuel := 1000;
  bat_refuel_rate_per_s := None;
  sub_crush_depth := 500;
  sub_crush_dps_per_100m := 30;
  torp_speed := 6;
  torp_turn_rate_deg_s := 5;
  torp_depth_rate_m_s := 6;
  torp_blast_radius := 60;
  torp_max_range := 6000;
  torp_battery_cost_per_100m := 0;
  torp_proximity_fuze_m := 0;
  torp_arming_delay_s := 1;
  torp_magazine_size := 4;
  torp_reload_battery_cost_per_torp := 10;
  torp_min_speed := None;
  torp_max_speed := None;
  torp_bat_capacity := 100;
  torp_bat_drain_per_mps_per_s := 0.0015;
  torp_bat_active_ping_cost := 2;
  torp_bat_min_for_ping := 5;
  torp_passive_max_range := None;
  torp_passive_report_interval_s := None;
  torp_passive_bearing_jitter_deg := None;
  torp_active_max_range := None;
  torp_active_ping_interval_s := None;
  torp_active_max_angle := None;
  torp_active_rng_sigma_m := None;
  passive_base_snr := 8;
  passive_speed_noise_gain := 0.6;
  passive_snorkel_bonus := 15;
  passive_bearing_jitter_deg := 3;
  passive_report_interval_s := (2, 4);
  passive_scanner_noise_bonus_db := None;
  active_max_range := 6000;
  active_max_angle := 210;
  active_sound_speed := 1500;
  active_rng_sigma_m := 40;
  active_brg_sigma_deg := 1.5;
  power_base_cost := 0.5;
  power_cost_per_degree := 0.04;
  power_cost_per_100m_range := 0.2683;
  power_min_battery := 5
|}.

(** The rows the ORM builds from the column defaults. *)
Definition SubModel_defaults (cfg : Cfg) (now : Q) (id : string) (owner : Z)
    : SubModel := {|
  s_id := id; s_owner_id := owner;
  s_x := 0; s_y := 0; s_depth := 100; s_heading := 0; s_pitch := 0;
  s_rudder_angle := 0; s_rudder_cmd := 0; s_planes := 0; s_throttle := 0.2;
  s_target_depth := None; s_target_heading := None;
  s_speed := 0; s_battery := 50; s_fuel := 1000;
  s_refuel_timer := 0; s_refuel_active := false; s_refuel_fueler_id := None;
  s_is_snorkeling := false; s_blow_active := false; s_blow_charge := 1;
  s_blow_end := 0; s_health := 100; s_passive_dir := 0;
  s_created_at := now; s_last_report := 0; s_scanner_noise_until := 0;
  s_torpedo_ammo := torp_magazine_size cfg;
  s_score := 0; s_kills := 0%Z; s_last_score_update := now;
  s_ping_cooldown := None; s_updated_at := None
|}.

Definition TorpedoModel_defaults (cfg : Cfg) (now : Q) (id : string)
    (owner : Z) (parent : string) : TorpedoModel := {|
  t_id := id; t_owner_id := owner; t_parent_sub := parent;
  t_x := 0; t_y := 0; t_depth := 100; t_target_depth := None;
  t_heading := 0; t_target_heading := None;
  t_speed := torp_speed cfg; t_target_speed := torp_speed cfg;
  t_created_at := now; t_control_mode := "wire";
  t_wire_length := torp_max_range cfg; t_updated_at := now;
  t_passive_sonar_active := true; t_passive_sonar_bearing := 0;
  t_last_sonar_contact := 0; t_active_sonar_enabled := false;
  t_last_active_ping := 0; t_battery := 100;
  t_start_x := None; t_start_y := None; t_pending_turn := None;
  t_battery_dead := false; t_delete := false; t_expired := false;
  t_check_prox := false; t_min_safe_distance := None
|}.

(** ** Events queued for the per-user streams *)

Inductive EventData : Type :=
| Explosion (time : Q) (at_x at_y at_z : Q) (torpedo_id : string)
            (blast_radius damage dist : Q)
| PassiveContact (observer_sub_id : string) (bearing bearing_relative : Q)
                 (range_class : string) (snr : Q) (contact_type : string)
                 (time : Q)
| ActivePingDetected (observer_sub_id : string) (bearing snr time : Q)
| TorpedoContact (torpedo_id : string) (bearing bearing_relative : Q)
                 (range_class : string) (snr : Q) (contact_type : string)
                 (time : Q)
| TorpedoPing (torpedo_id : string) (contacts : list (Q * Q * Q)) (time : Q)
| Echo (observer_sub_id : string) (bearing bearing_relative : Q)
       (range estimated_depth quality : Q) (time : Q).

(** [(user_id, event name, payload)] *)
Definition Event : Type := (Z * string * EventData)%type.

(** ** Helpers *)

Definition distance `{Libm} (x1 y1 x2 y2 : Q) : Q :=
  m_sqrt ((x2 - x1) * (x2 - x1) + (y2 - y1) * (y2 - y1)).

Definition distance3d `{Libm} (ax ay az bx by_ bz : Q) : Q :=
  let dx := ax - bx in let dy := ay - by_ in let dz := az - bz in
  m_sqrt (dx * dx + dy * dy + dz * dz).

(** ** Angles and random draws *)

(** [wrap_angle]: the two [while] loops, run for as many turns as [a] can
    hold ([fuel] is past the number of iterations of either loop when
    [m_pi] is positive).  The loops are run in exact arithmetic, where they
    always end; on doubles they end only while a turn still changes the
    angle (see [wrap_angle_ends] below). *)
Fixpoint wrap_down `{Libm} (fuel : nat) (a : Q) : Q :=
  match fuel with
  | O => a
  | S f => if Qleb m_pi a then wrap_down f (a - 2 * m_pi) else a
  end.

Fixpoint wrap_up `{Libm} (fuel : nat) (a : Q) : Q :=
  match fuel with
  | O => a
  | S f => if Qltb a (- m_pi) then wrap_up f (a + 2 * m_pi) else a
  end.

Definition turns `{Libm} (a : Q) : nat :=
  S (Z.to_nat (Qfloor (Qabs a / (2 * m_pi)))).

Definition wrap_angle `{Libm} (a : Q) : Q :=
  let a1 := wrap_down (turns a) a in wrap_up (turns a1) a1.

(** The arguments on which the loops of [wrap_angle] end when they run on
    doubles.  Up to 2^52 two neighbouring doubles are at most 1 apart, so
    [a - 2*pi] and [a + 2*pi] round to another double than [a] and every
    turn of a loop brings the angle nearer to the range.  From about 2^56
    on [a - 2*pi == a], and on an infinity too: the first loop never exits
    and the call does not return.  A property that says a call of
    [wrap_angle] returns assumes this of its argument. *)
Definition wrap_angle_ends (a : Q) : Prop := Qabs a <= 4503599627370496.

(** The stream of values [random.random()] returns, and the position of the
    next draw.  [random.uniform(a, b)] is [a + (b - a) * random()]. *)
Definition Rng : Type := nat -> Q.

Definition uniform (g : Rng) (n : nat) (a b : Q) : Q := a + (b - a) * g n.

(** [int(x)] on a float truncates toward zero. *)
Definition py_int (a : Q) : Z := if Qltb a 0 then Qceiling a else Qfloor a.

(** ** Weather *)

(** An entry of [WEATHER_CLOUDS]. *)
Record Cloud : Type := mkCloud {
  c_x : Q; c_y : Q; c_radius : Q;
  c_min_depth : Q; c_max_depth : Q;
  c_attenuation_db : Q; c_damage_dps : Q;
  c_spawned_by_sub_id : option string;
  c_expiry_ts : option Q
}.

Definition is_outside_ring `{Libm} (cfg : Cfg) (x y : Q) : bool :=
  Qltb (ring_r cfg) (distance x y (ring_x cfg) (ring_y cfg)).

Definition weather_cloud_attenuation `{Libm} (clouds : list Cloud)
    (x y depth : Q) : Q :=
  fold_left
    (fun best c =>
       if Qltb depth (c_min_depth c) || Qltb (c_max_depth c) depth then best
       else if Qleb (distance x y (c_x c) (c_y c)) (c_radius c)
            then pmax best (c_attenuation_db c)
            else best)
    clouds 0.

Definition seg_point_dist `{Libm} (px py ax ay bx by_ : Q) : Q :=
  let dx := bx - ax in
  let dy := by_ - ay in
  if Qeq_bool dx 0 && Qeq_bool dy 0 then distance px py ax ay
  else
    let t := ((px - ax) * dx + (py - ay) * dy) / (dx * dx + dy * dy) in
    let t := pmax 0 (pmin 1 t) in
    distance px py (ax + t * dx) (ay + t * dy).

Definition weather_cloud_occlusion `{Libm} (clouds : list Cloud)
    (x1 y1 d1 x2 y2 d2 : Q) : Q :=
  let seg_min_d := pmin d1 d2 in
  let seg_max_d := pmax d1 d2 in
  fold_left
    (fun best c =>
       if Qltb seg_max_d (c_min_depth c) || Qltb (c_max_depth c) seg_min_d
       then best
       else if Qleb (seg_point_dist (c_x c) (c_y c) x1 y1 x2 y2) (c_radius c)
            then pmax best (c_attenuation_db c)
            else best)
    clouds 0.

Definition weather_cloud_damage `{Libm} (cfg : Cfg) (clouds : list Cloud)
    (x y depth : Q) : Q :=
  if negb (is_outside_ring cfg x y) then 0
  else
    fold_left
      (fun dps c =>
         if Qltb depth (c_min_depth c) || Qltb (c_max_depth c) depth then dps
         else if Qleb (distance x y (c_x c) (c_y c)) (c_radius c)
              then pmax dps (c_damage_dps c)
              else dps)
      clouds 0.

(** The attenuation both sonars subtract at ranges of at least
    [cloud_close_hear_range_m]. *)
Definition weather_loss `{Libm} (cfg : Cfg) (clouds : list Cloud) (rng : Q)
    (ox oy od tx ty td : Q) : Q :=
  if Qleb (weather_cloud_close_hear_range_m cfg) rng then
    (if is_outside_ring cfg ox oy || is_outside_ring cfg tx ty
     then weather_sonar_attenuation_db cfg else 0)
    + pmax (weather_cloud_attenuation clouds ox oy od)
           (weather_cloud_attenuation clouds tx ty td)
    + weather_cloud_occlusion clouds ox oy od tx ty td
  else 0.

(** ** Weapons *)

(** The graduated damage table shared by [explode_torpedo_in_mem] and
    [detonate_torp]. *)
Definition graduated_damage (d : Q) : Q :=
  if Qleb d 60 then 100
  else if Qleb d 80 then 75
  else if Qleb d 100 then 50
  else 25.

Definition award_kill (k : SubModel) : SubModel :=
  set_s_score (set_s_kills k (s_kills k + 1)%Z) (s_score k + 100).

(** One iteration of [for s in subs] in [explode_torpedo_in_mem], on the
    object at index [i]. *)
Definition explode_one `{Libm} (cfg : Cfg) (now : Q) (t : TorpedoModel)
    (i : nat) (st : list SubModel * list Event) : list SubModel * list Event :=
  let '(subs, pending_events) := st in
  match nth_error subs i with
  | None => st
  | Some s =>
    let blast := torp_blast_radius cfg in
    let d := distance3d (t_x t) (t_y t) (t_depth t) (s_x s) (s_y s) (s_depth s) in
    if Qleb d blast && Qltb 0 (s_health s) then
      let damage := graduated_damage d in
      let prev_health := s_health s in
      let health' := pmax 0 (s_health s - damage) in
      let subs1 := upd i (fun o => set_s_health o health') subs in
      let subs2 :=
        if Qltb 0 prev_health && Qleb health' 0 then
          match find_index (fun sub => Z.eqb (s_owner_id sub) (t_owner_id t)) subs1 with
          | Some j => upd j award_kill subs1
          | None => subs1
          end
        else subs1 in
      (subs2,
       pending_events ++
         [(s_owner_id s, "explosion"%string,
           Explosion now (t_x t) (t_y t) (t_depth t) (t_id t) blast damage d)])
    else st
  end.

Definition explode_torpedo_in_mem `{Libm} (cfg : Cfg) (now : Q) (t : TorpedoModel)
    (subs : list SubModel) (pending_events : list Event)
    : list SubModel * list Event :=
  fold_left (fun st i => explode_one cfg now t i st)
            (seq 0 (List.length subs)) (subs, pending_events).

(** One iteration of [for t in torps] in [process_explosions_mem], on the
    torpedo at index [k]. *)
Definition first_living_in_fuze `{Libm} (prox_fuze : Q) (t : TorpedoModel)
    (subs : list SubModel) : bool :=
  existsb (fun s =>
             negb (Qleb (s_health s) 0) &&
             Qleb (distance3d (t_x t) (t_y t) (t_depth t)
                              (s_x s) (s_y s) (s_depth s)) prox_fuze)
          subs.

Definition too_close_to_parent `{Libm} (t : TorpedoModel)
    (subs : list SubModel) : bool :=
  let min_safe_distance := getd (t_min_safe_distance t) 150 in
  let parent :=
    if negb (String.eqb (t_parent_sub t) "")
    then find (fun s => String.eqb (s_id s) (t_parent_sub t)) subs
    else None in
  match parent with
  | Some p =>
    Qltb (distance3d (t_x t) (t_y t) (t_depth t) (s_x p) (s_y p) (s_depth p))
         min_safe_distance
  | None => false
  end.

Definition process_one_torpedo `{Libm} (cfg : Cfg) (now : Q) (k : nat)
    (st : list TorpedoModel * list SubModel * list Event)
    : list TorpedoModel * list SubModel * list Event :=
  let '(torps, subs, pending_events) := st in
  match nth_error torps k with
  | None => st
  | Some t =>
    let prox_fuze := torp_proximity_fuze_m cfg in
    if t_battery_dead t && negb (t_delete t) then
      (* battery-dead torpedoes detonate in place once *)
      let '(subs', ev') := explode_torpedo_in_mem cfg now t subs pending_events in
      (upd k (fun o => set_t_delete o true) torps, subs', ev')
    else if t_expired t then
      (upd k (fun o => set_t_delete o true) torps, subs, pending_events)
    else if t_check_prox t then
      if too_close_to_parent t subs then st
      else if first_living_in_fuze prox_fuze t subs then
        let '(subs', ev') := explode_torpedo_in_mem cfg now t subs pending_events in
        (upd k (fun o => set_t_delete o true) torps, subs', ev')
      else st
    else st
  end.

Definition process_explosions_mem `{Libm} (cfg : Cfg) (now : Q)
    (torps : list TorpedoModel) (subs : list SubModel)
    (pending_events : list Event)
    : list TorpedoModel * list SubModel * list Event :=
  fold_left (fun st k => process_one_torpedo cfg now k st)
            (seq 0 (List.length torps)) (torps, subs, pending_events).

(** ** Replies of the control API *)

(** A JSON reply: the success body, or the HTTP status, the [error] string
    and the further numeric fields of the error body. *)
Inductive Reply (A : Type) : Type :=
| Ok (body : A)
| Err (status : Z) (error : string) (fields : list (string * Q)).
Arguments Ok {A} body.
Arguments Err {A} status error fields.

Definition is_ok {A : Type} (r : Reply A) : bool :=
  match r with Ok _ => true | Err _ _ _ => false end.

(** [POST /detonate/<torp_id>] for the caller [user]; [subs] and [torps] are
    the tables.  The reply carries [affected]. *)
Definition detonate_damage `{Libm} (cfg : Cfg) (t : TorpedoModel) (s : SubModel)
    : option (Q * Q) :=
  let blast := torp_blast_radius cfg in
  let horiz := distance (t_x t) (t_y t) (s_x s) (s_y s) in
  let vert := Qabs (t_depth t - s_depth s) in
  let d := m_sqrt (horiz * horiz + vert * vert) in
  if Qleb d blast then Some (graduated_damage d, d) else None.

Definition detonate_sub `{Libm} (cfg : Cfg) (t : TorpedoModel) (s : SubModel)
    : SubModel :=
  match detonate_damage cfg t s with
  | Some (damage, _) => set_s_health s (pmax 0 (s_health s - damage))
  | None => s
  end.

Definition detonate_event `{Libm} (cfg : Cfg) (now : Q) (t : TorpedoModel)
    (s : SubModel) : list Event :=
  match detonate_damage cfg t s with
  | Some (damage, d) =>
    [(s_owner_id s, "explosion"%string,
      Explosion now (t_x t) (t_y t) (t_depth t) (t_id t)
                (torp_blast_radius cfg) damage d)]
  | None => []
  end.

Definition detonate_torp `{Libm} (cfg : Cfg) (now : Q) (user : Z)
    (torp_id : string) (subs : list SubModel) (torps : list TorpedoModel)
    : Reply Z * list SubModel * list TorpedoModel * list Event :=
  match find (fun t => String.eqb (t_id t) torp_id) torps with
  | None => (Err 404 "torpedo not found" [], subs, torps, [])
  | Some t =>
    if negb (Z.eqb (t_owner_id t) user)
    then (Err 403 "not allowed" [], subs, torps, [])
    else
      let affected := filter (fun s => match detonate_damage cfg t s with
                                       | Some _ => true | None => false end) subs in
      (Ok (Z.of_nat (List.length affected)),
       map (detonate_sub cfg t) subs,
       filter (fun o => negb (String.eqb (t_id o) torp_id)) torps,
       flat_map (detonate_event cfg now t) subs)
  end.

(** ** Users and tables *)

Record User : Type := mkUser {
  u_id : Z;
  u_username : string;
  u_is_admin : bool;
  u_last_death_ts : Q;
  u_prev_death_ts : Q
}.

(** [SubModel.query.get(sub_id)] followed by the ownership test every
    submarine handler starts with. *)
Definition owned_sub (user : Z) (sub_id : string) (subs : list SubModel)
    : option SubModel :=
  match find (fun s => String.eqb (s_id s) sub_id) subs with
  | Some s => if Z.eqb (s_owner_id s) user then Some s else None
  | None => None
  end.

(** [db.session.commit()] of a handler that changed the object [s']: the
    row with its id is replaced.  A handler that returns before its commit
    leaves the table as it was. *)
Definition commit_sub (s' : SubModel) (subs : list SubModel) : list SubModel :=
  map (fun o => if String.eqb (s_id o) (s_id s') then s' else o) subs.

(** [round(x, nd)]: to [nd] decimals, ties to even. *)
Definition py_round (a : Q) (nd : Z) : Q :=
  let scaled := a * inject_Z (10 ^ nd) in
  let f := Qfloor scaled in
  let r := scaled - inject_Z f in
  let n := if Qltb r (1 # 2) then f
           else if Qltb (1 # 2) r then (f + 1)%Z
           else if Z.even f then f else (f + 1)%Z in
  inject_Z n / inject_Z (10 ^ nd).

(** ** Control API: torpedo magazine *)

Record LaunchBody : Type := mkLaunchBody {
  lb_torpedo_id : string;
  lb_range : Q;
  lb_battery_cost : Q;
  lb_spawn : Q * Q * Q;
  lb_torpedo_ammo : Z;
  lb_magazine_size : Z
}.

(** [POST /launch_torpedo/<sub_id>]; [range] is the optional field of the
    request and [new_id] the uuid of the new row. *)
Definition launch_torpedo `{Libm} (cfg : Cfg) (now : Q) (user : Z)
    (sub_id : string) (range : option Q) (new_id : string)
    (subs : list SubModel) (torps : list TorpedoModel)
    : Reply LaunchBody * list SubModel * list TorpedoModel :=
  let torpedo_range := pmin (getd range 1000) (torp_max_range cfg) in
  let battery_cost := 0 in
  let NOSE_OFFSET := 12 in
  match owned_sub user sub_id subs with
  | None => (Err 404 "sub not found" [], subs, torps)
  | Some s =>
    let mag_size := torp_magazine_size cfg in
    let current_ammo := s_torpedo_ammo s in
    if (current_ammo <=? 0)%Z
    then (Err 400 "no torpedoes loaded" [], subs, torps)
    else
      let s' := set_s_torpedo_ammo s (current_ammo - 1)%Z in
      let cosH := m_cos (s_heading s) in
      let sinH := m_sin (s_heading s) in
      let spawn_x := s_x s + cosH * NOSE_OFFSET in
      let spawn_y := s_y s + sinH * NOSE_OFFSET in
      let spawn_depth := s_depth s in
      let t0 := TorpedoModel_defaults cfg now new_id user (s_id s) in
      let t := mkTorp new_id user (s_id s) spawn_x spawn_y spawn_depth
                 (t_target_depth t0) (s_heading s) (t_target_heading t0)
                 (torp_speed cfg) (t_target_speed t0) now "wire"
                 torpedo_range (t_updated_at t0) (t_passive_sonar_active t0)
                 (t_passive_sonar_bearing t0) (t_last_sonar_contact t0)
                 (t_active_sonar_enabled t0) (t_last_active_ping t0)
                 (t_battery t0) None None None false false false false None in
      (Ok (mkLaunchBody new_id torpedo_range (py_round battery_cost 1)
                        (spawn_x, spawn_y, spawn_depth)
                        (s_torpedo_ammo s') mag_size),
       commit_sub s' subs, torps ++ [t])
  end.

(** The [count] field of a reload request: absent, not an integer, or an
    integer. *)
Inductive CountArg : Type :=
| NoCount
| BadCount
| Count (n : Z).

Record ReloadBody : Type := mkReloadBody {
  rb_reloaded : Z;
  rb_battery_cost : Q;
  rb_battery_remaining : Q;
  rb_torpedo_ammo : Z;
  rb_magazine_size : Z
}.

(** [POST /reload_torpedoes/<sub_id>] *)
Definition reload_torpedoes (cfg : Cfg) (user : Z) (sub_id : string)
    (requested : CountArg) (subs : list SubModel)
    : Reply ReloadBody * list SubModel :=
  match owned_sub user sub_id subs with
  | None => (Err 404 "sub not found" [], subs)
  | Some s =>
    let mag_size := torp_magazine_size cfg in
    let reload_cost_per := torp_reload_battery_cost_per_torp cfg in
    let current_ammo := s_torpedo_ammo s in
    let missing := Z.max 0 (mag_size - current_ammo) in
    if (missing <=? 0)%Z then
      (Err 400 "magazine already full"
           [("torpedo_ammo"%string, inject_Z current_ammo);
            ("magazine_size"%string, inject_Z mag_size)], subs)
    else
      let go (to_reload : Z) :=
        let battery_cost := reload_cost_per * inject_Z to_reload in
        if Qltb (s_battery s) battery_cost then
          (Err 400 "not enough battery"
               [("required"%string, battery_cost);
                ("battery"%string, s_battery s)], subs)
        else
          let s1 := set_s_battery s (clamp (s_battery s - battery_cost) 0 100) in
          let s2 := set_s_torpedo_ammo s1 (current_ammo + to_reload)%Z in
          (Ok (mkReloadBody to_reload (py_round battery_cost 1)
                            (py_round (s_battery s2) 1)
                            (s_torpedo_ammo s2) mag_size),
           commit_sub s2 subs) in
      match requested with
      | NoCount => go missing
      | BadCount => (Err 400 "invalid count" [], subs)
      | Count n =>
        if (n <=? 0)%Z then (Err 400 "count must be positive" [], subs)
        else go (Z.min n missing)
      end
  end.

(** ** Control API: spawning *)

(** [random_spawn_pos]: up to [tries] (50) candidate points; returns the
    point and the position of the next random draw. *)
Fixpoint random_spawn_try `{Libm} (cfg : Cfg) (tries : nat) (g : Rng) (n : nat)
    (subs : list SubModel) : (Q * Q) * nat :=
  match tries with
  | O => ((ring_x cfg, ring_y cfg), n)
  | S k =>
    let ang := uniform g n (- m_pi) m_pi in
    let r := uniform g (n + 1) (spawn_min_r cfg) (spawn_max_r cfg) in
    let x := ring_x cfg + m_cos ang * r in
    let y := ring_y cfg + m_sin ang * r in
    if forallb (fun s => negb (Qltb (distance x y (s_x s) (s_y s))
                                    (safe_spawn_separation cfg))) subs
    then ((x, y), (n + 2)%nat)
    else random_spawn_try cfg k g (n + 2) subs
  end.

Definition random_spawn_pos `{Libm} (cfg : Cfg) (g : Rng) (n : nat)
    (subs : list SubModel) : (Q * Q) * nat :=
  random_spawn_try cfg 50 g n subs.

(** A death timestamp that still blocks a slot:
    [ts and now_ts - float(ts or 0.0) < cooldown_s]. *)
Definition cooldown_active (cooldown_s now_ts ts : Q) : bool :=
  truthy ts && Qltb (now_ts - ts) cooldown_s.

Definition min_list (l : list Q) : option Q :=
  match l with
  | [] => None
  | a :: r => Some (fold_left pmin r a)
  end.

Record RegisterBody : Type := mkRegisterBody {
  rg_sub_id : string;
  rg_spawn : Q * Q * Q
}.

(** [POST /register_sub] for the caller [user]; [new_id] is the uuid of the
    new row. *)
Definition register_sub `{Libm} (cfg : Cfg) (now_ts : Q) (user : Z)
    (new_id : string) (g : Rng) (n : nat)
    (users : list User) (subs : list SubModel)
    : Reply RegisterBody * list SubModel :=
  let max_subs_per_user := sub_max_per_user cfg in
  let current_subs :=
    Z.of_nat (List.length (filter (fun s => Z.eqb (s_owner_id s) user) subs)) in
  let cooldown_s := getd (sub_respawn_cooldown_s cfg) 7200 in
  let urow := find (fun u => Z.eqb (u_id u) user) users in
  let blocked :=
    match urow with
    | Some u =>
      if (0 <? current_subs)%Z && Qltb 0 cooldown_s then
        let stamps := [u_last_death_ts u; u_prev_death_ts u] in
        let active_cooldowns :=
          map (fun ts => now_ts - ts)
              (filter (cooldown_active cooldown_s now_ts) stamps) in
        let available_slots :=
          (max_subs_per_user - Z.of_nat (List.length active_cooldowns))%Z in
        let available_slots :=
          if (available_slots <? 0)%Z then 0%Z else available_slots in
        if (available_slots <=? current_subs)%Z then
          let rems :=
            map (fun ts => cooldown_s - (now_ts - ts))
                (filter (cooldown_active cooldown_s now_ts) stamps) in
          let remaining_s :=
            match min_list rems with
            | Some m => py_int m
            | None => 0%Z
            end in
          Some [("cooldown_remaining_s"%string, inject_Z remaining_s);
                ("active_subs"%string, inject_Z current_subs);
                ("available_slots"%string, inject_Z available_slots)]
        else None
      else None
    | None => None
    end in
  match blocked with
  | Some fields =>
    (Err 400 "respawn cooldown active or slot limit reached" fields, subs)
  | None =>
    let '((x, y), n1) := random_spawn_pos cfg g n subs in
    let bmin := bat_initial_min cfg in
    let bmax := bat_initial_max cfg in
    let mag_size := torp_magazine_size cfg in
    let d0 := SubModel_defaults cfg now_ts new_id user in
    let depth := uniform g n1 80 180 in
    let heading := uniform g (n1 + 1) (- m_pi) m_pi in
    let battery := uniform g (n1 + 2) bmin bmax in
    let s := mkSub new_id user x y depth heading 0 0 0 0 0.2
               (s_target_depth d0) (s_target_heading d0) 0 battery
               (s_fuel d0) (s_refuel_timer d0) (s_refuel_active d0)
               (s_refuel_fueler_id d0) false false 1 (s_blow_end d0) 100 0
               (s_created_at d0) (s_last_report d0)
               (s_scanner_noise_until d0) mag_size (s_score d0) (s_kills d0)
               (s_last_score_update d0) None None in
    (Ok (mkRegisterBody new_id (x, y, depth)), subs ++ [s])
  end.

(** The reply the specification calls a cooldown error: HTTP 400 with a
    [cooldown_remaining_s] field. *)
Definition is_cooldown_error {A : Type} (r : Reply A) : bool :=
  match r with
  | Err 400 _ fields =>
    existsb (fun kv => String.eqb (fst kv) "cooldown_remaining_s") fields
  | _ => false
  end.

(** ** Control API: active sonar *)

(** An entry of [PENDING_PINGS]. *)
Record PendingPing : Type := mkPendingPing {
  pp_eta : Q; pp_rng : Q; pp_bearing : Q; pp_echo_level : Q;
  pp_observer_sub_id : string; pp_observer_user_id : Z;
  pp_observer_depth : Q; pp_target_depth : Q
}.

(** [schedule_active_ping]: the echoes appended to [PENDING_PINGS]. *)
Definition schedule_active_ping `{Libm} (cfg : Cfg) (clouds : list Cloud)
    (all_subs : list SubModel) (obs : SubModel) (beam_deg max_range now : Q)
    (center_world : Q) : list PendingPing :=
  let max_range := pmin max_range (active_max_range cfg) in
  let beam_focus_bonus := pmax 0 ((90 - beam_deg) / 90) * 6 in
  flat_map
    (fun tgt =>
       if String.eqb (s_id tgt) (s_id obs) &&
          Z.eqb (s_owner_id tgt) (s_owner_id obs) then []
       else
         let dx := s_x tgt - s_x obs in
         let dy := s_y tgt - s_y obs in
         let dz := s_depth tgt - s_depth obs in
         let rng3d := m_sqrt (dx * dx + dy * dy + dz * dz) in
         if Qltb max_range rng3d then []
         else
           let brg_world := m_atan2 dy dx in
           let rel := Qabs (wrap_angle (brg_world - center_world)) in
           if Qltb (radians (beam_deg / 2)) rel then []
           else
             let echo_lvl :=
               18 - rng3d / 400 + (if s_is_snorkeling tgt then 8 else 0)
               + beam_focus_bonus
               - weather_loss cfg clouds rng3d (s_x obs) (s_y obs) (s_depth obs)
                              (s_x tgt) (s_y tgt) (s_depth tgt) in
             let eta := now + 2 * (rng3d / active_sound_speed cfg) in
             [mkPendingPing eta rng3d brg_world echo_lvl (s_id obs)
                            (s_owner_id obs) (s_depth obs) (s_depth tgt)])
    all_subs.

Record PingArgs : Type := mkPingArgs {
  pa_beamwidth_deg : option Q;
  pa_max_range : option Q;
  pa_center_bearing_deg : option Q
}.

Record PingBody : Type := mkPingBody {
  pb_battery_cost : Q;
  pb_cost_base : Q; pb_cost_angle : Q; pb_cost_range : Q;
  pb_battery_remaining : Q;
  pb_beam_deg : Q;
  pb_max_range : Q
}.

Definition ping_beam (cfg : Cfg) (a : PingArgs) : Q :=
  pmin (getd (pa_beamwidth_deg a) 20) (active_max_angle cfg).

Definition ping_max_r (cfg : Cfg) (a : PingArgs) : Q :=
  getd (pa_max_range a) (active_max_range cfg).

Definition ping_cost (cfg : Cfg) (a : PingArgs) : Q :=
  let base_cost := power_base_cost cfg in
  let angle_cost := ping_beam cfg a * power_cost_per_degree cfg in
  let range_cost := (ping_max_r cfg a / 100) * power_cost_per_100m_range cfg in
  base_cost + angle_cost + range_cost.

(** The part of [POST /ping/<sub_id>] that runs on the submarine object [s]
    the handler fetched: the reply, and the object as the handler leaves it
    (on the 'ping recharging' path the battery has been charged on the
    object already, and the handler returns before its commit). *)
Definition ping_sub (cfg : Cfg) (now : Q) (a : PingArgs) (s : SubModel)
    : Reply PingBody * SubModel :=
  let beam := ping_beam cfg a in
  let max_r := ping_max_r cfg a in
  let base_cost := power_base_cost cfg in
  let angle_cost := beam * power_cost_per_degree cfg in
  let range_cost := (max_r / 100) * power_cost_per_100m_range cfg in
  let cost := base_cost + angle_cost + range_cost in
  if Qltb (s_battery s) (power_min_battery cfg)
  then (Err 400 "battery too low" [], s)
  else if Qltb (s_battery s) cost
  then (Err 400 "not enough battery" [], s)
  else
    let s1 := set_s_battery s (clamp (s_battery s - cost) 0 100) in
    match s_ping_cooldown s1 with
    | Some c =>
      if Qltb now c then (Err 400 "ping recharging" [], s1)
      else
        let s2 := set_s_ping_cooldown s1 (Some (now + 5)) in
        (Ok (mkPingBody (py_round cost 2) (py_round base_cost 2)
                        (py_round angle_cost 2) (py_round range_cost 2)
                        (py_round (s_battery s2) 2) beam max_r), s2)
    | None =>
      let s2 := set_s_ping_cooldown s1 (Some (now + 5)) in
      (Ok (mkPingBody (py_round cost 2) (py_round base_cost 2)
                      (py_round angle_cost 2) (py_round range_cost 2)
                      (py_round (s_battery s2) 2) beam max_r), s2)
    end.

(** The [active_ping_detected] contacts sent to the owners of the other
    submarines. *)
Definition ping_notifications `{Libm} (now : Q) (beam max_r : Q)
    (s : SubModel) (others : list SubModel) : list Event :=
  flat_map
    (fun other =>
       if String.eqb (s_id other) (s_id s) then []
       else
         let dist := distance (s_x s) (s_y s) (s_x other) (s_y other) in
         let snr := 15 * (beam / 90) + (max_r / 1000) * 3 - dist / 600 in
         if Qltb 1 snr then
           [(s_owner_id other, "contact"%string,
             ActivePingDetected (s_id other)
               (m_atan2 (s_y s - s_y other) (s_x s - s_x other)) snr now)]
         else [])
    others.

(** What a request loads from the table and what its commit writes back:
    the mapped columns.  [ping_cooldown] is a plain attribute of the Python
    object and no column of [SubModel]: the object [SubModel.query.get]
    builds for a request does not have it ([hasattr] is false), whatever an
    earlier request set on the object of its own session. *)
Definition mapped_columns (s : SubModel) : SubModel :=
  set_s_ping_cooldown s None.

(** [POST /ping/<sub_id>]: the reply, the table of submarines, the echoes
    scheduled and the events sent. *)
Definition ping `{Libm} (cfg : Cfg) (clouds : list Cloud) (now : Q) (user : Z)
    (sub_id : string) (a : PingArgs) (subs : list SubModel)
    : Reply PingBody * list SubModel * list PendingPing * list Event :=
  match owned_sub user sub_id subs with
  | None => (Err 404 "not found" [], subs, [], [])
  | Some row =>
    let s := mapped_columns row in
    match ping_sub cfg now a s with
    | (Ok body, s2) =>
      let center_world :=
        wrap_angle (s_heading s2 + radians (getd (pa_center_bearing_deg a) 0)) in
      (Ok body, commit_sub (mapped_columns s2) subs,
       schedule_active_ping cfg clouds subs s2 (pb_beam_deg body)
                            (pb_max_range body) now center_world,
       ping_notifications now (pb_beam_deg body) (pb_max_range body) s2 subs)
    | (Err st msg fields, _) => (Err st msg fields, subs, [], [])
    end
  end.

(** ** Control API: headings *)

(** The [heading_deg] field of a request: absent, [null], or a number of
    compass degrees (0 = north, clockwise). *)
Inductive HeadingArg : Type :=
| HeadingAbsent
| HeadingNull
| HeadingDeg (compass_deg : Q).

Record HeadingBody : Type := mkHeadingBody {
  hb_id : string;
  hb_heading : Q;
  hb_target_heading : option Q;
  hb_compass_heading : Q;
  hb_compass_target : option Q
}.

(** [(h * 180 / math.pi + 90) % 360], which the handlers introduce with
    "Convert back to compass degrees for response". *)
Definition compass_for_response `{Libm} (h : Q) : Q :=
  pmod (h * 180 / m_pi + 90) 360.

Definition heading_body `{Libm} (s : SubModel) : HeadingBody :=
  mkHeadingBody (s_id s) (s_heading s) (s_target_heading s)
    (compass_for_response (s_heading s))
    (match s_target_heading s with
     | Some th => if truthy th then Some (compass_for_response th) else None
     | None => None
     end).

(** [POST /set_sub_heading/<sub_id>] *)
Definition set_sub_heading `{Libm} (now : Q) (user : Z) (sub_id : string)
    (heading_deg : HeadingArg) (subs : list SubModel)
    : Reply HeadingBody * list SubModel :=
  match owned_sub user sub_id subs with
  | None => (Err 404 "not found" [], subs)
  | Some s =>
    match heading_deg with
    | HeadingAbsent => (Err 400 "heading_deg required" [], subs)
    | HeadingNull =>
      let s1 := set_s_target_heading s None in
      let s2 := set_s_updated_at s1 (Some now) in
      (Ok (heading_body s2), commit_sub s2 subs)
    | HeadingDeg compass_deg =>
      let server_deg := pmod (90 - compass_deg) 360 in
      let desired := radians server_deg in
      let s1 := set_s_target_heading s (Some desired) in
      let s2 := set_s_updated_at s1 (Some now) in
      (Ok (heading_body s2), commit_sub s2 subs)
    end
  end.

(** [POST /turn_sub/<sub_id>]; [turn_deg] is absent or a number. *)
Definition turn_sub `{Libm} (now : Q) (user : Z) (sub_id : string)
    (turn_deg : option Q) (subs : list SubModel)
    : Reply HeadingBody * list SubModel :=
  match owned_sub user sub_id subs with
  | None => (Err 404 "not found" [], subs)
  | Some s =>
    match turn_deg with
    | None => (Err 400 "turn_deg required" [], subs)
    | Some turn_deg =>
      let turn_rad := radians turn_deg in
      let new_heading := wrap_angle (s_heading s + turn_rad) in
      let compass_deg := pmod (new_heading * 180 / m_pi + 90) 360 in
      let server_deg := pmod (90 - compass_deg) 360 in
      let s1 := set_s_target_heading s (Some (radians server_deg)) in
      let s2 := set_s_updated_at s1 (Some now) in
      (Ok (heading_body s2), commit_sub s2 subs)
    end
  end.

(** ** Snapshots *)



Record FuelerPub : Type := mkFuelerPub {
  fp_id : string; fp_x : Q; fp_y : Q; fp_depth : Q;
  fp_fuel : Q; fp_max_fuel : Q
}.



Definition _fueler_pub (f : FuelerModel) : FuelerPub :=
  mkFuelerPub (f_id f) (f_x f) (f_y f) (f_depth f) (f_fuel f) (f_max_fuel f).








(** ** Passive sonar *)

(** The first element of a scan that is heard, with its signal level: the
    [for ... continue ... break] loops of [schedule_passive_contacts] stop
    at the first target that passes every test. *)
Fixpoint first_heard {T : Type} (hear : T -> option Q) (l : list T)
    : option (T * Q) :=
  match l with
  | [] => None
  | a :: r =>
    match hear a with
    | Some snr => Some (a, snr)
    | None => first_heard hear r
    end
  end.

(** The tests of the "Check submarines" loop on one target; the signal
    level if it passes. *)
Definition hears_sub `{Libm} (cfg : Cfg) (clouds : list Cloud) (now : Q)
    (obs tgt : SubModel) : option Q :=
  if Z.eqb (s_owner_id tgt) (s_owner_id obs) &&
     String.eqb (s_id tgt) (s_id obs) then None
  else
    let speed_noise :=
      passive_speed_noise_gain cfg * (s_speed tgt / sub_max_speed cfg) in
    let scanner_bonus :=
      if Qltb now (s_scanner_noise_until tgt)
      then getd (passive_scanner_noise_bonus_db cfg) 8 else 0 in
    let snorkel_bonus :=
      if s_is_snorkeling tgt then passive_snorkel_bonus cfg else 0 in
    let blow_bonus := if s_blow_active tgt then 25 else 0 in
    let rng := distance (s_x obs) (s_y obs) (s_x tgt) (s_y tgt) in
    let base := passive_base_snr cfg + speed_noise + snorkel_bonus
                + blow_bonus + scanner_bonus in
    let max_range := if s_blow_active tgt then 8000 else active_max_range cfg in
    if Qltb max_range rng then None
    else
      let snr := base - (rng / 1000) * 2 - s_depth tgt / 200
                 - weather_loss cfg clouds rng (s_x obs) (s_y obs) (s_depth obs)
                                (s_x tgt) (s_y tgt) (s_depth tgt) in
      if Qltb snr 5 then None else Some snr.

(** The event queued for a heard submarine; [draw] is the position of the
    jitter draw. *)
Definition sub_contact_event `{Libm} (cfg : Cfg) (now : Q) (g : Rng)
    (draw : nat) (obs tgt : SubModel) (snr : Q) : Event :=
  let rng := distance (s_x obs) (s_y obs) (s_x tgt) (s_y tgt) in
  let brg := m_atan2 (s_y tgt - s_y obs) (s_x tgt - s_x obs) in
  let jitter := radians (if Qltb (s_depth tgt) 50
                         then passive_bearing_jitter_deg cfg else 1) in
  let brg := wrap_angle (brg + uniform g draw (- jitter) jitter) in
  let rel := wrap_angle (brg - s_heading obs) in
  let rc := if Qltb rng 1200 then "short"%string
            else if Qltb rng 3000 then "medium"%string else "long"%string in
  let contact_type :=
    if s_blow_active tgt then "emergency_blow"%string else "submarine"%string in
  (s_owner_id obs, "contact"%string,
   PassiveContact (s_id obs) brg rel rc snr contact_type now).

(** The tests of the "Check torpedoes" loop on one torpedo. *)
Definition hears_torp `{Libm} (cfg : Cfg) (clouds : list Cloud)
    (obs : SubModel) (torp : TorpedoModel) : option Q :=
  if Z.eqb (t_owner_id torp) (s_owner_id obs) then None
  else
    let torp_noise :=
      passive_speed_noise_gain cfg * (t_speed torp / torp_speed cfg) * 2 in
    let base := passive_base_snr cfg * 1.2 + torp_noise in
    let rng := distance (s_x obs) (s_y obs) (t_x torp) (t_y torp) in
    if Qltb (active_max_range cfg * 0.8) rng then None
    else
      let snr := base - (rng / 1000) * 2.5 - t_depth torp / 200
                 - weather_loss cfg clouds rng (s_x obs) (s_y obs) (s_depth obs)
                                (t_x torp) (t_y torp) (t_depth torp) in
      if Qltb snr 4 then None else Some snr.

Definition torp_heard_event `{Libm} (cfg : Cfg) (now : Q) (g : Rng)
    (draw : nat) (obs : SubModel) (torp : TorpedoModel) (snr : Q) : Event :=
  let rng := distance (s_x obs) (s_y obs) (t_x torp) (t_y torp) in
  let brg := m_atan2 (t_y torp - s_y obs) (t_x torp - s_x obs) in
  let jitter := radians (passive_bearing_jitter_deg cfg * 1.2) in
  let brg := wrap_angle (brg + uniform g draw (- jitter) jitter) in
  let rel := wrap_angle (brg - s_heading obs) in
  let rc := if Qltb rng 1000 then "short"%string
            else if Qltb rng 2500 then "medium"%string else "long"%string in
  (s_owner_id obs, "contact"%string,
   PassiveContact (s_id obs) brg rel rc snr "torpedo"%string now).

(** One iteration of [for obs in subs], on the object at index [i]; [n] is
    the position of the next random draw. *)
Definition observe_one `{Libm} (cfg : Cfg) (clouds : list Cloud) (now : Q)
    (g : Rng) (torps : list TorpedoModel) (i : nat)
    (st : list SubModel * list Event * nat)
    : list SubModel * list Event * nat :=
  let '(subs, pending_events, n) := st in
  match nth_error subs i with
  | None => st
  | Some obs =>
    let interval := uniform g n (fst (passive_report_interval_s cfg))
                            (snd (passive_report_interval_s cfg)) in
    if Qltb (now - s_last_report obs) interval
    then (subs, pending_events, S n)
    else
      let '(subs1, ev1, n1) :=
        match first_heard (hears_sub cfg clouds now obs) subs with
        | Some (tgt, snr) =>
          (upd i (fun o => set_s_last_report o now) subs,
           pending_events ++ [sub_contact_event cfg now g (S n) obs tgt snr],
           S (S n))
        | None => (subs, pending_events, S n)
        end in
      match first_heard (hears_torp cfg clouds obs) torps with
      | Some (torp, snr) =>
        (upd i (fun o => set_s_last_report o now) subs1,
         ev1 ++ [torp_heard_event cfg now g n1 obs torp snr],
         S n1)
      | None => (subs1, ev1, n1)
      end
  end.

(** The tests of the torpedo's own passive sonar on one submarine. *)
Definition torp_hears_sub `{Libm} (cfg : Cfg) (clouds : list Cloud)
    (torp : TorpedoModel) (tgt : SubModel) : option Q :=
  if Z.eqb (s_owner_id tgt) (t_owner_id torp) then None
  else
    let rng := distance (t_x torp) (t_y torp) (s_x tgt) (s_y tgt) in
    if Qltb (getd (torp_passive_max_range cfg) 2000) rng then None
    else
      let brg := m_atan2 (s_y tgt - t_y torp) (s_x tgt - t_x torp) in
      let rel_bearing := wrap_angle (brg - t_heading torp) in
      if Qltb (radians 105) (Qabs rel_bearing) then None
      else
        let speed_noise :=
          passive_speed_noise_gain cfg * (s_speed tgt / sub_max_speed cfg) in
        let snorkel_bonus :=
          if s_is_snorkeling tgt then passive_snorkel_bonus cfg else 0 in
        let blow_bonus := if s_blow_active tgt then 25 else 0 in
        let base_snr :=
          passive_base_snr cfg + speed_noise + snorkel_bonus + blow_bonus in
        let snr := base_snr - (rng / 1000) * 2 - s_depth tgt / 200
                   - weather_loss cfg clouds rng (t_x torp) (t_y torp)
                                  (t_depth torp) (s_x tgt) (s_y tgt)
                                  (s_depth tgt) in
        if Qltb snr 3 then None else Some snr.

(** One iteration of the "torpedo passive sonar" loop. *)
Definition torp_observe_one `{Libm} (cfg : Cfg) (clouds : list Cloud)
    (now : Q) (g : Rng) (subs : list SubModel) (k : nat)
    (st : list TorpedoModel * list Event * nat)
    : list TorpedoModel * list Event * nat :=
  let '(torps, pending_events, n) := st in
  match nth_error torps k with
  | None => st
  | Some torp =>
    if negb (t_passive_sonar_active torp) then st
    else
      let iv := getd (torp_passive_report_interval_s cfg) (1, 3) in
      let interval := uniform g n (fst iv) (snd iv) in
      if Qltb (now - t_last_sonar_contact torp) interval
      then (torps, pending_events, S n)
      else
        match first_heard (torp_hears_sub cfg clouds torp) subs with
        | Some (tgt, snr) =>
          let rng := distance (t_x torp) (t_y torp) (s_x tgt) (s_y tgt) in
          let brg := m_atan2 (s_y tgt - t_y torp) (s_x tgt - t_x torp) in
          let jitter :=
            radians (getd (torp_passive_bearing_jitter_deg cfg) 8) in
          let brg := wrap_angle (brg + uniform g (S n) (- jitter) jitter) in
          (upd k (fun o => set_t_last_sonar_contact
                             (set_t_passive_sonar_bearing o brg) now) torps,
           pending_events ++
             [(t_owner_id torp, "torpedo_contact"%string,
               TorpedoContact (t_id torp) brg
                 (wrap_angle (brg - t_heading torp))
                 (if Qltb rng 800 then "short"%string
                  else if Qltb rng 1500 then "medium"%string else "long"%string)
                 snr "submarine"%string now)],
           S (S n))
        | None => (torps, pending_events, S n)
        end
  end.

(** The contacts of one auto-ping, and the position of the next draw. *)
Fixpoint auto_ping_contacts `{Libm} (cfg : Cfg) (g : Rng) (n : nat)
    (torp : TorpedoModel) (subs : list SubModel)
    : list (Q * Q * Q) * nat :=
  match subs with
  | [] => ([], n)
  | s :: r =>
    if Z.eqb (s_owner_id s) (t_owner_id torp)
    then auto_ping_contacts cfg g n torp r
    else
      let dx := s_x s - t_x torp in
      let dy := s_y s - t_y torp in
      let dz := s_depth s - t_depth torp in
      let rng := m_sqrt (dx * dx + dy * dy + dz * dz) in
      if Qltb (getd (torp_active_max_range cfg) 1500) rng
      then auto_ping_contacts cfg g n torp r
      else
        let brg := m_atan2 dy dx in
        let rel := Qabs (wrap_angle (brg - t_heading torp)) in
        if Qltb (radians 15) rel
        then auto_ping_contacts cfg g n torp r
        else
          let c := (brg, rng + uniform g n (-20) 20,
                    s_depth s + uniform g (S n) (-20) 20) in
          let '(cs, n') := auto_ping_contacts cfg g (S (S n)) torp r in
          (c :: cs, n')
  end.

(** One iteration of the "torpedo active sonar (auto-ping)" loop. *)
Definition torp_auto_ping_one `{Libm} (cfg : Cfg) (now : Q) (g : Rng)
    (subs : list SubModel) (k : nat)
    (st : list TorpedoModel * list Event * nat)
    : list TorpedoModel * list Event * nat :=
  let '(torps, pending_events, n) := st in
  match nth_error torps k with
  | None => st
  | Some torp =>
    if negb (t_active_sonar_enabled torp) then st
    else if Qltb (now - t_last_active_ping torp)
                 (getd (torp_active_ping_interval_s cfg) 3) then st
    else
      let ping_cost := torp_bat_active_ping_cost cfg in
      let min_for_ping := torp_bat_min_for_ping cfg in
      if Qltb (t_battery torp) (pmax ping_cost min_for_ping) then st
      else
        let '(contacts, n') := auto_ping_contacts cfg g n torp subs in
        let torps1 := upd k (fun o => set_t_last_active_ping o now) torps in
        match contacts with
        | [] => (torps1, pending_events, n')
        | _ :: _ =>
          (upd k (fun o => set_t_battery o (pmax 0 (t_battery o - ping_cost)))
               torps1,
           pending_events ++
             [(t_owner_id torp, "torpedo_ping"%string,
               TorpedoPing (t_id torp) contacts now)],
           n')
        end
  end.

Definition schedule_passive_contacts `{Libm} (cfg : Cfg) (clouds : list Cloud)
    (now : Q) (g : Rng) (n : nat) (subs : list SubModel)
    (torps : list TorpedoModel) (pending_events : list Event)
    : list SubModel * list TorpedoModel * list Event * nat :=
  let '(subs1, ev1, n1) :=
    fold_left (fun st i => observe_one cfg clouds now g torps i st)
              (seq 0 (List.length subs)) (subs, pending_events, n) in
  let '(torps2, ev2, n2) :=
    fold_left (fun st k => torp_observe_one cfg clouds now g subs1 k st)
              (seq 0 (List.length torps)) (torps, ev1, n1) in
  let '(torps3, ev3, n3) :=
    fold_left (fun st k => torp_auto_ping_one cfg now g subs1 k st)
              (seq 0 (List.length torps)) (torps2, ev2, n2) in
  (subs1, torps3, ev3, n3).

(** Fields of a queued event. *)
Definition event_user (e : Event) : Z := fst (fst e).
Definition event_name (e : Event) : string := snd (fst e).

Definition event_observer (e : Event) : option string :=
  match snd e with
  | PassiveContact o _ _ _ _ _ _ => Some o
  | ActivePingDetected o _ _ _ => Some o
  | TorpedoContact o _ _ _ _ _ _ => Some o
  | _ => None
  end.

Definition event_contact_type (e : Event) : option string :=
  match snd e with
  | PassiveContact _ _ _ _ _ ct _ => Some ct
  | TorpedoContact _ _ _ _ _ ct _ => Some ct
  | _ => None
  end.

Definition is_torpedo_contact (e : Event) : bool :=
  match event_contact_type e with
  | Some ct => String.eqb ct "torpedo"
  | None => false
  end.

Definition is_submarine_contact (e : Event) : bool :=
  match event_contact_type e with
  | Some ct => String.eqb ct "submarine" || String.eqb ct "emergency_blow"
  | None => false
  end.

(** ** Submarine physics: [update_sub], stage by stage *)

(** "RUDDER servo" *)
Definition sub_rudder `{Libm} (cfg : Cfg) (dt : Q) (s : SubModel) : SubModel :=
  let max_rudder_deg := getd (sub_max_rudder_deg cfg) 30 in
  let rudder_rate_deg := getd (sub_rudder_rate_deg_s cfg) 60 in
  let MAX_RUDDER_RAD := radians max_rudder_deg in
  let MAX_RUDDER_STEP := radians rudder_rate_deg * dt in
  let s := set_s_rudder_cmd s (clamp (s_rudder_cmd s) (-1) 1) in
  let target_rudder_angle := s_rudder_cmd s * MAX_RUDDER_RAD in
  if Qltb 0 (s_battery s) then
    let error := target_rudder_angle - s_rudder_angle s in
    let s := set_s_rudder_angle s
               (s_rudder_angle s
                + clamp error (- MAX_RUDDER_STEP) MAX_RUDDER_STEP) in
    set_s_rudder_angle s
      (clamp (s_rudder_angle s) (- MAX_RUDDER_RAD) MAX_RUDDER_RAD)
  else s.

(** "Auto-steering to target heading", else "Manual rudder control" *)
Definition sub_steer `{Libm} (cfg : Cfg) (dt : Q) (s : SubModel) : SubModel :=
  let yaw_rate_rad := radians (sub_yaw_rate_deg_s cfg) in
  let MAX_RUDDER_RAD := radians (getd (sub_max_rudder_deg cfg) 30) in
  match s_target_heading s with
  | Some target =>
    let heading_error := wrap_angle (target - s_heading s) in
    let max_turn_rate := radians (sub_yaw_rate_deg_s cfg) in
    let turn_rate :=
      clamp (heading_error * 0.5) (- max_turn_rate) max_turn_rate in
    let s := set_s_heading s (wrap_angle (s_heading s + turn_rate * dt)) in
    if Qltb (Qabs heading_error) (radians 2)
    then set_s_target_heading s None
    else s
  | None =>
    let rudder_frac :=
      if Qeq_bool MAX_RUDDER_RAD 0 then 0
      else s_rudder_angle s / MAX_RUDDER_RAD in
    set_s_heading s (wrap_angle (s_heading s + yaw_rate_rad * rudder_frac * dt))
  end.

(** "Planes -> pitch", "Speed with acceleration", and the dead-battery rule
    that drops the depth hold. *)
Definition sub_propel `{Libm} (cfg : Cfg) (dt : Q) (s : SubModel) : SubModel :=
  let pitch_rate := radians (sub_pitch_rate_deg_s cfg) in
  let target_pitch :=
    clamp (s_planes s * sub_planes_effect cfg) (-1) 1 * radians 30 in
  let s :=
    if Qltb 0 (s_battery s)
    then set_s_pitch s (s_pitch s + clamp (target_pitch - s_pitch s)
                                         (- (pitch_rate * dt)) (pitch_rate * dt))
    else s in
  let max_spd := sub_max_speed cfg in
  let acceleration := sub_acceleration cfg in
  let max_spd := if s_is_snorkeling s then max_spd * 0.75 else max_spd in
  let target_speed :=
    if Qleb (s_battery s) 0 || s_refuel_active s then 0
    else clamp (s_throttle s) 0 1 * max_spd in
  let speed_diff := target_speed - s_speed s in
  let max_change := acceleration * dt in
  let s := set_s_speed s (s_speed s + clamp speed_diff (- max_change) max_change) in
  if Qleb (s_battery s) 0 && negb (s_blow_active s)
  then set_s_planes (set_s_target_depth s None) 0
  else s.

(** "Vertical dynamics", "Emergency blow", "Depth hold autopilot",
    "Hydrodynamic lift", "Apply vertical" and "XY". *)
Definition sub_move `{Libm} (cfg : Cfg) (dt now : Q) (s : SubModel) : SubModel :=
  let pitch_rate := radians (sub_pitch_rate_deg_s cfg) in
  let v_down := sub_neutral_bias cfg * (1 - s_throttle s) in
  let min_control_speed := 2 in
  let v_down :=
    if Qltb (s_speed s) min_control_speed then
      let speed_factor := s_speed s / min_control_speed in
      let sink_rate := (1 - speed_factor) * 0.8 in
      v_down + sink_rate
    else v_down in
  let blowing :=
    s_blow_active s && Qltb now (s_blow_end s) && Qltb 0 (s_blow_charge s) in
  let v_down := if blowing then v_down - blow_upward_mps cfg else v_down in
  let s :=
    if blowing
    then set_s_blow_charge s
           (clamp (s_blow_charge s - dt / blow_duration_s cfg) 0 1)
    else set_s_blow_active s false in
  let autopilot :=
    match s_target_depth s with
    | Some td => if Qltb (Qabs (s_planes s)) 0.05 then Some td else None
    | None => None
    end in
  let '(s, v_down) :=
    match autopilot with
    | Some td =>
      let err_m := td - s_depth s in
      let ap_pitch :=
        clamp (- err_m * radians 0.5) (- radians 30) (radians 30) in
      (set_s_pitch s (s_pitch s + clamp (ap_pitch - s_pitch s)
                                        (- (pitch_rate * dt)) (pitch_rate * dt)),
       v_down + clamp (err_m * 0.02) (-1.5) 1.5)
    | None => (s, v_down)
    end in
  let LIFT := 0.45 in
  let v_down := v_down - m_sin (s_pitch s) * pmax 0 (s_speed s) * LIFT in
  let s := set_s_depth s (pmax 0 (s_depth s + v_down * dt)) in
  let s := set_s_x s (s_x s + m_cos (s_heading s) * s_speed s * dt) in
  set_s_y s (s_y s + m_sin (s_heading s) * s_speed s * dt).

(** "Battery, diesel fuel & snorkel recharge + auto-off with hysteresis" *)
Definition sub_energy (cfg : Cfg) (dt : Q) (s : SubModel) : SubModel :=
  let max_spd := if s_is_snorkeling s then sub_max_speed cfg * 0.75
                 else sub_max_speed cfg in
  let speed_ratio := s_speed s / max_spd in
  let drain_multiplier :=
    if Qltb 0.5 speed_ratio then
      let high_speed_mult := bat_high_speed_multiplier cfg in
      let excess_speed := speed_ratio - 0.5 in
      1 + (excess_speed * 2) * (excess_speed * 2) * high_speed_mult
    else 1 in
  let s := if s_refuel_active s then set_s_throttle s 0 else s in
  let battery_drain :=
    if s_refuel_active s then 0
    else s_throttle s * bat_drain_per_throttle_per_s cfg
         * drain_multiplier * dt in
  let s := set_s_battery s (pmax 0 (pmin 100 (s_battery s - battery_drain))) in
  let snorkel_depth := sub_snorkel_depth cfg in
  let off_hyst := sub_snorkel_off_hysteresis cfg in
  let s :=
    if s_is_snorkeling s && Qleb (s_depth s) snorkel_depth then
      let recharge_rate := bat_recharge_per_s_snorkel cfg in
      let has_fuel := Qltb 0 (s_fuel s) in
      let s :=
        if Qltb 0 recharge_rate && has_fuel then
          let potential := recharge_rate * dt in
          let headroom := 100 - s_battery s in
          let delta := pmin (pmin potential (s_fuel s)) headroom in
          if Qltb 0 delta then
            let s := set_s_battery s (clamp (s_battery s + delta) 0 100) in
            set_s_fuel s (pmax 0 (s_fuel s - delta))
          else s
        else s in
      if has_fuel
      then set_s_blow_charge s
             (clamp (s_blow_charge s + blow_recharge_per_s_at_snorkel cfg * dt)
                    0 1)
      else s
    else s in
  if negb (s_refuel_active s) && s_is_snorkeling s &&
     Qltb (snorkel_depth + off_hyst) (s_depth s)
  then set_s_is_snorkeling s false
  else s.

(** The mooring of a refuelling submarine, "Crush damage" and "Weather
    damage". *)
Definition sub_hazards `{Libm} (cfg : Cfg) (clouds : list Cloud) (dt : Q)
    (s : SubModel) : SubModel :=
  let crush_depth := sub_crush_depth cfg in
  let crush_dps := sub_crush_dps_per_100m cfg in
  let s :=
    if s_refuel_active s
    then set_s_depth s (pmax 0 (sub_snorkel_depth cfg))
    else if Qltb crush_depth (s_depth s) then
      let over := s_depth s - crush_depth in
      let dps := (over / 100) * crush_dps in
      set_s_health s (pmax 0 (s_health s - dps * dt))
    else s in
  if is_outside_ring cfg (s_x s) (s_y s) then
    let cloud_dps := weather_cloud_damage cfg clouds (s_x s) (s_y s) (s_depth s) in
    if Qltb 0 cloud_dps
    then set_s_health s (pmax 0 (s_health s - cloud_dps * dt))
    else s
  else s.

Definition update_sub `{Libm} (cfg : Cfg) (clouds : list Cloud) (dt now : Q)
    (s : SubModel) : SubModel :=
  sub_hazards cfg clouds dt
    (sub_energy cfg dt
       (sub_move cfg dt now
          (sub_propel cfg dt
             (sub_steer cfg dt
                (sub_rudder cfg dt s))))).

(** ** Torpedo physics *)

(** [float(t.wire_length or max_range)] *)
Definition wire_budget (cfg : Cfg) (t : TorpedoModel) : Q :=
  if truthy (t_wire_length t) then t_wire_length t else torp_max_range cfg.

(** [update_torpedo]; [subs] answers [SubModel.query.get(t.parent_sub)]. *)
Definition update_torpedo `{Libm} (cfg : Cfg) (subs : list SubModel)
    (dt now : Q) (t : TorpedoModel) : TorpedoModel :=
  let turn_rate := radians (torp_turn_rate_deg_s cfg) in
  let depth_rate := torp_depth_rate_m_s cfg in
  let max_range := torp_max_range cfg in
  let prox := torp_proximity_fuze_m cfg in
  let min_speed := getd (torp_min_speed cfg) 8 in
  let max_speed := getd (torp_max_speed cfg) 18 in
  let target_speed := clamp (t_target_speed t) min_speed max_speed in
  let speed_accel := 5 in
  let speed_diff := target_speed - t_speed t in
  let max_change := speed_accel * dt in
  let t := set_t_speed t (t_speed t + clamp speed_diff (- max_change) max_change) in
  let t :=
    match t_start_x t with
    | None => set_t_start_y (set_t_start_x t (Some (t_x t))) (Some (t_y t))
    | Some _ => t
    end in
  (* wire control cutoff by geometry *)
  let t :=
    if String.eqb (t_control_mode t) "wire" &&
       negb (String.eqb (t_parent_sub t) "") then
      match find (fun s => String.eqb (s_id s) (t_parent_sub t)) subs with
      | Some parent =>
        let dist_parent := distance (t_x t) (t_y t) (s_x parent) (s_y parent) in
        if Qltb (wire_budget cfg t) dist_parent
        then set_t_control_mode t "free"
        else t
      | None => t
      end
    else t in
  (* heading guidance *)
  let t :=
    match t_target_heading t with
    | Some th =>
      let da := wrap_angle (th - t_heading t) in
      let step := clamp da (- (turn_rate * dt)) (turn_rate * dt) in
      set_t_heading t (wrap_angle (t_heading t + step))
    | None =>
      match t_pending_turn t with
      | Some pending =>
        let want := radians pending in
        let step := clamp want (- (turn_rate * dt)) (turn_rate * dt) in
        let t := set_t_heading t (wrap_angle (t_heading t + step)) in
        let rem := want - step in
        set_t_pending_turn t
          (if Qltb 0.0001 (Qabs rem) then Some (rem * 180 / m_pi) else None)
      | None => t
      end
    end in
  (* depth guidance *)
  let t :=
    match t_target_depth t with
    | Some td =>
      let dz := td - t_depth t in
      set_t_depth t (t_depth t + clamp dz (- (depth_rate * dt)) (depth_rate * dt))
    | None => t
    end in
  (* integrate position *)
  let t := set_t_x t (t_x t + m_cos (t_heading t) * t_speed t * dt) in
  let t := set_t_y t (t_y t + m_sin (t_heading t) * t_speed t * dt) in
  (* battery *)
  let drain_per_mps := torp_bat_drain_per_mps_per_s cfg in
  let speed_for_drain := pmax 0 (t_speed t) in
  let t := set_t_battery t
             (pmax 0 (t_battery t
                      - drain_per_mps * (speed_for_drain * speed_for_drain) * dt)) in
  let t :=
    if Qleb (t_battery t) 0 && negb (t_battery_dead t) then
      set_t_battery_dead
        (set_t_active_sonar_enabled
           (set_t_passive_sonar_active
              (set_t_target_speed (set_t_speed t 0) 0) false) false) true
    else t in
  (* range self-destruct *)
  let traveled :=
    distance (t_x t) (t_y t) (getd (t_start_x t) (t_x t))
             (getd (t_start_y t) (t_y t)) in
  if Qltb max_range traveled then set_t_expired t true
  else
    let min_safe_distance := 150 in
    let t := set_t_check_prox t
               (Qltb 0 prox &&
                Qleb (torp_arming_delay_s cfg) (now - t_created_at t)) in
    set_t_min_safe_distance t (Some min_safe_distance).

(** [process_wire_links_mem] *)
Definition process_wire_links_mem `{Libm} (cfg : Cfg)
    (torps : list TorpedoModel) (subs : list SubModel) : list TorpedoModel :=
  map (fun t =>
         if negb (String.eqb (t_control_mode t) "wire") then t
         else
           match find (fun s => String.eqb (s_id s) (t_parent_sub t)) subs with
           | None => set_t_control_mode t "free"
           | Some parent =>
             let d := distance (t_x t) (t_y t) (s_x parent) (s_y parent) in
             if Qltb (wire_budget cfg t) d
             then set_t_control_mode t "free"
             else t
           end)
      torps.

(** ** Refuelling *)

(** The scan for the bound fueler within 50 m: index and distance of the
    nearest one so far. *)
Fixpoint nearest_fueler `{Libm} (s : SubModel) (fuelers : list FuelerModel)
    (k : nat) (best : option (nat * Q)) : option (nat * Q) :=
  match fuelers with
  | [] => best
  | f :: r =>
    let skip_unbound :=
      match s_refuel_fueler_id s with
      | Some fid => negb (String.eqb fid "") && negb (String.eqb (f_id f) fid)
      | None => false
      end in
    if skip_unbound then nearest_fueler s r (S k) best
    else if Qleb (f_fuel f) 0 then nearest_fueler s r (S k) best
    else
      let d := distance3d (s_x s) (s_y s) (s_depth s)
                          (f_x f) (f_y f) (f_depth f) in
      let closer := match best with
                    | None => true
                    | Some (_, nd) => Qltb d nd
                    end in
      if Qleb d 50 && closer
      then nearest_fueler s r (S k) (Some (k, d))
      else nearest_fueler s r (S k) best
  end.

Definition cancel_refuel (s : SubModel) : SubModel :=
  set_s_refuel_fueler_id
    (set_s_refuel_active (set_s_refuel_timer s 0) false) None.

(** One iteration of [for s in subs] in [process_refueling_mem]. *)
Definition refuel_one `{Libm} (cfg : Cfg) (now dt : Q) (i : nat)
    (st : list SubModel * list FuelerModel)
    : list SubModel * list FuelerModel :=
  let '(subs, fuelers) := st in
  let max_fuel_capacity := bat_max_fuel_capacity cfg in
  let snorkel_depth := sub_snorkel_depth cfg in
  match nth_error subs i with
  | None => st
  | Some s =>
    if negb (s_refuel_active s)
    then (upd i (fun o => set_s_refuel_timer o 0) subs, fuelers)
    else if Qleb max_fuel_capacity (s_fuel s)
    then (upd i cancel_refuel subs, fuelers)
    else if negb (s_is_snorkeling s) || Qltb (snorkel_depth + 0.5) (s_depth s)
    then (upd i cancel_refuel subs, fuelers)
    else
      match nearest_fueler s fuelers 0 None with
      | None => (upd i cancel_refuel subs, fuelers)
      | Some (k, _) =>
        match nth_error fuelers k with
        | None => st
        | Some nearest =>
          let timer := s_refuel_timer s + dt in
          let subs := upd i (fun o => set_s_refuel_timer o timer) subs in
          if Qltb timer 120 then (subs, fuelers)
          else
            let available := f_fuel nearest in
            let sub_space := pmax 0 (max_fuel_capacity - s_fuel s) in
            let amount :=
              if Qltb 0 available && Qltb 0 sub_space then
                let refuel_rate := getd (bat_refuel_rate_per_s cfg) 50 in
                if Qleb refuel_rate 0 then pmin available sub_space
                else pmin (pmin (refuel_rate * dt) available) sub_space
              else 0 in
            let '(subs, fuelers) :=
              if Qltb 0 amount then
                let fuel' := available - amount in
                (upd i (fun o => set_s_fuel o (s_fuel s + amount)) subs,
                 upd k (fun f =>
                          let f := set_f_fuel f fuel' in
                          let f := match f_empty_since f with
                                   | None => set_f_empty_since f (Some now)
                                   | Some _ => f
                                   end in
                          if Qleb (f_fuel f) 0 then set_f_fuel f 0 else f)
                     fuelers)
              else (subs, fuelers) in
            let sub_fuel := match nth_error subs i with
                            | Some o => s_fuel o | None => s_fuel s end in
            let fueler_fuel := match nth_error fuelers k with
                               | Some f => f_fuel f | None => f_fuel nearest end in
            if Qleb max_fuel_capacity sub_fuel || Qleb fueler_fuel 0
            then (upd i cancel_refuel subs, fuelers)
            else (subs, fuelers)
        end
      end
  end.

(** [process_refueling_mem] *)
Definition process_refueling_mem `{Libm} (cfg : Cfg) (now dt : Q)
    (subs : list SubModel) (fuelers : list FuelerModel)
    : list SubModel * list FuelerModel :=
  match fuelers with
  | [] => (map (fun s => set_s_refuel_timer s 0) subs, fuelers)
  | _ :: _ =>
    fold_left (fun st i => refuel_one cfg now dt i st)
              (seq 0 (List.length subs)) (subs, fuelers)
  end.

(** ** Control API: helm and systems *)

(** The JSON body of [/control]: each key absent ([None]) or present;
    [target_depth] may be present and [null]. *)
Record ControlArgs : Type := mkControlArgs {
  ca_target_depth : option (option Q);
  ca_throttle : option Q;
  ca_planes : option Q;
  ca_rudder_deg : option Q;
  ca_rudder_nudge_deg : option Q
}.

(** [POST /control/<sub_id>] *)
Definition control (cfg : Cfg) (user : Z) (sub_id : string) (d : ControlArgs)
    (subs : list SubModel) : Reply unit * list SubModel :=
  let MAX_RUDDER_DEG := getd (sub_max_rudder_deg cfg) 30 in
  match owned_sub user sub_id subs with
  | None => (Err 404 "not found" [], subs)
  | Some s =>
    let s := match ca_target_depth d with
             | Some td => set_s_target_depth s td
             | None => s
             end in
    let s := match ca_throttle d with
             | Some v => set_s_throttle s (clamp v 0 1)
             | None => s
             end in
    let s := match ca_planes d with
             | Some v => set_s_planes s (clamp v (-1) 1)
             | None => s
             end in
    let s := match ca_rudder_deg d with
             | Some v =>
               let rdeg := clamp v (- MAX_RUDDER_DEG) MAX_RUDDER_DEG in
               set_s_rudder_cmd s (rdeg / MAX_RUDDER_DEG)
             | None => s
             end in
    let s := match ca_rudder_nudge_deg d with
             | Some nudge =>
               let curr_deg := s_rudder_cmd s * MAX_RUDDER_DEG in
               let new_deg :=
                 clamp (curr_deg + nudge) (- MAX_RUDDER_DEG) MAX_RUDDER_DEG in
               set_s_rudder_cmd s (new_deg / MAX_RUDDER_DEG)
             | None => s
             end in
    (Ok tt, commit_sub s subs)
  end.

Record SnorkelBody : Type := mkSnorkelBody {
  sn_is_snorkeling : bool; sn_depth : Q; sn_limit : Q
}.

(** [POST /snorkel/<sub_id>]; [toggle] is [d.get("toggle", False)] and [on]
    the optional key of that name. *)
Definition snorkel (cfg : Cfg) (user : Z) (sub_id : string) (toggle : bool)
    (on : option bool) (subs : list SubModel)
    : Reply SnorkelBody * list SubModel :=
  let snorkel_depth := sub_snorkel_depth cfg in
  match owned_sub user sub_id subs with
  | None => (Err 404 "not found" [], subs)
  | Some s =>
    let do_toggle := toggle || match on with None => true | Some _ => false end in
    let want_on := if do_toggle then negb (s_is_snorkeling s) else getd on true in
    if want_on then
      if Qltb snorkel_depth (s_depth s)
      then (Err 400 "too deep to snorkel" [], subs)
      else
        let s := set_s_is_snorkeling s true in
        (Ok (mkSnorkelBody true (s_depth s) snorkel_depth), commit_sub s subs)
    else
      let s := set_s_is_snorkeling s false in
      (Ok (mkSnorkelBody false (s_depth s) snorkel_depth), commit_sub s subs)
  end.

(** [POST /emergency_blow/<sub_id>] *)
Definition emergency_blow (cfg : Cfg) (now : Q) (user : Z) (sub_id : string)
    (subs : list SubModel) : Reply unit * list SubModel :=
  match owned_sub user sub_id subs with
  | None => (Err 404 "not found" [], subs)
  | Some s =>
    if Qleb (s_blow_charge s) 0 then (Err 400 "no charge" [], subs)
    else
      let s := set_s_blow_active s true in
      let s := set_s_blow_end s (now + blow_duration_s cfg) in
      (Ok tt, commit_sub s subs)
  end.

(** [POST /set_passive_array/<sub_id>] *)
Definition set_passive_array `{Libm} (user : Z) (sub_id : string)
    (dir_deg : option Q) (subs : list SubModel)
    : Reply unit * list SubModel :=
  let deg := getd dir_deg 0 in
  match owned_sub user sub_id subs with
  | None => (Err 404 "not found" [], subs)
  | Some s => (Ok tt, commit_sub (set_s_passive_dir s (radians deg)) subs)
  end.

Record ScanBody : Type := mkScanBody {
  sc_battery_cost : Q; sc_battery_remaining : Q; sc_max_range : Q
}.

(** [POST /weather_scan/<sub_id>]: the charge, the noise mark and the
    scalar fields of the reply.  The [clouds] list of the reply reads
    [WEATHER_CLOUDS] and the submarine and writes nothing; it is left out. *)
Definition weather_scan (cfg : Cfg) (now : Q) (user : Z) (sub_id : string)
    (subs : list SubModel) : Reply ScanBody * list SubModel :=
  let max_range := getd (scanner_max_range_m cfg) 500 in
  let battery_cost := getd (scanner_battery_cost cfg) 1 in
  let noise_duration := getd (scanner_noise_duration_s cfg) 8 in
  match owned_sub user sub_id subs with
  | None => (Err 404 "not found" [], subs)
  | Some s =>
    if Qltb (s_battery s) battery_cost
    then (Err 400 "not enough battery" [], subs)
    else
      let s := set_s_battery s (clamp (s_battery s - battery_cost) 0 100) in
      let s := set_s_scanner_noise_until s
                 (pmax (s_scanner_noise_until s) (now + noise_duration)) in
      (Ok (mkScanBody (py_round battery_cost 2) (py_round (s_battery s) 2)
                      max_range),
       commit_sub s subs)
  end.

(** ** Control API: fuelers *)

(** [_spawn_fueler_near_sub]: up to [tries] (20) candidate points. *)
Fixpoint fueler_spawn_try `{Libm} (clouds : list Cloud) (tries : nat)
    (g : Rng) (n : nat) (s : SubModel) : (Q * Q) * nat :=
  match tries with
  | O => ((s_x s, s_y s), n)
  | S k =>
    let bearing := uniform g n (- m_pi) m_pi in
    let rng := uniform g (n + 1) 1000 3000 in
    let cand_x := s_x s + m_cos bearing * rng in
    let cand_y := s_y s + m_sin bearing * rng in
    let in_cloud :=
      existsb (fun c =>
                 negb (Qltb 0 (c_min_depth c) || Qltb (c_max_depth c) 0) &&
                 Qleb (distance cand_x cand_y (c_x c) (c_y c)) (c_radius c))
              clouds in
    if negb in_cloud then ((cand_x, cand_y), (n + 2)%nat)
    else fueler_spawn_try clouds k g (n + 2) s
  end.

Definition _spawn_fueler_near_sub `{Libm} (cfg : Cfg) (clouds : list Cloud)
    (now : Q) (g : Rng) (n : nat) (new_id : string) (s : SubModel)
    : FuelerModel :=
  let cap := bat_max_fuel_capacity cfg * 0.5 in
  let '((fx, fy), _) := fueler_spawn_try clouds 20 g n s in
  mkFueler new_id None fx fy 0 cap cap now None.

(** [POST /call_fueler/<sub_id>] *)
Definition call_fueler `{Libm} (cfg : Cfg) (clouds : list Cloud) (now : Q)
    (g : Rng) (n : nat) (new_id : string) (user : Z) (sub_id : string)
    (subs : list SubModel) (fuelers : list FuelerModel)
    : Reply FuelerPub * list FuelerModel :=
  match owned_sub user sub_id subs with
  | None => (Err 404 "sub not found" [], fuelers)
  | Some s =>
    match find (fun f => match f_owner_id f with
                         | Some o => Z.eqb o user
                         | None => false
                         end) fuelers with
    | Some _ => (Err 400 "you already have an active fueler" [], fuelers)
    | None =>
      let f := _spawn_fueler_near_sub cfg clouds now g n new_id s in
      let f := set_f_owner_id f (Some user) in
      (Ok (_fueler_pub f), fuelers ++ [f])
    end
  end.

(** The nearest fueler with fuel, as [start_refuel] finds it. *)
Fixpoint nearest_with_fuel `{Libm} (s : SubModel) (fuelers : list FuelerModel)
    (best : option (FuelerModel * Q)) : option (FuelerModel * Q) :=
  match fuelers with
  | [] => best
  | f :: r =>
    if Qleb (f_fuel f) 0 then nearest_with_fuel s r best
    else
      let d := distance3d (s_x s) (s_y s) (s_depth s)
                          (f_x f) (f_y f) (f_depth f) in
      match best with
      | None => nearest_with_fuel s r (Some (f, d))
      | Some (_, nd) =>
        if Qltb d nd then nearest_with_fuel s r (Some (f, d))
        else nearest_with_fuel s r best
      end
  end.

(** [POST /start_refuel/<sub_id>] *)
Definition start_refuel `{Libm} (cfg : Cfg) (user : Z) (sub_id : string)
    (subs : list SubModel) (fuelers : list FuelerModel)
    : Reply FuelerPub * list SubModel :=
  match owned_sub user sub_id subs with
  | None => (Err 404 "sub not found" [], subs)
  | Some s =>
    match fuelers with
    | [] => (Err 400 "no fuelers available" [], subs)
    | _ :: _ =>
      match nearest_with_fuel s fuelers None with
      | Some (nearest, nearest_d) =>
        if Qltb 50 nearest_d
        then (Err 400 "need to be within 50m of a fueler" [], subs)
        else
          let snorkel_depth := sub_snorkel_depth cfg in
          let s := set_s_refuel_active s true in
          let s := set_s_refuel_fueler_id s (Some (f_id nearest)) in
          let s := set_s_refuel_timer s 0 in
          let s := set_s_is_snorkeling s true in
          let s := set_s_target_depth s (Some snorkel_depth) in
          (Ok (_fueler_pub nearest), commit_sub s subs)
      | None => (Err 400 "need to be within 50m of a fueler" [], subs)
      end
    end
  end.

(** ** Control API: torpedoes *)

Definition commit_torp (t' : TorpedoModel) (torps : list TorpedoModel)
    : list TorpedoModel :=
  map (fun o => if String.eqb (t_id o) (t_id t') then t' else o) torps.

Definition find_torp (torp_id : string) (torps : list TorpedoModel)
    : option TorpedoModel :=
  find (fun t => String.eqb (t_id t) torp_id) torps.

(** [POST /set_torp_speed/<torp_id>] *)
Definition set_torp_speed (cfg : Cfg) (user : Z) (torp_id : string)
    (speed : option Q) (torps : list TorpedoModel)
    : Reply (Q * Q) * list TorpedoModel :=
  let min_speed := getd (torp_min_speed cfg) 8 in
  let max_speed := getd (torp_max_speed cfg) 18 in
  let new_speed := clamp (getd speed 18) min_speed max_speed in
  match find_torp torp_id torps with
  | None => (Err 404 "torpedo not found" [], torps)
  | Some t =>
    if negb (Z.eqb (t_owner_id t) user)
    then (Err 403 "not your torpedo" [], torps)
    else
      let t := set_t_target_speed t new_speed in
      (Ok (t_speed t, t_target_speed t), commit_torp t torps)
  end.

(** [POST /set_torp_depth/<torp_id>] *)
Definition set_torp_depth (user : Z) (torp_id : string) (depth : option Q)
    (torps : list TorpedoModel) : Reply (Q * option Q) * list TorpedoModel :=
  let new_depth := getd depth 0 in
  match find_torp torp_id torps with
  | None => (Err 404 "torpedo not found" [], torps)
  | Some t =>
    if negb (Z.eqb (t_owner_id t) user)
    then (Err 403 "not your torpedo" [], torps)
    else
      let t := set_t_target_depth t (Some new_depth) in
      (Ok (t_depth t, t_target_depth t), commit_torp t torps)
  end.

(** The contacts of a manual torpedo ping. *)
Fixpoint torp_ping_contacts `{Libm} (g : Rng) (n : nat) (max_r beam rng_sigma : Q)
    (t : TorpedoModel) (subs : list SubModel) : list (Q * Q * Q) :=
  match subs with
  | [] => []
  | s :: r =>
    if Z.eqb (s_owner_id s) (t_owner_id t)
    then torp_ping_contacts g n max_r beam rng_sigma t r
    else
      let dx := s_x s - t_x t in
      let dy := s_y s - t_y t in
      let dz := s_depth s - t_depth t in
      let rng := m_sqrt (dx * dx + dy * dy + dz * dz) in
      let brg := m_atan2 dy dx in
      let rel := Qabs (wrap_angle (brg - t_heading t)) in
      let beam_half := beam / 2 in
      if Qltb max_r rng then torp_ping_contacts g n max_r beam rng_sigma t r
      else if Qltb (radians beam_half) rel
      then torp_ping_contacts g n max_r beam rng_sigma t r
      else
        (brg, rng + uniform g n (- rng_sigma) rng_sigma,
         s_depth s + uniform g (S n) (-20) 20)
        :: torp_ping_contacts g (S (S n)) max_r beam rng_sigma t r
  end.

(** [POST /torp_ping/<torp_id>]; the reply carries the contacts and the
    battery left. *)
Definition torp_ping `{Libm} (cfg : Cfg) (g : Rng) (n : nat) (user : Z)
    (torp_id : string) (max_range : option Q) (subs : list SubModel)
    (torps : list TorpedoModel)
    : Reply (list (Q * Q * Q) * Q) * list TorpedoModel :=
  let beam := 30 in
  let max_r_req := getd max_range 800 in
  match find_torp torp_id torps with
  | None => (Err 404 "not found" [], torps)
  | Some t =>
    if negb (Z.eqb (t_owner_id t) user) then (Err 404 "not found" [], torps)
    else
      let max_r := pmin max_r_req (getd (torp_active_max_range cfg) 1500) in
      let beam := pmin beam (getd (torp_active_max_angle cfg) 60) in
      let rng_sigma := getd (torp_active_rng_sigma_m cfg) 40 in
      let ping_cost := torp_bat_active_ping_cost cfg in
      let min_for_ping := torp_bat_min_for_ping cfg in
      if Qltb (t_battery t) (pmax ping_cost min_for_ping)
      then (Err 400 "torpedo battery too low" [], torps)
      else
        let contacts := torp_ping_contacts g n max_r beam rng_sigma t subs in
        let t := set_t_battery t (pmax 0 (t_battery t - ping_cost)) in
        (Ok (contacts, py_round (t_battery t) 1), commit_torp t torps)
  end.

(** [POST /torp_ping_toggle/<torp_id>] *)
Definition torp_ping_toggle (user : Z) (torp_id : string)
    (torps : list TorpedoModel) : Reply bool * list TorpedoModel :=
  match find_torp torp_id torps with
  | None => (Err 404 "not found" [], torps)
  | Some t =>
    if negb (Z.eqb (t_owner_id t) user) then (Err 404 "not found" [], torps)
    else
      let t := set_t_active_sonar_enabled t (negb (t_active_sonar_enabled t)) in
      (Ok (t_active_sonar_enabled t), commit_torp t torps)
  end.

(** The body of [/set_torp_heading]: [heading_deg], else [turn_deg]. *)
Inductive TorpHeadingArg : Type :=
| TorpHeadingDeg (heading_deg : Q)
| TorpTurnDeg (turn_deg : Q)
| TorpHeadingNone.

(** [POST /set_torp_heading/<torp_id>]; [dt] defaults to the tick. *)
Definition set_torp_heading `{Libm} (cfg : Cfg) (now : Q) (user : Z)
    (torp_id : string) (dt : option Q) (arg : TorpHeadingArg)
    (torps : list TorpedoModel) : Reply Q * list TorpedoModel :=
  let dt := getd dt (1 / tick_hz cfg) in
  match find_torp torp_id torps with
  | None => (Err 404 "not found" [], torps)
  | Some t =>
    if negb (Z.eqb (t_owner_id t) user) then (Err 404 "not found" [], torps)
    else if negb (String.eqb (t_control_mode t) "wire")
    then (Err 400 "wire lost" [], torps)
    else
      let max_turn := radians (torp_turn_rate_deg_s cfg) * dt in
      match arg with
      | TorpHeadingDeg heading_deg =>
        let desired := radians heading_deg in
        let err := wrap_angle (desired - t_heading t) in
        let t := set_t_heading t
                   (wrap_angle (t_heading t + clamp err (- max_turn) max_turn)) in
        let t := set_t_updated_at t now in
        (Ok (t_heading t), commit_torp t torps)
      | TorpTurnDeg turn_deg =>
        let turn := radians turn_deg in
        let t := set_t_heading t
                   (wrap_angle (t_heading t + clamp turn (- max_turn) max_turn)) in
        let t := set_t_updated_at t now in
        (Ok (t_heading t), commit_torp t torps)
      | TorpHeadingNone =>
        (Err 400 "heading_deg or turn_deg required" [], torps)
      end
  end.

(** [POST /set_torp_target_heading/<torp_id>] *)
Definition set_torp_target_heading `{Libm} (now : Q) (user : Z)
    (torp_id : string) (heading_deg : HeadingArg) (torps : list TorpedoModel)
    : Reply (Q * option Q) * list TorpedoModel :=
  match find_torp torp_id torps with
  | None => (Err 404 "not found" [], torps)
  | Some t =>
    if negb (Z.eqb (t_owner_id t) user) then (Err 404 "not found" [], torps)
    else if negb (String.eqb (t_control_mode t) "wire")
    then (Err 400 "wire lost" [], torps)
    else
      match heading_deg with
      | HeadingAbsent => (Err 400 "heading_deg required" [], torps)
      | HeadingNull =>
        let t := set_t_updated_at (set_t_target_heading t None) now in
        (Ok (t_heading t, t_target_heading t), commit_torp t torps)
      | HeadingDeg compass_deg =>
        let server_deg := pmod (90 - compass_deg) 360 in
        let t := set_t_target_heading t (Some (radians server_deg)) in
        let t := set_t_updated_at t now in
        (Ok (t_heading t, t_target_heading t), commit_torp t torps)
      end
  end.

(** [POST /torp_passive_sonar_toggle/<torp_id>] *)
Definition torp_passive_sonar_toggle (now : Q) (user : Z) (torp_id : string)
    (torps : list TorpedoModel) : Reply bool * list TorpedoModel :=
  match find_torp torp_id torps with
  | None => (Err 404 "not found" [], torps)
  | Some t =>
    if negb (Z.eqb (t_owner_id t) user) then (Err 404 "not found" [], torps)
    else if negb (String.eqb (t_control_mode t) "wire")
    then (Err 400 "wire lost" [], torps)
    else
      let t := set_t_passive_sonar_active t (negb (t_passive_sonar_active t)) in
      let t := set_t_updated_at t now in
      (Ok (t_passive_sonar_active t), commit_torp t torps)
  end.

(** ** The tick *)

(** [process_active_pings]: the echoes that are due, as events, the echoes
    still pending and the position of the next draw; [subs] answers
    [SubModel.query.get]. *)
Fixpoint echo_events `{Libm} (cfg : Cfg) (now : Q) (g : Rng) (n : nat)
    (subs : list SubModel) (due : list PendingPing) : list Event * nat :=
  match due with
  | [] => ([], n)
  | p :: r =>
    let lvl := pp_echo_level p in
    let q := 1 / (1 + m_exp (- (lvl - 10) / 6)) in
    let bearing_noise := radians (active_brg_sigma_deg cfg) * (1 - q) in
    let range_noise := pmax 5 (active_rng_sigma_m cfg * (1 - q)) in
    let est_brg :=
      wrap_angle (pp_bearing p + uniform g n (- bearing_noise) bearing_noise) in
    let est_rng :=
      pmax 1 (pp_rng p + uniform g (n + 1) (- range_noise) range_noise) in
    let depth_noise := pmax 15 ((est_rng / 50) * (1 - q) * 25) in
    let est_depth :=
      pmax 0 (pp_target_depth p
              + uniform g (n + 2) (- depth_noise) depth_noise) in
    let obs_heading :=
      match find (fun s => String.eqb (s_id s) (pp_observer_sub_id p)) subs with
      | Some obs => s_heading obs
      | None => 0
      end in
    let '(evs, n') := echo_events cfg now g (n + 3) subs r in
    ((pp_observer_user_id p, "echo"%string,
      Echo (pp_observer_sub_id p) est_brg (wrap_angle (est_brg - obs_heading))
           est_rng est_depth q now) :: evs, n')
  end.

Definition process_active_pings `{Libm} (cfg : Cfg) (now : Q) (g : Rng)
    (n : nat) (subs : list SubModel) (pending : list PendingPing)
    : list PendingPing * list Event * nat :=
  let due := filter (fun p => Qleb (pp_eta p) now) pending in
  match due with
  | [] => (pending, [], n)
  | _ :: _ =>
    let '(evs, n') := echo_events cfg now g n subs due in
    (filter (fun p => Qltb now (pp_eta p)) pending, evs, n')
  end.

(** The tables and the process-memory state. *)
Record World : Type := mkWorld {
  w_users : list User;
  w_subs : list SubModel;
  w_torps : list TorpedoModel;
  w_fuelers : list FuelerModel;
  w_clouds : list Cloud;
  w_pending : list PendingPing
}.

(** The survival score and the physics step of one living submarine; a
    submarine whose health is 0 is skipped and marked dead. *)
Definition tick_sub `{Libm} (cfg : Cfg) (clouds : list Cloud) (dt now : Q)
    (s : SubModel) : SubModel :=
  if Qleb (s_health s) 0 then s
  else
    let base_rate := 1 in
    let multiplier := 1 + 0.5 * inject_Z (Z.max 0 (s_kills s)) in
    let s := set_s_score s (s_score s + base_rate * multiplier * dt) in
    update_sub cfg clouds dt now s.

(** The owner of a deleted submarine shifts its death timestamps. *)
Definition record_death (now : Q) (owner : Z) (users : list User) : list User :=
  map (fun u => if Z.eqb (u_id u) owner
                then mkUser (u_id u) (u_username u) (u_is_admin u)
                            now (u_last_death_ts u)
                else u)
      users.

Definition fueler_expired (now : Q) (f : FuelerModel) : bool :=
  let age := now - f_spawned_at f in
  Qltb 1200 age ||
  match f_empty_since f with
  | Some since => Qltb 300 (now - since)
  | None => false
  end.

(** One iteration of [game_loop]: [elapsed] is the wall-clock time since
    the last iteration, [clouds'] the hazard field as
    [ensure_dynamic_weather_clouds] leaves it (its random growth and
    trimming is not modelled: any field is allowed).  Returns the world
    after the commit, the events fanned out and the next draw. *)
Definition game_tick `{Libm} (cfg : Cfg) (elapsed now : Q) (g : Rng) (n : nat)
    (clouds' : list Cloud) (w : World) : World * list Event * nat :=
  let dt := pmax 0 (pmin elapsed 0.25) in
  let subs := w_subs w in
  let torps := w_torps w in
  let fuelers := w_fuelers w in
  let dead := filter (fun s => Qleb (s_health s) 0) subs in
  let subs := map (tick_sub cfg clouds' dt now) subs in
  let torps := map (update_torpedo cfg subs dt now) torps in
  let '(subs, fuelers) := process_refueling_mem cfg now dt subs fuelers in
  let torps := process_wire_links_mem cfg torps subs in
  let '(torps, subs, ev) := process_explosions_mem cfg now torps subs [] in
  let '(subs, torps, ev, n1) :=
    schedule_passive_contacts cfg clouds' now g n subs torps ev in
  let '(pending, echoes, n2) :=
    process_active_pings cfg now g n1 subs (w_pending w) in
  (* commit *)
  let is_dead (s : SubModel) :=
    existsb (fun d => String.eqb (s_id d) (s_id s)) dead in
  let users :=
    fold_left (fun us d => record_death now (s_owner_id d) us) dead (w_users w) in
  (mkWorld users
           (filter (fun s => negb (is_dead s)) subs)
           (filter (fun t => negb (t_delete t || t_expired t)) torps)
           (filter (fun f => negb (fueler_expired now f)) fuelers)
           clouds' pending,
   echoes ++ ev, n2).

(** ** Requests *)

Inductive Request : Type :=
| ReqRegisterSub (new_id : string)
| ReqControl (sub_id : string) (d : ControlArgs)
| ReqSnorkel (sub_id : string) (toggle : bool) (on : option bool)
| ReqEmergencyBlow (sub_id : string)
| ReqLaunchTorpedo (sub_id : string) (range : option Q) (new_id : string)
| ReqReloadTorpedoes (sub_id : string) (count : CountArg)
| ReqSetSubHeading (sub_id : string) (heading_deg : HeadingArg)
| ReqTurnSub (sub_id : string) (turn_deg : option Q)
| ReqSetPassiveArray (sub_id : string) (dir_deg : option Q)
| ReqPing (sub_id : string) (a : PingArgs)
| ReqWeatherScan (sub_id : string)
| ReqCallFueler (sub_id : string) (new_id : string)
| ReqStartRefuel (sub_id : string)
| ReqSetTorpSpeed (torp_id : string) (speed : option Q)
| ReqSetTorpDepth (torp_id : string) (depth : option Q)
| ReqSetTorpHeading (torp_id : string) (dt : option Q) (arg : TorpHeadingArg)
| ReqSetTorpTargetHeading (torp_id : string) (heading_deg : HeadingArg)
| ReqTorpPing (torp_id : string) (max_range : option Q)
| ReqTorpPingToggle (torp_id : string)
| ReqTorpPassiveSonarToggle (torp_id : string)
| ReqDetonate (torp_id : string).

Definition with_subs (w : World) (subs : list SubModel) : World :=
  mkWorld (w_users w) subs (w_torps w) (w_fuelers w) (w_clouds w) (w_pending w).

Definition with_torps (w : World) (torps : list TorpedoModel) : World :=
  mkWorld (w_users w) (w_subs w) torps (w_fuelers w) (w_clouds w) (w_pending w).

(** The world after the authenticated request [req] of [user]. *)
Definition handle `{Libm} (cfg : Cfg) (now : Q) (g : Rng) (n : nat) (user : Z)
    (req : Request) (w : World) : World :=
  match req with
  | ReqRegisterSub new_id =>
    with_subs w (snd (register_sub cfg now user new_id g n (w_users w) (w_subs w)))
  | ReqControl sub_id d => with_subs w (snd (control cfg user sub_id d (w_subs w)))
  | ReqSnorkel sub_id toggle on =>
    with_subs w (snd (snorkel cfg user sub_id toggle on (w_subs w)))
  | ReqEmergencyBlow sub_id =>
    with_subs w (snd (emergency_blow cfg now user sub_id (w_subs w)))
  | ReqLaunchTorpedo sub_id range new_id =>
    let '(_, subs, torps) :=
      launch_torpedo cfg now user sub_id range new_id (w_subs w) (w_torps w) in
    with_torps (with_subs w subs) torps
  | ReqReloadTorpedoes sub_id count =>
    with_subs w (snd (reload_torpedoes cfg user sub_id count (w_subs w)))
  | ReqSetSubHeading sub_id heading_deg =>
    with_subs w (snd (set_sub_heading now user sub_id heading_deg (w_subs w)))
  | ReqTurnSub sub_id turn_deg =>
    with_subs w (snd (turn_sub now user sub_id turn_deg (w_subs w)))
  | ReqSetPassiveArray sub_id dir_deg =>
    with_subs w (snd (set_passive_array user sub_id dir_deg (w_subs w)))
  | ReqPing sub_id a =>
    let '(_, subs, echoes, _) :=
      ping cfg (w_clouds w) now user sub_id a (w_subs w) in
    mkWorld (w_users w) subs (w_torps w) (w_fuelers w) (w_clouds w)
            (w_pending w ++ echoes)
  | ReqWeatherScan sub_id =>
    with_subs w (snd (weather_scan cfg now user sub_id (w_subs w)))
  | ReqCallFueler sub_id new_id =>
    mkWorld (w_users w) (w_subs w) (w_torps w)
            (snd (call_fueler cfg (w_clouds w) now g n new_id user sub_id
                              (w_subs w) (w_fuelers w)))
            (w_clouds w) (w_pending w)
  | ReqStartRefuel sub_id =>
    with_subs w (snd (start_refuel cfg user sub_id (w_subs w) (w_fuelers w)))
  | ReqSetTorpSpeed torp_id speed =>
    with_torps w (snd (set_torp_speed cfg user torp_id speed (w_torps w)))
  | ReqSetTorpDepth torp_id depth =>
    with_torps w (snd (set_torp_depth user torp_id depth (w_torps w)))
  | ReqSetTorpHeading torp_id dt arg =>
    with_torps w (snd (set_torp_heading cfg now user torp_id dt arg (w_torps w)))
  | ReqSetTorpTargetHeading torp_id heading_deg =>
    with_torps w (snd (set_torp_target_heading now user torp_id heading_deg
                                               (w_torps w)))
  | ReqTorpPing torp_id max_range =>
    with_torps w (snd (torp_ping cfg g n user torp_id max_range (w_subs w)
                                 (w_torps w)))
  | ReqTorpPingToggle torp_id =>
    with_torps w (snd (torp_ping_toggle user torp_id (w_torps w)))
  | ReqTorpPassiveSonarToggle torp_id =>
    with_torps w (snd (torp_passive_sonar_toggle now user torp_id (w_torps w)))
  | ReqDetonate torp_id =>
    let '(_, subs, torps, _) :=
      detonate_torp cfg now user torp_id (w_subs w) (w_torps w) in
    with_torps (with_subs w subs) torps
  end.

(** [random.random()] returns a value of [[0, 1)]. *)
Definition unit_draws (g : Rng) : Prop := forall n, 0 <= g n /\ g n < 1.

(** A step of the system: an iteration of the game loop, or a request. *)
Inductive step `{Libm} (cfg : Cfg) : World -> World -> Prop :=
| step_tick (elapsed now : Q) (g : Rng) (n : nat) (clouds' : list Cloud)
            (w : World) :
    unit_draws g ->
    step cfg w (fst (fst (game_tick cfg elapsed now g n clouds' w)))
| step_request (now : Q) (g : Rng) (n : nat) (user : Z) (req : Request)
               (w : World) :
    unit_draws g ->
    step cfg w (handle cfg now g n user req w).

(** The states the system reaches from a world without submarines. *)
Inductive reachable `{Libm} (cfg : Cfg) : World -> Prop :=
| reach_init (w : World) : w_subs w = [] -> reachable cfg w
| reach_step (w w' : World) :
    reachable cfg w -> step cfg w w' -> reachable cfg w'.

(** The bounds of the data model on a submarine. *)
Definition sub_bounds (cfg : Cfg) (s : SubModel) : Prop :=
  0 <= s_battery s <= 100 /\
  0 <= s_fuel s <= bat_max_fuel_capacity cfg /\
  (0 <= s_torpedo_ammo s <= torp_magazine_size cfg)%Z /\
  0 <= s_blow_charge s <= 1 /\
  0 <= s_health s <= 100.

(** What the bounds ask of the configuration: initial batteries within
    [[0, 100]], a tank that holds the 1000 units a new row is given, a
    magazine size and a crush rate that are not negative. *)
Definition cfg_sane (cfg : Cfg) : Prop :=
  0 <= bat_initial_min cfg /\
  bat_initial_min cfg <= bat_initial_max cfg /\
  bat_initial_max cfg <= 100 /\
  1000 <= bat_max_fuel_capacity cfg /\
  (0 <= torp_magazine_size cfg)%Z /\
  0 <= sub_crush_dps_per_100m cfg.

(** ** Vocabulary of the properties *)

(** What a pass of [explode_torpedo_in_mem] may change on a submarine: the
    health, and the kill account. *)
Definition same_hull (a b : SubModel) : Prop :=
  s_id a = s_id b /\ s_owner_id a = s_owner_id b /\
  s_x a = s_x b /\ s_y a = s_y b /\ s_depth a = s_depth b.

(** The health [explode_torpedo_in_mem] leaves a submarine with. *)
Definition health_after_blast `{Libm} (cfg : Cfg) (t : TorpedoModel)
    (s : SubModel) : Q :=
  let d := distance3d (t_x t) (t_y t) (t_depth t) (s_x s) (s_y s) (s_depth s) in
  if Qleb d (torp_blast_radius cfg) && Qltb 0 (s_health s)
  then pmax 0 (s_health s - graduated_damage d)
  else s_health s.


(** A contact event queued by the observing submarine [id]. *)
Definition contact_from (id : string) (e : Event) : bool :=
  String.eqb (event_name e) "contact" &&
  match event_observer e with
  | Some o => String.eqb o id
  | None => false
  end.

(** What the stage may queue for the observer at index [j]: at most two
    contact events, at most one per kind of target, and a [last_report] of
    [now] if there is any. *)
Definition observer_quota (now : Q) (subs' : list SubModel) (j : nat)
    (mine : list Event) : Prop :=
  (List.length mine <= 2)%nat /\
  (List.length (filter is_submarine_contact mine) <= 1)%nat /\
  (List.length (filter is_torpedo_contact mine) <= 1)%nat /\
  (mine <> [] ->
   exists o', nth_error subs' j = Some o' /\ s_last_report o' = now).

(** ** Concrete worlds *)

(** A full-health submarine of user [owner] at [(x, 0)], depth [depth]. *)
Definition sub_at (id : string) (owner : Z) (x depth : Q) : SubModel :=
  set_s_depth (set_s_x (SubModel_defaults DEFAULT_CFG 0 id owner) x) depth.

(** A torpedo of user [owner], launched by [parent], at [(x, 0)]. *)
Definition torp_at (id : string) (owner : Z) (parent : string) (x depth : Q)
    : TorpedoModel :=
  set_t_depth (set_t_x (TorpedoModel_defaults DEFAULT_CFG 0 id owner parent) x)
              depth.

(** Submarine [B] of user 2 lies 70 m from torpedo [T] of user 1; [A], the
    submarine that launched [T], lies 12 m from it. *)
Definition sub_A : SubModel := sub_at "A" 1 0 100.
Definition sub_B70 : SubModel := sub_at "B" 2 82 100.
Definition sub_B50 : SubModel := sub_at "B" 2 62 100.
Definition torp_T : TorpedoModel := torp_at "T" 1 "A" 12 100.

(** User 1 owns two living submarines and never lost one. *)
Definition user_1 : User := mkUser 1 "u1" false 0 0.
Definition sub_A2 : SubModel := sub_at "A2" 1 1000 100.
Definition draws_half : Rng := fun _ => 1 # 2.

(** A ping with the default beam and range. *)
Definition default_ping : PingArgs := mkPingArgs None None None.

(** A foreign submarine [B] 300 m and a foreign torpedo [T2] 200 m east of
    [A]; [A2], a second submarine of user 1, 200 m east of [A]. *)
Definition sub_B300 : SubModel := sub_at "B" 2 300 100.
Definition torp_T2 : TorpedoModel := torp_at "T2" 2 "B" 200 100.
Definition sub_A2_near : SubModel := sub_at "A2" 1 200 100.
Definition event_summary (e : Event) : Z * option string * option string :=
  (event_user e, event_observer e, event_contact_type e).

(** User 1 with a death on record at time 99000, whose only row is the
    wreck of [A]: sunk, and not yet deleted by the game loop. *)
Definition user_1_bereaved : User := mkUser 1 "u1" false 99000 0.
Definition sub_A_wreck : SubModel := set_s_health sub_A 0.


(** A world with one user; the world after that user registers a
    submarine; and the world one tick (0.1 s) later. *)
Definition world_0 : World := mkWorld [user_1] [] [] [] [] [].
Definition world_1 : World :=
  handle DEFAULT_CFG 0 draws_half 0 1 (ReqRegisterSub "A") world_0.
Definition world_2 : World :=
  fst (fst (game_tick DEFAULT_CFG 0.1 0.1 draws_half 0 [] world_1)).

(** ** Vocabulary and worlds of the further properties *)

(** The submarine a request addresses, and the torpedo it addresses. *)
Definition request_sub (req : Request) : option string :=
  match req with
  | ReqControl sub_id _ | ReqSnorkel sub_id _ _ | ReqEmergencyBlow sub_id
  | ReqLaunchTorpedo sub_id _ _ | ReqReloadTorpedoes sub_id _
  | ReqSetSubHeading sub_id _ | ReqTurnSub sub_id _
  | ReqSetPassiveArray sub_id _ | ReqPing sub_id _ | ReqWeatherScan sub_id
  | ReqCallFueler sub_id _ | ReqStartRefuel sub_id => Some sub_id
  | _ => None
  end.

Definition request_torp (req : Request) : option string :=
  match req with
  | ReqSetTorpSpeed torp_id _ | ReqSetTorpDepth torp_id _
  | ReqSetTorpHeading torp_id _ _ | ReqSetTorpTargetHeading torp_id _
  | ReqTorpPing torp_id _ | ReqTorpPingToggle torp_id
  | ReqTorpPassiveSonarToggle torp_id | ReqDetonate torp_id => Some torp_id
  | _ => None
  end.

Definition is_detonate (req : Request) : bool :=
  match req with ReqDetonate _ => true | _ => false end.

(** Whether the caller owns the unit the request addresses: the test every
    handler of a unit starts with ([/register_sub] addresses none). *)
Definition owns_target (user : Z) (req : Request) (w : World) : bool :=
  match request_sub req, request_torp req with
  | Some sub_id, _ =>
    match owned_sub user sub_id (w_subs w) with Some _ => true | None => false end
  | None, Some torp_id =>
    match find_torp torp_id (w_torps w) with
    | Some t => Z.eqb (t_owner_id t) user
    | None => false
    end
  | None, None => true
  end.

(** A world of two players: [A] of user 1, [B] of user 2 300 m east of it,
    and the torpedoes [T] of user 1 and [T2] of user 2. *)
Definition world_duel : World :=
  mkWorld [user_1] [sub_A; sub_B300] [torp_T; torp_T2] [] [] [].

(** The submarines the game loop finds dead when an iteration begins. *)
Definition is_alive (s : SubModel) : bool := negb (Qleb (s_health s) 0).

(** How many of the submarines found dead belong to [uid]. *)
Definition deaths_of (uid : Z) (subs : list SubModel) : nat :=
  List.length (filter (fun d => Z.eqb (s_owner_id d) uid)
                      (filter (fun s => Qleb (s_health s) 0) subs)).

(** User 2, whose submarine [B] has been sunk, beside user 1's [A]. *)
Definition user_2 : User := mkUser 2 "u2" false 0 0.
Definition sub_B_sunk : SubModel := set_s_health sub_B300 0.
Definition world_wreck : World :=
  mkWorld [user_1; user_2] [sub_A; sub_B_sunk] [] [] [] [].

(** ** Vocabulary of a blast *)

(** The test [d <= blast and s.health > 0.0] of [explode_torpedo_in_mem]. *)
Definition blast_hit `{Libm} (cfg : Cfg) (t : TorpedoModel) (s : SubModel)
    : bool :=
  Qleb (distance3d (t_x t) (t_y t) (t_depth t) (s_x s) (s_y s) (s_depth s))
       (torp_blast_radius cfg)
  && Qltb 0 (s_health s).

(** The blast of [t] sinks [s]: [prev_health > 0.0 and s.health <= 0.0]. *)
Definition blast_kills `{Libm} (cfg : Cfg) (t : TorpedoModel) (s : SubModel)
    : bool :=
  blast_hit cfg t s &&
  Qleb (pmax 0 (s_health s
                - graduated_damage
                    (distance3d (t_x t) (t_y t) (t_depth t)
                                (s_x s) (s_y s) (s_depth s)))) 0.

(** The event a hit submarine's owner is sent. *)
Definition explosion_event `{Libm} (cfg : Cfg) (now : Q) (t : TorpedoModel)
    (s : SubModel) : Event :=
  let d := distance3d (t_x t) (t_y t) (t_depth t) (s_x s) (s_y s) (s_depth s) in
  (s_owner_id s, "explosion"%string,
   Explosion now (t_x t) (t_y t) (t_depth t) (t_id t) (torp_blast_radius cfg)
             (graduated_damage d) d).

(** The kills on the account of every submarine of the table. *)
Definition total_kills (subs : list SubModel) : Z :=
  fold_right Z.add 0%Z (map s_kills subs).

(** Whether the owner of [t] has a submarine in the table. *)
Definition owner_has_sub (t : TorpedoModel) (subs : list SubModel) : bool :=
  existsb (fun sub => Z.eqb (s_owner_id sub) (t_owner_id t)) subs.

(** A torpedo the explosion stage passes over: its fuze is not armed and
    its battery has not died. *)
Definition torp_inert (t : TorpedoModel) : Prop :=
  t_check_prox t = false /\ t_battery_dead t = false.

(** The wire of [t] holds: its parent is in the table, within the wire
    length. *)
Definition wire_holds `{Libm} (cfg : Cfg) (subs : list SubModel)
    (t : TorpedoModel) : bool :=
  match find (fun s => String.eqb (s_id s) (t_parent_sub t)) subs with
  | Some parent =>
    Qleb (distance (t_x t) (t_y t) (s_x parent) (s_y parent)) (wire_budget cfg t)
  | None => false
  end.

(** Torpedo [T] of user 1 after its parent has gone. *)
Definition world_orphan : World :=
  mkWorld [user_1] [sub_B300] [torp_T; torp_T2] [] [] [].

(** The diesel fuel aboard the submarines and the fuelers together. *)
Definition sumQ (l : list Q) : Q := fold_right Qplus 0 l.

Definition total_fuel (subs : list SubModel) (fuelers : list FuelerModel) : Q :=
  sumQ (map s_fuel subs) + sumQ (map f_fuel fuelers).

(** The stored energy of a submarine: battery charge plus diesel fuel, one
    fuel unit being one percent of battery. *)
Definition stored_energy (s : SubModel) : Q := s_battery s + s_fuel s.

(** A snorkelling submarine at 10 m with a half-charged battery. *)
Definition sub_A_snorkel : SubModel :=
  set_s_is_snorkeling (set_s_depth sub_A 10) true.

(** An echo whose time has come. *)
Definition echo_due (now : Q) (p : PendingPing) : bool := Qleb (pp_eta p) now.

(** What an [echo] event reports of the pending echo [p]: it goes to the
    user who pinged, names the pinging submarine, carries the time of the
    tick, a range of at least 1 m and a depth that is not negative. *)
Definition echo_reports (now : Q) (p : PendingPing) (e : Event) : Prop :=
  event_user e = pp_observer_user_id p /\
  event_name e = "echo"%string /\
  match snd e with
  | Echo observer _ _ range estimated_depth _ time =>
    observer = pp_observer_sub_id p /\ time = now /\
    1 <= range /\ 0 <= estimated_depth
  | _ => False
  end.

(** The observer reported less than the shortest report interval ago. *)
Definition reported_recently (cfg : Cfg) (now : Q) (s : SubModel) : Prop :=
  now - s_last_report s < fst (passive_report_interval_s cfg).

(** The point [(x, y)] keeps the spawn separation from every submarine. *)
Definition clear_of_subs `{Libm} (cfg : Cfg) (subs : list SubModel)
    (xy : Q * Q) : Prop :=
  Forall (fun s => safe_spawn_separation cfg
                   <= distance (fst xy) (snd xy) (s_x s) (s_y s)) subs.

(** The fuelers of the account [uid]. *)
Definition fuelers_of (uid : Z) (fuelers : list FuelerModel)
    : list FuelerModel :=
  filter (fun f => match f_owner_id f with
                   | Some o => Z.eqb o uid
                   | None => false
                   end) fuelers.

(** The ranges of the helm: the throttle, the planes and the rudder command
    as [/control] clamps them, and a depth that is not above the surface. *)
Definition helm_bounds (s : SubModel) : Prop :=
  0 <= s_throttle s <= 1 /\
  -1 <= s_planes s <= 1 /\
  -1 <= s_rudder_cmd s <= 1 /\
  0 <= s_depth s.

Definition helm_key (s : SubModel) : Q * Q * Q * Q :=
  (s_throttle s, s_planes s, s_rudder_cmd s, s_depth s).

(** The heading [/turn_sub] means to steer to, in degrees of the server's
    frame (0 = east, counter-clockwise): the current heading plus the turn,
    wrapped. *)
Definition turn_goal_deg `{Libm} (s : SubModel) (turn_deg : Q) : Q :=
  wrap_angle (s_heading s + radians turn_deg) * 180 / m_pi.

(** Submarine [A] heading north-east (45 degrees in the server's frame). *)
Definition sub_A_ne : SubModel := set_s_heading sub_A (Qpi / 4).

(** The refuelling timer of [s] stays below the 120 s of the warm-up after
    [dt] more seconds. *)
Definition warming_up (dt : Q) (s : SubModel) : Prop :=
  s_refuel_timer s + dt < 120.

(** Submarine [A], snorkelling at 10 m with a half-empty tank, bound to the
    fueler [F] above it. *)
Definition fueler_F : FuelerModel :=
  mkFueler "F" (Some 1%Z) 0 0 0 1000 1000 0 None.
Definition sub_A_moored : SubModel :=
  set_s_refuel_fueler_id
    (set_s_refuel_active (set_s_fuel sub_A_snorkel 500) true)
    (Some "F"%string).

(** * Properties *)

(** ** Comparisons and list updates *)

Lemma Qleb_true (a b : Q) : Qleb a b = true <-> a <= b.
Proof. apply Qle_bool_iff. Qed.

Lemma Qleb_false (a b : Q) : Qleb a b = false <-> b < a.
Proof.
  unfold Qleb. split; intro E.
  - apply Qnot_le_lt. intro A. apply Qle_bool_iff in A. congruence.
  - destruct (Qle_bool a b) eqn:B; [|reflexivity].
    apply Qle_bool_iff in B. lra.
Qed.

Lemma Qltb_true (a b : Q) : Qltb a b = true <-> a < b.
Proof.
  unfold Qltb. rewrite negb_true_iff. apply (Qleb_false b a).
Qed.

Lemma Qltb_false (a b : Q) : Qltb a b = false <-> b <= a.
Proof.
  unfold Qltb. rewrite negb_false_iff. apply (Qleb_true b a).
Qed.

(** Case analysis on every comparison of the goal, leaving the order facts
    as hypotheses. *)
Ltac qcase :=
  match goal with
  | |- context [Qleb ?a ?b] =>
    let E := fresh "E" in
    destruct (Qleb a b) eqn:E;
    [apply Qleb_true in E | apply Qleb_false in E]
  | |- context [Qltb ?a ?b] =>
    let E := fresh "E" in
    destruct (Qltb a b) eqn:E;
    [apply Qltb_true in E | apply Qltb_false in E]
  end.
Ltac qcases := repeat (qcase; cbn [andb orb negb]).

(** Decides a comparison between concrete rationals. *)
Ltac qdec :=
  first [ apply Qleb_true; vm_compute; reflexivity
        | apply Qltb_true; vm_compute; reflexivity
        | vm_compute; reflexivity ].

Lemma pmax_lb (a b : Q) : a <= pmax a b.
Proof. unfold pmax. qcases; lra. Qed.

Lemma pmax_cases (a b : Q) : (pmax a b = a /\ b <= a) \/ (pmax a b = b /\ a < b).
Proof. unfold pmax. qcases; [right | left]; split; auto. Qed.

Lemma pmin_cases (a b : Q) : (pmin a b = a /\ a <= b) \/ (pmin a b = b /\ b < a).
Proof. unfold pmin. qcases; [right | left]; split; auto. Qed.

Lemma clamp_bounds (v lo hi : Q) : lo <= hi -> lo <= clamp v lo hi <= hi.
Proof.
  intro A. unfold clamp.
  destruct (pmin_cases hi v) as [[-> B] | [-> B]];
    destruct (pmax_cases lo hi) as [[E C] | [E C]];
    destruct (pmax_cases lo v) as [[E' C'] | [E' C']];
    try rewrite E; try rewrite E'; lra.
Qed.

Lemma clamp_id (v lo hi : Q) : lo <= v <= hi -> clamp v lo hi == v.
Proof.
  intros [A B]. unfold clamp.
  destruct (pmin_cases hi v) as [[-> C] | [-> C]];
    destruct (pmax_cases lo hi) as [[E D] | [E D]];
    destruct (pmax_cases lo v) as [[E' D'] | [E' D']];
    try rewrite E; try rewrite E'; lra.
Qed.

Lemma upd_length {A : Type} (f : A -> A) (l : list A) (i : nat) :
  List.length (upd i f l) = List.length l.
Proof.
  revert i. induction l as [|a r IH]; intros [|i]; simpl; auto.
Qed.

Lemma nth_error_upd {A : Type} (f : A -> A) (l : list A) (i j : nat) :
  nth_error (upd i f l) j =
  if Nat.eqb j i then option_map f (nth_error l j) else nth_error l j.
Proof.
  revert i j. induction l as [|a r IH]; intros i j.
  - destruct i, j; simpl; try reflexivity; destruct (Nat.eqb j i); reflexivity.
  - destruct i, j; simpl; try reflexivity. apply IH.
Qed.

(** ** Angles *)

Lemma inject_nat_S (f : nat) :
  inject_Z (Z.of_nat (S f)) == inject_Z (Z.of_nat f) + 1.
Proof.
  rewrite Nat2Z.inj_succ. unfold Z.succ. rewrite inject_Z_plus. reflexivity.
Qed.

Lemma wrap_down_spec `{Libm} (fuel : nat) (a : Q) :
  0 < m_pi ->
  a < m_pi + 2 * m_pi * inject_Z (Z.of_nat fuel) ->
  wrap_down fuel a < m_pi /\
  (m_pi <= a -> - m_pi <= wrap_down fuel a) /\
  (a < m_pi -> wrap_down fuel a = a).
Proof.
  intro Hpi. revert a. induction fuel as [|f IH]; intros a Ha.
  - cbn [wrap_down]. change (inject_Z (Z.of_nat 0)) with 0 in Ha.
    repeat split; auto; lra.
  - cbn [wrap_down]. rewrite inject_nat_S in Ha.
    destruct (Qleb m_pi a) eqn:E;
      [apply Qleb_true in E | apply Qleb_false in E].
    + destruct (IH (a - 2 * m_pi)) as (I1 & I2 & I3); [lra|].
      split; [exact I1|]. split; [|lra].
      intros _. destruct (Qlt_le_dec (a - 2 * m_pi) m_pi) as [L | L].
      * rewrite (I3 L). lra.
      * apply I2. exact L.
    + repeat split; auto; lra.
Qed.

Lemma wrap_up_spec `{Libm} (fuel : nat) (a : Q) :
  0 < m_pi ->
  - m_pi - 2 * m_pi * inject_Z (Z.of_nat fuel) <= a ->
  - m_pi <= wrap_up fuel a /\
  (a < - m_pi -> wrap_up fuel a < m_pi) /\
  (- m_pi <= a -> wrap_up fuel a = a).
Proof.
  intro Hpi. revert a. induction fuel as [|f IH]; intros a Ha.
  - cbn [wrap_up]. change (inject_Z (Z.of_nat 0)) with 0 in Ha.
    repeat split; auto; lra.
  - cbn [wrap_up]. rewrite inject_nat_S in Ha.
    destruct (Qltb a (- m_pi)) eqn:E;
      [apply Qltb_true in E | apply Qltb_false in E].
    + destruct (IH (a + 2 * m_pi)) as (I1 & I2 & I3); [lra|].
      split; [exact I1|]. split; [|lra].
      intros _. destruct (Qlt_le_dec (a + 2 * m_pi) (- m_pi)) as [L | L].
      * apply I2. exact L.
      * rewrite (I3 L). lra.
    + repeat split; auto; lra.
Qed.

Lemma turns_enough `{Libm} (a : Q) :
  0 < m_pi -> Qabs a < 2 * m_pi * inject_Z (Z.of_nat (turns a)).
Proof.
  intro Hpi. unfold turns. rewrite inject_nat_S.
  set (x := Qabs a / (2 * m_pi)).
  assert (X0 : 0 <= x).
  { unfold x. apply Qle_shift_div_l; [lra|]. rewrite Qmult_0_l.
    apply Qabs_nonneg. }
  assert (F0 : (0 <= Qfloor x)%Z).
  { change 0%Z with (Qfloor 0). apply Qfloor_resp_le. exact X0. }
  rewrite Z2Nat.id by exact F0.
  pose proof (Qlt_floor x) as L. rewrite inject_Z_plus in L.
  change (inject_Z 1) with 1 in L.
  assert (E : Qabs a == x * (2 * m_pi)).
  { unfold x. field. lra. }
  rewrite E.
  assert (P : 0 < (inject_Z (Qfloor x) + 1 - x) * (2 * m_pi)).
  { apply Qmult_lt_0_compat; lra. }
  setoid_replace (2 * m_pi * (inject_Z (Qfloor x) + 1))
    with (x * (2 * m_pi) + (inject_Z (Qfloor x) + 1 - x) * (2 * m_pi)) by ring.
  lra.
Qed.

(** The two loops of [wrap_angle] end within the turns the model gives
    them, and the result lies in [[-pi, pi)]. *)
Lemma wrap_angle_range `{Libm} (a : Q) :
  0 < m_pi -> - m_pi <= wrap_angle a < m_pi.
Proof.
  intro Hpi. unfold wrap_angle.
  pose proof (turns_enough a Hpi) as Ta.
  pose proof (Qle_Qabs a) as A1.
  destruct (wrap_down_spec (turns a) a Hpi) as (D1 & D2 & D3); [lra|].
  set (a1 := wrap_down (turns a) a) in *.
  pose proof (turns_enough a1 Hpi) as T1.
  assert (A2 : - Qabs a1 <= a1).
  { pose proof (Qle_Qabs (- a1)) as Q. rewrite Qabs_opp in Q. lra. }
  destruct (wrap_up_spec (turns a1) a1 Hpi) as (U1 & U2 & U3); [lra|].
  split; [exact U1|].
  destruct (Qlt_le_dec a1 (- m_pi)) as [L | L].
  - apply U2. exact L.
  - rewrite (U3 L). exact D1.
Qed.

(** ** Blast damage *)

Lemma same_hull_refl (a : SubModel) : same_hull a a.
Proof. repeat split. Qed.

Lemma same_hull_trans (a b c : SubModel) :
  same_hull a b -> same_hull b c -> same_hull a c.
Proof.
  unfold same_hull. intros (A1 & A2 & A3 & A4 & A5) (B1 & B2 & B3 & B4 & B5).
  repeat split; congruence.
Qed.

Lemma health_after_blast_hull `{Libm} (cfg : Cfg) (t : TorpedoModel)
    (a b : SubModel) :
  same_hull a b -> s_health a = s_health b ->
  health_after_blast cfg t a = health_after_blast cfg t b.
Proof.
  intros (_ & _ & X & Y & Z) Hh. unfold health_after_blast.
  rewrite X, Y, Z, Hh. reflexivity.
Qed.

Lemma explode_one_spec `{Libm} (cfg : Cfg) (now : Q) (t : TorpedoModel)
    (i : nat) (subs : list SubModel) (ev : list Event) (j : nat) (s : SubModel) :
  nth_error subs j = Some s ->
  exists s', nth_error (fst (explode_one cfg now t i (subs, ev))) j = Some s' /\
             same_hull s s' /\
             s_health s' = if Nat.eqb j i then health_after_blast cfg t s
                           else s_health s.
Proof.
  intro Hj. unfold explode_one.
  destruct (nth_error subs i) as [si|] eqn:Hi.
  2:{ exists s. simpl. split; [exact Hj|]. split; [apply same_hull_refl|].
      destruct (Nat.eqb j i) eqn:E; [|reflexivity].
      apply Nat.eqb_eq in E. subst. congruence. }
  set (d := distance3d _ _ _ _ _ _).
  destruct (Qleb d (torp_blast_radius cfg) && Qltb 0 (s_health si)) eqn:Hit.
  2:{ exists s. simpl. split; [exact Hj|]. split; [apply same_hull_refl|].
      destruct (Nat.eqb j i) eqn:E; [|reflexivity].
      apply Nat.eqb_eq in E. subst. rewrite Hi in Hj. inversion Hj; subst.
      unfold health_after_blast. fold d. rewrite Hit. reflexivity. }
  set (h' := pmax 0 (s_health si - graduated_damage d)).
  set (subs1 := upd i (fun o => set_s_health o h') subs).
  assert (S1 : exists s1, nth_error subs1 j = Some s1 /\ same_hull s s1 /\
                 s_health s1 = if Nat.eqb j i then health_after_blast cfg t s
                               else s_health s).
  { unfold subs1. rewrite nth_error_upd. destruct (Nat.eqb j i) eqn:E.
    - apply Nat.eqb_eq in E. subst. rewrite Hi in Hj. inversion Hj; subst.
      rewrite Hi. simpl. eexists. split; [reflexivity|].
      split; [repeat split|].
      unfold health_after_blast. fold d. rewrite Hit. reflexivity.
    - exists s. split; [exact Hj|]. split; [apply same_hull_refl|reflexivity]. }
  destruct S1 as (s1 & N1 & G1 & H1).
  cbn [fst].
  match goal with
  | |- context [if ?c then _ else subs1] => destruct c
  end.
  2:{ exists s1. auto. }
  destruct (find_index _ subs1) as [k|].
  2:{ exists s1. auto. }
  rewrite nth_error_upd. rewrite N1.
  destruct (Nat.eqb j k).
  - simpl. eexists. split; [reflexivity|]. split.
    + eapply same_hull_trans; [exact G1|]. repeat split.
    + exact H1.
  - exists s1. auto.
Qed.

Lemma explode_fold_spec `{Libm} (cfg : Cfg) (now : Q) (t : TorpedoModel)
    (n a : nat) (subs : list SubModel) (ev : list Event) (j : nat) (s : SubModel) :
  nth_error subs j = Some s ->
  exists s',
    nth_error (fst (fold_left (fun st i => explode_one cfg now t i st)
                              (seq a n) (subs, ev))) j = Some s' /\
    same_hull s s' /\
    s_health s' = if (a <=? j)%nat && (j <? a + n)%nat
                  then health_after_blast cfg t s else s_health s.
Proof.
  revert a subs ev s. induction n as [|n IH]; intros a subs ev s Hj.
  - exists s. simpl. split; [exact Hj|]. split; [apply same_hull_refl|].
    replace (j <? a + 0)%nat with (j <? a)%nat by (f_equal; lia).
    destruct (a <=? j)%nat eqn:A; destruct (j <? a)%nat eqn:B; try reflexivity.
    apply Nat.leb_le in A. apply Nat.ltb_lt in B. lia.
  - cbn [seq fold_left].
    destruct (explode_one_spec cfg now t a subs ev j s Hj) as (s1 & N1 & G1 & H1).
    destruct (explode_one cfg now t a (subs, ev)) as [subs1 ev1] eqn:E1.
    simpl in N1.
    destruct (IH (S a) subs1 ev1 s1 N1) as (s2 & N2 & G2 & H2).
    exists s2. split; [exact N2|]. split; [eapply same_hull_trans; eauto|].
    rewrite H2.
    destruct (Nat.eqb j a) eqn:Eja.
    + apply Nat.eqb_eq in Eja. subst j.
      replace (S a <=? a)%nat with false by (symmetry; apply Nat.leb_gt; lia).
      replace (a <=? a)%nat with true by (symmetry; apply Nat.leb_le; lia).
      replace (a <? a + S n)%nat with true by (symmetry; apply Nat.ltb_lt; lia).
      simpl. exact H1.
    + apply Nat.eqb_neq in Eja.
      replace (j <? S a + n)%nat with (j <? a + S n)%nat by (f_equal; lia).
      destruct (j <? a + S n)%nat; rewrite ?andb_false_r.
      2:{ exact H1. }
      rewrite !andb_true_r.
      destruct (S a <=? j)%nat eqn:A.
      * apply Nat.leb_le in A.
        replace (a <=? j)%nat with true by (symmetry; apply Nat.leb_le; lia).
        rewrite (health_after_blast_hull cfg t s s1 G1); [reflexivity|].
        symmetry. exact H1.
      * apply Nat.leb_gt in A.
        replace (a <=? j)%nat with false by (symmetry; apply Nat.leb_gt; lia).
        exact H1.
Qed.

Lemma graduated_damage_table (d : Q) :
  (d <= 60 -> graduated_damage d = 100) /\
  (60 < d <= 80 -> graduated_damage d = 75) /\
  (80 < d <= 100 -> graduated_damage d = 50) /\
  (100 < d -> graduated_damage d = 25).
Proof.
  unfold graduated_damage.
  repeat split; intros; qcases; try reflexivity; lra.
Qed.

Lemma explode_torpedo_in_mem_health `{Libm} (cfg : Cfg) (now : Q)
    (t : TorpedoModel) (subs : list SubModel) (ev : list Event)
    (i : nat) (s : SubModel) :
  nth_error subs i = Some s ->
  exists s',
    nth_error (fst (explode_torpedo_in_mem cfg now t subs ev)) i = Some s' /\
    same_hull s s' /\ s_health s' = health_after_blast cfg t s.
Proof.
  intro Hi. unfold explode_torpedo_in_mem.
  destruct (explode_fold_spec cfg now t (List.length subs) 0 subs ev i s Hi)
    as (s' & N & G & Hh).
  exists s'. split; [exact N|]. split; [exact G|].
  rewrite Hh.
  assert (i < List.length subs)%nat
    by (apply nth_error_Some; congruence).
  replace (0 <=? i)%nat with true by (symmetry; apply Nat.leb_le; lia).
  replace (i <? 0 + List.length subs)%nat with true
    by (symmetry; apply Nat.ltb_lt; lia).
  reflexivity.
Qed.

Lemma detonate_torp_subs `{Libm} (cfg : Cfg) (now : Q) (user : Z)
    (torp_id : string) (subs : list SubModel) (torps : list TorpedoModel)
    (t : TorpedoModel) :
  find (fun o => String.eqb (t_id o) torp_id) torps = Some t ->
  t_owner_id t = user ->
  snd (fst (fst (detonate_torp cfg now user torp_id subs torps))) =
  map (detonate_sub cfg t) subs.
Proof.
  intros F O. unfold detonate_torp. rewrite F.
  rewrite O, Z.eqb_refl. reflexivity.
Qed.

(** C1, as the code has it.  A detonation damages a submarine only inside
    [blast_radius] (and, in the tick's [explode_torpedo_in_mem], only while
    its health is positive); there the damage is 100 up to 60 m, 75 up to
    80 m, 50 up to 100 m and 25 beyond, and the health becomes
    [max(0, health - damage)].  Outside [blast_radius] the health is left
    as it is.  The tick path measures [distance3d]; the command-detonate
    path measures [sqrt(horiz^2 + vert^2)]. *)
Theorem blast_damage_inside_radius `{Libm} (cfg : Cfg) (now : Q) (user : Z)
    (t : TorpedoModel) (subs : list SubModel) (torps : list TorpedoModel)
    (ev : list Event) (i : nat) (s : SubModel) :
  nth_error subs i = Some s ->
  find (fun o => String.eqb (t_id o) (t_id t)) torps = Some t ->
  t_owner_id t = user ->
  let blast := torp_blast_radius cfg in
  let d := distance3d (t_x t) (t_y t) (t_depth t) (s_x s) (s_y s) (s_depth s) in
  let horiz := distance (t_x t) (t_y t) (s_x s) (s_y s) in
  let vert := Qabs (t_depth t - s_depth s) in
  let d' := m_sqrt (horiz * horiz + vert * vert) in
  let damage (r : Q) : Q :=
    if Qleb r 60 then 100 else if Qleb r 80 then 75
    else if Qleb r 100 then 50 else 25 in
  (exists s1,
      nth_error (fst (explode_torpedo_in_mem cfg now t subs ev)) i = Some s1 /\
      (d <= blast -> 0 < s_health s ->
       s_health s1 = pmax 0 (s_health s - damage d)) /\
      (blast < d \/ s_health s <= 0 -> s_health s1 = s_health s)) /\
  (exists s2,
      nth_error
        (snd (fst (fst (detonate_torp cfg now user (t_id t) subs torps)))) i
      = Some s2 /\
      (d' <= blast -> s_health s2 = pmax 0 (s_health s - damage d')) /\
      (blast < d' -> s_health s2 = s_health s)).
Proof.
  intros Hi F O blast d horiz vert d' damage. split.
  - destruct (explode_torpedo_in_mem_health cfg now t subs ev i s Hi)
      as (s1 & N & _ & Hh).
    exists s1. split; [exact N|].
    unfold health_after_blast in Hh. fold d in Hh. fold blast in Hh.
    split.
    + intros A B. apply Qleb_true in A. apply Qltb_true in B.
      rewrite A, B in Hh. exact Hh.
    + intros [A | A].
      * apply Qleb_false in A. rewrite A in Hh. exact Hh.
      * apply Qltb_false in A. rewrite A, andb_false_r in Hh. exact Hh.
  - rewrite (detonate_torp_subs cfg now user (t_id t) subs torps t F O).
    exists (detonate_sub cfg t s). split.
    + rewrite nth_error_map, Hi. reflexivity.
    + unfold detonate_sub, detonate_damage.
      fold horiz. fold vert. fold d'. fold blast. split; intro A.
      * apply Qleb_true in A. rewrite A. reflexivity.
      * apply Qleb_false in A. rewrite A. reflexivity.
Qed.

Lemma blast_damage_inside_radius_witness :
  exists s1,
    nth_error (fst (explode_torpedo_in_mem DEFAULT_CFG 0 torp_T [sub_B50] [])) 0
    = Some s1 /\
    s_health s1 = pmax 0 (100 - 100).
Proof.
  destruct (blast_damage_inside_radius DEFAULT_CFG 0 1 torp_T [sub_B50]
              [torp_T] [] 0 sub_B50 eq_refl eq_refl eq_refl)
    as [(s1 & N & A & _) _].
  exists s1. split; [exact N|].
  apply A; qdec.
Defined.

(** C1 as stated fails: with the default [blast_radius] of 60 m a submarine
    70 m from the detonation keeps its health and no explosion event is
    queued, on the tick path and on the command-detonate path, where the
    claim promises 75 damage. *)
Lemma blast_damage_none_at_70m :
  distance3d (t_x torp_T) (t_y torp_T) (t_depth torp_T)
             (s_x sub_B70) (s_y sub_B70) (s_depth sub_B70) == 70 /\
  explode_torpedo_in_mem DEFAULT_CFG 0 torp_T [sub_B70] [] = ([sub_B70], []) /\
  detonate_torp DEFAULT_CFG 0 1 "T" [sub_B70] [torp_T]
  = (Ok 0%Z, [sub_B70], [], []).
Proof.
  split; [reflexivity|]. split; vm_compute; reflexivity.
Qed.

(** ** Minimum safe distance *)

(** C2, as the code has it.  In the tick's fuze resolution a torpedo that is
    not due for its battery-dead detonation and lies less than 150 m (3D)
    from the submarine that launched it changes no submarine and queues no
    event. *)
Theorem fuze_spares_parent_within_150m `{Libm} (cfg : Cfg) (now : Q) (k : nat)
    (torps : list TorpedoModel) (subs : list SubModel) (ev : list Event)
    (t : TorpedoModel) (p : SubModel) :
  nth_error torps k = Some t ->
  t_battery_dead t && negb (t_delete t) = false ->
  t_parent_sub t <> ""%string ->
  find (fun s => String.eqb (s_id s) (t_parent_sub t)) subs = Some p ->
  getd (t_min_safe_distance t) 150 == 150 ->
  distance3d (t_x t) (t_y t) (t_depth t) (s_x p) (s_y p) (s_depth p) < 150 ->
  exists torps',
    process_one_torpedo cfg now k (torps, subs, ev) = (torps', subs, ev).
Proof.
  intros Hk Hdead Hp Hfind Hsafe Hd.
  unfold process_one_torpedo. rewrite Hk, Hdead.
  destruct (t_expired t); [eexists; reflexivity|].
  destruct (t_check_prox t); [|eexists; reflexivity].
  assert (C : too_close_to_parent t subs = true).
  { unfold too_close_to_parent.
    destruct (String.eqb (t_parent_sub t) "") eqn:E.
    - apply String.eqb_eq in E. contradiction.
    - cbn [negb]. rewrite Hfind. apply Qltb_true. lra. }
  rewrite C. eexists; reflexivity.
Qed.

Lemma fuze_spares_parent_within_150m_witness :
  exists torps',
    process_one_torpedo DEFAULT_CFG 0 0
      ([set_t_check_prox torp_T true], [sub_A; sub_B50], [])
    = (torps', [sub_A; sub_B50], []).
Proof.
  apply (fuze_spares_parent_within_150m DEFAULT_CFG 0 0
           [set_t_check_prox torp_T true] [sub_A; sub_B50] []
           (set_t_check_prox torp_T true) sub_A);
    try reflexivity.
  discriminate.
Defined.

(** C2 as stated fails on the command-detonate API: [detonate_torp] has no
    minimum-safe-distance check.  Torpedo [T], battery full, 12 m from its
    living parent [A], is detonated by its owner and [A] loses all of its
    health. *)
Lemma detonate_torp_damages_parent_at_12m :
  t_parent_sub torp_T = s_id sub_A /\
  t_battery torp_T == 100 /\ t_battery_dead torp_T = false /\
  s_health sub_A == 100 /\
  distance3d (t_x torp_T) (t_y torp_T) (t_depth torp_T)
             (s_x sub_A) (s_y sub_A) (s_depth sub_A) == 12 /\
  map s_health
      (snd (fst (fst (detonate_torp DEFAULT_CFG 0 1 "T" [sub_A] [torp_T]))))
  = [0].
Proof.
  repeat split; vm_compute; reflexivity.
Qed.

(** ** Launch, then reload *)

Lemma owned_sub_commit (user : Z) (sub_id : string) (subs : list SubModel)
    (s s' : SubModel) :
  owned_sub user sub_id subs = Some s ->
  s_id s' = s_id s -> s_owner_id s' = s_owner_id s ->
  owned_sub user sub_id (commit_sub s' subs) = Some s'.
Proof.
  unfold owned_sub, commit_sub. intros Ho Hid Hown.
  destruct (find _ subs) as [s0|] eqn:F; [|discriminate].
  destruct (Z.eqb (s_owner_id s0) user) eqn:O; [|discriminate].
  inversion Ho; subst s0. clear Ho.
  assert (G : find (fun o => String.eqb (s_id o) sub_id)
                   (map (fun o => if String.eqb (s_id o) (s_id s') then s' else o)
                        subs) = Some s').
  { revert F. induction subs as [|a r IH]; simpl; [discriminate|].
    intro F. destruct (String.eqb (s_id a) sub_id) eqn:E.
    - inversion F; subst a. rewrite Hid, String.eqb_refl, Hid, E. reflexivity.
    - destruct (String.eqb (s_id a) (s_id s')) eqn:E'.
      + apply find_some in F. destruct F as [_ F].
        apply String.eqb_eq in E', F. rewrite E', Hid, F in E.
        rewrite String.eqb_refl in E. discriminate.
      + rewrite E. apply IH. exact F. }
  rewrite G, Hown, O. reflexivity.
Qed.

(** C9.  A submarine within the bounds of the data model ([sub_bounds],
    which every reachable submarine is), with at least one round loaded and
    a battery of at least [reload_battery_cost_per_torp], a cost that is not
    negative, launches a torpedo and reloads one round: both calls succeed,
    the launch leaves the battery as it was, and in the end [torpedo_ammo]
    is what it was and the battery is lower by exactly
    [reload_battery_cost_per_torp]. *)
Theorem launch_then_reload_one_round `{Libm} (cfg : Cfg) (now : Q) (user : Z)
    (sub_id : string) (range : option Q) (new_id : string)
    (subs : list SubModel) (torps : list TorpedoModel) (s : SubModel) :
  owned_sub user sub_id subs = Some s ->
  sub_bounds cfg s ->
  (1 <= s_torpedo_ammo s)%Z ->
  0 <= torp_reload_battery_cost_per_torp cfg <= s_battery s ->
  exists lb subs1 torps1 s1 rb subs2 s2,
    launch_torpedo cfg now user sub_id range new_id subs torps
      = (Ok lb, subs1, torps1) /\
    owned_sub user sub_id subs1 = Some s1 /\
    s_torpedo_ammo s1 = (s_torpedo_ammo s - 1)%Z /\
    s_battery s1 = s_battery s /\
    reload_torpedoes cfg user sub_id (Count 1) subs1 = (Ok rb, subs2) /\
    owned_sub user sub_id subs2 = Some s2 /\
    s_torpedo_ammo s2 = s_torpedo_ammo s /\
    s_battery s2 == s_battery s - torp_reload_battery_cost_per_torp cfg.
Proof.
  intros Ho ([_ B2] & _ & [_ A2] & _) A1 [C B1].
  set (cost := torp_reload_battery_cost_per_torp cfg) in *.
  set (s1 := set_s_torpedo_ammo s (s_torpedo_ammo s - 1)%Z).
  assert (O1 : owned_sub user sub_id (commit_sub s1 subs) = Some s1)
    by (apply (owned_sub_commit user sub_id subs s s1 Ho); reflexivity).
  set (s2 := set_s_torpedo_ammo
               (set_s_battery s1 (clamp (s_battery s1 - cost * inject_Z 1) 0 100))
               (s_torpedo_ammo s1 + 1)%Z).
  assert (O2 : owned_sub user sub_id (commit_sub s2 (commit_sub s1 subs)) = Some s2)
    by (apply (owned_sub_commit user sub_id _ s1 s2 O1); reflexivity).
  unfold launch_torpedo. rewrite Ho.
  replace (s_torpedo_ammo s <=? 0)%Z with false by (symmetry; apply Z.leb_gt; lia).
  do 3 eexists. exists s1. do 2 eexists. exists s2.
  split; [reflexivity|]. fold s1.
  split; [exact O1|]. split; [reflexivity|]. split; [reflexivity|].
  unfold reload_torpedoes. rewrite O1. fold cost.
  replace (s_torpedo_ammo s1) with (s_torpedo_ammo s - 1)%Z by reflexivity.
  replace (Z.max 0 (torp_magazine_size cfg - (s_torpedo_ammo s - 1)) <=? 0)%Z
    with false by (symmetry; apply Z.leb_gt; lia).
  cbn [Z.leb Z.compare].
  replace (Z.min 1 (Z.max 0 (torp_magazine_size cfg - (s_torpedo_ammo s - 1))))
    with 1%Z by lia.
  replace (s_battery s1) with (s_battery s) by reflexivity.
  assert (E : Qltb (s_battery s) (cost * inject_Z 1) = false)
    by (apply Qltb_false; change (inject_Z 1) with 1; lra).
  rewrite E.
  split; [reflexivity|]. split; [exact O2|].
  split.
  - unfold s2, s1. cbn [s_torpedo_ammo set_s_torpedo_ammo set_s_battery]. lia.
  - unfold s2. cbn [s_battery set_s_torpedo_ammo set_s_battery].
    replace (s_battery s1) with (s_battery s) by reflexivity.
    change (inject_Z 1) with 1.
    rewrite clamp_id; [ring | lra].
Qed.

Lemma launch_then_reload_one_round_witness :
  exists lb subs1 torps1 s1 rb subs2 s2,
    launch_torpedo DEFAULT_CFG 0 1 "A" None "T" [sub_A] []
      = (Ok lb, subs1, torps1) /\
    owned_sub 1 "A" subs1 = Some s1 /\
    s_torpedo_ammo s1 = (s_torpedo_ammo sub_A - 1)%Z /\
    s_battery s1 = s_battery sub_A /\
    reload_torpedoes DEFAULT_CFG 1 "A" (Count 1) subs1 = (Ok rb, subs2) /\
    owned_sub 1 "A" subs2 = Some s2 /\
    s_torpedo_ammo s2 = s_torpedo_ammo sub_A /\
    s_battery s2 ==
      s_battery sub_A - torp_reload_battery_cost_per_torp DEFAULT_CFG.
Proof.
  apply (launch_then_reload_one_round DEFAULT_CFG 0 1 "A" None "T"
           [sub_A] [] sub_A).
  - reflexivity.
  - unfold sub_bounds.
    repeat split; try qdec; vm_compute; discriminate.
  - vm_compute. discriminate.
  - split; qdec.
Defined.

(** ** Respawn cooldown *)

(** C3, what the code does.  [register_sub] counts the rows of the caller
    in the table, [current_subs], whatever their health: a wreck the game
    loop has not deleted yet counts like a living submarine.  It answers
    HTTP 400 with [cooldown_remaining_s] exactly when the caller has a user
    row, [current_subs] is at least one, the cooldown is positive and
    [current_subs] fills the slots left, which are [max_per_user] less the
    number of death timestamps that are set and younger than the cooldown
    (not below 0).  A caller without a row in the table is never
    refused. *)
Theorem register_sub_refusal_iff `{Libm} (cfg : Cfg) (now_ts : Q) (user : Z)
    (new_id : string) (g : Rng) (n : nat)
    (users : list User) (subs : list SubModel) :
  let current_subs :=
    Z.of_nat (List.length (filter (fun s => Z.eqb (s_owner_id s) user) subs)) in
  let cooldown_s := getd (sub_respawn_cooldown_s cfg) 7200 in
  let blocked (u : User) :=
    Z.of_nat (List.length (filter (cooldown_active cooldown_s now_ts)
                                  [u_last_death_ts u; u_prev_death_ts u])) in
  let reply := fst (register_sub cfg now_ts user new_id g n users subs) in
  (is_cooldown_error reply = true <->
   exists u, find (fun u => Z.eqb (u_id u) user) users = Some u /\
             (0 < current_subs)%Z /\ 0 < cooldown_s /\
             (Z.max 0 (sub_max_per_user cfg - blocked u) <= current_subs)%Z) /\
  (current_subs = 0%Z -> exists body, reply = Ok body).
Proof.
  intros current_subs cooldown_s blocked reply.
  unfold reply, register_sub. fold current_subs. fold cooldown_s.
  destruct (random_spawn_pos cfg g n subs) as [[x y] n1].
  destruct (find (fun u => Z.eqb (u_id u) user) users) as [u|].
  2:{ split; [|intros _; eexists; reflexivity].
      cbn. split; [discriminate|]. intros (u & F & _). discriminate. }
  destruct (0 <? current_subs)%Z eqn:C.
  2:{ apply Z.ltb_ge in C. cbn. split; [|intros _; eexists; reflexivity].
      split; [discriminate|]. intros (u' & _ & A & _). lia. }
  apply Z.ltb_lt in C.
  destruct (Qltb 0 cooldown_s) eqn:D.
  2:{ apply Qltb_false in D. cbn. split; [|intro; lia].
      split; [discriminate|]. intros (u' & _ & _ & A & _). lra. }
  apply Qltb_true in D. cbn [andb].
  rewrite length_map.
  fold (blocked u).
  set (avail := (sub_max_per_user cfg - blocked u)%Z).
  assert (A : (if (avail <? 0)%Z then 0%Z else avail) = Z.max 0 avail).
  { destruct (avail <? 0)%Z eqn:E;
      [apply Z.ltb_lt in E | apply Z.ltb_ge in E]; lia. }
  rewrite A.
  destruct (Z.max 0 avail <=? current_subs)%Z eqn:E.
  - apply Z.leb_le in E. split; [|intro; lia].
    cbn. split; [|reflexivity]. intros _. exists u. auto.
  - apply Z.leb_gt in E. split; [|intro; lia].
    cbn. split; [discriminate|].
    intros (u' & F & _ & _ & B). inversion F; subst u'. lia.
Qed.

(** The cooldown holds against a user without a living submarine.  User 1
    lost a submarine 1000 s ago and the only row left is the wreck of [A],
    sunk and waiting for the game loop to delete it: no submarine of the
    user is alive, and [register_sub] still answers HTTP 400 with 6200 s of
    cooldown remaining. *)
Lemma register_sub_refuses_owner_of_a_wreck :
  filter (fun s => Z.eqb (s_owner_id s) 1 && Qltb 0 (s_health s))
         [sub_A_wreck] = [] /\
  fst (register_sub DEFAULT_CFG 100000 1 "new" draws_half 0
                    [user_1_bereaved] [sub_A_wreck])
  = Err 400 "respawn cooldown active or slot limit reached"
        [("cooldown_remaining_s"%string, 6200);
         ("active_subs"%string, 1); ("available_slots"%string, 1)] /\
  is_cooldown_error
    (fst (register_sub DEFAULT_CFG 100000 1 "new" draws_half 0
                       [user_1_bereaved] [sub_A_wreck])) = true.
Proof.
  split; [reflexivity|]. split; [vm_compute; reflexivity|].
  pose proof (register_sub_refusal_iff DEFAULT_CFG 100000 1 "new" draws_half 0
                [user_1_bereaved] [sub_A_wreck]) as T.
  cbv zeta in T. destruct T as [[_ B] _]. apply B.
  exists user_1_bereaved. split; [reflexivity|].
  split; [cbn; lia|]. split; [qdec|]. vm_compute. discriminate.
Defined.

(** The slot limit gives the same reply without any cooldown: user 1 owns
    two living submarines, the limit, and has no death on record, so no
    timestamp is within the cooldown; the reply is still HTTP 400 with
    [cooldown_remaining_s] (of 0). *)
Lemma register_sub_refused_without_cooldown :
  cooldown_active 7200 100000 (u_last_death_ts user_1) = false /\
  cooldown_active 7200 100000 (u_prev_death_ts user_1) = false /\
  fst (register_sub DEFAULT_CFG 100000 1 "new" draws_half 0
                    [user_1] [sub_A; sub_A2])
  = Err 400 "respawn cooldown active or slot limit reached"
        [("cooldown_remaining_s"%string, 0);
         ("active_subs"%string, 2); ("available_slots"%string, 2)] /\
  is_cooldown_error
    (fst (register_sub DEFAULT_CFG 100000 1 "new" draws_half 0
                       [user_1] [sub_A; sub_A2])) = true.
Proof.
  repeat split; vm_compute; reflexivity.
Qed.

(** ** Heading conversion *)

Lemma Qfloor_unique (a : Q) (k : Z) :
  inject_Z k <= a -> a < inject_Z k + 1 -> Qfloor a = k.
Proof.
  intros A B.
  pose proof (Qfloor_le a) as F1. pose proof (Qlt_floor a) as F2.
  rewrite inject_Z_plus in F2. change (inject_Z 1) with 1 in F2.
  assert (L1 : inject_Z (Qfloor a) < inject_Z (k + 1)).
  { rewrite inject_Z_plus. change (inject_Z 1) with 1. lra. }
  assert (L2 : inject_Z k < inject_Z (Qfloor a + 1)).
  { rewrite inject_Z_plus. change (inject_Z 1) with 1. lra. }
  rewrite <- Zlt_Qlt in L1, L2. lia.
Qed.

Lemma pmod_unique (a b r : Q) (k : Z) :
  0 < b -> a == b * inject_Z k + r -> 0 <= r < b -> pmod a b == r.
Proof.
  intros Hb Ha [R1 R2]. unfold pmod.
  assert (E : Qfloor (a / b) = k).
  { apply Qfloor_unique.
    - apply Qle_shift_div_l; [exact Hb|]. rewrite Ha. lra.
    - apply Qlt_shift_div_r; [exact Hb|]. rewrite Ha. lra. }
  rewrite E, Ha. ring.
Qed.

(** C6, what the code does.  The composition compass -> server -> compass
    that [set_sub_heading] performs is not the identity: for a compass
    heading [theta] in [0, 360) other than 90, the reply's [compass_target]
    is [180 - theta] modulo 360, the mirror image of [theta] in the
    east-west axis.  (At 90 the stored target is 0.0, which the handler
    takes for "no target".) *)
Theorem set_sub_heading_compass_target_mirrored `{Libm} (now : Q) (user : Z)
    (sub_id : string) (theta : Q) (subs : list SubModel) (s : SubModel) :
  ~ m_pi == 0 ->
  owned_sub user sub_id subs = Some s ->
  0 <= theta < 360 -> ~ theta == 90 ->
  exists body subs' c,
    set_sub_heading now user sub_id (HeadingDeg theta) subs = (Ok body, subs') /\
    hb_compass_target body = Some c /\
    c == (if Qleb theta 180 then 180 - theta else 540 - theta) /\
    (~ theta == 270 -> ~ c == theta).
Proof.
  intros Hpi Ho [T1 T2] T90. unfold set_sub_heading. rewrite Ho.
  set (server_deg := pmod (90 - theta) 360).
  assert (S : server_deg == (if Qleb theta 90 then 90 - theta else 450 - theta)).
  { unfold server_deg. qcase.
    - apply (pmod_unique _ _ _ 0%Z); [lra| |lra].
      change (inject_Z 0) with 0. ring.
    - apply (pmod_unique _ _ _ (-1)%Z); [lra| |lra].
      change (inject_Z (-1)) with (-1). ring. }
  assert (S0 : ~ server_deg == 0).
  { rewrite S. qcase; lra. }
  assert (Tr : truthy (radians server_deg) = true).
  { unfold truthy. apply negb_true_iff.
    destruct (Qeq_bool (radians server_deg) 0) eqn:E; [|reflexivity].
    apply Qeq_bool_iff in E. exfalso. apply S0.
    unfold radians in E.
    assert (E' : server_deg * m_pi == 0).
    { setoid_replace (server_deg * m_pi)
        with (server_deg * m_pi / 180 * 180) by field.
      rewrite E. ring. }
    apply Qmult_integral in E'. destruct E' as [E' | E']; [exact E'|].
    contradiction. }
  do 2 eexists. exists (compass_for_response (radians server_deg)).
  split; [reflexivity|].
  split.
  { unfold heading_body. cbn [s_target_heading set_s_updated_at
                               set_s_target_heading hb_compass_target].
    rewrite Tr. reflexivity. }
  assert (V : compass_for_response (radians server_deg)
              == (if Qleb theta 180 then 180 - theta else 540 - theta)).
  { unfold compass_for_response, radians.
    assert (B : server_deg * m_pi / 180 * 180 / m_pi + 90 == server_deg + 90)
      by (field; exact Hpi).
    destruct (Qleb theta 90) eqn:E90;
      [apply Qleb_true in E90 | apply Qleb_false in E90].
    - replace (Qleb theta 180) with true
        by (symmetry; apply Qleb_true; lra).
      apply (pmod_unique _ _ _ 0%Z); [lra| |lra].
      rewrite B, S. change (inject_Z 0) with 0. ring.
    - destruct (Qleb theta 180) eqn:E180;
        [apply Qleb_true in E180 | apply Qleb_false in E180].
      + apply (pmod_unique _ _ _ 1%Z); [lra| |lra].
        rewrite B, S. change (inject_Z 1) with 1. ring.
      + apply (pmod_unique _ _ _ 0%Z); [lra| |lra].
        rewrite B, S. change (inject_Z 0) with 0. ring. }
  split; [exact V|].
  intros T270 Eq. rewrite V in Eq.
  destruct (Qleb theta 180); lra.
Qed.

Lemma set_sub_heading_compass_target_mirrored_witness :
  exists body subs' c,
    set_sub_heading 0 1 "A" (HeadingDeg 0) [sub_A] = (Ok body, subs') /\
    hb_compass_target body = Some c /\
    c == (if Qleb 0 180 then 180 - 0 else 540 - 0) /\
    (~ 0 == 270 -> ~ c == 0).
Proof.
  apply (set_sub_heading_compass_target_mirrored 0 1 "A" 0 [sub_A] sub_A).
  - vm_compute. discriminate.
  - reflexivity.
  - split; qdec.
  - vm_compute. discriminate.
Defined.

(** The failing input of C6: compass heading 0 (north) is stored as the
    server heading of 90 degrees and reported back as compass 180 (south). *)
Lemma set_sub_heading_north_reported_south :
  option_map Qred
    (hb_compass_target (heading_body
       (set_s_target_heading sub_A (Some (radians (pmod (90 - 0) 360))))))
  = Some 180.
Proof. vm_compute. reflexivity. Qed.

(** ** Snapshots *)





(** ** Passive sonar *)

Lemma first_heard_some {T : Type} (hear : T -> option Q) (l : list T)
    (a : T) (snr : Q) :
  first_heard hear l = Some (a, snr) -> In a l /\ hear a = Some snr.
Proof.
  induction l as [|b r IH]; simpl; [discriminate|].
  destruct (hear b) as [q|] eqn:E.
  - intro F. inversion F; subst. auto.
  - intro F. destruct (IH F). auto.
Qed.

(** The events one pass of [for obs in subs] queues for the observer at
    index [i], and the two scans they come from. *)
Lemma observe_one_added `{Libm} (cfg : Cfg) (clouds : list Cloud) (now : Q)
    (g : Rng) (torps : list TorpedoModel) (i : nat) (subs : list SubModel)
    (ev : list Event) (n : nat) (obs : SubModel) :
  nth_error subs i = Some obs ->
  exists subs' n' heard_sub heard_torp,
    observe_one cfg clouds now g torps i (subs, ev, n)
      = (subs', ev ++ heard_sub ++ heard_torp, n') /\
    (heard_sub = [] \/
     exists tgt snr d,
       first_heard (hears_sub cfg clouds now obs) subs = Some (tgt, snr) /\
       heard_sub = [sub_contact_event cfg now g d obs tgt snr]) /\
    (heard_torp = [] \/
     exists torp snr d,
       first_heard (hears_torp cfg clouds obs) torps = Some (torp, snr) /\
       heard_torp = [torp_heard_event cfg now g d obs torp snr]) /\
    (heard_sub ++ heard_torp <> [] ->
     exists o', nth_error subs' i = Some o' /\ s_last_report o' = now).
Proof.
  intro Hi. unfold observe_one. rewrite Hi.
  destruct (Qltb (now - s_last_report obs) _).
  { exists subs, (S n), [], []. rewrite app_nil_r.
    split; [reflexivity|]. split; [auto|]. split; [auto|].
    intro A. contradiction. }
  destruct (first_heard (hears_sub cfg clouds now obs) subs)
    as [[tgt snr]|] eqn:Fs;
    destruct (first_heard (hears_torp cfg clouds obs) torps)
      as [[torp snr']|] eqn:Ft.
  - do 2 eexists.
    exists [sub_contact_event cfg now g (S n) obs tgt snr],
           [torp_heard_event cfg now g (S (S n)) obs torp snr'].
    split; [rewrite app_assoc; reflexivity|].
    split; [right; eauto|]. split; [right; eauto|].
    intros _. rewrite !nth_error_upd, Nat.eqb_refl, Hi. simpl.
    eexists. split; reflexivity.
  - do 2 eexists.
    exists [sub_contact_event cfg now g (S n) obs tgt snr], [].
    split; [rewrite app_nil_r; reflexivity|].
    split; [right; eauto|]. split; [auto|].
    intros _. rewrite nth_error_upd, Nat.eqb_refl, Hi. simpl.
    eexists. split; reflexivity.
  - do 2 eexists.
    exists [], [torp_heard_event cfg now g (S n) obs torp snr'].
    split; [reflexivity|].
    split; [auto|]. split; [right; eauto|].
    intros _. rewrite nth_error_upd, Nat.eqb_refl, Hi. simpl.
    eexists. split; reflexivity.
  - exists subs, (S n), [], []. rewrite app_nil_r.
    split; [reflexivity|]. split; [auto|]. split; [auto|].
    intro A. contradiction.
Qed.

(** One pass over an observing submarine: the "Check submarines" scan
    queues at most one contact and the "Check torpedoes" scan, which runs
    after it whatever it found, at most one more. *)
Lemma observe_one_contacts `{Libm} (cfg : Cfg)
    (clouds : list Cloud) (now : Q) (g : Rng) (torps : list TorpedoModel)
    (i : nat) (subs : list SubModel) (ev : list Event) (n : nat)
    (obs : SubModel) :
  nth_error subs i = Some obs ->
  exists subs' n' added,
    observe_one cfg clouds now g torps i (subs, ev, n)
      = (subs', ev ++ added, n') /\
    (List.length added <= 2)%nat /\
    (List.length (filter is_submarine_contact added) <= 1)%nat /\
    (List.length (filter is_torpedo_contact added) <= 1)%nat /\
    Forall (fun e => event_user e = s_owner_id obs /\
                     event_name e = "contact"%string /\
                     event_observer e = Some (s_id obs)) added /\
    (added <> [] ->
     exists o', nth_error subs' i = Some o' /\ s_last_report o' = now).
Proof.
  intro Hi.
  destruct (observe_one_added cfg clouds now g torps i subs ev n obs Hi)
    as (subs' & n' & hs & ht & E & Hs & Ht & Hr).
  exists subs', n', (hs ++ ht). split; [exact E|].
  assert (Ss : hs = [] \/ exists e, hs = [e] /\ is_submarine_contact e = true /\
                 is_torpedo_contact e = false /\
                 event_user e = s_owner_id obs /\
                 event_name e = "contact"%string /\
                 event_observer e = Some (s_id obs)).
  { destruct Hs as [-> | (tgt & snr & d & _ & ->)]; [auto|].
    right. eexists. split; [reflexivity|].
    unfold is_submarine_contact, is_torpedo_contact, event_contact_type,
      sub_contact_event. cbn [snd fst].
    destruct (s_blow_active tgt); repeat split; reflexivity. }
  assert (St : ht = [] \/ exists e, ht = [e] /\ is_submarine_contact e = false /\
                 is_torpedo_contact e = true /\
                 event_user e = s_owner_id obs /\
                 event_name e = "contact"%string /\
                 event_observer e = Some (s_id obs)).
  { destruct Ht as [-> | (torp & snr & d & _ & ->)]; [auto|].
    right. eexists. split; [reflexivity|]. repeat split; reflexivity. }
  destruct Ss as [-> | (e1 & -> & A1 & B1 & C1)];
    destruct St as [-> | (e2 & -> & A2 & B2 & C2)];
    cbn [app List.length filter];
    rewrite ?A1, ?B1, ?A2, ?B2; cbn [List.length];
    repeat split; try lia; try exact Hr; repeat constructor; tauto.
Qed.

Lemma map_upd_same {A B : Type} (p : A -> B) (f : A -> A) (i : nat)
    (l : list A) :
  (forall a, p (f a) = p a) -> map p (upd i f l) = map p l.
Proof.
  intro Hf. revert i. induction l as [|a r IH]; intros [|i]; simpl;
    try reflexivity.
  - rewrite Hf. reflexivity.
  - rewrite IH. reflexivity.
Qed.

Lemma observe_one_frame `{Libm} (cfg : Cfg) (clouds : list Cloud) (now : Q)
    (g : Rng) (torps : list TorpedoModel) (i : nat) (subs : list SubModel)
    (ev : list Event) (n : nat) :
  map s_id (fst (fst (observe_one cfg clouds now g torps i (subs, ev, n))))
    = map s_id subs /\
  map s_owner_id
      (fst (fst (observe_one cfg clouds now g torps i (subs, ev, n))))
    = map s_owner_id subs /\
  forall j, j <> i ->
    nth_error (fst (fst (observe_one cfg clouds now g torps i (subs, ev, n)))) j
    = nth_error subs j.
Proof.
  unfold observe_one.
  destruct (nth_error subs i) as [obs|]; [|auto].
  destruct (Qltb _ _); [auto|].
  assert (N : forall l j, j <> i ->
            nth_error (upd i (fun o => set_s_last_report o now) l) j
            = nth_error l j).
  { intros l j Hj. rewrite nth_error_upd.
    apply Nat.eqb_neq in Hj. rewrite Hj. reflexivity. }
  destruct (first_heard (hears_sub cfg clouds now obs) subs) as [[tgt snr]|];
    destruct (first_heard (hears_torp cfg clouds obs) torps) as [[torp snr']|];
    cbn [fst]; rewrite ?map_upd_same by reflexivity;
    repeat split; intros; rewrite ?N by assumption; reflexivity.
Qed.

Lemma torp_observe_one_events `{Libm} (cfg : Cfg) (clouds : list Cloud)
    (now : Q) (g : Rng) (subs : list SubModel) (k : nat)
    (torps : list TorpedoModel) (ev : list Event) (n : nat) :
  exists torps' added n',
    torp_observe_one cfg clouds now g subs k (torps, ev, n)
      = (torps', ev ++ added, n') /\
    Forall (fun e => event_name e <> "contact"%string) added.
Proof.
  unfold torp_observe_one.
  destruct (nth_error torps k) as [torp|].
  2:{ exists torps, [], n. rewrite app_nil_r. auto. }
  destruct (negb _).
  { exists torps, [], n. rewrite app_nil_r. auto. }
  destruct (Qltb _ _).
  { exists torps, [], (S n). rewrite app_nil_r. auto. }
  destruct (first_heard _ subs) as [[tgt snr]|].
  - do 3 eexists. split; [reflexivity|]. constructor; [|constructor].
    cbn. discriminate.
  - exists torps, [], (S n). rewrite app_nil_r. auto.
Qed.

Lemma torp_auto_ping_one_events `{Libm} (cfg : Cfg) (now : Q) (g : Rng)
    (subs : list SubModel) (k : nat) (torps : list TorpedoModel)
    (ev : list Event) (n : nat) :
  exists torps' added n',
    torp_auto_ping_one cfg now g subs k (torps, ev, n)
      = (torps', ev ++ added, n') /\
    Forall (fun e => event_name e <> "contact"%string) added.
Proof.
  unfold torp_auto_ping_one.
  destruct (nth_error torps k) as [torp|].
  2:{ exists torps, [], n. rewrite app_nil_r. auto. }
  destruct (negb _).
  { exists torps, [], n. rewrite app_nil_r. auto. }
  destruct (Qltb _ _).
  { exists torps, [], n. rewrite app_nil_r. auto. }
  destruct (Qltb _ _).
  { exists torps, [], n. rewrite app_nil_r. auto. }
  destruct (auto_ping_contacts cfg g n torp subs) as [[|c cs] n'].
  - eexists. exists []. eexists. rewrite app_nil_r. split; [reflexivity|].
    constructor.
  - do 3 eexists. split; [reflexivity|]. constructor; [|constructor].
    cbn. discriminate.
Qed.

Lemma fold_events_append {T : Type} (P : Event -> Prop)
    (f : nat -> T * list Event * nat -> T * list Event * nat) :
  (forall k t ev n, exists t' added n',
      f k (t, ev, n) = (t', ev ++ added, n') /\ Forall P added) ->
  forall l t ev n, exists t' added n',
      fold_left (fun st k => f k st) l (t, ev, n) = (t', ev ++ added, n') /\
      Forall P added.
Proof.
  intros Hf l. induction l as [|k r IH]; intros t ev n; simpl.
  - exists t, [], n. rewrite app_nil_r. auto.
  - destruct (Hf k t ev n) as (t1 & a1 & n1 & E1 & F1). rewrite E1.
    destruct (IH t1 (ev ++ a1) n1) as (t2 & a2 & n2 & E2 & F2).
    exists t2, (a1 ++ a2), n2. rewrite app_assoc. split; [exact E2|].
    apply Forall_app. auto.
Qed.

Lemma filter_all {A : Type} (p : A -> bool) (l : list A) :
  Forall (fun a => p a = true) l -> filter p l = l.
Proof.
  induction 1 as [|a r Ha _ IH]; simpl; [reflexivity|].
  rewrite Ha, IH. reflexivity.
Qed.

Lemma filter_none {A : Type} (p : A -> bool) (l : list A) :
  Forall (fun a => p a = false) l -> filter p l = [].
Proof.
  induction 1 as [|a r Ha _ IH]; simpl; [reflexivity|].
  rewrite Ha, IH. reflexivity.
Qed.

Lemma nth_error_NoDup_eq (ids : list string) (i j : nat) (id : string) :
  NoDup ids -> nth_error ids i = Some id -> nth_error ids j = Some id -> i = j.
Proof.
  intros ND Hi Hj. rewrite NoDup_nth_error in ND. apply ND.
  - apply nth_error_Some. congruence.
  - congruence.
Qed.

Lemma observe_fold `{Libm} (cfg : Cfg) (clouds : list Cloud) (now : Q)
    (g : Rng) (torps : list TorpedoModel) (ids : list string)
    (owners : list Z) (ev : list Event) :
  NoDup ids ->
  forall m a subs0 added0 n0,
    map s_id subs0 = ids -> map s_owner_id subs0 = owners ->
    (forall e, In e added0 ->
       event_name e = "contact"%string /\
       exists j, (j < a)%nat /\ nth_error ids j = event_observer e /\
                 nth_error owners j = Some (event_user e)) ->
    (forall j id, nth_error ids j = Some id ->
       observer_quota now subs0 j (filter (contact_from id) added0)) ->
    exists subs' added' n',
      fold_left (fun st i => observe_one cfg clouds now g torps i st)
                (seq a m) (subs0, ev ++ added0, n0)
        = (subs', ev ++ added', n') /\
      map s_id subs' = ids /\ map s_owner_id subs' = owners /\
      (forall e, In e added' ->
         event_name e = "contact"%string /\
         exists j, (j < a + m)%nat /\ nth_error ids j = event_observer e /\
                   nth_error owners j = Some (event_user e)) /\
      (forall j id, nth_error ids j = Some id ->
         observer_quota now subs' j (filter (contact_from id) added')).
Proof.
  intros ND m. induction m as [|m IH]; intros a subs0 added0 n0 Hid Hown He Hq.
  - exists subs0, added0, n0. cbn [seq fold_left].
    rewrite Nat.add_0_r. auto.
  - cbn [seq fold_left].
    destruct (nth_error subs0 a) as [obs|] eqn:Ha.
    2:{ assert (E : observe_one cfg clouds now g torps a
                      (subs0, ev ++ added0, n0) = (subs0, ev ++ added0, n0)).
        { unfold observe_one. rewrite Ha. reflexivity. }
        rewrite E.
        destruct (IH (S a) subs0 added0 n0 Hid Hown) as (s' & a' & n' & R).
        - intros e Ie. destruct (He e Ie) as (N & j & Lj & R).
          split; [exact N|]. exists j. split; [lia | exact R].
        - exact Hq.
        - exists s', a', n'.
          replace (a + S m)%nat with (S a + m)%nat by lia. exact R. }
    destruct (observe_one_contacts cfg clouds now g torps a subs0
                (ev ++ added0) n0 obs Ha)
      as (subs1 & n1 & added1 & E & L2 & Ls & Lt & Fa & Lr).
    pose proof (observe_one_frame cfg clouds now g torps a subs0
                  (ev ++ added0) n0) as (Fid & Fown & Fnth).
    rewrite E in Fid, Fown, Fnth. cbn [fst] in Fid, Fown, Fnth.
    rewrite E. rewrite <- app_assoc.
    assert (Ia : nth_error ids a = Some (s_id obs)).
    { rewrite <- Hid. rewrite nth_error_map, Ha. reflexivity. }
    assert (Oa : nth_error owners a = Some (s_owner_id obs)).
    { rewrite <- Hown. rewrite nth_error_map, Ha. reflexivity. }
    rewrite Forall_forall in Fa.
    destruct (IH (S a) subs1 (added0 ++ added1) n1) as (s' & a' & n' & R).
    + congruence.
    + congruence.
    + intros e Ie. apply in_app_or in Ie. destruct Ie as [Ie | Ie].
      * destruct (He e Ie) as (N & j & Lj & R).
        split; [exact N|]. exists j. split; [lia | exact R].
      * destruct (Fa e Ie) as (U & N & O).
        split; [exact N|]. exists a. split; [lia|].
        rewrite O, U. auto.
    + intros j id Hj. rewrite filter_app.
      destruct (Nat.eq_dec j a) as [-> | Hne].
      * assert (id = s_id obs) by congruence. subst id.
        assert (Z0 : filter (contact_from (s_id obs)) added0 = []).
        { apply filter_none. apply Forall_forall. intros e Ie.
          destruct (contact_from (s_id obs) e) eqn:C; [|reflexivity].
          exfalso. destruct (He e Ie) as (N & j & Lj & Oj & _).
          unfold contact_from in C. apply andb_true_iff in C.
          destruct C as [_ C].
          destruct (event_observer e) as [o|]; [|discriminate].
          apply String.eqb_eq in C. subst o.
          pose proof (nth_error_NoDup_eq ids j a (s_id obs) ND Oj Ia). lia. }
        assert (Z1 : filter (contact_from (s_id obs)) added1 = added1).
        { apply filter_all. apply Forall_forall. intros e Ie.
          destruct (Fa e Ie) as (U & N & O). unfold contact_from.
          rewrite N, O, !String.eqb_refl. reflexivity. }
        rewrite Z0, Z1. cbn [app]. unfold observer_quota. auto.
      * assert (Z1 : filter (contact_from id) added1 = []).
        { apply filter_none. apply Forall_forall. intros e Ie.
          destruct (Fa e Ie) as (U & N & O). unfold contact_from.
          rewrite N, O, String.eqb_refl. cbn [andb].
          destruct (String.eqb (s_id obs) id) eqn:C; [|reflexivity].
          apply String.eqb_eq in C. subst id.
          pose proof (nth_error_NoDup_eq ids j a (s_id obs) ND Hj Ia).
          contradiction. }
        rewrite Z1, app_nil_r.
        destruct (Hq j id Hj) as (Q1 & Q2 & Q3 & Q4).
        unfold observer_quota. rewrite (Fnth j Hne). auto.
    + exists s', a', n'.
      replace (a + S m)%nat with (S a + m)%nat by lia. exact R.
Qed.

Lemma contact_from_name (id : string) (e : Event) :
  event_name e <> "contact"%string -> contact_from id e = false.
Proof.
  intro N. unfold contact_from.
  destruct (String.eqb (event_name e) "contact") eqn:E; [|reflexivity].
  apply String.eqb_eq in E. contradiction.
Qed.

(** C4, as the code has it.  In one run of the passive-sonar stage over
    submarines with distinct ids, the contact events queued for an observing
    submarine are at most two: at most one on a submarine (from the "Check
    submarines" scan) and at most one on a torpedo (from the "Check
    torpedoes" scan, which runs whatever the first scan found).  They are
    addressed to the observer's owner, and if there is any, the observer's
    [last_report] is [now] after the stage. *)
Theorem passive_contacts_per_observer `{Libm} (cfg : Cfg)
    (clouds : list Cloud) (now : Q) (g : Rng) (n : nat)
    (subs : list SubModel) (torps : list TorpedoModel) (ev : list Event) :
  NoDup (map s_id subs) ->
  exists subs' torps' added n',
    schedule_passive_contacts cfg clouds now g n subs torps ev
      = (subs', torps', ev ++ added, n') /\
    forall i obs, nth_error subs i = Some obs ->
      (List.length (filter (contact_from (s_id obs)) added) <= 2)%nat /\
      (List.length (filter is_submarine_contact
                           (filter (contact_from (s_id obs)) added)) <= 1)%nat /\
      (List.length (filter is_torpedo_contact
                           (filter (contact_from (s_id obs)) added)) <= 1)%nat /\
      Forall (fun e => event_user e = s_owner_id obs)
             (filter (contact_from (s_id obs)) added) /\
      (filter (contact_from (s_id obs)) added <> [] ->
       exists o', nth_error subs' i = Some o' /\ s_last_report o' = now).
Proof.
  intro ND. unfold schedule_passive_contacts.
  destruct (observe_fold cfg clouds now g torps (map s_id subs)
              (map s_owner_id subs) ev ND (List.length subs) 0 subs [] n
              eq_refl eq_refl)
    as (subs1 & added1 & n1 & E1 & Hid & Hown & He & Hq).
  { intros e []. }
  { intros j id _. cbn [filter]. unfold observer_quota. cbn [List.length filter].
    repeat split; try lia. intro A. contradiction. }
  rewrite app_nil_r in E1. rewrite E1.
  destruct (fold_events_append (fun e => event_name e <> "contact"%string)
              (fun k st => torp_observe_one cfg clouds now g subs1 k st)
              (torp_observe_one_events cfg clouds now g subs1)
              (seq 0 (List.length torps)) torps (ev ++ added1) n1)
    as (torps2 & added2 & n2 & E2 & F2).
  rewrite E2.
  destruct (fold_events_append (fun e => event_name e <> "contact"%string)
              (fun k st => torp_auto_ping_one cfg now g subs1 k st)
              (torp_auto_ping_one_events cfg now g subs1)
              (seq 0 (List.length torps)) torps2 ((ev ++ added1) ++ added2) n2)
    as (torps3 & added3 & n3 & E3 & F3).
  rewrite E3.
  exists subs1, torps3, (added1 ++ added2 ++ added3), n3.
  split; [rewrite !app_assoc; reflexivity|].
  intros i obs Hi.
  assert (Ii : nth_error (map s_id subs) i = Some (s_id obs))
    by (rewrite nth_error_map, Hi; reflexivity).
  assert (Oi : nth_error (map s_owner_id subs) i = Some (s_owner_id obs))
    by (rewrite nth_error_map, Hi; reflexivity).
  assert (M : filter (contact_from (s_id obs)) (added1 ++ added2 ++ added3)
              = filter (contact_from (s_id obs)) added1).
  { rewrite !filter_app.
    rewrite (filter_none _ added2), (filter_none _ added3).
    - rewrite !app_nil_r. reflexivity.
    - eapply Forall_impl; [|exact F3]. intros e. apply contact_from_name.
    - eapply Forall_impl; [|exact F2]. intros e. apply contact_from_name. }
  rewrite M.
  destruct (Hq i (s_id obs) Ii) as (Q1 & Q2 & Q3 & Q4).
  repeat split; try assumption.
  apply Forall_forall. intros e Ie. apply filter_In in Ie.
  destruct Ie as [Ie C].
  destruct (He e Ie) as (_ & j & _ & Oj & Uj).
  unfold contact_from in C. apply andb_true_iff in C. destruct C as [_ C].
  destruct (event_observer e) as [o|]; [|discriminate].
  apply String.eqb_eq in C. subst o.
  pose proof (nth_error_NoDup_eq _ j i (s_id obs) ND Oj Ii). subst j.
  congruence.
Qed.

Lemma passive_contacts_per_observer_witness :
  exists subs' torps' added n',
    schedule_passive_contacts DEFAULT_CFG [] 100 draws_half 0
      [sub_A; sub_B300] [torp_T2] [] = (subs', torps', [] ++ added, n') /\
    (List.length (filter (contact_from "A") added) <= 2)%nat.
Proof.
  assert (ND : NoDup (map s_id [sub_A; sub_B300])).
  { constructor; [intros [E | []]; discriminate|].
    constructor; [intros []|]. constructor. }
  destruct (passive_contacts_per_observer DEFAULT_CFG [] 100 draws_half 0
              [sub_A; sub_B300] [torp_T2] [] ND)
    as (subs' & torps' & added & n' & E & Q).
  exists subs', torps', added, n'. split; [exact E|].
  exact (proj1 (Q 0%nat sub_A eq_refl)).
Defined.

(** C4 as stated fails: submarine [A] hears the foreign submarine [B] and
    the foreign torpedo [T2] in the same pass of the stage, which queues two
    contact events for observer [A]. *)
Lemma two_contacts_for_one_observer :
  map event_summary
      (snd (fst (schedule_passive_contacts DEFAULT_CFG [] 100 draws_half 0
                   [sub_A; sub_B300] [torp_T2] [])))
  = [(1%Z, Some "A", Some "submarine");
     (1%Z, Some "A", Some "torpedo");
     (2%Z, Some "B", Some "submarine")]%string.
Proof. vm_compute. reflexivity. Qed.

Lemma hears_sub_not_self `{Libm} (cfg : Cfg) (clouds : list Cloud) (now : Q)
    (obs tgt : SubModel) :
  hears_sub cfg clouds now obs tgt <> None ->
  ~ (s_owner_id tgt = s_owner_id obs /\ s_id tgt = s_id obs).
Proof.
  unfold hears_sub. intros A [O I]. apply A.
  rewrite O, I, Z.eqb_refl, String.eqb_refl. reflexivity.
Qed.

Lemma hears_torp_foreign `{Libm} (cfg : Cfg) (clouds : list Cloud)
    (obs : SubModel) (torp : TorpedoModel) :
  hears_torp cfg clouds obs torp <> None -> t_owner_id torp <> s_owner_id obs.
Proof.
  unfold hears_torp. intros A O. apply A. rewrite O, Z.eqb_refl. reflexivity.
Qed.

Lemma torp_hears_sub_foreign `{Libm} (cfg : Cfg) (clouds : list Cloud)
    (torp : TorpedoModel) (tgt : SubModel) :
  torp_hears_sub cfg clouds torp tgt <> None ->
  s_owner_id tgt <> t_owner_id torp.
Proof.
  unfold torp_hears_sub. intros A O. apply A. rewrite O, Z.eqb_refl.
  reflexivity.
Qed.

Lemma first_heard_none {T : Type} (hear : T -> option Q) (l : list T) :
  first_heard hear l = None -> forall a, In a l -> hear a = None.
Proof.
  induction l as [|b r IH]; simpl; [intros _ a []|].
  destruct (hear b) as [q|] eqn:E; [discriminate|].
  intros F a [<- | Ia]; [exact E | exact (IH F a Ia)].
Qed.

(** C8, as the code has it.  The submarine scan of the passive sonar skips
    a target only when owner and id both match, that is the observer
    itself.  So a contact a submarine queues on a submarine comes from a
    target that is not the observer; every other submarine is a candidate
    whoever owns it, those of the observer's own user included: the tests
    read the target's position, depth, speed, snorkel, blow and scanner
    state and not its owner, and an observer that is due to report queues a
    submarine contact as soon as one submarine of the table passes them.  A
    contact it queues on a torpedo comes from a torpedo of another user;
    and a [torpedo_contact] a torpedo queues comes from a submarine of
    another user. *)
Theorem passive_contact_candidates `{Libm} (cfg : Cfg) (clouds : list Cloud)
    (now : Q) (g : Rng) (subs : list SubModel) (torps : list TorpedoModel)
    (ev : list Event) (n : nat) :
  (forall i obs, nth_error subs i = Some obs ->
     exists subs' n' added,
       observe_one cfg clouds now g torps i (subs, ev, n)
         = (subs', ev ++ added, n') /\
       forall e, In e added ->
         (is_submarine_contact e = true /\
          exists tgt, In tgt subs /\
                      hears_sub cfg clouds now obs tgt <> None /\
                      ~ (s_owner_id tgt = s_owner_id obs /\
                         s_id tgt = s_id obs)) \/
         (is_torpedo_contact e = true /\
          exists torp, In torp torps /\
                       hears_torp cfg clouds obs torp <> None /\
                       t_owner_id torp <> s_owner_id obs)) /\
  (forall k torp, nth_error torps k = Some torp ->
     exists torps' n' added,
       torp_observe_one cfg clouds now g subs k (torps, ev, n)
         = (torps', ev ++ added, n') /\
       forall e, In e added ->
         event_name e = "torpedo_contact"%string /\
         event_user e = t_owner_id torp /\
         exists tgt, In tgt subs /\
                     torp_hears_sub cfg clouds torp tgt <> None /\
                     s_owner_id tgt <> t_owner_id torp) /\
  (forall obs tgt tgt',
     s_id tgt <> s_id obs -> s_id tgt' <> s_id obs ->
     s_x tgt' = s_x tgt -> s_y tgt' = s_y tgt -> s_depth tgt' = s_depth tgt ->
     s_speed tgt' = s_speed tgt ->
     s_is_snorkeling tgt' = s_is_snorkeling tgt ->
     s_blow_active tgt' = s_blow_active tgt ->
     s_scanner_noise_until tgt' = s_scanner_noise_until tgt ->
     hears_sub cfg clouds now obs tgt' = hears_sub cfg clouds now obs tgt) /\
  (forall i obs tgt,
     nth_error subs i = Some obs -> In tgt subs ->
     Qltb (now - s_last_report obs)
          (uniform g n (fst (passive_report_interval_s cfg))
                   (snd (passive_report_interval_s cfg))) = false ->
     hears_sub cfg clouds now obs tgt <> None ->
     exists subs' n' added e,
       observe_one cfg clouds now g torps i (subs, ev, n)
         = (subs', ev ++ added, n') /\
       In e added /\ is_submarine_contact e = true /\
       event_user e = s_owner_id obs).
Proof.
  split; [|split; [|split]].
  - intros i obs Hi.
    destruct (observe_one_added cfg clouds now g torps i subs ev n obs Hi)
      as (subs' & n' & hs & ht & E & Hs & Ht & _).
    exists subs', n', (hs ++ ht). split; [exact E|].
    intros e He. apply in_app_or in He. destruct He as [He | He].
    + destruct Hs as [-> | (tgt & snr & d & F & ->)]; [contradiction|].
      destruct He as [<- | []]. left.
      apply first_heard_some in F. destruct F as [I Hh].
      split.
      * unfold is_submarine_contact, event_contact_type, sub_contact_event.
        cbn [snd]. destruct (s_blow_active tgt); reflexivity.
      * exists tgt. split; [exact I|].
        assert (N : hears_sub cfg clouds now obs tgt <> None) by congruence.
        split; [exact N|]. apply (hears_sub_not_self cfg clouds now). exact N.
    + destruct Ht as [-> | (torp & snr & d & F & ->)]; [contradiction|].
      destruct He as [<- | []]. right.
      apply first_heard_some in F. destruct F as [I Hh].
      split; [reflexivity|].
      exists torp. split; [exact I|].
      assert (N : hears_torp cfg clouds obs torp <> None) by congruence.
      split; [exact N|]. apply (hears_torp_foreign cfg clouds). exact N.
  - intros k torp Hk. unfold torp_observe_one. rewrite Hk.
    destruct (negb (t_passive_sonar_active torp)).
    { exists torps, n, []. rewrite app_nil_r. split; [reflexivity|].
      intros e []. }
    destruct (Qltb (now - t_last_sonar_contact torp) _).
    { exists torps, (S n), []. rewrite app_nil_r. split; [reflexivity|].
      intros e []. }
    destruct (first_heard (torp_hears_sub cfg clouds torp) subs)
      as [[tgt snr]|] eqn:F.
    + do 3 eexists. split; [reflexivity|].
      intros e [<- | []].
      apply first_heard_some in F. destruct F as [I Hh].
      split; [reflexivity|]. split; [reflexivity|].
      exists tgt. split; [exact I|].
      assert (N : torp_hears_sub cfg clouds torp tgt <> None) by congruence.
      split; [exact N|]. apply (torp_hears_sub_foreign cfg clouds). exact N.
    + exists torps, (S n), []. rewrite app_nil_r. split; [reflexivity|].
      intros e [].
  - intros obs tgt tgt' Nt Nt' Ex Ey Ed Es Esn Eb Esc. unfold hears_sub.
    replace (String.eqb (s_id tgt) (s_id obs)) with false
      by (symmetry; apply String.eqb_neq; exact Nt).
    replace (String.eqb (s_id tgt') (s_id obs)) with false
      by (symmetry; apply String.eqb_neq; exact Nt').
    rewrite !andb_false_r, Ex, Ey, Ed, Es, Esn, Eb, Esc. reflexivity.
  - intros i obs tgt Hi It Due Hh. unfold observe_one. rewrite Hi, Due.
    destruct (first_heard (hears_sub cfg clouds now obs) subs)
      as [[t1 snr]|] eqn:Fs.
    2:{ exfalso. apply Hh. exact (first_heard_none _ _ Fs tgt It). }
    assert (Sc : is_submarine_contact
                   (sub_contact_event cfg now g (S n) obs t1 snr) = true).
    { unfold is_submarine_contact, event_contact_type, sub_contact_event.
      cbn [snd]. destruct (s_blow_active t1); reflexivity. }
    destruct (first_heard (hears_torp cfg clouds obs) torps)
      as [[torp snr']|].
    + do 2 eexists.
      exists ([sub_contact_event cfg now g (S n) obs t1 snr]
              ++ [torp_heard_event cfg now g (S (S n)) obs torp snr']).
      eexists. split; [rewrite app_assoc; reflexivity|].
      split; [left; reflexivity|]. split; [exact Sc | reflexivity].
    + do 2 eexists. exists [sub_contact_event cfg now g (S n) obs t1 snr].
      eexists. split; [reflexivity|].
      split; [left; reflexivity|]. split; [exact Sc | reflexivity].
Qed.

Lemma passive_contact_candidates_witness :
  exists subs' n' added,
    observe_one DEFAULT_CFG [] 100 draws_half [torp_T2] 0
                ([sub_A; sub_B300], [], 0%nat)
      = (subs', [] ++ added, n') /\
    forall e, In e added ->
      (is_submarine_contact e = true /\
       exists tgt, In tgt [sub_A; sub_B300] /\
                   hears_sub DEFAULT_CFG [] 100 sub_A tgt <> None /\
                   ~ (s_owner_id tgt = s_owner_id sub_A /\
                      s_id tgt = s_id sub_A)) \/
      (is_torpedo_contact e = true /\
       exists torp, In torp [torp_T2] /\
                    hears_torp DEFAULT_CFG [] sub_A torp <> None /\
                    t_owner_id torp <> s_owner_id sub_A).
Proof.
  destruct (passive_contact_candidates DEFAULT_CFG [] 100 draws_half
              [sub_A; sub_B300] [torp_T2] [] 0) as [S _].
  exact (S 0%nat sub_A eq_refl).
Defined.

(** C8 as stated fails: user 1 owns both submarines of the world, [A] and
    [A2], 200 m apart; each queues a passive contact, which can only be on
    the other submarine of its own user. *)
Lemma passive_contact_on_own_submarine :
  map s_owner_id [sub_A; sub_A2_near] = [1%Z; 1%Z] /\
  map event_summary
      (snd (fst (schedule_passive_contacts DEFAULT_CFG [] 100 draws_half 0
                   [sub_A; sub_A2_near] [] [])))
  = [(1%Z, Some "A", Some "submarine");
     (1%Z, Some "A2", Some "submarine")]%string.
Proof. split; vm_compute; reflexivity. Qed.

(** ** Resource bounds *)

Lemma Forall_upd {A : Type} (P : A -> Prop) (f : A -> A) (l : list A) (i : nat) :
  Forall P l -> (forall a, In a l -> P a -> P (f a)) -> Forall P (upd i f l).
Proof.
  revert i. induction l as [|a r IH]; intros i Hl Hf; [destruct i; constructor|].
  inversion Hl; subst. destruct i; simpl; constructor; auto.
  - apply Hf; [left; reflexivity | assumption].
  - apply IH; [assumption|]. intros b Hb. apply Hf. right. exact Hb.
Qed.

Lemma Forall_commit_sub (P : SubModel -> Prop) (s' : SubModel)
    (subs : list SubModel) :
  Forall P subs -> P s' -> Forall P (commit_sub s' subs).
Proof.
  intros Hl Hs. unfold commit_sub. apply Forall_map.
  eapply Forall_impl; [|exact Hl]. intros a Ha.
  destruct (String.eqb _ _); assumption.
Qed.

Lemma owned_sub_In (user : Z) (sub_id : string) (subs : list SubModel)
    (s : SubModel) :
  owned_sub user sub_id subs = Some s -> In s subs.
Proof.
  unfold owned_sub. destruct (find _ subs) as [s0|] eqn:F; [|discriminate].
  destruct (Z.eqb _ _); [|discriminate]. intro E. inversion E; subst.
  apply find_some in F. tauto.
Qed.

Lemma owned_sub_bounds (cfg : Cfg) (user : Z) (sub_id : string)
    (subs : list SubModel) (s : SubModel) :
  Forall (sub_bounds cfg) subs -> owned_sub user sub_id subs = Some s ->
  sub_bounds cfg s.
Proof.
  intros Hl Ho. apply owned_sub_In in Ho.
  rewrite Forall_forall in Hl. auto.
Qed.

(** A change that keeps the five bounded fields keeps the bounds. *)
Lemma sub_bounds_frame (cfg : Cfg) (s s' : SubModel) :
  s_battery s' = s_battery s -> s_fuel s' = s_fuel s ->
  s_torpedo_ammo s' = s_torpedo_ammo s ->
  s_blow_charge s' = s_blow_charge s -> s_health s' = s_health s ->
  sub_bounds cfg s -> sub_bounds cfg s'.
Proof.
  unfold sub_bounds. intros -> -> -> -> ->. tauto.
Qed.

Ltac split_ifs :=
  repeat match goal with
         | |- context [if ?c then _ else _] => destruct c
         | |- context [match ?x with Some _ => _ | None => _ end] => destruct x
         end.

Ltac frame_tac s :=
  apply (sub_bounds_frame _ s); [split_ifs; reflexivity ..| assumption].

Lemma pmax0_bounds (a hi : Q) : a <= hi -> 0 <= hi -> 0 <= pmax 0 a <= hi.
Proof.
  intros A B. destruct (pmax_cases 0 a) as [[-> C] | [-> C]]; lra.
Qed.

Lemma sub_rudder_bounds `{Libm} (cfg : Cfg) (dt : Q) (s : SubModel) :
  sub_bounds cfg s -> sub_bounds cfg (sub_rudder cfg dt s).
Proof. intro B. unfold sub_rudder. cbn zeta. frame_tac s. Qed.

Lemma sub_steer_bounds `{Libm} (cfg : Cfg) (dt : Q) (s : SubModel) :
  sub_bounds cfg s -> sub_bounds cfg (sub_steer cfg dt s).
Proof. intro B. unfold sub_steer. cbn zeta. frame_tac s. Qed.

Lemma sub_propel_bounds `{Libm} (cfg : Cfg) (dt : Q) (s : SubModel) :
  sub_bounds cfg s -> sub_bounds cfg (sub_propel cfg dt s).
Proof. intro B. unfold sub_propel. cbn zeta. frame_tac s. Qed.
Ltac sub_simpl :=
  cbn [s_id s_owner_id s_x s_y s_depth s_heading s_pitch s_rudder_angle
       s_rudder_cmd s_planes s_throttle s_target_depth s_target_heading
       s_speed s_battery s_fuel s_refuel_timer s_refuel_active
       s_refuel_fueler_id s_is_snorkeling s_blow_active s_blow_charge
       s_blow_end s_health s_passive_dir s_created_at s_last_report
       s_scanner_noise_until s_torpedo_ammo s_score s_kills
       s_last_score_update s_ping_cooldown s_updated_at set_s_x set_s_y
       set_s_depth set_s_heading set_s_pitch set_s_rudder_angle
       set_s_rudder_cmd set_s_planes set_s_throttle set_s_target_depth
       set_s_target_heading set_s_speed set_s_battery set_s_fuel
       set_s_refuel_timer set_s_refuel_active set_s_refuel_fueler_id
       set_s_is_snorkeling set_s_blow_active set_s_blow_charge set_s_blow_end
       set_s_health set_s_passive_dir set_s_last_report
       set_s_scanner_noise_until set_s_torpedo_ammo set_s_score set_s_kills
       set_s_ping_cooldown set_s_updated_at] in *.

Ltac split_ifs_eq :=
  repeat match goal with
         | |- context [if ?c then _ else _] => destruct c eqn:?
         | |- context [match ?x with Some _ => _ | None => _ end] =>
           destruct x eqn:?
         end.

(** Turns the recorded comparisons into order facts. *)
Ltac q_facts :=
  repeat match goal with
         | E : Qltb _ _ = true |- _ => apply Qltb_true in E
         | E : Qltb _ _ = false |- _ => apply Qltb_false in E
         | E : Qleb _ _ = true |- _ => apply Qleb_true in E
         | E : Qleb _ _ = false |- _ => apply Qleb_false in E
         | E : (_ && _)%bool = true |- _ => apply andb_true_iff in E; destruct E
         end.

Lemma pmax0_pmin100 (a : Q) : 0 <= pmax 0 (pmin 100 a) <= 100.
Proof.
  destruct (pmin_cases 100 a) as [[-> A] | [-> A]].
  - destruct (pmax_cases 0 100) as [[-> B] | [-> B]]; lra.
  - destruct (pmax_cases 0 a) as [[-> B] | [-> B]]; lra.
Qed.

Lemma pmin_le_l (a b : Q) : pmin a b <= a.
Proof. destruct (pmin_cases a b) as [[-> A] | [-> A]]; lra. Qed.

Lemma pmin_le_r (a b : Q) : pmin a b <= b.
Proof. destruct (pmin_cases a b) as [[-> A] | [-> A]]; lra. Qed.

Lemma sub_move_bounds `{Libm} (cfg : Cfg) (dt now : Q) (s : SubModel) :
  sub_bounds cfg s -> sub_bounds cfg (sub_move cfg dt now s).
Proof.
  unfold sub_bounds, sub_move. intros (B1 & B2 & B3 & B4 & B5). cbn zeta.
  split_ifs; sub_simpl; repeat split; try tauto;
    apply clamp_bounds; lra.
Qed.

Lemma sub_energy_bounds (cfg : Cfg) (dt : Q) (s : SubModel) :
  sub_bounds cfg s -> sub_bounds cfg (sub_energy cfg dt s).
Proof.
  unfold sub_bounds, sub_energy. intros (B1 & B2 & B3 & B4 & B5). cbn zeta.
  set (drain := if s_refuel_active (if s_refuel_active s then set_s_throttle s 0 else s)
                then 0 else _).
  clearbody drain.
  assert (P := pmax0_pmin100 (s_battery s - drain)).
  destruct (s_refuel_active s); sub_simpl;
    split_ifs_eq; sub_simpl; q_facts; repeat split; try tauto;
    try (apply clamp_bounds; lra); try (apply pmax_lb);
    try match goal with
        | |- pmax 0 (?f - ?d) <= _ =>
          destruct (pmax_cases 0 (f - d)) as [[-> ?] | [-> ?]]; lra
        end.
Qed.

Lemma health_loss_bounds (h loss : Q) :
  0 <= h <= 100 -> 0 <= loss -> 0 <= pmax 0 (h - loss) <= 100.
Proof. intros A B. apply pmax0_bounds; lra. Qed.

Lemma sub_hazards_bounds `{Libm} (cfg : Cfg) (clouds : list Cloud) (dt : Q)
    (s : SubModel) :
  0 <= dt -> 0 <= sub_crush_dps_per_100m cfg ->
  sub_bounds cfg s -> sub_bounds cfg (sub_hazards cfg clouds dt s).
Proof.
  unfold sub_bounds, sub_hazards. intros Hdt Hc (B1 & B2 & B3 & B4 & B5).
  cbn zeta.
  assert (C : forall d, sub_crush_depth cfg < d ->
                0 <= (d - sub_crush_depth cfg) / 100
                     * sub_crush_dps_per_100m cfg * dt).
  { intros d Hd. apply Qmult_le_0_compat; [|exact Hdt].
    apply Qmult_le_0_compat; [|exact Hc].
    apply Qle_shift_div_l; lra. }
  assert (W : forall dps, 0 < dps -> 0 <= dps * dt).
  { intros dps Hd. apply Qmult_le_0_compat; lra. }
  destruct (s_refuel_active s); sub_simpl.
  - split_ifs_eq; sub_simpl; q_facts; repeat split; try tauto;
      apply health_loss_bounds; auto.
  - destruct (Qltb (sub_crush_depth cfg) (s_depth s)) eqn:E; sub_simpl.
    + apply Qltb_true in E. specialize (C _ E).
      assert (B5' := health_loss_bounds _ _ B5 C).
      split_ifs_eq; sub_simpl; q_facts; repeat split; try tauto;
        apply health_loss_bounds; auto.
    + split_ifs_eq; sub_simpl; q_facts; repeat split; try tauto;
        apply health_loss_bounds; auto.
Qed.

Lemma update_sub_bounds `{Libm} (cfg : Cfg) (clouds : list Cloud) (dt now : Q)
    (s : SubModel) :
  0 <= dt -> 0 <= sub_crush_dps_per_100m cfg ->
  sub_bounds cfg s -> sub_bounds cfg (update_sub cfg clouds dt now s).
Proof.
  intros Hdt Hc B. unfold update_sub.
  apply sub_hazards_bounds; [exact Hdt | exact Hc|].
  apply sub_energy_bounds, sub_move_bounds, sub_propel_bounds,
    sub_steer_bounds, sub_rudder_bounds, B.
Qed.

Lemma tick_sub_bounds `{Libm} (cfg : Cfg) (clouds : list Cloud) (dt now : Q)
    (s : SubModel) :
  0 <= dt -> 0 <= sub_crush_dps_per_100m cfg ->
  sub_bounds cfg s -> sub_bounds cfg (tick_sub cfg clouds dt now s).
Proof.
  intros Hdt Hc B. unfold tick_sub. destruct (Qleb (s_health s) 0); [exact B|].
  apply update_sub_bounds; [exact Hdt | exact Hc|].
  apply (sub_bounds_frame _ s); [reflexivity ..| exact B].
Qed.

Lemma fold_left_inv {S A : Type} (I : S -> Prop) (f : S -> A -> S)
    (l : list A) (st : S) :
  I st -> (forall st a, I st -> I (f st a)) -> I (fold_left f l st).
Proof.
  intros H0 Hstep. revert st H0.
  induction l as [|a r IH]; intros st H0; simpl; auto.
Qed.

Lemma nth_error_bounds (cfg : Cfg) (subs : list SubModel) (i : nat)
    (s : SubModel) :
  Forall (sub_bounds cfg) subs -> nth_error subs i = Some s -> sub_bounds cfg s.
Proof.
  intros Hl Hi. rewrite Forall_forall in Hl. apply Hl.
  eapply nth_error_In. exact Hi.
Qed.

Lemma Forall_upd_frame (cfg : Cfg) (f : SubModel -> SubModel)
    (subs : list SubModel) (i : nat) :
  Forall (sub_bounds cfg) subs ->
  (forall a, s_battery (f a) = s_battery a /\ s_fuel (f a) = s_fuel a /\
             s_torpedo_ammo (f a) = s_torpedo_ammo a /\
             s_blow_charge (f a) = s_blow_charge a /\
             s_health (f a) = s_health a) ->
  Forall (sub_bounds cfg) (upd i f subs).
Proof.
  intros Hl Hf. apply Forall_upd; [exact Hl|].
  intros a _ Ha. destruct (Hf a) as (A & B & C & D & E).
  apply (sub_bounds_frame cfg a); assumption.
Qed.

Lemma refuel_amount_fits (cap fuel amount : Q) :
  0 <= fuel <= cap -> 0 < amount -> amount <= pmax 0 (cap - fuel) ->
  0 <= fuel + amount <= cap.
Proof.
  intros A B C.
  destruct (pmax_cases 0 (cap - fuel)) as [[E D] | [E D]]; rewrite E in C; lra.
Qed.

Lemma refuel_one_bounds `{Libm} (cfg : Cfg) (now dt : Q) (i : nat)
    (subs : list SubModel) (fuelers : list FuelerModel) :
  Forall (sub_bounds cfg) subs ->
  Forall (sub_bounds cfg) (fst (refuel_one cfg now dt i (subs, fuelers))).
Proof.
  intro Hl. unfold refuel_one.
  destruct (nth_error subs i) as [s|] eqn:Hi; [|exact Hl].
  pose proof (nth_error_bounds cfg subs i s Hl Hi) as Bs.
  assert (Fr : forall f, (forall a,
                 s_battery (f a) = s_battery a /\ s_fuel (f a) = s_fuel a /\
                 s_torpedo_ammo (f a) = s_torpedo_ammo a /\
                 s_blow_charge (f a) = s_blow_charge a /\
                 s_health (f a) = s_health a) ->
               forall l, Forall (sub_bounds cfg) l ->
                         Forall (sub_bounds cfg) (upd i f l)).
  { intros f Hf l Hl'. apply Forall_upd_frame; assumption. }
  assert (Cn : forall l, Forall (sub_bounds cfg) l ->
                         Forall (sub_bounds cfg) (upd i cancel_refuel l)).
  { intros l Hl'. apply Fr; [|exact Hl']. intro a. repeat split. }
  destruct (negb (s_refuel_active s)).
  { cbn [fst]. apply Fr; [|exact Hl]. intro a. repeat split. }
  destruct (Qleb (bat_max_fuel_capacity cfg) (s_fuel s)); [apply Cn, Hl|].
  destruct (negb (s_is_snorkeling s) || _); [apply Cn, Hl|].
  destruct (nearest_fueler s fuelers 0 None) as [[k d]|]; [|apply Cn, Hl].
  destruct (nth_error fuelers k) as [nearest|]; [|exact Hl].
  set (timer := s_refuel_timer s + dt).
  assert (H1 : Forall (sub_bounds cfg)
                      (upd i (fun o => set_s_refuel_timer o timer) subs)).
  { apply Fr; [|exact Hl]. intro a. repeat split. }
  destruct (Qltb timer 120); [exact H1|].
  set (amount := if Qltb 0 (f_fuel nearest) && _ then _ else 0).
  destruct (Qltb 0 amount) eqn:Ea.
  - apply Qltb_true in Ea.
    assert (Hfit : 0 <= s_fuel s + amount
                   <= bat_max_fuel_capacity cfg).
    { destruct Bs as (_ & Bf & _).
      apply refuel_amount_fits; [exact Bf | exact Ea|].
      unfold amount in *.
      destruct (Qltb 0 (f_fuel nearest) && _); [|lra].
      destruct (Qleb _ 0); apply pmin_le_r. }
    assert (H2 : Forall (sub_bounds cfg)
                   (upd i (fun o => set_s_fuel o (s_fuel s + amount))
                        (upd i (fun o => set_s_refuel_timer o timer) subs))).
    { apply Forall_upd; [exact H1|]. intros a _ (A1 & A2 & A3 & A4 & A5).
      unfold sub_bounds. sub_simpl. tauto. }
    match goal with
    | |- context [if ?c then _ else _] => destruct c
    end; [apply Cn, H2 | exact H2].
  - match goal with
    | |- context [if ?c then _ else _] => destruct c
    end; [apply Cn, H1 | exact H1].
Qed.

Lemma process_refueling_mem_bounds `{Libm} (cfg : Cfg) (now dt : Q)
    (subs : list SubModel) (fuelers : list FuelerModel) :
  Forall (sub_bounds cfg) subs ->
  Forall (sub_bounds cfg) (fst (process_refueling_mem cfg now dt subs fuelers)).
Proof.
  intro Hl. unfold process_refueling_mem. destruct fuelers as [|f r].
  - cbn [fst]. apply Forall_map. eapply Forall_impl; [|exact Hl].
    intros a Ha. apply (sub_bounds_frame cfg a); [reflexivity ..| exact Ha].
  - apply (fold_left_inv (fun st => Forall (sub_bounds cfg) (fst st))).
    + exact Hl.
    + intros [subs' fuelers'] i Hst. apply refuel_one_bounds. exact Hst.
Qed.

Lemma graduated_damage_pos (d : Q) : 0 <= graduated_damage d.
Proof. unfold graduated_damage. split_ifs; lra. Qed.

Lemma explode_one_bounds `{Libm} (cfg : Cfg) (now : Q) (t : TorpedoModel)
    (i : nat) (subs : list SubModel) (ev : list Event) :
  Forall (sub_bounds cfg) subs ->
  Forall (sub_bounds cfg) (fst (explode_one cfg now t i (subs, ev))).
Proof.
  intro Hl. unfold explode_one.
  destruct (nth_error subs i) as [s|] eqn:Hi; [|exact Hl].
  pose proof (nth_error_bounds cfg subs i s Hl Hi) as (_ & _ & _ & _ & Bh).
  set (d := distance3d _ _ _ _ _ _).
  destruct (Qleb d (torp_blast_radius cfg) && Qltb 0 (s_health s)); [|exact Hl].
  cbn [fst].
  assert (H1 : Forall (sub_bounds cfg)
                 (upd i (fun o => set_s_health o
                                    (pmax 0 (s_health s - graduated_damage d)))
                      subs)).
  { apply Forall_upd; [exact Hl|]. intros a _ (A1 & A2 & A3 & A4 & A5).
    unfold sub_bounds. sub_simpl. repeat split; try tauto;
      apply health_loss_bounds; auto using graduated_damage_pos. }
  match goal with
  | |- context [if ?c then _ else _] => destruct c
  end; [|exact H1].
  destruct (find_index _ _) as [j|]; [|exact H1].
  apply Forall_upd_frame; [exact H1|]. intro a. repeat split.
Qed.

Lemma explode_torpedo_in_mem_bounds `{Libm} (cfg : Cfg) (now : Q)
    (t : TorpedoModel) (subs : list SubModel) (ev : list Event) :
  Forall (sub_bounds cfg) subs ->
  Forall (sub_bounds cfg) (fst (explode_torpedo_in_mem cfg now t subs ev)).
Proof.
  intro Hl. unfold explode_torpedo_in_mem.
  apply (fold_left_inv (fun st => Forall (sub_bounds cfg) (fst st)));
    [exact Hl|].
  intros [subs' ev'] i Hst. apply explode_one_bounds. exact Hst.
Qed.

Lemma process_explosions_mem_bounds `{Libm} (cfg : Cfg) (now : Q)
    (torps : list TorpedoModel) (subs : list SubModel) (ev : list Event) :
  Forall (sub_bounds cfg) subs ->
  Forall (sub_bounds cfg)
         (snd (fst (process_explosions_mem cfg now torps subs ev))).
Proof.
  intro Hl. unfold process_explosions_mem.
  apply (fold_left_inv (fun st => Forall (sub_bounds cfg) (snd (fst st))));
    [exact Hl|].
  intros [[torps' subs'] ev'] k Hst. cbn [fst snd] in Hst.
  unfold process_one_torpedo.
  destruct (nth_error torps' k) as [t|]; [|exact Hst].
  pose proof (explode_torpedo_in_mem_bounds cfg now t subs' ev' Hst) as He.
  destruct (explode_torpedo_in_mem cfg now t subs' ev') as [subs'' ev''].
  cbn [fst] in He.
  split_ifs; cbn [fst snd]; assumption.
Qed.

Lemma observe_one_bounds `{Libm} (cfg : Cfg) (clouds : list Cloud) (now : Q)
    (g : Rng) (torps : list TorpedoModel) (i : nat) (subs : list SubModel)
    (ev : list Event) (n : nat) :
  Forall (sub_bounds cfg) subs ->
  Forall (sub_bounds cfg)
         (fst (fst (observe_one cfg clouds now g torps i (subs, ev, n)))).
Proof.
  intro Hl. unfold observe_one.
  destruct (nth_error subs i) as [obs|]; [|exact Hl].
  destruct (Qltb _ _); [exact Hl|].
  assert (U : forall l, Forall (sub_bounds cfg) l ->
                Forall (sub_bounds cfg)
                       (upd i (fun o => set_s_last_report o now) l)).
  { intros l Hl'. apply Forall_upd_frame; [exact Hl'|]. intro a.
    repeat split. }
  destruct (first_heard (hears_sub cfg clouds now obs) subs) as [[tgt snr]|];
    destruct (first_heard (hears_torp cfg clouds obs) torps) as [[torp snr']|];
    cbn [fst]; auto.
Qed.

Lemma schedule_passive_contacts_bounds `{Libm} (cfg : Cfg)
    (clouds : list Cloud) (now : Q) (g : Rng) (n : nat)
    (subs : list SubModel) (torps : list TorpedoModel) (ev : list Event) :
  Forall (sub_bounds cfg) subs ->
  Forall (sub_bounds cfg)
    (fst (fst (fst (schedule_passive_contacts cfg clouds now g n subs torps ev)))).
Proof.
  intro Hl. unfold schedule_passive_contacts.
  pose proof (fold_left_inv
                (fun st => Forall (sub_bounds cfg) (fst (fst st)))
                (fun st i => observe_one cfg clouds now g torps i st)
                (seq 0 (List.length subs)) (subs, ev, n) Hl) as F.
  destruct (fold_left _ (seq 0 (List.length subs)) (subs, ev, n))
    as [[subs1 ev1] n1].
  destruct (fold_left _ _ (torps, ev1, n1)) as [[torps2 ev2] n2].
  destruct (fold_left _ _ (torps2, ev2, n2)) as [[torps3 ev3] n3].
  cbn [fst]. apply F.
  intros [[subs' ev'] n'] i Hst. apply observe_one_bounds. exact Hst.
Qed.

Lemma game_tick_bounds `{Libm} (cfg : Cfg) (elapsed now : Q) (g : Rng)
    (n : nat) (clouds' : list Cloud) (w : World) :
  0 <= sub_crush_dps_per_100m cfg ->
  Forall (sub_bounds cfg) (w_subs w) ->
  Forall (sub_bounds cfg)
         (w_subs (fst (fst (game_tick cfg elapsed now g n clouds' w)))).
Proof.
  intros Hc Hl. unfold game_tick.
  set (dt := pmax 0 (pmin elapsed 0.25)).
  assert (Hdt : 0 <= dt) by apply pmax_lb.
  set (subs1 := map (tick_sub cfg clouds' dt now) (w_subs w)).
  assert (H1 : Forall (sub_bounds cfg) subs1).
  { unfold subs1. apply Forall_map. eapply Forall_impl; [|exact Hl].
    intros a Ha. apply tick_sub_bounds; assumption. }
  set (torps1 := map (update_torpedo cfg subs1 dt now) (w_torps w)).
  pose proof (process_refueling_mem_bounds cfg now dt subs1 (w_fuelers w) H1)
    as H2.
  destruct (process_refueling_mem cfg now dt subs1 (w_fuelers w))
    as [subs2 fuelers2]. cbn [fst] in H2.
  pose proof (process_explosions_mem_bounds cfg now
                (process_wire_links_mem cfg torps1 subs2) subs2 [] H2) as H3.
  destruct (process_explosions_mem cfg now _ subs2 [])
    as [[torps3 subs3] ev3]. cbn [fst snd] in H3.
  pose proof (schedule_passive_contacts_bounds cfg clouds' now g n subs3
                torps3 ev3 H3) as H4.
  destruct (schedule_passive_contacts cfg clouds' now g n subs3 torps3 ev3)
    as [[[subs4 torps4] ev4] n4]. cbn [fst] in H4.
  destruct (process_active_pings cfg now g n4 subs4 (w_pending w))
    as [[pending echoes] n5].
  cbn [fst w_subs].
  apply Forall_forall. intros s Hs. apply filter_In in Hs.
  rewrite Forall_forall in H4. apply H4. tauto.
Qed.

Lemma uniform_range (g : Rng) (n : nat) (a b : Q) :
  unit_draws g -> a <= b -> a <= uniform g n a b <= b.
Proof.
  intros U Hab. destruct (U n) as [U0 U1]. unfold uniform.
  assert (P : 0 <= (b - a) * g n) by (apply Qmult_le_0_compat; lra).
  assert (R : 0 <= (b - a) * (1 - g n)) by (apply Qmult_le_0_compat; lra).
  split; [lra|].
  setoid_replace ((b - a) * (1 - g n)) with ((b - a) - (b - a) * g n) in R
    by ring.
  lra.
Qed.

Lemma register_sub_bounds `{Libm} (cfg : Cfg) (now : Q) (user : Z)
    (new_id : string) (g : Rng) (n : nat) (users : list User)
    (subs : list SubModel) :
  cfg_sane cfg -> unit_draws g ->
  Forall (sub_bounds cfg) subs ->
  Forall (sub_bounds cfg)
         (snd (register_sub cfg now user new_id g n users subs)).
Proof.
  intros (S1 & S2 & S3 & S4 & S5 & S6) U Hl. unfold register_sub.
  match goal with
  | |- context [match ?b with Some _ => _ | None => _ end] => destruct b
  end; [exact Hl|].
  destruct (random_spawn_pos cfg g n subs) as [[x y] n1]. cbn [snd].
  apply Forall_app. split; [exact Hl|]. constructor; [|constructor].
  unfold sub_bounds. sub_simpl.
  pose proof (uniform_range g (n1 + 2) _ _ U S2) as Hb.
  change (s_fuel (SubModel_defaults cfg now new_id user)) with 1000.
  repeat split; try lra; try lia.
Qed.

Ltac owned_tac cfg Hl :=
  match goal with
  | |- context [owned_sub ?u ?i ?l] =>
    let Ho := fresh "Ho" in
    let s := fresh "s" in
    destruct (owned_sub u i l) as [s|] eqn:Ho;
    [pose proof (owned_sub_bounds cfg u i l s Hl Ho) | exact Hl]
  end.

Ltac commit_frame s Hl :=
  cbn [snd];
  first [ exact Hl
        | apply Forall_commit_sub; [exact Hl|];
          apply (sub_bounds_frame _ s);
          [split_ifs; reflexivity ..| assumption] ].

Lemma control_bounds (cfg : Cfg) (user : Z) (sub_id : string)
    (d : ControlArgs) (subs : list SubModel) :
  Forall (sub_bounds cfg) subs ->
  Forall (sub_bounds cfg) (snd (control cfg user sub_id d subs)).
Proof.
  intro Hl. unfold control. owned_tac cfg Hl. cbn zeta. commit_frame s Hl.
Qed.

Lemma snorkel_bounds (cfg : Cfg) (user : Z) (sub_id : string) (toggle : bool)
    (on : option bool) (subs : list SubModel) :
  Forall (sub_bounds cfg) subs ->
  Forall (sub_bounds cfg) (snd (snorkel cfg user sub_id toggle on subs)).
Proof.
  intro Hl. unfold snorkel. owned_tac cfg Hl. cbn zeta.
  destruct (if toggle || _ then _ else _);
    [destruct (Qltb _ _)|]; commit_frame s Hl.
Qed.

Lemma emergency_blow_bounds (cfg : Cfg) (now : Q) (user : Z)
    (sub_id : string) (subs : list SubModel) :
  Forall (sub_bounds cfg) subs ->
  Forall (sub_bounds cfg) (snd (emergency_blow cfg now user sub_id subs)).
Proof.
  intro Hl. unfold emergency_blow. owned_tac cfg Hl.
  destruct (Qleb _ _); commit_frame s Hl.
Qed.

Lemma launch_torpedo_bounds `{Libm} (cfg : Cfg) (now : Q) (user : Z)
    (sub_id : string) (range : option Q) (new_id : string)
    (subs : list SubModel) (torps : list TorpedoModel) :
  Forall (sub_bounds cfg) subs ->
  Forall (sub_bounds cfg)
         (snd (fst (launch_torpedo cfg now user sub_id range new_id subs torps))).
Proof.
  intro Hl. unfold launch_torpedo. owned_tac cfg Hl.
  destruct (s_torpedo_ammo s <=? 0)%Z eqn:E; [exact Hl|].
  apply Z.leb_gt in E. cbn [fst snd].
  apply Forall_commit_sub; [exact Hl|].
  unfold sub_bounds in *. sub_simpl. repeat split; try tauto; lia.
Qed.

Lemma reload_torpedoes_bounds (cfg : Cfg) (user : Z) (sub_id : string)
    (requested : CountArg) (subs : list SubModel) :
  Forall (sub_bounds cfg) subs ->
  Forall (sub_bounds cfg) (snd (reload_torpedoes cfg user sub_id requested subs)).
Proof.
  intro Hl. unfold reload_torpedoes. owned_tac cfg Hl.
  set (missing := Z.max 0 (torp_magazine_size cfg - s_torpedo_ammo s)).
  destruct (missing <=? 0)%Z eqn:E; [exact Hl|]. apply Z.leb_gt in E.
  assert (G : forall k, (0 < k <= missing)%Z ->
            Forall (sub_bounds cfg)
              (snd (if Qltb (s_battery s)
                            (torp_reload_battery_cost_per_torp cfg * inject_Z k)
                    then (Err 400 "not enough battery"
                            [("required"%string,
                              torp_reload_battery_cost_per_torp cfg * inject_Z k);
                             ("battery"%string, s_battery s)], subs)
                    else
                      (Ok (mkReloadBody k
                             (py_round (torp_reload_battery_cost_per_torp cfg
                                        * inject_Z k) 1)
                             (py_round
                                (s_battery
                                   (set_s_torpedo_ammo
                                      (set_s_battery s
                                         (clamp (s_battery s
                                                 - torp_reload_battery_cost_per_torp cfg
                                                   * inject_Z k) 0 100))
                                      (s_torpedo_ammo s + k)%Z)) 1)
                             (s_torpedo_ammo
                                (set_s_torpedo_ammo
                                   (set_s_battery s
                                      (clamp (s_battery s
                                              - torp_reload_battery_cost_per_torp cfg
                                                * inject_Z k) 0 100))
                                   (s_torpedo_ammo s + k)%Z))
                             (torp_magazine_size cfg)),
                       commit_sub
                         (set_s_torpedo_ammo
                            (set_s_battery s
                               (clamp (s_battery s
                                       - torp_reload_battery_cost_per_torp cfg
                                         * inject_Z k) 0 100))
                            (s_torpedo_ammo s + k)%Z) subs)))).
  { intros k Hk. destruct (Qltb _ _); [exact Hl|]. cbn [snd].
    apply Forall_commit_sub; [exact Hl|].
    unfold sub_bounds in *. sub_simpl.
    repeat split; try tauto; try (apply clamp_bounds; lra);
      unfold missing in *; lia. }
  destruct requested as [| |k].
  - apply G. lia.
  - exact Hl.
  - destruct (k <=? 0)%Z eqn:Ek; [exact Hl|]. apply Z.leb_gt in Ek.
    apply G. lia.
Qed.

Lemma set_sub_heading_bounds `{Libm} (cfg : Cfg) (now : Q) (user : Z)
    (sub_id : string) (a : HeadingArg) (subs : list SubModel) :
  Forall (sub_bounds cfg) subs ->
  Forall (sub_bounds cfg) (snd (set_sub_heading now user sub_id a subs)).
Proof.
  intro Hl. unfold set_sub_heading. owned_tac cfg Hl.
  destruct a; commit_frame s Hl.
Qed.

Lemma turn_sub_bounds `{Libm} (cfg : Cfg) (now : Q) (user : Z)
    (sub_id : string) (a : option Q) (subs : list SubModel) :
  Forall (sub_bounds cfg) subs ->
  Forall (sub_bounds cfg) (snd (turn_sub now user sub_id a subs)).
Proof.
  intro Hl. unfold turn_sub. owned_tac cfg Hl.
  destruct a; commit_frame s Hl.
Qed.

Lemma set_passive_array_bounds `{Libm} (cfg : Cfg) (user : Z)
    (sub_id : string) (a : option Q) (subs : list SubModel) :
  Forall (sub_bounds cfg) subs ->
  Forall (sub_bounds cfg) (snd (set_passive_array user sub_id a subs)).
Proof.
  intro Hl. unfold set_passive_array. owned_tac cfg Hl. commit_frame s Hl.
Qed.

Lemma ping_sub_bounds (cfg : Cfg) (now : Q) (a : PingArgs) (s : SubModel) :
  sub_bounds cfg s -> sub_bounds cfg (snd (ping_sub cfg now a s)).
Proof.
  intro B. unfold ping_sub. cbn zeta.
  destruct (Qltb _ _); [exact B|]. destruct (Qltb _ _); [exact B|].
  unfold sub_bounds in *. sub_simpl.
  split_ifs; sub_simpl; repeat split; try tauto; apply clamp_bounds; lra.
Qed.

Lemma ping_bounds `{Libm} (cfg : Cfg) (clouds : list Cloud) (now : Q)
    (user : Z) (sub_id : string) (a : PingArgs) (subs : list SubModel) :
  Forall (sub_bounds cfg) subs ->
  Forall (sub_bounds cfg)
         (snd (fst (fst (ping cfg clouds now user sub_id a subs)))).
Proof.
  intro Hl. unfold ping. owned_tac cfg Hl. cbn zeta.
  assert (M : forall o, sub_bounds cfg o -> sub_bounds cfg (mapped_columns o)).
  { intro o. apply sub_bounds_frame; reflexivity. }
  pose proof (ping_sub_bounds cfg now a (mapped_columns s) (M s H0)) as P.
  destruct (ping_sub cfg now a (mapped_columns s))
    as [[body | st msg fields] s2];
    cbn [fst snd] in *; [|exact Hl].
  apply Forall_commit_sub; [exact Hl|]. apply M. exact P.
Qed.

Lemma weather_scan_bounds (cfg : Cfg) (now : Q) (user : Z) (sub_id : string)
    (subs : list SubModel) :
  Forall (sub_bounds cfg) subs ->
  Forall (sub_bounds cfg) (snd (weather_scan cfg now user sub_id subs)).
Proof.
  intro Hl. unfold weather_scan. owned_tac cfg Hl.
  destruct (Qltb _ _); [exact Hl|]. cbn [snd].
  apply Forall_commit_sub; [exact Hl|].
  unfold sub_bounds in *. sub_simpl.
  repeat split; try tauto; apply clamp_bounds; lra.
Qed.

Lemma start_refuel_bounds `{Libm} (cfg : Cfg) (user : Z) (sub_id : string)
    (subs : list SubModel) (fuelers : list FuelerModel) :
  Forall (sub_bounds cfg) subs ->
  Forall (sub_bounds cfg) (snd (start_refuel cfg user sub_id subs fuelers)).
Proof.
  intro Hl. unfold start_refuel. owned_tac cfg Hl.
  destruct fuelers as [|f r]; [exact Hl|].
  destruct (nearest_with_fuel s (f :: r) None) as [[nearest nd]|]; [|exact Hl].
  destruct (Qltb 50 nd); commit_frame s Hl.
Qed.

Lemma detonate_torp_bounds `{Libm} (cfg : Cfg) (now : Q) (user : Z)
    (torp_id : string) (subs : list SubModel) (torps : list TorpedoModel) :
  Forall (sub_bounds cfg) subs ->
  Forall (sub_bounds cfg)
         (snd (fst (fst (detonate_torp cfg now user torp_id subs torps)))).
Proof.
  intro Hl. unfold detonate_torp.
  destruct (find _ torps) as [t|]; [|exact Hl].
  destruct (negb _); [exact Hl|]. cbn [fst snd].
  apply Forall_map. eapply Forall_impl; [|exact Hl].
  intros s (A1 & A2 & A3 & A4 & A5). unfold detonate_sub.
  destruct (detonate_damage cfg t s) as [[damage d]|] eqn:E;
    [|unfold sub_bounds; tauto].
  unfold detonate_damage in E. destruct (Qleb _ _); [|discriminate].
  inversion E; subst. unfold sub_bounds. sub_simpl.
  repeat split; try tauto;
    apply health_loss_bounds; auto using graduated_damage_pos.
Qed.

Lemma handle_bounds `{Libm} (cfg : Cfg) (now : Q) (g : Rng) (n : nat)
    (user : Z) (req : Request) (w : World) :
  cfg_sane cfg -> unit_draws g ->
  Forall (sub_bounds cfg) (w_subs w) ->
  Forall (sub_bounds cfg) (w_subs (handle cfg now g n user req w)).
Proof.
  intros Hc U Hl. destruct req; cbn [handle]; try exact Hl.
  - apply register_sub_bounds; assumption.
  - apply control_bounds; assumption.
  - apply snorkel_bounds; assumption.
  - apply emergency_blow_bounds; assumption.
  - pose proof (launch_torpedo_bounds cfg now user sub_id range new_id
                  (w_subs w) (w_torps w) Hl) as L.
    destruct (launch_torpedo _ _ _ _ _ _ _ _) as [[r subs] torps]. exact L.
  - apply reload_torpedoes_bounds; assumption.
  - apply (set_sub_heading_bounds cfg); assumption.
  - apply (turn_sub_bounds cfg); assumption.
  - apply (set_passive_array_bounds cfg); assumption.
  - pose proof (ping_bounds cfg (w_clouds w) now user sub_id a (w_subs w) Hl)
      as P.
    destruct (ping _ _ _ _ _ _ _) as [[[r subs] echoes] evs]. exact P.
  - apply weather_scan_bounds; assumption.
  - apply start_refuel_bounds; assumption.
  - pose proof (detonate_torp_bounds cfg now user torp_id (w_subs w)
                  (w_torps w) Hl) as D.
    destruct (detonate_torp _ _ _ _ _ _) as [[[r subs] torps] evs]. exact D.
Qed.

(** C5.  Under a configuration within its own ranges ([cfg_sane], which
    [DEFAULT_CFG] meets) every step of the system, an iteration of the game
    loop or a request of the control API, keeps every submarine within
    [0 <= battery <= 100], [0 <= fuel <= max_fuel_capacity],
    [0 <= torpedo_ammo <= magazine_size], [0 <= blow_charge <= 1] and
    [0 <= health <= 100]; so every submarine of every reachable state is
    within them. *)
Theorem resource_bounds_invariant `{Libm} (cfg : Cfg) :
  cfg_sane cfg ->
  (forall w w', step cfg w w' ->
                Forall (sub_bounds cfg) (w_subs w) ->
                Forall (sub_bounds cfg) (w_subs w')) /\
  (forall w, reachable cfg w -> Forall (sub_bounds cfg) (w_subs w)).
Proof.
  intro Hc.
  assert (S : forall w w', step cfg w w' ->
                Forall (sub_bounds cfg) (w_subs w) ->
                Forall (sub_bounds cfg) (w_subs w')).
  { intros w w' St Hl. destruct St as [elapsed now g n clouds' w U
                                      | now g n user req w U].
    - apply game_tick_bounds; [apply Hc | exact Hl].
    - apply handle_bounds; assumption. }
  split; [exact S|].
  intros w R. induction R as [w E | w w' R IH St].
  - rewrite E. constructor.
  - exact (S w w' St IH).
Qed.

Lemma DEFAULT_CFG_sane : cfg_sane DEFAULT_CFG.
Proof.
  unfold cfg_sane.
  cbn [DEFAULT_CFG bat_initial_min bat_initial_max bat_max_fuel_capacity
       torp_magazine_size sub_crush_dps_per_100m].
  repeat split; try lra; lia.
Qed.

Lemma draws_half_unit : unit_draws draws_half.
Proof. intro n. unfold draws_half. split; lra. Qed.

Lemma world_2_reachable : reachable DEFAULT_CFG world_2.
Proof.
  apply (reach_step DEFAULT_CFG world_1).
  - apply (reach_step DEFAULT_CFG world_0).
    + apply reach_init. reflexivity.
    + exact (step_request DEFAULT_CFG 0 draws_half 0 1 (ReqRegisterSub "A")
                          world_0 draws_half_unit).
  - exact (step_tick DEFAULT_CFG 0.1 0.1 draws_half 0 [] world_1
                     draws_half_unit).
Qed.

Lemma resource_bounds_invariant_witness :
  Forall (sub_bounds DEFAULT_CFG) (w_subs world_2).
Proof.
  exact (proj2 (resource_bounds_invariant DEFAULT_CFG DEFAULT_CFG_sane)
               world_2 world_2_reachable).
Defined.

(** ** Ping cooldown *)

Lemma ping_sub_keeps_identity (cfg : Cfg) (now : Q) (a : PingArgs)
    (s : SubModel) :
  s_id (snd (ping_sub cfg now a s)) = s_id s /\
  s_owner_id (snd (ping_sub cfg now a s)) = s_owner_id s.
Proof.
  unfold ping_sub. cbn zeta. split_ifs; split; reflexivity.
Qed.

Lemma ping_sub_fresh (cfg : Cfg) (now : Q) (a : PingArgs) (s : SubModel) :
  (forall fields,
     fst (ping_sub cfg now a (mapped_columns s))
     <> Err 400 "ping recharging" fields) /\
  (power_min_battery cfg <= s_battery s -> ping_cost cfg a <= s_battery s ->
   is_ok (fst (ping_sub cfg now a (mapped_columns s))) = true).
Proof.
  unfold ping_sub, ping_cost, mapped_columns. cbn zeta. sub_simpl.
  destruct (Qltb (s_battery s) (power_min_battery cfg)) eqn:B1.
  { apply Qltb_true in B1. split; [intros f; cbn; discriminate|]. intros. lra. }
  match goal with
  | |- context [if ?c then _ else _] => destruct c eqn:B2
  end.
  { apply Qltb_true in B2. split; [intros f; cbn; discriminate|].
    intros. unfold ping_beam, ping_max_r in *. lra. }
  split; [intros f; cbn; discriminate|]. intros. reflexivity.
Qed.

(** C7, what the code does.  The cooldown is not enforced.  [ping] stamps
    [ping_cooldown = now + 5] on the object of its own request, and the
    stamp goes no further: the row it commits carries the new battery
    charge and no cooldown, and the next request loads an object without
    the attribute.  So no [/ping] request is ever answered 'ping
    recharging'; and after a successful ping a further one succeeds at
    once, however soon it comes, whenever the battery left passes the two
    battery checks (and the bearing asked for is one on which [wrap_angle]
    returns). *)
Theorem ping_cooldown_not_enforced `{Libm} (cfg : Cfg) (clouds : list Cloud)
    (now : Q) (user : Z) (sub_id : string) (a : PingArgs)
    (subs : list SubModel) :
  (forall fields,
     fst (fst (fst (ping cfg clouds now user sub_id a subs)))
     <> Err 400 "ping recharging" fields) /\
  (forall body subs1 echoes evs,
     ping cfg clouds now user sub_id a subs = (Ok body, subs1, echoes, evs) ->
     exists s s1,
       owned_sub user sub_id subs = Some s /\
       owned_sub user sub_id subs1 = Some s1 /\
       s_battery s1 = clamp (s_battery s - ping_cost cfg a) 0 100 /\
       s_heading s1 = s_heading s /\
       s_ping_cooldown s1 = None /\
       forall (clouds' : list Cloud) (now' : Q) (a' : PingArgs),
         power_min_battery cfg <= s_battery s1 ->
         ping_cost cfg a' <= s_battery s1 ->
         wrap_angle_ends
           (s_heading s1 + radians (getd (pa_center_bearing_deg a') 0)) ->
         is_ok (fst (fst (fst (ping cfg clouds' now' user sub_id a' subs1))))
         = true).
Proof.
  split.
  - intro fields. unfold ping.
    destruct (owned_sub user sub_id subs) as [row|]; [|cbn; discriminate].
    cbn zeta.
    destruct (ping_sub_fresh cfg now a row) as [R _]. specialize (R fields).
    destruct (ping_sub cfg now a (mapped_columns row))
      as [[b | st msg f] s2]; cbn [fst] in *; [discriminate | exact R].
  - intros body subs1 echoes evs P. unfold ping in P.
    destruct (owned_sub user sub_id subs) as [row|] eqn:Ho; [|discriminate].
    cbn zeta in P.
    destruct (ping_sub_keeps_identity cfg now a (mapped_columns row))
      as [I O].
    assert (B : forall b o,
               ping_sub cfg now a (mapped_columns row) = (Ok b, o) ->
               s_battery o = clamp (s_battery row - ping_cost cfg a) 0 100 /\
               s_heading o = s_heading row).
    { unfold ping_sub, ping_cost, mapped_columns. cbn zeta. sub_simpl.
      intros b o. split_ifs; intro E; inversion E; split; reflexivity. }
    destruct (ping_sub cfg now a (mapped_columns row))
      as [[b | st msg fields] s2] eqn:E; [|discriminate].
    destruct (B b s2 eq_refl) as [Bt Hd]. clear B.
    cbn [snd] in I, O.
    inversion P; subst; clear P.
    exists row, (mapped_columns s2).
    assert (Ho1 : owned_sub user sub_id (commit_sub (mapped_columns s2) subs)
                  = Some (mapped_columns s2)).
    { apply (owned_sub_commit user sub_id subs row);
        [exact Ho | exact I | exact O]. }
    split; [reflexivity|]. split; [exact Ho1|]. split; [exact Bt|].
    split; [exact Hd|]. split; [reflexivity|].
    intros clouds' now' a' B1 B2 _. unfold ping. rewrite Ho1. cbn zeta.
    destruct (ping_sub_fresh cfg now' a' (mapped_columns s2)) as [_ K].
    specialize (K B1 B2).
    destruct (ping_sub cfg now' a' (mapped_columns (mapped_columns s2)))
      as [[b' | st' msg' fields'] s3]; cbn [fst] in *; [reflexivity | exact K].
Qed.

Lemma ping_cooldown_not_enforced_witness :
  exists body subs1 echoes evs,
    ping DEFAULT_CFG [] 0 1 "A" default_ping [sub_A]
    = (Ok body, subs1, echoes, evs) /\
    is_ok (fst (fst (fst (ping DEFAULT_CFG [] 1 1 "A" default_ping subs1))))
    = true.
Proof.
  destruct (ping DEFAULT_CFG [] 0 1 "A" default_ping [sub_A])
    as [[[r subs1] echoes] evs] eqn:E.
  destruct r as [body | st msg fields]; [|vm_compute in E; discriminate].
  exists body, subs1, echoes, evs. split; [reflexivity|].
  destruct (proj2 (ping_cooldown_not_enforced DEFAULT_CFG [] 0 1 "A"
                     default_ping [sub_A]) body subs1 echoes evs E)
    as (s & s1 & Hs & _ & Hb & Hh & _ & K).
  vm_compute in Hs. inversion Hs; subst s. clear Hs.
  apply (K [] 1 default_ping); [rewrite Hb; qdec | rewrite Hb; qdec|].
  unfold wrap_angle_ends. rewrite Hh. vm_compute. discriminate.
Defined.

(** * Further properties of the handlers and the tick *)

(** ** Ownership *)

Lemma owned_sub_spec (user : Z) (sub_id : string) (subs : list SubModel)
    (s : SubModel) :
  owned_sub user sub_id subs = Some s ->
  In s subs /\ s_id s = sub_id /\ s_owner_id s = user.
Proof.
  unfold owned_sub. destruct (find _ subs) as [s0|] eqn:F; [|discriminate].
  destruct (Z.eqb (s_owner_id s0) user) eqn:O; [|discriminate].
  intro E. inversion E; subst. apply find_some in F. destruct F as [I N].
  apply String.eqb_eq in N. apply Z.eqb_eq in O. auto.
Qed.

Lemma NoDup_key_eq {A K : Type} (key : A -> K) (l : list A) (a b : A) :
  NoDup (map key l) -> In a l -> In b l -> key a = key b -> a = b.
Proof.
  induction l as [|x r IH]; intros N Ia Ib E; [contradiction|].
  simpl in N. inversion N as [|? ? Nx Nr]; subst.
  destruct Ia as [-> | Ia], Ib as [-> | Ib]; auto.
  - exfalso. apply Nx. rewrite E. apply in_map. exact Ib.
  - exfalso. apply Nx. rewrite <- E. apply in_map. exact Ia.
Qed.

Lemma commit_sub_foreign (user : Z) (sub_id : string) (subs : list SubModel)
    (s s' o : SubModel) :
  NoDup (map s_id subs) -> owned_sub user sub_id subs = Some s ->
  s_id s' = s_id s -> In o subs -> s_owner_id o <> user ->
  In o (commit_sub s' subs).
Proof.
  intros N Ho E Io No. apply owned_sub_spec in Ho. destruct Ho as (Is & _ & Os).
  unfold commit_sub. apply in_map_iff. exists o. split; [|exact Io].
  destruct (String.eqb (s_id o) (s_id s')) eqn:Q; [|reflexivity].
  apply String.eqb_eq in Q. rewrite E in Q.
  pose proof (NoDup_key_eq s_id subs o s N Io Is Q). subst. contradiction.
Qed.

Lemma ping_sub_id (cfg : Cfg) (now : Q) (a : PingArgs) (s : SubModel) :
  s_id (snd (ping_sub cfg now a s)) = s_id s.
Proof. unfold ping_sub. cbn zeta. split_ifs; reflexivity. Qed.

Ltac foreign_tac N Io No :=
  match goal with
  | |- context [owned_sub ?u ?i ?l] =>
    let Ho := fresh "Ho" in
    let s := fresh "s" in
    destruct (owned_sub u i l) as [s|] eqn:Ho; cbn zeta; [|exact Io];
    split_ifs; cbn [snd fst];
    first [ exact Io
          | eapply (commit_sub_foreign _ _ _ s); eauto; reflexivity ]
  end.

(** X2.  Access control, submarines.  With unique submarine ids, a request of
    [user] other than [/detonate] leaves every submarine of another player
    in the table exactly as it was: each handler commits only the row it
    fetched with the caller's ownership test. *)
Theorem request_keeps_foreign_submarines `{Libm} (cfg : Cfg) (now : Q) (g : Rng) (n : nat)
    (user : Z) (req : Request) (w : World) (o : SubModel) :
  NoDup (map s_id (w_subs w)) -> is_detonate req = false ->
  In o (w_subs w) -> s_owner_id o <> user ->
  In o (w_subs (handle cfg now g n user req w)).
Proof.
  intros N D Io No. destruct req; cbn [handle with_subs with_torps w_subs];
    try exact Io; try discriminate.
  - unfold register_sub. cbn zeta.
    match goal with
    | |- context [match ?b with Some f => _ | None => _ end] => destruct b
    end; [exact Io|].
    destruct (random_spawn_pos _ _ _ _) as [[x y] n1]. cbn [snd].
    apply in_or_app. left. exact Io.
  - unfold control. foreign_tac N Io No.
  - unfold snorkel. foreign_tac N Io No.
  - unfold emergency_blow. foreign_tac N Io No.
  - unfold launch_torpedo. cbn zeta.
    destruct (owned_sub user sub_id (w_subs w)) as [s|] eqn:Ho; [|exact Io].
    destruct (s_torpedo_ammo s <=? 0)%Z; [exact Io|]. cbn [w_subs].
    eapply (commit_sub_foreign _ _ _ s); eauto.
  - unfold reload_torpedoes.
    destruct (owned_sub user sub_id (w_subs w)) as [s|] eqn:Ho; [|exact Io].
    cbn zeta. destruct (_ <=? 0)%Z; [exact Io|].
    destruct count; split_ifs; cbn [snd];
      first [ exact Io | eapply (commit_sub_foreign _ _ _ s); eauto; reflexivity ].
  - unfold set_sub_heading. destruct heading_deg; foreign_tac N Io No.
  - unfold turn_sub. foreign_tac N Io No.
  - unfold set_passive_array. foreign_tac N Io No.
  - unfold ping.
    destruct (owned_sub user sub_id (w_subs w)) as [s|] eqn:Ho; [|exact Io].
    cbn zeta. pose proof (ping_sub_id cfg now a (mapped_columns s)) as Pid.
    destruct (ping_sub cfg now a (mapped_columns s))
      as [[body|st msg fields] s2];
      cbn [w_subs]; [|exact Io].
    eapply (commit_sub_foreign _ _ _ s); eauto.
  - unfold weather_scan. foreign_tac N Io No.
  - unfold start_refuel.
    destruct (owned_sub user sub_id (w_subs w)) as [s|] eqn:Ho; [|exact Io].
    destruct (w_fuelers w) as [|f fr]; [exact Io|].
    destruct (nearest_with_fuel _ _ _) as [[nearest d]|]; [|exact Io].
    destruct (Qltb 50 d); [exact Io|]. cbn [snd].
    eapply (commit_sub_foreign _ _ _ s); eauto.
Qed.

Lemma commit_torp_foreign (user : Z) (torp_id : string)
    (torps : list TorpedoModel) (t t' o : TorpedoModel) :
  NoDup (map t_id torps) -> find_torp torp_id torps = Some t ->
  t_owner_id t = user -> t_id t' = t_id t -> In o torps ->
  t_owner_id o <> user -> In o (commit_torp t' torps).
Proof.
  intros N F Ot E Io No. unfold find_torp in F. apply find_some in F.
  destruct F as [It _].
  unfold commit_torp. apply in_map_iff. exists o. split; [|exact Io].
  destruct (String.eqb (t_id o) (t_id t')) eqn:Q; [|reflexivity].
  apply String.eqb_eq in Q. rewrite E in Q.
  pose proof (NoDup_key_eq t_id torps o t N Io It Q). subst. contradiction.
Qed.

Ltac foreign_torp_tac Io :=
  match goal with
  | |- context [find_torp ?i ?l] =>
    let F := fresh "F" in
    let t := fresh "t" in
    let O := fresh "O" in
    destruct (find_torp i l) as [t|] eqn:F; cbn zeta; [|exact Io];
    destruct (Z.eqb (t_owner_id t) _) eqn:O; cbn [negb]; [|exact Io];
    apply Z.eqb_eq in O;
    split_ifs; cbn [snd fst];
    first [ exact Io
          | eapply (commit_torp_foreign _ _ _ t); eauto; reflexivity ]
  end.

(** X3.  Access control, torpedoes.  With unique torpedo ids, no request of
    [user], [/detonate] included, changes or removes a torpedo of another
    player. *)
Theorem request_keeps_foreign_torpedoes `{Libm} (cfg : Cfg) (now : Q) (g : Rng) (n : nat)
    (user : Z) (req : Request) (w : World) (o : TorpedoModel) :
  NoDup (map t_id (w_torps w)) ->
  In o (w_torps w) -> t_owner_id o <> user ->
  In o (w_torps (handle cfg now g n user req w)).
Proof.
  intros N Io No. destruct req; cbn [handle with_subs with_torps w_torps];
    try exact Io.
  - unfold launch_torpedo. cbn zeta.
    destruct (owned_sub user sub_id (w_subs w)) as [s|]; [|exact Io].
    destruct (s_torpedo_ammo s <=? 0)%Z; [exact Io|]. cbn [w_torps].
    apply in_or_app. left. exact Io.
  - destruct (ping _ _ _ _ _ _ _) as [[[r subs] echoes] evs]. exact Io.
  - unfold set_torp_speed. foreign_torp_tac Io.
  - unfold set_torp_depth. foreign_torp_tac Io.
  - unfold set_torp_heading. destruct arg; foreign_torp_tac Io.
  - unfold set_torp_target_heading. destruct heading_deg; foreign_torp_tac Io.
  - unfold torp_ping. foreign_torp_tac Io.
  - unfold torp_ping_toggle. foreign_torp_tac Io.
  - unfold torp_passive_sonar_toggle. foreign_torp_tac Io.
  - unfold detonate_torp.
    destruct (find _ (w_torps w)) as [t|] eqn:F; [|exact Io].
    destruct (Z.eqb (t_owner_id t) user) eqn:O; cbn [negb]; [|exact Io].
    apply Z.eqb_eq in O. cbn [w_torps]. apply filter_In. split; [exact Io|].
    apply negb_true_iff. apply String.eqb_neq. intro Q.
    apply find_some in F. destruct F as [It Q']. apply String.eqb_eq in Q'.
    assert (o = t) by (apply (NoDup_key_eq t_id (w_torps w)); congruence).
    subst. contradiction.
Qed.

(** X1.  A request that addresses a submarine or a torpedo that does not exist
    or is not the caller's leaves the whole world as it was: tables, hazard
    field and pending echoes. *)
Theorem request_on_foreign_unit_changes_nothing `{Libm} (cfg : Cfg) (now : Q)
    (g : Rng) (n : nat) (user : Z) (req : Request) (w : World) :
  owns_target user req w = false -> handle cfg now g n user req w = w.
Proof.
  intro O. destruct w as [users subs torps fuelers clouds pending].
  unfold owns_target in O.
  destruct req; cbn [request_sub request_torp w_subs w_torps] in O;
    try discriminate;
    cbn [handle with_subs with_torps w_subs w_torps w_users w_fuelers
         w_clouds w_pending];
    try (destruct (owned_sub _ _ _) eqn:Ho; [discriminate|]);
    try (destruct (find_torp _ _) as [t|] eqn:F).
  all: try (unfold control; rewrite Ho; reflexivity).
  all: try (unfold snorkel; rewrite Ho; reflexivity).
  all: try (unfold emergency_blow; rewrite Ho; reflexivity).
  all: try (unfold launch_torpedo; rewrite Ho; reflexivity).
  all: try (unfold reload_torpedoes; rewrite Ho; reflexivity).
  all: try (unfold set_sub_heading; rewrite Ho; reflexivity).
  all: try (unfold turn_sub; rewrite Ho; reflexivity).
  all: try (unfold set_passive_array; rewrite Ho; reflexivity).
  all: try (unfold ping; rewrite Ho; rewrite app_nil_r; reflexivity).
  all: try (unfold weather_scan; rewrite Ho; reflexivity).
  all: try (unfold call_fueler; rewrite Ho; reflexivity).
  all: try (unfold start_refuel; rewrite Ho; reflexivity).
  all: try (unfold set_torp_speed; rewrite F; try rewrite O; reflexivity).
  all: try (unfold set_torp_depth; rewrite F; try rewrite O; reflexivity).
  all: try (unfold set_torp_heading; rewrite F; try rewrite O; reflexivity).
  all: try (unfold set_torp_target_heading; rewrite F; try rewrite O; reflexivity).
  all: try (unfold torp_ping; rewrite F; try rewrite O; reflexivity).
  all: try (unfold torp_ping_toggle; rewrite F; try rewrite O; reflexivity).
  all: try (unfold torp_passive_sonar_toggle; rewrite F; try rewrite O; reflexivity).
  all: unfold find_torp in F; unfold detonate_torp; rewrite F; try rewrite O;
    reflexivity.
Qed.

Lemma world_duel_sub_ids : NoDup (map s_id (w_subs world_duel)).
Proof. cbn. repeat constructor; cbn; intuition discriminate. Qed.

Lemma world_duel_torp_ids : NoDup (map t_id (w_torps world_duel)).
Proof. cbn. repeat constructor; cbn; intuition discriminate. Qed.

Lemma request_keeps_foreign_submarines_witness :
  In sub_B300
     (w_subs (handle DEFAULT_CFG 0 draws_half 0 1
                     (ReqPing "A" default_ping) world_duel)).
Proof.
  apply request_keeps_foreign_submarines.
  - exact world_duel_sub_ids.
  - reflexivity.
  - cbn. auto.
  - cbn. discriminate.
Defined.

Lemma request_keeps_foreign_torpedoes_witness :
  In torp_T2
     (w_torps (handle DEFAULT_CFG 0 draws_half 0 1 (ReqDetonate "T") world_duel)).
Proof.
  apply request_keeps_foreign_torpedoes.
  - exact world_duel_torp_ids.
  - cbn. auto.
  - cbn. discriminate.
Defined.

Lemma request_on_foreign_unit_changes_nothing_witness :
  handle DEFAULT_CFG 0 draws_half 0 1 (ReqDetonate "T2") world_duel = world_duel.
Proof.
  apply request_on_foreign_unit_changes_nothing. reflexivity.
Defined.

(** ** The tick keeps the rows in place *)

Lemma update_sub_id `{Libm} (cfg : Cfg) (clouds : list Cloud) (dt now : Q)
    (s : SubModel) :
  s_id (update_sub cfg clouds dt now s) = s_id s.
Proof.
  unfold update_sub.
  assert (R : s_id (sub_rudder cfg dt s) = s_id s)
    by (unfold sub_rudder; cbn zeta; split_ifs; reflexivity).
  revert R. generalize (sub_rudder cfg dt s). intros s1 R1.
  assert (R : s_id (sub_steer cfg dt s1) = s_id s1)
    by (unfold sub_steer; cbn zeta; split_ifs; reflexivity).
  revert R. generalize (sub_steer cfg dt s1). intros s2 R2.
  assert (R : s_id (sub_propel cfg dt s2) = s_id s2)
    by (unfold sub_propel; cbn zeta; split_ifs; reflexivity).
  revert R. generalize (sub_propel cfg dt s2). intros s3 R3.
  assert (R : s_id (sub_move cfg dt now s3) = s_id s3)
    by (unfold sub_move; cbn zeta; split_ifs; reflexivity).
  revert R. generalize (sub_move cfg dt now s3). intros s4 R4.
  assert (R : s_id (sub_energy cfg dt s4) = s_id s4)
    by (unfold sub_energy; cbn zeta; split_ifs; reflexivity).
  revert R. generalize (sub_energy cfg dt s4). intros s5 R5.
  assert (R : s_id (sub_hazards cfg clouds dt s5) = s_id s5)
    by (unfold sub_hazards; cbn zeta; split_ifs; reflexivity).
  congruence.
Qed.

Lemma tick_sub_id `{Libm} (cfg : Cfg) (clouds : list Cloud) (dt now : Q)
    (s : SubModel) :
  s_id (tick_sub cfg clouds dt now s) = s_id s.
Proof.
  unfold tick_sub. destruct (Qleb _ _); [reflexivity|].
  cbn zeta. rewrite update_sub_id. reflexivity.
Qed.

(** What the stages after the physics step change on a submarine: the
    refuelling state and the fuel, the health, the kill account and the
    time of the last report.  A field [p] that none of these writes comes
    out of the stages as it went in, row by row. *)
Section StageFrame.
Context `{Libm} {K : Type} (p : SubModel -> K).
Hypothesis p_refuel_timer : forall s v, p (set_s_refuel_timer s v) = p s.
Hypothesis p_refuel_active : forall s v, p (set_s_refuel_active s v) = p s.
Hypothesis p_refuel_fueler_id :
  forall s v, p (set_s_refuel_fueler_id s v) = p s.
Hypothesis p_fuel : forall s v, p (set_s_fuel s v) = p s.
Hypothesis p_health : forall s v, p (set_s_health s v) = p s.
Hypothesis p_kills : forall s v, p (set_s_kills s v) = p s.
Hypothesis p_score : forall s v, p (set_s_score s v) = p s.
Hypothesis p_last_report : forall s v, p (set_s_last_report s v) = p s.

Lemma frame_cancel_refuel (s : SubModel) : p (cancel_refuel s) = p s.
Proof.
  unfold cancel_refuel.
  rewrite p_refuel_fueler_id, p_refuel_active, p_refuel_timer. reflexivity.
Qed.

Lemma frame_award_kill (s : SubModel) : p (award_kill s) = p s.
Proof. unfold award_kill. rewrite p_score, p_kills. reflexivity. Qed.

Lemma frame_refuel_one (cfg : Cfg) (now dt : Q) (i : nat)
    (subs : list SubModel) (fuelers : list FuelerModel) :
  map p (fst (refuel_one cfg now dt i (subs, fuelers))) = map p subs.
Proof.
  unfold refuel_one.
  destruct (nth_error subs i) as [s|]; [|reflexivity].
  cbn zeta.
  repeat match goal with
         | |- context [if ?c then _ else _] => destruct c
         | |- context [match ?x with Some _ => _ | None => _ end] =>
           destruct x
         | |- context [let '(_, _) := ?x in _] => destruct x
         end; cbn [fst];
    repeat first [ rewrite (map_upd_same p cancel_refuel)
                     by apply frame_cancel_refuel
                 | rewrite map_upd_same by (intro; apply p_fuel)
                 | rewrite map_upd_same by (intro; apply p_refuel_timer) ];
    reflexivity.
Qed.

Lemma frame_process_refueling_mem (cfg : Cfg) (now dt : Q)
    (subs : list SubModel) (fuelers : list FuelerModel) :
  map p (fst (process_refueling_mem cfg now dt subs fuelers)) = map p subs.
Proof.
  unfold process_refueling_mem. destruct fuelers as [|f r].
  - cbn [fst]. rewrite map_map. apply map_ext. intro a.
    apply p_refuel_timer.
  - apply (fold_left_inv (fun st => map p (fst st) = map p subs));
      [reflexivity|].
    intros [subs' fuelers'] i Hst. rewrite frame_refuel_one. exact Hst.
Qed.

Lemma frame_explode_one (cfg : Cfg) (now : Q) (t : TorpedoModel) (i : nat)
    (subs : list SubModel) (ev : list Event) :
  map p (fst (explode_one cfg now t i (subs, ev))) = map p subs.
Proof.
  unfold explode_one.
  destruct (nth_error subs i) as [s|]; [|reflexivity].
  cbn zeta. destruct (_ && _); [|reflexivity]. cbn [fst].
  destruct (_ && _); [destruct (find_index _ _)|];
    repeat first [ rewrite (map_upd_same p award_kill)
                     by apply frame_award_kill
                 | rewrite map_upd_same by (intro; apply p_health) ];
    reflexivity.
Qed.

Lemma frame_explode_torpedo_in_mem (cfg : Cfg) (now : Q) (t : TorpedoModel)
    (subs : list SubModel) (ev : list Event) :
  map p (fst (explode_torpedo_in_mem cfg now t subs ev)) = map p subs.
Proof.
  unfold explode_torpedo_in_mem.
  apply (fold_left_inv (fun st => map p (fst st) = map p subs));
    [reflexivity|].
  intros [subs' ev'] i Hst. rewrite frame_explode_one. exact Hst.
Qed.

Lemma frame_process_explosions_mem (cfg : Cfg) (now : Q)
    (torps : list TorpedoModel) (subs : list SubModel) (ev : list Event) :
  map p (snd (fst (process_explosions_mem cfg now torps subs ev)))
  = map p subs.
Proof.
  unfold process_explosions_mem.
  apply (fold_left_inv (fun st => map p (snd (fst st)) = map p subs));
    [reflexivity|].
  intros [[torps' subs'] ev'] k Hst. cbn [fst snd] in Hst.
  unfold process_one_torpedo.
  destruct (nth_error torps' k) as [t|]; [|exact Hst].
  pose proof (frame_explode_torpedo_in_mem cfg now t subs' ev') as E.
  destruct (explode_torpedo_in_mem cfg now t subs' ev') as [subs'' ev''].
  cbn [fst] in E. cbn zeta.
  split_ifs; cbn [fst snd]; congruence.
Qed.

Lemma frame_observe_one (cfg : Cfg) (clouds : list Cloud) (now : Q)
    (g : Rng) (torps : list TorpedoModel) (i : nat) (subs : list SubModel)
    (ev : list Event) (n : nat) :
  map p (fst (fst (observe_one cfg clouds now g torps i (subs, ev, n))))
  = map p subs.
Proof.
  unfold observe_one.
  destruct (nth_error subs i) as [obs|]; [|reflexivity].
  destruct (Qltb _ _); [reflexivity|].
  destruct (first_heard (hears_sub cfg clouds now obs) subs) as [[tgt snr]|];
    destruct (first_heard (hears_torp cfg clouds obs) torps)
      as [[torp snr']|];
    cbn [fst];
    rewrite ?map_upd_same by (intro; apply p_last_report); reflexivity.
Qed.

Lemma frame_schedule_passive_contacts (cfg : Cfg) (clouds : list Cloud)
    (now : Q) (g : Rng) (n : nat) (subs : list SubModel)
    (torps : list TorpedoModel) (ev : list Event) :
  map p (fst (fst (fst (schedule_passive_contacts cfg clouds now g n
                                                  subs torps ev))))
  = map p subs.
Proof.
  unfold schedule_passive_contacts.
  assert (E : map p
                (fst (fst (fold_left
                             (fun st i =>
                                observe_one cfg clouds now g torps i st)
                             (seq 0 (List.length subs)) (subs, ev, n))))
              = map p subs).
  { apply (fold_left_inv (fun st => map p (fst (fst st)) = map p subs));
      [reflexivity|].
    intros [[subs' ev'] n'] i Hst. rewrite frame_observe_one. exact Hst. }
  destruct (fold_left _ (seq 0 (List.length subs)) _) as [[subs1 ev1] n1].
  destruct (fold_left _ _ (torps, ev1, n1)) as [[torps2 ev2] n2].
  destruct (fold_left _ _ (torps2, ev2, n2)) as [[torps3 ev3] n3].
  exact E.
Qed.

(** The submarines a tick commits: the rows its stages leave, less the
    rows found dead when it began. *)
Lemma frame_game_tick (cfg : Cfg) (elapsed now : Q) (g : Rng) (n : nat)
    (clouds' : list Cloud) (w : World) :
  exists subs3,
    w_subs (fst (fst (game_tick cfg elapsed now g n clouds' w)))
    = filter (fun s =>
                negb (existsb (fun d => String.eqb (s_id d) (s_id s))
                              (filter (fun s => Qleb (s_health s) 0)
                                      (w_subs w)))) subs3 /\
    map p subs3
    = map p (map (tick_sub cfg clouds' (pmax 0 (pmin elapsed 0.25)) now)
                 (w_subs w)).
Proof.
  unfold game_tick. cbn zeta.
  set (dt := pmax 0 (pmin elapsed 0.25)).
  set (subs0 := map (tick_sub cfg clouds' dt now) (w_subs w)).
  set (torps0 := map (update_torpedo cfg subs0 dt now) (w_torps w)).
  pose proof (frame_process_refueling_mem cfg now dt subs0 (w_fuelers w))
    as E1.
  destruct (process_refueling_mem cfg now dt subs0 (w_fuelers w))
    as [subs1 fuelers1]. cbn [fst] in E1.
  set (torps1 := process_wire_links_mem cfg torps0 subs1).
  pose proof (frame_process_explosions_mem cfg now torps1 subs1 []) as E2.
  destruct (process_explosions_mem cfg now torps1 subs1 [])
    as [[torps2 subs2] ev2]. cbn [fst snd] in E2.
  pose proof (frame_schedule_passive_contacts cfg clouds' now g n subs2
                torps2 ev2) as E3.
  destruct (schedule_passive_contacts cfg clouds' now g n subs2 torps2 ev2)
    as [[[subs3 torps3] ev3] n3]. cbn [fst] in E3.
  destruct (process_active_pings cfg now g n3 subs3 (w_pending w))
    as [[pending echoes] n4].
  cbn [fst w_subs]. exists subs3. split; [reflexivity | congruence].
Qed.
End StageFrame.

(** The ids of the dead rows pick out the dead rows. *)
Lemma dead_by_id (subs : list SubModel) (s : SubModel) :
  NoDup (map s_id subs) -> In s subs ->
  existsb (fun d => String.eqb (s_id d) (s_id s))
          (filter (fun s => Qleb (s_health s) 0) subs)
  = Qleb (s_health s) 0.
Proof.
  intros N I. destruct (Qleb (s_health s) 0) eqn:D.
  - apply existsb_exists. exists s. split; [|apply String.eqb_refl].
    apply filter_In. auto.
  - destruct (existsb _ _) eqn:E; [|reflexivity].
    apply existsb_exists in E. destruct E as (d & Id & Q).
    apply filter_In in Id. destruct Id as [Id Dd].
    apply String.eqb_eq in Q.
    assert (d = s).
    { revert N Id I Q. clear. induction subs as [|x r IH]; [contradiction|].
      simpl. intros N Id I Q. inversion N as [|? ? Nx Nr]; subst.
      destruct Id as [-> | Id], I as [-> | I]; auto.
      - exfalso. apply Nx. rewrite Q. apply in_map. exact I.
      - exfalso. apply Nx. rewrite <- Q. apply in_map. exact Id. }
    subst. congruence.
Qed.

Lemma filter_by_id (dead : list SubModel) (l l' : list SubModel) :
  map s_id l' = map s_id l ->
  map s_id (filter (fun s => negb (existsb (fun d => String.eqb (s_id d) (s_id s))
                                           dead)) l')
  = map s_id (filter (fun s => negb (existsb (fun d => String.eqb (s_id d) (s_id s))
                                             dead)) l).
Proof.
  revert l'. induction l as [|a r IH]; intros [|a' r'] E; try discriminate;
    [reflexivity|].
  simpl in E. inversion E as [[Ea Er]]. simpl. rewrite Ea.
  destruct (negb _); simpl; rewrite (IH r' Er); congruence.
Qed.

(** X4.  The tick deletes exactly the submarines whose health was 0 when it
    began, and keeps the others in their order: a submarine sunk by this
    tick's physics or explosions is still in the table after it (with health
    0), and goes with the next tick. *)
Theorem tick_deletes_the_dead_of_its_start `{Libm} (cfg : Cfg)
    (elapsed now : Q) (g : Rng) (n : nat) (clouds' : list Cloud) (w : World) :
  NoDup (map s_id (w_subs w)) ->
  map s_id (w_subs (fst (fst (game_tick cfg elapsed now g n clouds' w))))
  = map s_id (filter is_alive (w_subs w)).
Proof.
  intro N.
  destruct (frame_game_tick s_id ltac:(reflexivity) ltac:(reflexivity)
              ltac:(reflexivity) ltac:(reflexivity) ltac:(reflexivity)
              ltac:(reflexivity) ltac:(reflexivity) ltac:(reflexivity)
              cfg elapsed now g n clouds' w) as (subs3 & E & Ids).
  rewrite E. rewrite map_map in Ids.
  rewrite (filter_by_id _ (w_subs w) subs3).
  - f_equal. apply filter_ext_in. intros a Ia.
    rewrite (dead_by_id (w_subs w) a N Ia). reflexivity.
  - rewrite Ids. apply map_ext. intro a. apply tick_sub_id.
Qed.

Lemma world_wreck_sub_ids : NoDup (map s_id (w_subs world_wreck)).
Proof. cbn. repeat constructor; cbn; intuition discriminate. Qed.

Lemma tick_deletes_the_dead_of_its_start_witness :
  map s_id (w_subs (fst (fst (game_tick DEFAULT_CFG 0.1 0.1 draws_half 0 []
                                        world_wreck))))
  = map s_id (filter is_alive (w_subs world_wreck)).
Proof.
  apply tick_deletes_the_dead_of_its_start. exact world_wreck_sub_ids.
Defined.

(** ** Death timestamps *)

Lemma record_death_fold (now : Q) (dead : list SubModel) (users : list User)
    (i : nat) (u : User) :
  nth_error users i = Some u ->
  exists u',
    nth_error (fold_left (fun us d => record_death now (s_owner_id d) us)
                         dead users) i = Some u' /\
    u_id u' = u_id u /\ u_username u' = u_username u /\
    u_is_admin u' = u_is_admin u /\
    match List.length (filter (fun d => Z.eqb (s_owner_id d) (u_id u)) dead) with
    | O => u_last_death_ts u' = u_last_death_ts u /\
           u_prev_death_ts u' = u_prev_death_ts u
    | S O => u_last_death_ts u' = now /\ u_prev_death_ts u' = u_last_death_ts u
    | S (S _) => u_last_death_ts u' = now /\ u_prev_death_ts u' = now
    end.
Proof.
  revert users u. induction dead as [|d r IH]; intros users u Hu.
  - exists u. cbn. repeat split; auto.
  - cbn [fold_left filter].
    assert (H1 : nth_error (record_death now (s_owner_id d) users) i
                 = Some (if Z.eqb (u_id u) (s_owner_id d)
                         then mkUser (u_id u) (u_username u) (u_is_admin u)
                                     now (u_last_death_ts u)
                         else u)).
    { unfold record_death. rewrite nth_error_map, Hu. reflexivity. }
    destruct (IH _ _ H1) as (u' & N & I1 & I2 & I3 & I4).
    exists u'. split; [exact N|].
    rewrite (Z.eqb_sym (s_owner_id d) (u_id u)).
    destruct (Z.eqb (u_id u) (s_owner_id d)) eqn:E; cbn [u_id u_username
      u_is_admin u_last_death_ts u_prev_death_ts] in *.
    + cbn [List.length]. repeat split; try assumption.
      destruct (List.length _) as [|[|k]]; destruct I4; split; congruence.
    + repeat split; assumption.
Qed.

(** X5.  The commit of a tick shifts the death timestamps of a user once per
    submarine of that user found dead (the ids of the table are unique, so
    the set of dead ids holds each dead row once): with none they are
    untouched, with one [last_death_ts] becomes [now] and [prev_death_ts]
    the former [last_death_ts], with two or more both become [now]. *)
Theorem tick_records_deaths `{Libm} (cfg : Cfg) (elapsed now : Q) (g : Rng)
    (n : nat) (clouds' : list Cloud) (w : World) (i : nat) (u : User) :
  NoDup (map s_id (w_subs w)) ->
  nth_error (w_users w) i = Some u ->
  exists u',
    nth_error (w_users (fst (fst (game_tick cfg elapsed now g n clouds' w)))) i
      = Some u' /\
    u_id u' = u_id u /\ u_username u' = u_username u /\
    u_is_admin u' = u_is_admin u /\
    match deaths_of (u_id u) (w_subs w) with
    | O => u_last_death_ts u' = u_last_death_ts u /\
           u_prev_death_ts u' = u_prev_death_ts u
    | S O => u_last_death_ts u' = now /\ u_prev_death_ts u' = u_last_death_ts u
    | S (S _) => u_last_death_ts u' = now /\ u_prev_death_ts u' = now
    end.
Proof.
  intros _ Hu. unfold game_tick. cbn zeta.
  destruct (process_refueling_mem _ _ _ _ _) as [subs1 fuelers1].
  destruct (process_explosions_mem _ _ _ _ _) as [[torps2 subs2] ev2].
  destruct (schedule_passive_contacts _ _ _ _ _ _ _ _)
    as [[[subs3 torps3] ev3] n3].
  destruct (process_active_pings _ _ _ _ _ _) as [[pending echoes] n4].
  cbn [fst w_users]. unfold deaths_of.
  apply record_death_fold. exact Hu.
Qed.

Lemma tick_records_deaths_witness :
  exists u',
    nth_error (w_users (fst (fst (game_tick DEFAULT_CFG 0.1 7 draws_half 0 []
                                            world_wreck)))) 1
      = Some u' /\
    u_last_death_ts u' = 7 /\ u_prev_death_ts u' = 0.
Proof.
  destruct (tick_records_deaths DEFAULT_CFG 0.1 7 draws_half 0 [] world_wreck
              1%nat user_2 world_wreck_sub_ids eq_refl)
    as (u' & N & _ & _ & _ & T).
  exists u'. split; [exact N|]. exact T.
Defined.

(** ** Kill accounting and explosion events *)

Lemma find_index_spec {A : Type} (p : A -> bool) (l : list A) :
  match find_index p l with
  | Some j => (j < List.length l)%nat /\ existsb p l = true
  | None => existsb p l = false
  end.
Proof.
  induction l as [|a r IH]; simpl; [reflexivity|].
  destruct (p a); simpl; [split; [lia | reflexivity]|].
  destruct (find_index p r) as [j|]; simpl; [|exact IH].
  destruct IH. split; [lia | assumption].
Qed.

Lemma total_kills_upd (f : SubModel -> SubModel) (d : Z) (i : nat)
    (l : list SubModel) :
  (forall a, s_kills (f a) = (s_kills a + d)%Z) -> (i < List.length l)%nat ->
  total_kills (upd i f l) = (total_kills l + d)%Z.
Proof.
  intro Hf. unfold total_kills. revert i.
  induction l as [|a r IH]; intros i Hi; simpl in Hi; [lia|].
  destruct i as [|i]; simpl.
  - rewrite Hf. lia.
  - rewrite IH by lia. lia.
Qed.

Lemma total_kills_upd_same (f : SubModel -> SubModel) (i : nat)
    (l : list SubModel) :
  (forall a, s_kills (f a) = s_kills a) ->
  total_kills (upd i f l) = total_kills l.
Proof.
  intro Hf. unfold total_kills. rewrite map_upd_same by exact Hf. reflexivity.
Qed.

Lemma owner_has_sub_owners (t : TorpedoModel) (l l' : list SubModel) :
  map s_owner_id l' = map s_owner_id l ->
  owner_has_sub t l' = owner_has_sub t l.
Proof.
  unfold owner_has_sub. revert l'.
  induction l as [|a r IH]; intros [|a' r'] E; try discriminate;
    [reflexivity|].
  simpl in E. inversion E as [[Ea Er]]. simpl. rewrite Ea, (IH r' Er).
  reflexivity.
Qed.

Lemma flat_map_ext_in {A B : Type} (f g : A -> list B) (l : list A) :
  (forall a, In a l -> f a = g a) -> flat_map f l = flat_map g l.
Proof.
  induction l as [|a r IH]; intro E; simpl; [reflexivity|].
  rewrite (E a (or_introl eq_refl)), IH; [reflexivity|].
  intros b Ib. apply E. right. exact Ib.
Qed.

(** One iteration of the loop: the account and the event. *)
Lemma explode_one_account `{Libm} (cfg : Cfg) (now : Q) (t : TorpedoModel)
    (i : nat) (subs : list SubModel) (ev : list Event) :
  total_kills (fst (explode_one cfg now t i (subs, ev)))
  = (total_kills subs
     + match nth_error subs i with
       | Some s => if blast_kills cfg t s && owner_has_sub t subs then 1 else 0
       | None => 0
       end)%Z /\
  snd (explode_one cfg now t i (subs, ev))
  = ev ++ match nth_error subs i with
          | Some s => if blast_hit cfg t s then [explosion_event cfg now t s]
                      else []
          | None => []
          end.
Proof.
  unfold explode_one.
  destruct (nth_error subs i) as [s|] eqn:Hi.
  2:{ cbn [fst snd]. rewrite app_nil_r. split; [lia | reflexivity]. }
  cbn zeta. unfold blast_kills, blast_hit.
  set (d := distance3d _ _ _ _ _ _).
  destruct (Qleb d (torp_blast_radius cfg) && Qltb 0 (s_health s)) eqn:Hit.
  2:{ cbn [fst snd andb]. rewrite app_nil_r. split; [lia | reflexivity]. }
  cbn [fst snd andb]. split; [|reflexivity].
  apply andb_true_iff in Hit. destruct Hit as [_ Alive]. rewrite Alive.
  cbn [andb].
  set (h' := pmax 0 (s_health s - graduated_damage d)).
  set (subs1 := upd i (fun o => set_s_health o h') subs).
  assert (K1 : total_kills subs1 = total_kills subs)
    by (apply total_kills_upd_same; reflexivity).
  assert (O1 : owner_has_sub t subs1 = owner_has_sub t subs).
  { apply owner_has_sub_owners. unfold subs1.
    apply map_upd_same. reflexivity. }
  destruct (Qleb h' 0); cbn [andb]; [|lia].
  pose proof (find_index_spec
                (fun sub => Z.eqb (s_owner_id sub) (t_owner_id t)) subs1) as F.
  destruct (find_index _ subs1) as [j|]; fold (owner_has_sub t subs1) in F;
    rewrite O1 in F.
  - destruct F as [Lj F]. rewrite F.
    rewrite (total_kills_upd award_kill 1 j subs1); [lia | reflexivity | exact Lj].
  - rewrite F. lia.
Qed.

(** What the blast reads of a submarine, and what it leaves to the later
    iterations. *)
Lemma blast_reads_hull `{Libm} (cfg : Cfg) (t : TorpedoModel) (a b : SubModel) :
  same_hull a b -> s_health a = s_health b ->
  blast_hit cfg t a = blast_hit cfg t b /\
  blast_kills cfg t a = blast_kills cfg t b.
Proof.
  intros (_ & _ & X & Y & Z) Hh. unfold blast_kills, blast_hit.
  rewrite X, Y, Z, Hh. auto.
Qed.

Lemma explode_fold_account `{Libm} (cfg : Cfg) (now : Q) (t : TorpedoModel)
    (n a : nat) (subs : list SubModel) (ev : list Event) :
  let r := fold_left (fun st i => explode_one cfg now t i st) (seq a n)
                     (subs, ev) in
  total_kills (fst r)
  = (total_kills subs
     + if owner_has_sub t subs
       then Z.of_nat (List.length
                        (filter (fun j => match nth_error subs j with
                                          | Some s => blast_kills cfg t s
                                          | None => false
                                          end) (seq a n)))
       else 0)%Z /\
  snd r
  = ev ++ flat_map (fun j => match nth_error subs j with
                             | Some s => if blast_hit cfg t s
                                         then [explosion_event cfg now t s]
                                         else []
                             | None => []
                             end) (seq a n).
Proof.
  revert a subs ev. induction n as [|n IH]; intros a subs ev.
  - cbn [seq fold_left filter flat_map fst snd List.length Z.of_nat].
    rewrite app_nil_r. split; [|reflexivity].
    destruct (owner_has_sub t subs); lia.
  - cbn [seq fold_left flat_map filter].
    destruct (explode_one_account cfg now t a subs ev) as (K1 & E1).
    pose proof (fun j s => explode_one_spec cfg now t a subs ev j s) as Sp.
    pose proof (frame_explode_one s_id ltac:(reflexivity) ltac:(reflexivity)
                  ltac:(reflexivity) cfg now t a subs ev) as Ids.
    destruct (explode_one cfg now t a (subs, ev)) as [subs1 ev1].
    cbn [fst snd] in *.
    destruct (IH (S a) subs1 ev1) as (K2 & E2). cbn zeta in K2, E2.
    assert (Same : forall j, In j (seq (S a) n) ->
              match nth_error subs1 j with
              | Some s1 => match nth_error subs j with
                           | Some s => same_hull s s1 /\ s_health s1 = s_health s
                           | None => False
                           end
              | None => nth_error subs j = None
              end).
    { intros j Ij. apply in_seq in Ij.
      destruct (nth_error subs j) as [s|] eqn:Hj.
      - destruct (Sp j s Hj) as (s1 & N1 & G & Hh). rewrite N1.
        replace (Nat.eqb j a) with false in Hh
          by (symmetry; apply Nat.eqb_neq; lia).
        auto.
      - destruct (nth_error subs1 j) eqn:Hj1; [|reflexivity].
        exfalso.
        assert (L : (j < List.length subs1)%nat)
          by (apply nth_error_Some; congruence).
        apply nth_error_None in Hj.
        assert (List.length subs1 = List.length subs).
        { rewrite <- (length_map s_id subs1), Ids. apply length_map. }
        lia. }
    assert (Own : owner_has_sub t subs1 = owner_has_sub t subs).
    { apply owner_has_sub_owners. apply nth_error_ext. intro j.
      rewrite !nth_error_map.
      destruct (nth_error subs j) as [s|] eqn:Hj.
      - destruct (Sp j s Hj) as (s1 & N1 & (_ & O & _) & _).
        rewrite N1. cbn. congruence.
      - destruct (nth_error subs1 j) eqn:Hj1; [|reflexivity].
        exfalso.
        assert (L : (j < List.length subs1)%nat)
          by (apply nth_error_Some; congruence).
        apply nth_error_None in Hj.
        assert (List.length subs1 = List.length subs).
        { rewrite <- (length_map s_id subs1), Ids. apply length_map. }
        lia. }
    split.
    + rewrite K2, K1, Own.
      assert (F : filter (fun j => match nth_error subs1 j with
                                   | Some s => blast_kills cfg t s
                                   | None => false
                                   end) (seq (S a) n)
                  = filter (fun j => match nth_error subs j with
                                     | Some s => blast_kills cfg t s
                                     | None => false
                                     end) (seq (S a) n)).
      { apply filter_ext_in. intros j Ij. specialize (Same j Ij).
        destruct (nth_error subs1 j) as [s1|].
        - destruct (nth_error subs j) as [s|]; [|contradiction].
          destruct Same as [G Hh].
          symmetry. apply (blast_reads_hull cfg t s s1 G). congruence.
        - rewrite Same. reflexivity. }
      rewrite F.
      destruct (nth_error subs a) as [s|].
      * destruct (owner_has_sub t subs); rewrite ?andb_true_r, ?andb_false_r.
        -- destruct (blast_kills cfg t s); cbn [List.length]; lia.
        -- lia.
      * destruct (owner_has_sub t subs); lia.
    + rewrite E2, E1, <- app_assoc. f_equal. f_equal.
      apply flat_map_ext_in. intros j Ij. specialize (Same j Ij).
      (* the event reads the hull, the owner and the id of the torpedo *)
      destruct (nth_error subs1 j) as [s1|].
      * destruct (nth_error subs j) as [s|]; [|contradiction].
        destruct Same as [G Hh].
        destruct (blast_reads_hull cfg t s s1 G (eq_sym Hh)) as [B _].
        rewrite <- B. destruct (blast_hit cfg t s); [|reflexivity].
        destruct G as (_ & O & X & Y & Z). unfold explosion_event.
        rewrite O, X, Y, Z. reflexivity.
      * rewrite Same. reflexivity.
Qed.

(** A scan by index is a scan of the list. *)
Lemma flat_map_by_index {A B : Type} (f : A -> list B) (l : list A) (a : nat) :
  flat_map (fun j => match nth_error l (j - a) with
                     | Some s => f s
                     | None => []
                     end) (seq a (List.length l))
  = flat_map f l.
Proof.
  revert a. induction l as [|x r IH]; intro a; [reflexivity|].
  cbn [List.length seq flat_map]. rewrite Nat.sub_diag. cbn [nth_error].
  f_equal. rewrite <- (IH (S a)). apply flat_map_ext_in.
  intros j Ij. apply in_seq in Ij.
  replace (j - a)%nat with (S (j - S a)) by lia. reflexivity.
Qed.

Lemma filter_as_flat_map {A : Type} (p : A -> bool) (l : list A) :
  filter p l = flat_map (fun s => if p s then [s] else []) l.
Proof.
  induction l as [|x r IH]; [reflexivity|]. cbn [filter flat_map].
  rewrite IH. destruct (p x); reflexivity.
Qed.

Lemma map_filter_as_flat_map {A B : Type} (p : A -> bool) (f : A -> B)
    (l : list A) :
  map f (filter p l) = flat_map (fun s => if p s then [f s] else []) l.
Proof.
  induction l as [|x r IH]; [reflexivity|]. cbn [filter flat_map].
  rewrite <- IH. destruct (p x); reflexivity.
Qed.

Lemma count_by_index {A : Type} (p : A -> bool) (l : list A) :
  List.length (filter (fun j => match nth_error l j with
                                | Some s => p s
                                | None => false
                                end) (seq 0 (List.length l)))
  = List.length (filter p l).
Proof.
  rewrite (filter_as_flat_map p l), <- (flat_map_by_index _ l 0).
  rewrite filter_as_flat_map, !length_flat_map. f_equal.
  apply map_ext. intro j. rewrite Nat.sub_0_r.
  destruct (nth_error l j) as [s|]; [|reflexivity].
  destruct (p s); reflexivity.
Qed.

(** X6.  A blast credits one kill for every submarine it sinks, the owner's own
    submarines included, provided the torpedo's owner has a submarine in
    the table to take the credit; otherwise nobody is credited. *)
Theorem blast_kill_account `{Libm} (cfg : Cfg) (now : Q) (t : TorpedoModel)
    (subs : list SubModel) (ev : list Event) :
  total_kills (fst (explode_torpedo_in_mem cfg now t subs ev))
  = (total_kills subs
     + if owner_has_sub t subs
       then Z.of_nat (List.length (filter (blast_kills cfg t) subs))
       else 0)%Z.
Proof.
  unfold explode_torpedo_in_mem.
  destruct (explode_fold_account cfg now t (List.length subs) 0 subs ev)
    as [K _].
  rewrite K, count_by_index. reflexivity.
Qed.

(** X7.  A blast queues exactly one [explosion] event for every living submarine
    within the blast radius, in table order, each addressed to the owner of
    the submarine that was hit. *)
Theorem blast_events `{Libm} (cfg : Cfg) (now : Q) (t : TorpedoModel)
    (subs : list SubModel) (ev : list Event) :
  snd (explode_torpedo_in_mem cfg now t subs ev)
  = ev ++ map (explosion_event cfg now t) (filter (blast_hit cfg t) subs).
Proof.
  unfold explode_torpedo_in_mem.
  destruct (explode_fold_account cfg now t (List.length subs) 0 subs ev)
    as [_ E].
  rewrite E, map_filter_as_flat_map, <- (flat_map_by_index _ subs 0).
  f_equal. apply flat_map_ext. intro j. rewrite Nat.sub_0_r. reflexivity.
Qed.

(** ** Torpedoes in the explosion stage and on the wire *)

Lemma process_one_torpedo_inert `{Libm} (cfg : Cfg) (now : Q) (k : nat)
    (torps : list TorpedoModel) (subs : list SubModel) (ev : list Event) :
  Forall torp_inert torps ->
  exists torps',
    process_one_torpedo cfg now k (torps, subs, ev) = (torps', subs, ev) /\
    Forall torp_inert torps'.
Proof.
  intro Hl. unfold process_one_torpedo.
  destruct (nth_error torps k) as [t|] eqn:Hk; [|exists torps; auto].
  assert (I : torp_inert t).
  { rewrite Forall_forall in Hl. apply Hl. eapply nth_error_In. exact Hk. }
  destruct I as [C D]. cbn zeta. rewrite C, D. cbn [andb].
  destruct (t_expired t); [|exists torps; auto].
  eexists. split; [reflexivity|].
  apply Forall_upd; [exact Hl|]. intros a _ Ha. exact Ha.
Qed.

(** X8.  The explosion stage detonates a torpedo only if its battery has died
    or its proximity fuze is armed: over torpedoes that are neither, no
    submarine is touched and no event is queued. *)
Theorem unarmed_torpedoes_do_not_explode `{Libm} (cfg : Cfg) (now : Q)
    (torps : list TorpedoModel) (subs : list SubModel) (ev : list Event) :
  Forall torp_inert torps ->
  exists torps',
    process_explosions_mem cfg now torps subs ev = (torps', subs, ev) /\
    List.length torps' = List.length torps.
Proof.
  intro Hl. unfold process_explosions_mem.
  generalize (seq 0 (List.length torps)). intro l.
  assert (G : forall torps0, Forall torp_inert torps0 ->
            List.length torps0 = List.length torps ->
            exists torps',
              fold_left (fun st k => process_one_torpedo cfg now k st) l
                        (torps0, subs, ev) = (torps', subs, ev) /\
              List.length torps' = List.length torps).
  { induction l as [|k r IH]; intros torps0 H0 L0; cbn [fold_left].
    - exists torps0. auto.
    - destruct (process_one_torpedo_inert cfg now k torps0 subs ev H0)
        as (torps1 & E & H1).
      rewrite E. apply IH; [exact H1|].
      rewrite <- L0. unfold process_one_torpedo in E.
      destruct (nth_error torps0 k) as [t|]; [|congruence].
      cbn zeta in E.
      repeat match type of E with
             | context [if ?c then _ else _] => destruct c
             | context [let '(_, _) := ?x in _] => destruct x
             end; inversion E; subst; rewrite ?upd_length; reflexivity. }
  apply G; [exact Hl | reflexivity].
Qed.

Lemma unarmed_torpedoes_do_not_explode_witness :
  exists torps',
    process_explosions_mem DEFAULT_CFG 0 [torp_T] [sub_A; sub_B50] []
    = (torps', [sub_A; sub_B50], []) /\
    List.length torps' = 1%nat.
Proof.
  apply (unarmed_torpedoes_do_not_explode DEFAULT_CFG 0 [torp_T]
           [sub_A; sub_B50] []).
  repeat constructor.
Defined.

Lemma find_commute {A : Type} (p : A -> bool) (f : A -> A) (l : list A) :
  (forall a, p (f a) = p a) -> find p (map f l) = option_map f (find p l).
Proof.
  intro Hf. induction l as [|a r IH]; [reflexivity|]. cbn [map find].
  rewrite Hf. destruct (p a); [reflexivity | exact IH].
Qed.

(** What the wire stage does to one torpedo. *)
Lemma process_wire_links_mem_find `{Libm} (cfg : Cfg)
    (torps : list TorpedoModel) (subs : list SubModel) (torp_id : string)
    (t : TorpedoModel) :
  find_torp torp_id torps = Some t ->
  exists t',
    find_torp torp_id (process_wire_links_mem cfg torps subs) = Some t' /\
    t_owner_id t' = t_owner_id t /\
    (wire_holds cfg subs t = false ->
     t_control_mode t' <> "wire"%string).
Proof.
  intro F. unfold find_torp, process_wire_links_mem in *.
  rewrite find_commute.
  2:{ intro a. split_ifs; reflexivity. }
  rewrite F. cbn [option_map]. eexists. split; [reflexivity|].
  unfold wire_holds.
  destruct (String.eqb (t_control_mode t) "wire") eqn:W; cbn [negb].
  - destruct (find _ subs) as [parent|].
    + destruct (Qltb _ _) eqn:Q.
      * split; [reflexivity|]. intros _. cbn. discriminate.
      * split; [reflexivity|]. intro L. apply Qltb_false in Q.
        apply Qleb_false in L. lra.
    + split; [reflexivity|]. intros _. cbn. discriminate.
  - split; [reflexivity|]. intros _ E. rewrite E in W. discriminate.
Qed.

(** X9.  Once the wire stage finds the wire of a torpedo broken (its parent is
    gone, or farther away than the wire is long), the owner's steering
    requests are refused with 400 'wire lost' and change nothing: a new
    heading, a target heading and the passive sonar switch alike. *)
Theorem cut_wire_refuses_steering `{Libm} (cfg : Cfg) (now : Q) (user : Z)
    (torp_id : string) (torps : list TorpedoModel) (subs : list SubModel)
    (t : TorpedoModel) (dt : option Q) (arg : TorpHeadingArg)
    (heading_deg : HeadingArg) :
  find_torp torp_id torps = Some t -> t_owner_id t = user ->
  wire_holds cfg subs t = false ->
  let torps' := process_wire_links_mem cfg torps subs in
  set_torp_heading cfg now user torp_id dt arg torps'
  = (Err 400 "wire lost" [], torps') /\
  set_torp_target_heading now user torp_id heading_deg torps'
  = (Err 400 "wire lost" [], torps') /\
  torp_passive_sonar_toggle now user torp_id torps'
  = (Err 400 "wire lost" [], torps').
Proof.
  intros F O L torps'.
  destruct (process_wire_links_mem_find cfg torps subs torp_id t F)
    as (t' & F' & O' & W).
  specialize (W L). apply String.eqb_neq in W. fold torps' in F'.
  unfold set_torp_heading, set_torp_target_heading, torp_passive_sonar_toggle.
  rewrite F', O', O, Z.eqb_refl, W. cbn [negb]. auto.
Qed.

Lemma cut_wire_refuses_steering_witness :
  set_torp_heading DEFAULT_CFG 0 1 "T" None (TorpTurnDeg 10)
    (process_wire_links_mem DEFAULT_CFG (w_torps world_orphan)
                            (w_subs world_orphan))
  = (Err 400 "wire lost" [],
     process_wire_links_mem DEFAULT_CFG (w_torps world_orphan)
                            (w_subs world_orphan)).
Proof.
  exact (proj1 (cut_wire_refuses_steering DEFAULT_CFG 0 1 "T"
                  (w_torps world_orphan) (w_subs world_orphan) torp_T None
                  (TorpTurnDeg 10) (HeadingDeg 90)
                  ltac:(reflexivity) ltac:(reflexivity) ltac:(reflexivity))).
Defined.

(** ** Fuel and energy *)

Lemma sumQ_upd {A : Type} (p : A -> Q) (f : A -> A) (i : nat) (l : list A)
    (x : A) :
  nth_error l i = Some x ->
  sumQ (map p (upd i f l)) == sumQ (map p l) + (p (f x) - p x).
Proof.
  revert i. induction l as [|a r IH]; intros [|i] Hi; try discriminate.
  - cbn in Hi. inversion Hi; subst. cbn. ring.
  - cbn in Hi. cbn [upd map sumQ fold_right].
    fold (sumQ (map p (upd i f r))). fold (sumQ (map p r)).
    rewrite (IH i Hi). ring.
Qed.

Lemma refuel_amount_le (available sub_space rate dt : Q) :
  (if Qltb 0 available && Qltb 0 sub_space
   then if Qleb rate 0 then pmin available sub_space
        else pmin (pmin (rate * dt) available) sub_space
   else 0) <= pmax 0 available.
Proof.
  pose proof (pmax_lb 0 available) as P0.
  assert (P1 : available <= pmax 0 available).
  { destruct (pmax_cases 0 available) as [[-> ?] | [-> ?]]; lra. }
  destruct (Qltb 0 available && Qltb 0 sub_space); [|exact P0].
  destruct (Qleb rate 0).
  - pose proof (pmin_le_l available sub_space). lra.
  - pose proof (pmin_le_l (pmin (rate * dt) available) sub_space).
    pose proof (pmin_le_r (rate * dt) available). lra.
Qed.

Lemma refuel_one_conserves `{Libm} (cfg : Cfg) (now dt : Q) (i : nat)
    (subs : list SubModel) (fuelers : list FuelerModel) :
  total_fuel (fst (refuel_one cfg now dt i (subs, fuelers)))
             (snd (refuel_one cfg now dt i (subs, fuelers)))
  == total_fuel subs fuelers.
Proof.
  unfold refuel_one.
  destruct (nth_error subs i) as [s|] eqn:Hi; [|reflexivity].
  cbn zeta.
  assert (Fr : forall f l, (forall a, s_fuel (f a) = s_fuel a) ->
                 total_fuel (upd i f l) fuelers == total_fuel l fuelers).
  { intros f l Hf. unfold total_fuel. rewrite map_upd_same by exact Hf.
    reflexivity. }
  destruct (negb (s_refuel_active s)); [apply Fr; reflexivity|].
  destruct (Qleb _ (s_fuel s)); [apply Fr; reflexivity|].
  destruct (negb (s_is_snorkeling s) || _); [apply Fr; reflexivity|].
  destruct (nearest_fueler s fuelers 0 None) as [[k d]|];
    [|apply Fr; reflexivity].
  destruct (nth_error fuelers k) as [nearest|] eqn:Hk; [|reflexivity].
  set (timer := s_refuel_timer s + dt).
  set (subs1 := upd i (fun o => set_s_refuel_timer o timer) subs).
  assert (E1 : total_fuel subs1 fuelers == total_fuel subs fuelers)
    by (apply Fr; reflexivity).
  assert (N1 : nth_error subs1 i = Some (set_s_refuel_timer s timer)).
  { unfold subs1. rewrite nth_error_upd, Nat.eqb_refl, Hi. reflexivity. }
  destruct (Qltb timer 120); [exact E1|].
  pose proof (refuel_amount_le (f_fuel nearest)
                (pmax 0 (bat_max_fuel_capacity cfg - s_fuel s))
                (getd (bat_refuel_rate_per_s cfg) 50) dt) as Le.
  set (amount := if Qltb 0 (f_fuel nearest) && _ then _ else 0) in *.
  destruct (Qltb 0 amount) eqn:Ea.
  - apply Qltb_true in Ea.
    set (subs2 := upd i (fun o => set_s_fuel o (s_fuel s + amount)) subs1).
    set (fuelers2 := upd k _ fuelers).
    assert (E2 : total_fuel subs2 fuelers2 == total_fuel subs fuelers).
    { rewrite <- E1. unfold total_fuel, subs2, fuelers2.
      rewrite (sumQ_upd s_fuel _ i subs1 _ N1).
      rewrite (sumQ_upd f_fuel _ k fuelers _ Hk).
      cbn [s_fuel set_s_fuel set_s_refuel_timer].
      assert (A : 0 < f_fuel nearest).
      { destruct (pmax_cases 0 (f_fuel nearest)) as [[Q ?] | [Q ?]];
          rewrite Q in Le; lra. }
      assert (Le' : amount <= f_fuel nearest).
      { destruct (pmax_cases 0 (f_fuel nearest)) as [[Q ?] | [Q ?]];
          rewrite Q in Le; lra. }
      destruct (f_empty_since (set_f_fuel nearest (f_fuel nearest - amount)));
        cbn [f_fuel set_f_fuel set_f_empty_since];
        destruct (Qleb (f_fuel nearest - amount) 0) eqn:Z;
        cbn [f_fuel set_f_fuel set_f_empty_since];
        try (apply Qleb_true in Z); ring_simplify; lra. }
    match goal with
    | |- context [if ?c then _ else _] => destruct c
    end; cbn [fst snd]; [|exact E2].
    rewrite <- E2. unfold total_fuel.
    rewrite map_upd_same by reflexivity. reflexivity.
  - match goal with
    | |- context [if ?c then _ else _] => destruct c
    end; cbn [fst snd]; [|exact E1].
    rewrite <- E1. unfold total_fuel.
    rewrite map_upd_same by reflexivity. reflexivity.
Qed.

(** X10.  Refuelling moves fuel, it neither makes nor loses any: the fuel aboard
    all submarines and all fuelers together is the same after the
    refuelling stage as before it. *)
Theorem refuelling_conserves_fuel `{Libm} (cfg : Cfg) (now dt : Q)
    (subs : list SubModel) (fuelers : list FuelerModel) :
  total_fuel (fst (process_refueling_mem cfg now dt subs fuelers))
             (snd (process_refueling_mem cfg now dt subs fuelers))
  == total_fuel subs fuelers.
Proof.
  unfold process_refueling_mem. destruct fuelers as [|f r].
  - cbn [fst snd]. unfold total_fuel. rewrite map_map. reflexivity.
  - apply (fold_left_inv
             (fun st => total_fuel (fst st) (snd st)
                        == total_fuel subs (f :: r))); [reflexivity|].
    intros [subs' fuelers'] i Hst. rewrite refuel_one_conserves. exact Hst.
Qed.

Lemma drain_multiplier_pos (ratio m : Q) :
  0 <= m ->
  0 <= (if Qltb 0.5 ratio
        then 1 + (ratio - 0.5) * 2 * ((ratio - 0.5) * 2) * m
        else 1).
Proof.
  intro Hm. destruct (Qltb 0.5 ratio); [|lra].
  assert (0 <= (ratio - 0.5) * 2 * ((ratio - 0.5) * 2)).
  { destruct (Qlt_le_dec ((ratio - 0.5) * 2) 0) as [N | P].
    - setoid_replace ((ratio - 0.5) * 2 * ((ratio - 0.5) * 2))
        with ((- ((ratio - 0.5) * 2)) * (- ((ratio - 0.5) * 2))) by ring.
      apply Qmult_le_0_compat; lra.
    - apply Qmult_le_0_compat; lra. }
  assert (0 <= (ratio - 0.5) * 2 * ((ratio - 0.5) * 2) * m)
    by (apply Qmult_le_0_compat; assumption).
  lra.
Qed.

Lemma sub_energy_spends (cfg : Cfg) (dt : Q) (s : SubModel) :
  0 <= dt -> 0 <= bat_drain_per_throttle_per_s cfg ->
  0 <= bat_high_speed_multiplier cfg ->
  0 <= s_throttle s -> 0 <= s_battery s <= 100 -> 0 <= s_fuel s ->
  stored_energy (sub_energy cfg dt s) <= stored_energy s.
Proof.
  intros Hdt Hc Hm Ht Hb Hf. unfold stored_energy, sub_energy. cbn zeta.
  set (ratio := s_speed s / _).
  pose proof (drain_multiplier_pos ratio _ Hm) as M.
  set (mult := if Qltb 0.5 ratio then _ else 1) in *. clearbody mult.
  assert (B : forall d, 0 <= d ->
            0 <= pmax 0 (pmin 100 (s_battery s - d)) <= s_battery s).
  { intros d Hd.
    destruct (pmin_cases 100 (s_battery s - d)) as [[-> ?] | [-> ?]];
      [destruct (pmax_cases 0 100) as [[-> ?] | [-> ?]]
      |destruct (pmax_cases 0 (s_battery s - d)) as [[-> ?] | [-> ?]]]; lra. }
  assert (R : forall b f, 0 <= b <= s_battery s -> f = s_fuel s ->
            forall delta, 0 < delta -> delta <= f -> delta <= 100 - b ->
            clamp (b + delta) 0 100 + pmax 0 (f - delta)
            <= s_battery s + s_fuel s).
  { intros b f Hb' -> delta P1 P2 P3.
    rewrite (clamp_id (b + delta) 0 100) by lra.
    destruct (pmax_cases 0 (s_fuel s - delta)) as [[-> ?] | [-> ?]]; lra. }
  assert (P : forall a b c, pmin (pmin a b) c <= b /\ pmin (pmin a b) c <= c).
  { intros a b c. pose proof (pmin_le_l (pmin a b) c).
    pose proof (pmin_le_r (pmin a b) c). pose proof (pmin_le_r a b).
    split; lra. }
  destruct (s_refuel_active s) eqn:Ra; sub_simpl; rewrite ?Ra.
  - pose proof (B 0 ltac:(lra)) as B0.
    split_ifs_eq; sub_simpl; q_facts;
      first [ lra
            | apply R; [exact B0 | reflexivity | assumption
                        | apply P | apply P] ].
  - assert (D : 0 <= s_throttle s * bat_drain_per_throttle_per_s cfg
                     * mult * dt)
      by (repeat apply Qmult_le_0_compat; assumption).
    pose proof (B _ D) as B0.
    split_ifs_eq; sub_simpl; q_facts;
      first [ lra
            | apply R; [exact B0 | reflexivity | assumption
                        | apply P | apply P] ].
Qed.

(** The stages of [update_sub] before the energy stage leave the battery,
    the fuel and the throttle alone; the hazard stage leaves the battery
    and the fuel alone. *)
Lemma helm_stages_energy `{Libm} (cfg : Cfg) (dt now : Q) (s : SubModel) :
  let s' := sub_move cfg dt now
              (sub_propel cfg dt (sub_steer cfg dt (sub_rudder cfg dt s))) in
  s_battery s' = s_battery s /\ s_fuel s' = s_fuel s /\
  s_throttle s' = s_throttle s.
Proof.
  cbn zeta.
  assert (R1 : s_battery (sub_rudder cfg dt s) = s_battery s /\
               s_fuel (sub_rudder cfg dt s) = s_fuel s /\
               s_throttle (sub_rudder cfg dt s) = s_throttle s)
    by (unfold sub_rudder; cbn zeta; split_ifs; auto).
  revert R1. generalize (sub_rudder cfg dt s). intros s1 R1.
  assert (R2 : s_battery (sub_steer cfg dt s1) = s_battery s1 /\
               s_fuel (sub_steer cfg dt s1) = s_fuel s1 /\
               s_throttle (sub_steer cfg dt s1) = s_throttle s1)
    by (unfold sub_steer; cbn zeta; split_ifs; auto).
  revert R2. generalize (sub_steer cfg dt s1). intros s2 R2.
  assert (R3 : s_battery (sub_propel cfg dt s2) = s_battery s2 /\
               s_fuel (sub_propel cfg dt s2) = s_fuel s2 /\
               s_throttle (sub_propel cfg dt s2) = s_throttle s2)
    by (unfold sub_propel; cbn zeta; split_ifs; auto).
  revert R3. generalize (sub_propel cfg dt s2). intros s3 R3.
  assert (R4 : s_battery (sub_move cfg dt now s3) = s_battery s3 /\
               s_fuel (sub_move cfg dt now s3) = s_fuel s3 /\
               s_throttle (sub_move cfg dt now s3) = s_throttle s3)
    by (unfold sub_move; cbn zeta; split_ifs; auto).
  intuition congruence.
Qed.

Lemma sub_hazards_energy `{Libm} (cfg : Cfg) (clouds : list Cloud) (dt : Q)
    (s : SubModel) :
  stored_energy (sub_hazards cfg clouds dt s) = stored_energy s.
Proof.
  unfold stored_energy, sub_hazards. cbn zeta. split_ifs; reflexivity.
Qed.

(** X11.  No free energy.  With a throttle, a drain rate and a high-speed
    multiplier that are not negative, a physics step never raises the
    battery charge and the diesel fuel of a submarine taken together:
    propulsion only drains the battery, and what the snorkel puts into the
    battery it takes out of the tank. *)
Theorem update_sub_spends_energy `{Libm} (cfg : Cfg) (clouds : list Cloud)
    (dt now : Q) (s : SubModel) :
  0 <= dt -> 0 <= bat_drain_per_throttle_per_s cfg ->
  0 <= bat_high_speed_multiplier cfg ->
  0 <= s_throttle s -> 0 <= s_battery s <= 100 -> 0 <= s_fuel s ->
  stored_energy (update_sub cfg clouds dt now s) <= stored_energy s.
Proof.
  intros Hdt Hc Hm Ht Hb Hf. unfold update_sub.
  rewrite sub_hazards_energy.
  destruct (helm_stages_energy cfg dt now s) as (E1 & E2 & E3).
  cbn zeta in E1, E2, E3.
  set (s4 := sub_move cfg dt now _) in *.
  apply Qle_trans with (stored_energy s4).
  - apply sub_energy_spends; try assumption; rewrite ?E1, ?E2, ?E3; assumption.
  - unfold stored_energy. rewrite E1, E2. apply Qle_refl.
Qed.

Lemma update_sub_spends_energy_witness :
  stored_energy (update_sub DEFAULT_CFG [] 0.1 0 sub_A_snorkel)
  <= stored_energy sub_A_snorkel.
Proof.
  apply update_sub_spends_energy; try split; qdec.
Defined.

(** ** Active sonar: the echoes *)

Lemma echo_events_spec `{Libm} (cfg : Cfg) (now : Q) (g : Rng)
    (subs : list SubModel) (due : list PendingPing) (n : nat) :
  Forall2 (echo_reports now) due (fst (echo_events cfg now g n subs due)) /\
  snd (echo_events cfg now g n subs due) = (n + 3 * List.length due)%nat.
Proof.
  revert n. induction due as [|p r IH]; intro n; cbn [echo_events].
  - cbn. split; [constructor | lia].
  - cbn zeta. destruct (IH (n + 3)%nat) as [F N].
    destruct (echo_events cfg now g (n + 3) subs r) as [evs n'].
    cbn [fst snd] in *. split.
    + constructor; [|exact F]. unfold echo_reports. cbn.
      repeat split; apply pmax_lb.
    + cbn [List.length]. lia.
Qed.

(** X12.  The echoes of a tick.  [process_active_pings] delivers every pending
    echo whose arrival time has come, once, as an [echo] event to the user
    who pinged, and keeps the others, in their order; each delivery draws
    three random numbers. *)
Theorem echoes_delivered_when_due `{Libm} (cfg : Cfg) (now : Q) (g : Rng)
    (n : nat) (subs : list SubModel) (pending : list PendingPing) :
  let r := process_active_pings cfg now g n subs pending in
  fst (fst r) = filter (fun p => negb (echo_due now p)) pending /\
  Forall2 (echo_reports now) (filter (echo_due now) pending) (snd (fst r)) /\
  snd r = (n + 3 * List.length (filter (echo_due now) pending))%nat.
Proof.
  cbn zeta. unfold process_active_pings. cbn zeta.
  fold (echo_due now).
  destruct (filter (echo_due now) pending) as [|p due] eqn:D.
  - cbn [fst snd]. split; [|split; [constructor | cbn; lia]].
    symmetry. apply filter_all. apply Forall_forall. intros q Iq.
    destruct (echo_due now q) eqn:E; [|reflexivity].
    assert (In q (filter (echo_due now) pending)) by (apply filter_In; auto).
    rewrite D in *. contradiction.
  - destruct (echo_events_spec cfg now g subs (p :: due) n) as [F N].
    destruct (echo_events cfg now g n subs (p :: due)) as [evs n'].
    cbn [fst snd] in *. auto.
Qed.

(** ** Passive sonar: the report interval *)

Lemma observe_one_quiet `{Libm} (cfg : Cfg) (clouds : list Cloud) (now : Q)
    (g : Rng) (torps : list TorpedoModel) (i : nat) (subs : list SubModel)
    (ev : list Event) (n : nat) :
  unit_draws g ->
  fst (passive_report_interval_s cfg) <= snd (passive_report_interval_s cfg) ->
  Forall (reported_recently cfg now) subs ->
  exists n', observe_one cfg clouds now g torps i (subs, ev, n) = (subs, ev, n').
Proof.
  intros U I Hl. unfold observe_one.
  destruct (nth_error subs i) as [obs|] eqn:Hi; [|exists n; reflexivity].
  cbn zeta.
  assert (R : reported_recently cfg now obs).
  { rewrite Forall_forall in Hl. apply Hl. eapply nth_error_In. exact Hi. }
  pose proof (uniform_range g n _ _ U I) as [L _].
  unfold reported_recently in R.
  destruct (Qltb _ _) eqn:Q; [exists (S n); reflexivity|].
  apply Qltb_false in Q. lra.
Qed.

(** X13.  The report interval.  While every submarine has reported less than
    [report_interval_s[0]] seconds ago, the passive-sonar stage queues no
    contact event for any submarine and leaves the submarines as they are,
    whatever is in earshot (what the torpedoes' own sonars queue are
    [torpedo_contact] and [torpedo_ping] events). *)
Theorem passive_sonar_keeps_report_interval `{Libm} (cfg : Cfg)
    (clouds : list Cloud) (now : Q) (g : Rng) (n : nat)
    (subs : list SubModel) (torps : list TorpedoModel) (ev : list Event) :
  unit_draws g ->
  fst (passive_report_interval_s cfg) <= snd (passive_report_interval_s cfg) ->
  Forall (reported_recently cfg now) subs ->
  exists torps' added n',
    schedule_passive_contacts cfg clouds now g n subs torps ev
    = (subs, torps', ev ++ added, n') /\
    Forall (fun e => event_name e <> "contact"%string) added.
Proof.
  intros U I Hl. unfold schedule_passive_contacts.
  assert (E1 : exists n1,
            fold_left (fun st i => observe_one cfg clouds now g torps i st)
                      (seq 0 (List.length subs)) (subs, ev, n) = (subs, ev, n1)).
  { generalize (seq 0 (List.length subs)). intro l. revert n.
    induction l as [|i r IH]; intro n; cbn [fold_left]; [exists n; reflexivity|].
    destruct (observe_one_quiet cfg clouds now g torps i subs ev n U I Hl)
      as (n' & E). rewrite E. apply IH. }
  destruct E1 as (n1 & E1). rewrite E1.
  destruct (fold_events_append (fun e => event_name e <> "contact"%string)
              (fun k st => torp_observe_one cfg clouds now g subs k st)
              (torp_observe_one_events cfg clouds now g subs)
              (seq 0 (List.length torps)) torps ev n1)
    as (torps2 & added2 & n2 & E2 & F2).
  rewrite E2.
  destruct (fold_events_append (fun e => event_name e <> "contact"%string)
              (fun k st => torp_auto_ping_one cfg now g subs k st)
              (torp_auto_ping_one_events cfg now g subs)
              (seq 0 (List.length torps)) torps2 (ev ++ added2) n2)
    as (torps3 & added3 & n3 & E3 & F3).
  rewrite E3. exists torps3, (added2 ++ added3), n3.
  split; [rewrite app_assoc; reflexivity|].
  apply Forall_app. auto.
Qed.

Lemma passive_sonar_keeps_report_interval_witness :
  exists torps' added n',
    schedule_passive_contacts DEFAULT_CFG [] 1 draws_half 0
                              [sub_A; sub_B300] [torp_T2] []
    = ([sub_A; sub_B300], torps', [] ++ added, n') /\
    Forall (fun e => event_name e <> "contact"%string) added.
Proof.
  apply passive_sonar_keeps_report_interval.
  - exact draws_half_unit.
  - qdec.
  - repeat constructor.
Defined.

(** ** Spawning *)

Lemma random_spawn_try_clear `{Libm} (cfg : Cfg) (tries : nat) (g : Rng)
    (n : nat) (subs : list SubModel) :
  fst (random_spawn_try cfg tries g n subs) = (ring_x cfg, ring_y cfg) \/
  clear_of_subs cfg subs (fst (random_spawn_try cfg tries g n subs)).
Proof.
  revert n. induction tries as [|k IH]; intro n; cbn [random_spawn_try].
  - left. reflexivity.
  - cbn zeta. destruct (forallb _ subs) eqn:F; [|apply IH].
    right. cbn [fst]. unfold clear_of_subs. apply Forall_forall.
    intros s Is. rewrite forallb_forall in F. specialize (F s Is).
    apply negb_true_iff in F. apply Qltb_false in F. exact F.
Qed.

(** X14.  A new submarine.  When [/register_sub] accepts, it appends one row to
    the table and changes no other: a submarine of the caller with full
    health, a full magazine, a full blow charge, at rest with throttle 0.2,
    at a depth of 80 to 180 m and with a battery between [initial_min] and
    [initial_max].  Its position keeps [safe_spawn_separation] from every
    submarine already there, unless all 50 tries failed: then it is the
    centre of the ring. *)
Theorem register_sub_spawns_clear `{Libm} (cfg : Cfg) (now_ts : Q) (user : Z)
    (new_id : string) (g : Rng) (n : nat) (users : list User)
    (subs : list SubModel) (body : RegisterBody) :
  unit_draws g -> bat_initial_min cfg <= bat_initial_max cfg ->
  fst (register_sub cfg now_ts user new_id g n users subs) = Ok body ->
  exists s,
    snd (register_sub cfg now_ts user new_id g n users subs) = subs ++ [s] /\
    s_id s = new_id /\ s_owner_id s = user /\
    rg_sub_id body = new_id /\ rg_spawn body = (s_x s, s_y s, s_depth s) /\
    s_health s = 100 /\ s_torpedo_ammo s = torp_magazine_size cfg /\
    s_blow_charge s = 1 /\ s_speed s = 0 /\ s_throttle s = 0.2 /\
    80 <= s_depth s <= 180 /\
    bat_initial_min cfg <= s_battery s <= bat_initial_max cfg /\
    ((s_x s, s_y s) = (ring_x cfg, ring_y cfg) \/
     clear_of_subs cfg subs (s_x s, s_y s)).
Proof.
  intros U B. unfold register_sub. cbn zeta.
  match goal with
  | |- context [match ?b with Some f => _ | None => _ end] => destruct b
  end; [discriminate|].
  unfold random_spawn_pos.
  pose proof (random_spawn_try_clear cfg 50 g n subs) as C.
  destruct (random_spawn_try cfg 50 g n subs) as [[x y] n1].
  cbn [fst snd] in *. intro E. inversion E; subst. clear E.
  eexists. split; [reflexivity|]. cbn.
  repeat split; try reflexivity;
    try (apply uniform_range; [exact U | lra]);
    try (apply uniform_range; assumption).
  exact C.
Qed.

Lemma register_sub_spawns_clear_witness :
  exists s,
    snd (register_sub DEFAULT_CFG 0 1 "A" draws_half 0 [user_1] [sub_B300])
    = [sub_B300] ++ [s] /\
    s_owner_id s = 1%Z /\ s_health s = 100.
Proof.
  assert (E : exists body,
            fst (register_sub DEFAULT_CFG 0 1 "A" draws_half 0 [user_1]
                              [sub_B300]) = Ok body)
    by (vm_compute; eexists; reflexivity).
  destruct E as (body & E).
  destruct (register_sub_spawns_clear DEFAULT_CFG 0 1 "A" draws_half 0
              [user_1] [sub_B300] body draws_half_unit ltac:(qdec) E)
    as (s & E' & _ & O & _ & _ & Hh & _).
  exists s. auto.
Defined.

(** ** Fuelers *)

Lemma fuelers_of_owners (uid : Z) (l l' : list FuelerModel) :
  map f_owner_id l' = map f_owner_id l ->
  List.length (fuelers_of uid l') = List.length (fuelers_of uid l).
Proof.
  unfold fuelers_of. revert l'.
  induction l as [|a r IH]; intros [|a' r'] E; try discriminate;
    [reflexivity|].
  cbn in E. inversion E as [[Ea Er]]. cbn [filter]. rewrite Ea.
  destruct (f_owner_id a) as [o|]; [destruct (Z.eqb o uid)|];
    cbn [List.length]; rewrite (IH r' Er); reflexivity.
Qed.

Lemma fuelers_of_filter (uid : Z) (p : FuelerModel -> bool)
    (l : list FuelerModel) :
  (List.length (fuelers_of uid (filter p l))
   <= List.length (fuelers_of uid l))%nat.
Proof.
  unfold fuelers_of. induction l as [|a r IH]; [apply Nat.le_refl|].
  cbn [filter]. destruct (p a); cbn [filter];
    destruct (f_owner_id a) as [o|]; try destruct (Z.eqb o uid);
    cbn [List.length]; lia.
Qed.

Lemma refuel_one_fueler_owners `{Libm} (cfg : Cfg) (now dt : Q) (i : nat)
    (subs : list SubModel) (fuelers : list FuelerModel) :
  map f_owner_id (snd (refuel_one cfg now dt i (subs, fuelers)))
  = map f_owner_id fuelers.
Proof.
  unfold refuel_one.
  destruct (nth_error subs i) as [s|]; [|reflexivity].
  cbn zeta.
  assert (K : forall k (x : Q) (l : list FuelerModel),
            map f_owner_id
              (upd k (fun f =>
                        let f := set_f_fuel f x in
                        let f := match f_empty_since f with
                                 | None => set_f_empty_since f (Some now)
                                 | Some _ => f
                                 end in
                        if Qleb (f_fuel f) 0 then set_f_fuel f 0 else f) l)
            = map f_owner_id l).
  { intros k x l. apply map_upd_same. intro a. cbn zeta.
    split_ifs; reflexivity. }
  repeat match goal with
         | |- context [if ?c then _ else _] => destruct c
         | |- context [match ?x with Some _ => _ | None => _ end] => destruct x
         | |- context [let '(_, _) := ?x in _] => destruct x
         end; cbn [snd]; rewrite ?K; reflexivity.
Qed.

Lemma process_refueling_mem_fueler_owners `{Libm} (cfg : Cfg) (now dt : Q)
    (subs : list SubModel) (fuelers : list FuelerModel) :
  map f_owner_id (snd (process_refueling_mem cfg now dt subs fuelers))
  = map f_owner_id fuelers.
Proof.
  unfold process_refueling_mem. destruct fuelers as [|f r]; [reflexivity|].
  apply (fold_left_inv
           (fun st => map f_owner_id (snd st) = map f_owner_id (f :: r)));
    [reflexivity|].
  intros [subs' fuelers'] i Hst. rewrite refuel_one_fueler_owners. exact Hst.
Qed.

Lemma call_fueler_one `{Libm} (cfg : Cfg) (clouds : list Cloud) (now : Q)
    (g : Rng) (n : nat) (new_id : string) (user : Z) (sub_id : string)
    (subs : list SubModel) (fuelers : list FuelerModel) (uid : Z) :
  (List.length (fuelers_of uid fuelers) <= 1)%nat ->
  (List.length (fuelers_of uid (snd (call_fueler cfg clouds now g n new_id user
                                                 sub_id subs fuelers))) <= 1)%nat.
Proof.
  intro L. unfold call_fueler.
  destruct (owned_sub user sub_id subs) as [s|]; [|exact L].
  destruct (find _ fuelers) as [f|] eqn:F; [exact L|].
  cbn [snd]. unfold fuelers_of in *. rewrite filter_app, length_app.
  unfold _spawn_fueler_near_sub.
  destruct (fueler_spawn_try clouds 20 g n s) as [[fx fy] n'].
  cbn [filter f_owner_id set_f_owner_id].
  destruct (Z.eqb user uid) eqn:Eu; cbn [List.length]; [|lia].
  apply Z.eqb_eq in Eu. subst uid.
  assert (Z0 : filter (fun f => match f_owner_id f with
                                | Some o => Z.eqb o user
                                | None => false
                                end) fuelers = []).
  { apply filter_none. apply Forall_forall. intros f If.
    apply (find_none _ _ F f If). }
  rewrite Z0. cbn. lia.
Qed.

(** X15.  One fueler per account.  No step of the system, request or tick, gives
    an account a second fueler: [/call_fueler] refuses while the caller has
    one, and the tick only takes fuelers away. *)
Theorem one_fueler_per_account `{Libm} (cfg : Cfg) (w w' : World) :
  step cfg w w' ->
  (forall uid, (List.length (fuelers_of uid (w_fuelers w)) <= 1)%nat) ->
  forall uid, (List.length (fuelers_of uid (w_fuelers w')) <= 1)%nat.
Proof.
  intros St Hw uid. destruct St as [elapsed now g n clouds' w U
                                   | now g n user req w U].
  - unfold game_tick. cbn zeta.
    pose proof (process_refueling_mem_fueler_owners cfg now
                  (pmax 0 (pmin elapsed 0.25))
                  (map (tick_sub cfg clouds' (pmax 0 (pmin elapsed 0.25)) now)
                       (w_subs w))
                  (w_fuelers w)) as O.
    destruct (process_refueling_mem _ _ _ _ _) as [subs1 fuelers1].
    destruct (process_explosions_mem _ _ _ _ _) as [[torps2 subs2] ev2].
    destruct (schedule_passive_contacts _ _ _ _ _ _ _ _)
      as [[[subs3 torps3] ev3] n3].
    destruct (process_active_pings _ _ _ _ _ _) as [[pending echoes] n4].
    cbn [fst snd w_fuelers] in *.
    eapply Nat.le_trans; [apply fuelers_of_filter|].
    rewrite (fuelers_of_owners uid (w_fuelers w) fuelers1 O). apply Hw.
  - destruct req; cbn [handle with_subs with_torps w_fuelers]; try apply Hw.
    + destruct (launch_torpedo _ _ _ _ _ _ _ _) as [[r subs] torps]. apply Hw.
    + destruct (ping _ _ _ _ _ _ _) as [[[r subs] echoes] evs]. apply Hw.
    + apply call_fueler_one. apply Hw.
    + destruct (detonate_torp _ _ _ _ _ _) as [[[r subs] torps] evs]. apply Hw.
Qed.

Lemma one_fueler_per_account_witness :
  (List.length
     (fuelers_of 1
        (w_fuelers (handle DEFAULT_CFG 0 draws_half 0 1
                           (ReqCallFueler "A" "F") world_duel))) <= 1)%nat.
Proof.
  refine (one_fueler_per_account DEFAULT_CFG world_duel _ _ _ 1).
  - apply step_request. exact draws_half_unit.
  - intro uid. cbn. lia.
Defined.

(** ** The helm stays in range *)

Lemma helm_bounds_key (a b : SubModel) :
  helm_key b = helm_key a -> helm_bounds a -> helm_bounds b.
Proof.
  unfold helm_key, helm_bounds. intro E. inversion E as [[E1 E2 E3 E4]].
  rewrite E1, E2, E3, E4. tauto.
Qed.

Lemma Forall_by_key {A K : Type} (key : A -> K) (P : A -> Prop)
    (l l' : list A) :
  (forall a b, key b = key a -> P a -> P b) ->
  map key l' = map key l -> Forall P l -> Forall P l'.
Proof.
  intro Hk. revert l'. induction l as [|a r IH]; intros [|a' r'] E Hl;
    try discriminate; [constructor|].
  cbn in E. inversion E as [[Ea Er]]. inversion Hl; subst.
  constructor; [eapply Hk; eauto | apply IH; assumption].
Qed.

Lemma update_sub_helm `{Libm} (cfg : Cfg) (clouds : list Cloud) (dt now : Q)
    (s : SubModel) :
  helm_bounds s -> helm_bounds (update_sub cfg clouds dt now s).
Proof.
  intro B. unfold update_sub.
  assert (R1 : helm_bounds (sub_rudder cfg dt s)).
  { destruct B as (B1 & B2 & B3 & B4). unfold helm_bounds, sub_rudder.
    cbn zeta. split_ifs; sub_simpl; repeat split; try tauto;
      apply clamp_bounds; lra. }
  revert R1. generalize (sub_rudder cfg dt s). clear s B. intros s B.
  assert (R2 : helm_bounds (sub_steer cfg dt s)).
  { apply (helm_bounds_key s); [|exact B]. unfold sub_steer. cbn zeta.
    split_ifs; reflexivity. }
  revert R2. generalize (sub_steer cfg dt s). clear s B. intros s B.
  assert (R3 : helm_bounds (sub_propel cfg dt s)).
  { destruct B as (B1 & B2 & B3 & B4). unfold helm_bounds, sub_propel.
    cbn zeta. split_ifs; sub_simpl; repeat split; try tauto; lra. }
  revert R3. generalize (sub_propel cfg dt s). clear s B. intros s B.
  assert (R4 : helm_bounds (sub_move cfg dt now s)).
  { destruct B as (B1 & B2 & B3 & B4). unfold helm_bounds, sub_move.
    cbn zeta. split_ifs; sub_simpl; repeat split; try tauto;
      apply pmax_lb. }
  revert R4. generalize (sub_move cfg dt now s). clear s B. intros s B.
  assert (R5 : helm_bounds (sub_energy cfg dt s)).
  { destruct B as (B1 & B2 & B3 & B4). unfold helm_bounds, sub_energy.
    cbn zeta. split_ifs; sub_simpl; repeat split; try tauto; lra. }
  revert R5. generalize (sub_energy cfg dt s). clear s B. intros s B.
  destruct B as (B1 & B2 & B3 & B4). unfold helm_bounds, sub_hazards.
  cbn zeta. split_ifs; sub_simpl; repeat split; try tauto; apply pmax_lb.
Qed.

Lemma tick_sub_helm `{Libm} (cfg : Cfg) (clouds : list Cloud) (dt now : Q)
    (s : SubModel) :
  helm_bounds s -> helm_bounds (tick_sub cfg clouds dt now s).
Proof.
  intro B. unfold tick_sub. destruct (Qleb _ _); [exact B|]. cbn zeta.
  apply update_sub_helm. apply (helm_bounds_key s); [reflexivity | exact B].
Qed.

Lemma game_tick_helm `{Libm} (cfg : Cfg) (elapsed now : Q) (g : Rng) (n : nat)
    (clouds' : list Cloud) (w : World) :
  Forall helm_bounds (w_subs w) ->
  Forall helm_bounds
         (w_subs (fst (fst (game_tick cfg elapsed now g n clouds' w)))).
Proof.
  intro Hl.
  destruct (frame_game_tick helm_key ltac:(reflexivity) ltac:(reflexivity)
              ltac:(reflexivity) ltac:(reflexivity) ltac:(reflexivity)
              ltac:(reflexivity) ltac:(reflexivity) ltac:(reflexivity)
              cfg elapsed now g n clouds' w) as (subs3 & E & Ks).
  rewrite E. apply Forall_forall. intros s Is. apply filter_In in Is.
  destruct Is as [Is _]. revert s Is. apply Forall_forall.
  apply (Forall_by_key helm_key helm_bounds _ _ helm_bounds_key Ks).
  apply Forall_map. eapply Forall_impl; [|exact Hl].
  intros a Ha. apply tick_sub_helm. exact Ha.
Qed.

Lemma owned_sub_helm (user : Z) (sub_id : string) (subs : list SubModel)
    (s : SubModel) :
  Forall helm_bounds subs -> owned_sub user sub_id subs = Some s ->
  helm_bounds s.
Proof.
  intros Hl Ho. apply owned_sub_In in Ho. rewrite Forall_forall in Hl. auto.
Qed.

(** A handler that commits the row it fetched with the helm untouched. *)
Ltac helm_handler Hl :=
  match goal with
  | |- context [owned_sub ?u ?i ?l] =>
    let Ho := fresh "Ho" in
    let s := fresh "s" in
    destruct (owned_sub u i l) as [s|] eqn:Ho; cbn zeta; [|exact Hl];
    pose proof (owned_sub_helm u i l s Hl Ho);
    split_ifs; cbn [snd fst];
    first [ exact Hl
          | apply Forall_commit_sub; [exact Hl|];
            apply (helm_bounds_key s); [reflexivity | assumption] ]
  end.

Lemma control_helm (cfg : Cfg) (user : Z) (sub_id : string) (d : ControlArgs)
    (subs : list SubModel) :
  0 < getd (sub_max_rudder_deg cfg) 30 ->
  Forall helm_bounds subs ->
  Forall helm_bounds (snd (control cfg user sub_id d subs)).
Proof.
  intros Hm Hl. unfold control. cbn zeta.
  destruct (owned_sub user sub_id subs) as [s|] eqn:Ho; [|exact Hl].
  pose proof (owned_sub_helm user sub_id subs s Hl Ho) as (B1 & B2 & B3 & B4).
  cbn [snd]. apply Forall_commit_sub; [exact Hl|].
  set (M := getd (sub_max_rudder_deg cfg) 30) in *.
  assert (R : forall v, -1 <= clamp v (- M) M / M <= 1).
  { intro v. pose proof (clamp_bounds v (- M) M ltac:(lra)) as [C1 C2].
    split.
    - apply Qle_shift_div_l; [exact Hm | lra].
    - apply Qle_shift_div_r; [exact Hm | lra]. }
  unfold helm_bounds.
  destruct (ca_target_depth d), (ca_throttle d), (ca_planes d),
    (ca_rudder_deg d), (ca_rudder_nudge_deg d); sub_simpl;
    repeat split; try tauto;
    try (apply clamp_bounds; lra); apply R.
Qed.

Lemma register_sub_helm `{Libm} (cfg : Cfg) (now : Q) (user : Z)
    (new_id : string) (g : Rng) (n : nat) (users : list User)
    (subs : list SubModel) :
  unit_draws g -> Forall helm_bounds subs ->
  Forall helm_bounds
         (snd (register_sub cfg now user new_id g n users subs)).
Proof.
  intros U Hl. unfold register_sub. cbn zeta.
  match goal with
  | |- context [match ?b with Some f => _ | None => _ end] => destruct b
  end; [exact Hl|].
  destruct (random_spawn_pos cfg g n subs) as [[x y] n1]. cbn [snd].
  apply Forall_app. split; [exact Hl|]. constructor; [|constructor].
  unfold helm_bounds. cbn.
  pose proof (uniform_range g n1 80 180 U ltac:(lra)).
  repeat split; lra.
Qed.

Lemma handle_helm `{Libm} (cfg : Cfg) (now : Q) (g : Rng) (n : nat)
    (user : Z) (req : Request) (w : World) :
  0 < getd (sub_max_rudder_deg cfg) 30 -> unit_draws g ->
  Forall helm_bounds (w_subs w) ->
  Forall helm_bounds (w_subs (handle cfg now g n user req w)).
Proof.
  intros Hm U Hl.
  destruct req; cbn [handle with_subs with_torps w_subs]; try exact Hl.
  - apply register_sub_helm; assumption.
  - apply control_helm; assumption.
  - unfold snorkel. helm_handler Hl.
  - unfold emergency_blow. helm_handler Hl.
  - unfold launch_torpedo. cbn zeta.
    destruct (owned_sub user sub_id (w_subs w)) as [s|] eqn:Ho; [|exact Hl].
    destruct (s_torpedo_ammo s <=? 0)%Z; [exact Hl|]. cbn [w_subs].
    apply Forall_commit_sub; [exact Hl|].
    apply (helm_bounds_key s); [reflexivity|].
    eapply owned_sub_helm; eauto.
  - unfold reload_torpedoes.
    destruct (owned_sub user sub_id (w_subs w)) as [s|] eqn:Ho; [|exact Hl].
    pose proof (owned_sub_helm _ _ _ s Hl Ho).
    cbn zeta. destruct (_ <=? 0)%Z; [exact Hl|].
    destruct count; split_ifs; cbn [snd];
      first [ exact Hl
            | apply Forall_commit_sub; [exact Hl|];
              apply (helm_bounds_key s); [reflexivity | assumption] ].
  - unfold set_sub_heading. destruct heading_deg; helm_handler Hl.
  - unfold turn_sub. helm_handler Hl.
  - unfold set_passive_array. helm_handler Hl.
  - unfold ping.
    destruct (owned_sub user sub_id (w_subs w)) as [s|] eqn:Ho; [|exact Hl].
    pose proof (owned_sub_helm _ _ _ s Hl Ho).
    cbn zeta.
    assert (K : helm_key (snd (ping_sub cfg now a (mapped_columns s)))
                = helm_key s)
      by (unfold ping_sub; cbn zeta; split_ifs; reflexivity).
    destruct (ping_sub cfg now a (mapped_columns s))
      as [[body|st msg fields] s2];
      cbn [w_subs]; [|exact Hl].
    apply Forall_commit_sub; [exact Hl|].
    apply (helm_bounds_key s); assumption.
  - unfold weather_scan. helm_handler Hl.
  - unfold start_refuel.
    destruct (owned_sub user sub_id (w_subs w)) as [s|] eqn:Ho; [|exact Hl].
    pose proof (owned_sub_helm _ _ _ s Hl Ho).
    destruct (w_fuelers w) as [|f fr]; [exact Hl|].
    destruct (nearest_with_fuel _ _ _) as [[nearest d]|]; [|exact Hl].
    destruct (Qltb 50 d); [exact Hl|]. cbn [snd].
    apply Forall_commit_sub; [exact Hl|].
    apply (helm_bounds_key s); [reflexivity | assumption].
  - unfold detonate_torp.
    destruct (find _ (w_torps w)) as [t|]; [|exact Hl].
    destruct (negb _); [exact Hl|]. cbn [w_subs].
    apply Forall_map. eapply Forall_impl; [|exact Hl].
    intros a Ha. apply (helm_bounds_key a); [|exact Ha].
    unfold detonate_sub. destruct (detonate_damage cfg t a) as [[dmg d]|];
      reflexivity.
Qed.

(** X16.  The helm invariant.  With a positive [max_rudder_deg] (30 by default),
    every step of the system, a tick or a request of the control API,
    keeps every submarine's throttle within [0, 1], its planes and its
    rudder command within [-1, 1] and its depth at or below the surface;
    so they hold of every submarine of every reachable state. *)
Theorem helm_bounds_invariant `{Libm} (cfg : Cfg) :
  0 < getd (sub_max_rudder_deg cfg) 30 ->
  (forall w w', step cfg w w' ->
     Forall helm_bounds (w_subs w) -> Forall helm_bounds (w_subs w')) /\
  (forall w, reachable cfg w -> Forall helm_bounds (w_subs w)).
Proof.
  intro Hm.
  assert (St : forall w w', step cfg w w' ->
            Forall helm_bounds (w_subs w) -> Forall helm_bounds (w_subs w')).
  { intros w w' S Hl. destruct S.
    - apply game_tick_helm. exact Hl.
    - apply handle_helm; assumption. }
  split; [exact St|].
  intros w R. induction R as [w E | w w' R IH S].
  - rewrite E. constructor.
  - eapply St; eauto.
Qed.

Lemma helm_bounds_invariant_witness :
  Forall helm_bounds (w_subs world_2).
Proof.
  exact (proj2 (helm_bounds_invariant DEFAULT_CFG ltac:(qdec))
               world_2 world_2_reachable).
Defined.

(** ** Turning *)

Lemma pmod_range (a b : Q) : 0 < b -> 0 <= pmod a b < b.
Proof.
  intro Hb. unfold pmod.
  pose proof (Qfloor_le (a / b)) as F1. pose proof (Qlt_floor (a / b)) as F2.
  rewrite inject_Z_plus in F2. change (inject_Z 1) with 1 in F2.
  set (k := inject_Z (Qfloor (a / b))) in *.
  assert (E : a == a / b * b) by (field; lra).
  assert (L1 : k * b <= a / b * b) by (apply Qmult_le_compat_r; lra).
  assert (L2 : a / b * b < (k + 1) * b).
  { apply Qmult_lt_compat_r; lra. }
  split; [|].
  - setoid_replace (b * k) with (k * b) by ring. lra.
  - setoid_replace (b * k) with (k * b) by ring.
    setoid_replace ((k + 1) * b) with (k * b + b) in L2 by ring. lra.
Qed.

Lemma pmod_decompose (a b : Q) :
  a == b * inject_Z (Qfloor (a / b)) + pmod a b.
Proof. unfold pmod. ring. Qed.

(** Compass and back through the response formula: the sign is lost. *)
Lemma compass_round_trip_mirrors (d : Q) :
  pmod (90 - pmod (d + 90) 360) 360 == pmod (- d) 360.
Proof.
  apply (pmod_unique _ 360 _
           (Qfloor ((d + 90) / 360) + Qfloor (- d / 360))%Z);
    [reflexivity | | apply pmod_range; reflexivity].
  pose proof (pmod_decompose (d + 90) 360) as E1.
  pose proof (pmod_decompose (- d) 360) as E2.
  rewrite inject_Z_plus. lra.
Qed.

Lemma mirror_differs (d : Q) :
  -180 <= d < 180 -> ~ d == 0 -> ~ d == -180 ->
  ~ pmod (- d) 360 == pmod d 360.
Proof.
  intros [L U] N0 N180 E.
  destruct (Qlt_le_dec d 0) as [Neg | Pos].
  - rewrite (pmod_unique (- d) 360 (- d) 0) in E;
      [|reflexivity | change (inject_Z 0) with 0; ring | lra].
    rewrite (pmod_unique d 360 (d + 360) (-1)) in E;
      [|reflexivity | change (inject_Z (-1)) with (-1); ring | lra].
    apply N180. lra.
  - rewrite (pmod_unique (- d) 360 (- d + 360) (-1)) in E;
      [|reflexivity | change (inject_Z (-1)) with (-1); ring
       | split; [lra|]; destruct (Qeq_dec d 0); [contradiction | lra]].
    rewrite (pmod_unique d 360 d 0) in E;
      [|reflexivity | change (inject_Z 0) with 0; ring | lra].
    lra.
Qed.

(** X17.  [/turn_sub] steers to the mirror image.  The handler converts the
    heading it means to steer to into compass degrees with the response
    formula [(h * 180 / pi + 90) % 360] and back with [(90 - c) % 360];
    the target heading it stores is therefore the negative of the heading
    asked for, modulo 360 degrees, and differs from it unless that heading
    is due east or due west.  The turn is one on which [wrap_angle]
    returns ([wrap_angle_ends]); on a larger one the handler does not
    answer. *)
Theorem turn_sub_target_mirrored `{Libm} (now : Q) (user : Z)
    (sub_id : string) (turn_deg : Q) (subs : list SubModel) (s : SubModel) :
  0 < m_pi -> owned_sub user sub_id subs = Some s ->
  wrap_angle_ends (s_heading s + radians turn_deg) ->
  exists th,
    turn_sub now user sub_id (Some turn_deg) subs
    = (Ok (heading_body (set_s_updated_at (set_s_target_heading s (Some th))
                                          (Some now))),
       commit_sub (set_s_updated_at (set_s_target_heading s (Some th))
                                    (Some now)) subs) /\
    th == radians (pmod (- turn_goal_deg s turn_deg) 360) /\
    (~ turn_goal_deg s turn_deg == 0 -> ~ turn_goal_deg s turn_deg == -180 ->
     ~ pmod (- turn_goal_deg s turn_deg) 360
       == pmod (turn_goal_deg s turn_deg) 360).
Proof.
  intros Hpi Ho _. unfold turn_sub. rewrite Ho. cbn zeta.
  eexists. split; [reflexivity|].
  fold (turn_goal_deg s turn_deg). split.
  - unfold radians. rewrite compass_round_trip_mirrors. reflexivity.
  - apply mirror_differs. unfold turn_goal_deg.
    destruct (wrap_angle_range (s_heading s + radians turn_deg) Hpi) as [W1 W2].
    set (h := wrap_angle _) in *. split.
    + apply Qle_shift_div_l; [exact Hpi|].
      assert (0 <= (h + m_pi) * 180) by (apply Qmult_le_0_compat; lra). lra.
    + apply Qlt_shift_div_r; [exact Hpi|].
      assert (0 < (m_pi - h) * 180) by (apply Qmult_lt_0_compat; lra). lra.
Qed.

Lemma turn_sub_target_mirrored_witness :
  exists th,
    turn_sub 0 1 "A" (Some 0) [sub_A_ne]
    = (Ok (heading_body (set_s_updated_at
                           (set_s_target_heading sub_A_ne (Some th)) (Some 0))),
       commit_sub (set_s_updated_at
                     (set_s_target_heading sub_A_ne (Some th)) (Some 0))
                  [sub_A_ne]) /\
    th == radians (pmod (- turn_goal_deg sub_A_ne 0) 360) /\
    (~ turn_goal_deg sub_A_ne 0 == 0 -> ~ turn_goal_deg sub_A_ne 0 == -180 ->
     ~ pmod (- turn_goal_deg sub_A_ne 0) 360
       == pmod (turn_goal_deg sub_A_ne 0) 360).
Proof.
  apply turn_sub_target_mirrored; [qdec | reflexivity|].
  unfold wrap_angle_ends. vm_compute. discriminate.
Defined.

(** A turn of 0 degrees from a heading of 45 degrees sets the target
    heading to 315 degrees. *)
Lemma turn_sub_zero_from_north_east :
  turn_goal_deg sub_A_ne 0 == 45 /\
  match snd (turn_sub 0 1 "A" (Some 0) [sub_A_ne]) with
  | [s'] => match s_target_heading s' with
            | Some th => th == radians 315
            | None => False
            end
  | _ => False
  end.
Proof. split; vm_compute; reflexivity. Qed.

(** ** Reloading the magazine *)

(** X18.  A reload without a count fills the magazine, all or nothing: when the
    battery covers [reload_battery_cost_per_torp] for every missing round,
    the magazine is full afterwards and the battery pays exactly that
    much; when it does not, the request is refused and nothing is reloaded,
    even if the battery would cover some of the rounds. *)
Theorem reload_fills_or_refuses (cfg : Cfg) (user : Z) (sub_id : string)
    (subs : list SubModel) (s : SubModel) :
  owned_sub user sub_id subs = Some s ->
  (s_torpedo_ammo s < torp_magazine_size cfg)%Z ->
  0 <= torp_reload_battery_cost_per_torp cfg -> s_battery s <= 100 ->
  let missing := (torp_magazine_size cfg - s_torpedo_ammo s)%Z in
  let cost := torp_reload_battery_cost_per_torp cfg * inject_Z missing in
  (cost <= s_battery s ->
   exists body s',
     reload_torpedoes cfg user sub_id NoCount subs
     = (Ok body, commit_sub s' subs) /\
     rb_reloaded body = missing /\
     s_torpedo_ammo s' = torp_magazine_size cfg /\
     s_battery s' == s_battery s - cost /\
     s_id s' = s_id s /\ s_health s' = s_health s /\ s_fuel s' = s_fuel s) /\
  (s_battery s < cost ->
   reload_torpedoes cfg user sub_id NoCount subs
   = (Err 400 "not enough battery"
          [("required"%string, cost); ("battery"%string, s_battery s)], subs)).
Proof.
  intros Ho A C B missing cost. unfold reload_torpedoes. rewrite Ho.
  cbn zeta.
  replace (Z.max 0 (torp_magazine_size cfg - s_torpedo_ammo s)) with missing
    by (unfold missing; lia).
  replace (missing <=? 0)%Z with false
    by (symmetry; apply Z.leb_gt; unfold missing; lia).
  fold cost.
  assert (P : 0 <= cost).
  { unfold cost. apply Qmult_le_0_compat; [exact C|].
    change 0 with (inject_Z 0). rewrite <- Zle_Qle. unfold missing. lia. }
  split; intro Hc.
  - replace (Qltb (s_battery s) cost) with false
      by (symmetry; apply Qltb_false; exact Hc).
    do 2 eexists. split; [reflexivity|]. sub_simpl.
    repeat split; try reflexivity.
    + unfold missing. lia.
    + apply clamp_id. lra.
  - replace (Qltb (s_battery s) cost) with true
      by (symmetry; apply Qltb_true; exact Hc).
    reflexivity.
Qed.

Lemma reload_fills_or_refuses_witness :
  exists body s',
    reload_torpedoes DEFAULT_CFG 1 "A" NoCount
                     [set_s_torpedo_ammo sub_A 1]
    = (Ok body, commit_sub s' [set_s_torpedo_ammo sub_A 1]) /\
    rb_reloaded body = 3%Z /\ s_torpedo_ammo s' = 4%Z /\
    s_battery s' == 20.
Proof.
  destruct (reload_fills_or_refuses DEFAULT_CFG 1 "A"
              [set_s_torpedo_ammo sub_A 1] (set_s_torpedo_ammo sub_A 1)
              eq_refl eq_refl ltac:(qdec) ltac:(qdec)) as [F _].
  destruct (F ltac:(qdec)) as (body & s' & E & R & M & Bt & _).
  exists body, s'. repeat split; assumption.
Defined.

(** ** Command detonation *)

Lemma total_kills_map (f : SubModel -> SubModel) (l : list SubModel) :
  (forall a, s_kills (f a) = s_kills a) -> total_kills (map f l) = total_kills l.
Proof.
  intro Hf. unfold total_kills. rewrite map_map.
  f_equal. apply map_ext. exact Hf.
Qed.

(** X19.  A command detonation credits no kill.  [/detonate] on the caller's own
    torpedo removes it from the table, damages the submarines in the blast
    radius and reports how many, one [explosion] event each; unlike a
    detonation in the tick it leaves every kill account as it was, whatever
    it sinks. *)
Theorem detonate_credits_no_kill `{Libm} (cfg : Cfg) (now : Q) (user : Z)
    (torp_id : string) (subs : list SubModel) (torps : list TorpedoModel)
    (t : TorpedoModel) :
  find_torp torp_id torps = Some t -> t_owner_id t = user ->
  exists affected subs' torps' events,
    detonate_torp cfg now user torp_id subs torps
    = (Ok affected, subs', torps', events) /\
    total_kills subs' = total_kills subs /\
    map s_id subs' = map s_id subs /\
    affected = Z.of_nat (List.length events) /\
    Forall (fun e => event_name e = "explosion"%string) events /\
    find_torp torp_id torps' = None.
Proof.
  intros F O. unfold find_torp in F. unfold detonate_torp. rewrite F, O.
  rewrite Z.eqb_refl. cbn [negb]. do 4 eexists. split; [reflexivity|].
  repeat split.
  - apply total_kills_map. intro a. unfold detonate_sub.
    destruct (detonate_damage cfg t a) as [[dmg d]|]; reflexivity.
  - rewrite map_map. apply map_ext. intro a. unfold detonate_sub.
    destruct (detonate_damage cfg t a) as [[dmg d]|]; reflexivity.
  - f_equal. clear F. induction subs as [|a r IH]; [reflexivity|].
    cbn [filter flat_map]. rewrite length_app, <- IH. unfold detonate_event.
    destruct (detonate_damage cfg t a) as [[dmg d]|]; reflexivity.
  - apply Forall_forall. intros e Ie. apply in_flat_map in Ie.
    destruct Ie as (a & _ & Ie). unfold detonate_event in Ie.
    destruct (detonate_damage cfg t a) as [[dmg d]|]; [|contradiction].
    destruct Ie as [<- | []]. reflexivity.
  - unfold find_torp.
    destruct (find _ (filter _ torps)) as [x|] eqn:Fx; [|reflexivity].
    apply find_some in Fx. destruct Fx as [Ix Ex].
    apply filter_In in Ix. destruct Ix as [_ Nx].
    rewrite Ex in Nx. discriminate.
Qed.

Lemma detonate_credits_no_kill_witness :
  exists affected subs' torps' events,
    detonate_torp DEFAULT_CFG 0 1 "T" [sub_A; sub_B50] [torp_T]
    = (Ok affected, subs', torps', events) /\
    total_kills subs' = total_kills [sub_A; sub_B50] /\
    map s_id subs' = map s_id [sub_A; sub_B50] /\
    affected = Z.of_nat (List.length events) /\
    Forall (fun e => event_name e = "explosion"%string) events /\
    find_torp "T" torps' = None.
Proof.
  apply (detonate_credits_no_kill DEFAULT_CFG 0 1 "T" [sub_A; sub_B50]
           [torp_T] torp_T); reflexivity.
Defined.

(** ** The snorkel *)

Lemma sub_energy_snorkel (cfg : Cfg) (dt : Q) (s : SubModel) :
  s_refuel_active (sub_energy cfg dt s) = s_refuel_active s /\
  s_depth (sub_energy cfg dt s) = s_depth s /\
  (s_is_snorkeling (sub_energy cfg dt s) = true ->
   s_refuel_active s = false ->
   s_depth s <= sub_snorkel_depth cfg + sub_snorkel_off_hysteresis cfg).
Proof.
  unfold sub_energy. cbn zeta.
  destruct (s_refuel_active s) eqn:Ra; sub_simpl; rewrite ?Ra;
    cbn [andb negb];
    (destruct (s_is_snorkeling s) eqn:Sn; sub_simpl; rewrite ?Sn;
     cbn [andb negb]);
    split_ifs_eq; sub_simpl; rewrite ?Ra, ?Sn; q_facts;
    repeat split; auto; intros; try discriminate; try congruence;
    match goal with
    | E : _ && _ && Qltb _ _ = false |- _ =>
      rewrite Ra, Sn in E; cbn [andb negb] in E; apply Qltb_false in E;
      exact E
    end.
Qed.

Lemma sub_hazards_snorkel `{Libm} (cfg : Cfg) (clouds : list Cloud) (dt : Q)
    (s : SubModel) :
  s_is_snorkeling (sub_hazards cfg clouds dt s) = s_is_snorkeling s /\
  s_refuel_active (sub_hazards cfg clouds dt s) = s_refuel_active s /\
  (s_refuel_active s = false -> s_depth (sub_hazards cfg clouds dt s) = s_depth s).
Proof.
  unfold sub_hazards. cbn zeta.
  destruct (s_refuel_active s) eqn:Ra; split_ifs; sub_simpl;
    repeat split; auto; discriminate.
Qed.

(** X20.  The snorkel needs shallow water.  [/snorkel] refuses to raise the
    snorkel below [snorkel_depth] and changes nothing then; and after a
    physics step no submarine that is not moored to a fueler is
    snorkelling deeper than [snorkel_depth + snorkel_off_hysteresis]: the
    step lowers the snorkel itself. *)
Theorem snorkel_needs_shallow_water `{Libm} (cfg : Cfg) (clouds : list Cloud)
    (dt now : Q) (user : Z) (sub_id : string) (subs : list SubModel)
    (s : SubModel) :
  owned_sub user sub_id subs = Some s ->
  (sub_snorkel_depth cfg < s_depth s ->
   snorkel cfg user sub_id false (Some true) subs
   = (Err 400 "too deep to snorkel" [], subs) /\
   (s_is_snorkeling s = false ->
    snorkel cfg user sub_id true None subs
    = (Err 400 "too deep to snorkel" [], subs))) /\
  (s_is_snorkeling (update_sub cfg clouds dt now s) = true ->
   s_refuel_active (update_sub cfg clouds dt now s) = false ->
   s_depth (update_sub cfg clouds dt now s)
   <= sub_snorkel_depth cfg + sub_snorkel_off_hysteresis cfg).
Proof.
  intro Ho. split.
  - intro Deep. apply Qltb_true in Deep. unfold snorkel. rewrite Ho.
    cbn zeta. cbn [orb getd]. rewrite Deep. split; [reflexivity|].
    intros ->. reflexivity.
  - unfold update_sub.
    set (s4 := sub_move cfg dt now _).
    destruct (sub_energy_snorkel cfg dt s4) as (E1 & E2 & E3).
    destruct (sub_hazards_snorkel cfg clouds dt (sub_energy cfg dt s4))
      as (Z1 & Z2 & Z3).
    rewrite Z1, Z2. intros Sn Ra. rewrite Z3 by exact Ra.
    rewrite E2. apply E3; [exact Sn | congruence].
Qed.

Lemma snorkel_needs_shallow_water_witness :
  snorkel DEFAULT_CFG 1 "A" false (Some true) [sub_A]
  = (Err 400 "too deep to snorkel" [], [sub_A]).
Proof.
  exact (proj1 (proj1 (snorkel_needs_shallow_water DEFAULT_CFG [] 0.1 0 1 "A"
                         [sub_A] sub_A eq_refl) ltac:(qdec))).
Defined.

(** ** The warm-up of a refuelling *)

Lemma nth_error_upd_ne {A : Type} (i j : nat) (f : A -> A) (l : list A) :
  j <> i -> nth_error (upd i f l) j = nth_error l j.
Proof.
  intro N. rewrite nth_error_upd.
  destruct (Nat.eqb_spec j i) as [E | _]; [contradiction|].
  destruct (Nat.eqb_spec i j) as [E | _]; [congruence|]. reflexivity.
Qed.

Lemma refuel_one_warming_up `{Libm} (cfg : Cfg) (now dt : Q) (i : nat)
    (subs : list SubModel) (fuelers : list FuelerModel) :
  (forall s, nth_error subs i = Some s -> warming_up dt s) ->
  exists subs',
    refuel_one cfg now dt i (subs, fuelers) = (subs', fuelers) /\
    map s_fuel subs' = map s_fuel subs /\
    (forall j, j <> i -> nth_error subs' j = nth_error subs j).
Proof.
  intro W. unfold refuel_one.
  destruct (nth_error subs i) as [s|] eqn:Hi; [|exists subs; auto].
  specialize (W s eq_refl). unfold warming_up in W.
  assert (U : forall f, (forall a, s_fuel (f a) = s_fuel a) ->
              exists subs',
                (upd i f subs, fuelers) = (subs', fuelers) /\
                map s_fuel subs' = map s_fuel subs /\
                (forall j, j <> i -> nth_error subs' j = nth_error subs j)).
  { intros f Hf. exists (upd i f subs). split; [reflexivity|]. split.
    - apply map_upd_same. exact Hf.
    - intros j N. apply nth_error_upd_ne. exact N. }
  cbn zeta.
  destruct (negb (s_refuel_active s)); [apply U; reflexivity|].
  destruct (Qleb _ (s_fuel s)); [apply U; reflexivity|].
  destruct (negb (s_is_snorkeling s) || _); [apply U; reflexivity|].
  destruct (nearest_fueler s fuelers 0 None) as [[k d]|];
    [|apply U; reflexivity].
  destruct (nth_error fuelers k) as [nearest|] eqn:Hk; [|exists subs; auto].
  destruct (Qltb (s_refuel_timer s + dt) 120) eqn:T;
    [apply U; reflexivity|].
  apply Qltb_false in T. lra.
Qed.

Lemma refuel_fold_warming_up `{Libm} (cfg : Cfg) (now dt : Q)
    (subs0 : list SubModel) (fuelers : list FuelerModel) (len start : nat)
    (subs : list SubModel) :
  Forall (warming_up dt) subs0 ->
  map s_fuel subs = map s_fuel subs0 ->
  (forall j, (start <= j)%nat -> nth_error subs j = nth_error subs0 j) ->
  exists subs',
    fold_left (fun st i => refuel_one cfg now dt i st) (seq start len)
              (subs, fuelers) = (subs', fuelers) /\
    map s_fuel subs' = map s_fuel subs0.
Proof.
  intro W. revert start subs.
  induction len as [|len IH]; intros start subs M N; [exists subs; auto|].
  cbn [seq fold_left].
  destruct (refuel_one_warming_up cfg now dt start subs fuelers)
    as (subs1 & E & M1 & N1).
  - intros s Hs. rewrite N in Hs by lia. rewrite Forall_forall in W.
    apply W. eapply nth_error_In. exact Hs.
  - rewrite E. apply IH.
    + congruence.
    + intros j Hj. rewrite N1 by lia. apply N. lia.
Qed.

(** X21.  The warm-up.  While the refuelling timer of every submarine stays below
    120 s after this tick's [dt], the refuelling stage moves no fuel: every
    tank holds what it held and the fuelers are untouched. *)
Theorem refuelling_waits_for_the_warm_up `{Libm} (cfg : Cfg) (now dt : Q)
    (subs : list SubModel) (fuelers : list FuelerModel) :
  Forall (warming_up dt) subs ->
  map s_fuel (fst (process_refueling_mem cfg now dt subs fuelers))
  = map s_fuel subs /\
  snd (process_refueling_mem cfg now dt subs fuelers) = fuelers.
Proof.
  intro W. unfold process_refueling_mem.
  destruct fuelers as [|f r].
  - cbn [fst snd]. split; [|reflexivity]. rewrite map_map. reflexivity.
  - destruct (refuel_fold_warming_up cfg now dt subs (f :: r)
                (List.length subs) 0 subs W eq_refl (fun _ _ => eq_refl))
      as (subs' & E & M).
    rewrite E. cbn [fst snd]. auto.
Qed.

Lemma refuelling_waits_for_the_warm_up_witness :
  map s_fuel (fst (process_refueling_mem DEFAULT_CFG 0 0.1 [sub_A_moored]
                                         [fueler_F]))
  = map s_fuel [sub_A_moored] /\
  snd (process_refueling_mem DEFAULT_CFG 0 0.1 [sub_A_moored] [fueler_F])
  = [fueler_F].
Proof.
  apply (refuelling_waits_for_the_warm_up DEFAULT_CFG 0 0.1 [sub_A_moored]
           [fueler_F]).
  repeat constructor.
Defined.

Example sub_A_moored_warms_up :
  map s_refuel_timer
      (fst (process_refueling_mem DEFAULT_CFG 0 0.1 [sub_A_moored] [fueler_F]))
  = [0 + 0.1].
Proof. reflexivity. Qed.

(** ** Normalising an angle *)

Lemma wrap_down_turns `{Libm} (fuel : nat) (a : Q) :
  exists k : Z, wrap_down fuel a == a + 2 * m_pi * inject_Z k.
Proof.
  revert a. induction fuel as [|f IH]; intro a; cbn [wrap_down].
  - exists 0%Z. change (inject_Z 0) with 0. ring.
  - destruct (Qleb m_pi a).
    + destruct (IH (a - 2 * m_pi)) as [k E]. exists (k + -1)%Z.
      rewrite E, inject_Z_plus. change (inject_Z (-1)) with (-1). ring.
    + exists 0%Z. change (inject_Z 0) with 0. ring.
Qed.

Lemma wrap_up_turns `{Libm} (fuel : nat) (a : Q) :
  exists k : Z, wrap_up fuel a == a + 2 * m_pi * inject_Z k.
Proof.
  revert a. induction fuel as [|f IH]; intro a; cbn [wrap_up].
  - exists 0%Z. change (inject_Z 0) with 0. ring.
  - destruct (Qltb a (- m_pi)).
    + destruct (IH (a + 2 * m_pi)) as [k E]. exists (k + 1)%Z.
      rewrite E, inject_Z_plus. change (inject_Z 1) with 1. ring.
    + exists 0%Z. change (inject_Z 0) with 0. ring.
Qed.

Lemma inject_nat_nonneg (n : nat) : 0 <= inject_Z (Z.of_nat n).
Proof.
  change 0 with (inject_Z 0). rewrite <- Zle_Qle. apply Nat2Z.is_nonneg.
Qed.

Lemma wrap_angle_in_range `{Libm} (a : Q) :
  0 < m_pi -> - m_pi <= a < m_pi -> wrap_angle a = a.
Proof.
  intros Hpi [L U]. unfold wrap_angle.
  assert (N : forall n, 0 <= 2 * m_pi * inject_Z (Z.of_nat n)).
  { intro n. pose proof (inject_nat_nonneg n).
    apply Qmult_le_0_compat; lra. }
  destruct (wrap_down_spec (turns a) a Hpi) as (_ & _ & D);
    [pose proof (N (turns a)); lra|].
  rewrite (D U).
  destruct (wrap_up_spec (turns a) a Hpi) as (_ & _ & W);
    [pose proof (N (turns a)); lra|].
  exact (W L).
Qed.

(** X22.  [wrap_angle] normalises.  With a positive pi, and on an argument
    on which its loops end ([wrap_angle_ends]), the result lies in
    [-pi, pi), differs from the argument by a whole number of turns, and is
    the argument itself when that is already in range; so wrapping twice is
    wrapping once. *)
Theorem wrap_angle_normalises `{Libm} (a : Q) :
  0 < m_pi -> wrap_angle_ends a ->
  - m_pi <= wrap_angle a < m_pi /\
  (exists k : Z, wrap_angle a == a + 2 * m_pi * inject_Z k) /\
  (- m_pi <= a < m_pi -> wrap_angle a = a) /\
  wrap_angle (wrap_angle a) = wrap_angle a.
Proof.
  intros Hpi _. pose proof (wrap_angle_range a Hpi) as R.
  split; [exact R|]. split; [|split].
  - unfold wrap_angle.
    destruct (wrap_down_turns (turns a) a) as [k1 E1].
    destruct (wrap_up_turns (turns (wrap_down (turns a) a))
                            (wrap_down (turns a) a)) as [k2 E2].
    exists (k1 + k2)%Z. rewrite E2, E1, inject_Z_plus. ring.
  - apply wrap_angle_in_range. exact Hpi.
  - apply wrap_angle_in_range; assumption.
Qed.

Lemma wrap_angle_normalises_witness :
  - m_pi <= wrap_angle 7 < m_pi.
Proof.
  exact (proj1 (wrap_angle_normalises 7 ltac:(qdec)
                  ltac:(vm_compute; discriminate))).
Defined.
